(* ===== verification/_CoqProject ===== *)
-Q . S2P
Prelude.v
Addr.v
Pmm.v
Vmm.v
VmmTheory.v
VmmCorrect.v
VmmBoot.v
MmuCorrect.v
VmmUser.v
Heap.v
Sync.v
Ring.v
Uart.v
Fd.v
Elf.v
ElfCorrect.v
Task.v
TaskCorrect.v
Syscall.v
SyscallCorrect.v
Block.v
Fat32.v
FatCorrect.v
Vfs.v
VfsCorrect.v
Acpi.v
AcpiCorrect.v
Ports.v
UartDev.v
UartCorrect.v
Graphics.v
Ata.v
AtaCorrect.v
Gdt.v
Interrupts.v
Traps.v
Ahci.v
AhciCorrect.v
Pci.v
Boot.v
BootCorrect.v
Shell.v
ShellCorrect.v
Smp.v
SmpCorrect.v
Main.v
MainCorrect.v
User.v
Kmain.v
KmainCorrect.v
KmainA64.v
