(* ===== verification/Prelude.v ===== *)
(** * mitosOS: a verification library

    mitosOS is a small kernel for x86_64 and AArch64 written in Rust (src/src/), with a
    user library and a test program (src/userspace/).  This library models the kernel's own
    logic as executable Rocq definitions and proves what makes each part correct.

    ** The program and the files that model it

    - [Prelude] (this file): machine integers with Rust's release-profile wrap-around,
      `Result` and panics, byte strings, slices, UTF-8, memory as the kernel dereferences
      it, bit-level automation ([zbits], [zcases], [dlia], the rewrite base [kbits]) and
      the lemmas the components share.
    - [Addr]: addr.rs.

    Memory and processes:
    - [Pmm]: the frame bitmap of memory.rs and how boot fills it; the class
      [FrameAllocator] states what the rest of the kernel relies on, and [pmm_allocator]
      shows that the bitmap keeps it.
    - [Vmm], [VmmTheory], [VmmCorrect], [VmmBoot], [MmuCorrect], [VmmUser]: vmm.rs, the paging half of memory.rs and
      mmu.rs.  The page-table walk is written once over the class [PageArch] (descriptor
      encoding, block test, physical-to-virtual map), with the instances [x86_64] and
      [aarch64] for the two `arch` modules; [PageArchLaws] is what the proofs use of it.
      The [machine] is byte memory, the frame pool, the HHDM offset and the root registers.
      [VmmTheory] has the tree view of a table and its invariant [pt_inv]; [VmmCorrect]
      map, unmap, translate and the fault handler; [VmmBoot] the older mapping routine of
      memory.rs; [MmuCorrect] the map `mmu::init` builds; [VmmUser] the permission walk and the life of a process table.
    - [Heap]: the global allocator of memory.rs; free lists are threaded through memory.
    - [Sync]: Spinlock (sync.rs) and Mutex (memory.rs) as a step relation over any number of
      CPUs with nested interrupts.
    - [Elf], [ElfCorrect]: elf.rs.
    - [Task], [TaskCorrect]: task.rs and process.rs; the class [KernelArch] collects what
      differs between the targets, [sched_step] is the transition system of the scheduler.
    - [Syscall], [SyscallCorrect]: syscall.rs and version.rs; user memory is accessed
      through the live page table.
    - [User]: libmitos and test_app, over the class [SyscallInsn] of what the `syscall`
      instruction does.

    Traps and processors:
    - [Gdt]: gdt.rs, the descriptors as the processor decodes them.
    - [Interrupts]: the gates, controllers and handlers of interrupts.rs, and timer.rs.
    - [Traps]: the assembly of interrupts.rs, instruction by instruction: the x86_64 stubs
      (Module X86) and the AArch64 vector table (Module A64).
    - [Acpi], [AcpiCorrect]: hal/acpi.rs, hal/madt.rs and the redirection entries of
      hal/ioapic.rs.
    - [Smp], [SmpCorrect]: hal/apic.rs, the rest of hal/ioapic.rs and hal/smp.rs, over a
      class of register and memory accesses during which other processors may run;
      [SmpCorrect] gives the hardware of its theorem, a board whose processors execute the
      trampoline.

    Devices: a driver is written over a class of register accesses ([Ports], [UartDev],
    [Ahci]) in the state-passing type [act], and proved against a concrete device.
    - [Ring], [Uart], [Fd]: the input ring of interrupts.rs (also access by access, one
      producer against one consumer), what uart.rs receives and sends, seen from its
      clients, and fd.rs.
    - [UartDev], [UartCorrect]: the two drivers of uart.rs at the level of registers; the
      class [SerialLaws] is the contract of a serial line, met by both.
    - [Ata], [AtaCorrect]: fs/ata.rs; the drive of the proofs is refined to an array of
      sectors, the block-device interface.
    - [Ahci], [AhciCorrect]: drivers/ahci.rs.
    - [Pci]: pci.rs up to the start of the controllers, which is in [Main].
    - [Graphics]: graphics.rs, font included, on frame-buffer memory.

    Storage and the console:
    - [Block], [Fat32], [FatCorrect]: block.rs, fs/mbr.rs, fs/fat32.rs, in a small
      state-and-error monad [io]; [BlockDeviceLaws] is the interface the file system is
      proved against, met by the RAM device, the ATA drive and the partition adapter.
    - [Vfs], [VfsCorrect]: fs/mod.rs, ramdisk.rs, fs/tar_adapter.rs, fs/fat32_adapter.rs and
      fs/vfs.rs.
    - [Shell], [ShellCorrect]: shell.rs.

    Boot:
    - [Boot], [BootCorrect]: limine.rs (Module Limine) and boot_info.rs (Module Info), whose
      structures are read from memory at their C offsets.
    - [Main], [MainCorrect]: the stages of `kmain_common` in main.rs.
    - [Kmain], [KmainCorrect]: `kmain` on x86_64, from the boot information to the call of
      the shell, over one state with the statics of the kernel, the registers the boot code
      sets, memory and devices; [KmainA64] is the same for AArch64.

    The kernel composes these as the requires show: tasks own page tables made by [Vmm]
    from frames of [Pmm]; the loader fills them; system calls run against the current
    task's table, the input ring and the console; the file systems read from the drivers
    and feed the loader; traps enter the scheduler, the fault handler and the system
    calls; the boot code sets all of it up.

    ** What the theorems show

    - Frames: the allocator returns the lowest free frame and never frame 0; the pool after
      boot is exactly what the memory map and the reservations say.
    - Paging: mapping and unmapping change exactly one page and keep the table invariant,
      errors change nothing that translates; the fault handler maps zeroed frames; the
      permission walk is exact; teardown releases exactly the reachable frames (on AArch64
      this restores the pool, on x86_64 it also hits tables shared with the kernel); the
      frame buffer that boot maps translates to itself, or the log says why not.
    - Processes: the loader builds the segment images and leaves the kernel's region alone
      for canonical addresses; the scheduler keeps its invariant, switches context
      correctly and is fair; messages are delivered once; `read`, `write`, `uname` and
      `munmap` never fault on a user's pointer and touch only pages that the user may use;
      the test program prints its text and ends when the kernel serves its instruction.
    - Traps: the assembly saves and restores every register, switches stacks when the
      scheduler says so and delivers the result of a system call; user faults end the
      task and kernel faults do not; gates, controllers and descriptors decode to what was
      meant; the other processors come up, each with its own stack and number.
    - Heap: disjointness of live blocks for requests that fill their class, and the
      overlap that arises without that condition.
    - Concurrency: mutual exclusion, freedom from self-deadlock of the interrupt-masking
      lock and the deadlock of the other one, FIFO delivery through the ring.
    - Devices: ATA and AHCI transfers refine a disk of sectors; both serial drivers refine
      a line; the bus scan finds exactly the functions that answer; the terminal refines a
      console of characters.
    - Storage: files read by path are the bytes of their chains, reads end on damaged
      tables, tar archives round-trip, mounts route to the right node, the shell edits its
      line as a line editor should.
    - Boot: Multiboot2 structures and MADT tables are recovered entry by entry; the ramdisk
      is mounted and readable; from a disk with a partition table the boot code reads the
      file behind it and leaves the disk as it was.  On x86_64 interrupts are enabled only
      when tables, gates, heap and pool are ready; on both architectures the boot returns
      to call the shell, on AArch64 over a table that is the identity on the kernel's
      memory and the devices.
    - Where the code falls short of its intent the theorem states the behaviour there is
      (names ending in overlaps, escapes, panics, deadlock, diverges, leaks, lost, shadows,
      skipped, unprotected, killed).

    ** Conventions, bounds and fuel

    Integers are [Z] at their Rust width with wrap-around written out ([add64], [mul32],
    ..): the kernel is built in the release profile.  A slice out of range and an explicit
    panic are [Panics] or [Panicked].  Loops that are not structural take fuel.  Where the
    number of turns is known the fuel is computed from the input ([validate_user_range],
    [map_and_copy_segment], [sys_munmap], [tar_fuel], [madt_fuel], the tag walk of
    Multiboot2, the polling loops of ATA and AHCI, which count their attempts in the
    source) and the theorems cover the whole result.  For the FAT loops fuel is an
    argument, running out of it is the visible result [NoFuel], and theorems say how much
    is enough or that no amount is.  The waits that the source leaves unbounded (serial
    lines, interprocessor interrupts, the timer) take fuel as well; their theorems require
    a device that answers within it.

    Parameters stand for what is not in the repository: the addresses the linker chooses,
    the compile-time version string and ramdisk, the Unicode case mapping of Rust's
    library, the layout of format strings, the text of a `Debug` error.  Memory is
    sequentially consistent; TLB maintenance, fences and barriers have no state.

    ** Not modelled

    The assembly of boot (boot.s, boot_x86.s, boot_multiboot2.s, smp_trampoline.s, except for
    what the board of [SmpCorrect] does in its place) and the assembly test programs; the
    loops of the two background workers, `park` and the panic handler, which only print,
    yield or halt; the diagnostics of ACPI and of processor bring-up; the build scripts.
    These have no logic beyond the calls they make, or are not Rust. *)
From stdpp Require Export base tactics list numbers option gmap.
From stdpp Require Export strings.
From Stdlib Require Export Btauto.
#[global] Open Scope Z_scope.

Declare Scope kernel_scope.
Delimit Scope kernel_scope with kernel.

(** ** Machine integers

    The kernel is built with `cargo build --release`, a profile in which Rust's
    `+`, `-` and `*` wrap around; `checked_add` and `saturating_sub` are their
    own operations.  An unsigned integer of width [w] is a [Z] in [0, 2^w). *)

Definition wrap (w x : Z) : Z := x mod 2 ^ w.
Definition fits (w x : Z) : Prop := 0 <= x < 2 ^ w.
Definition fitsb (w x : Z) : bool := (0 <=? x) && (x <? 2 ^ w).

(** `as u8`, `as u16`, `as u32`, `as u64` (and `as usize`, 64 bits wide on both targets). *)
Definition u8 (x : Z) : Z := wrap 8 x.
Definition u16 (x : Z) : Z := wrap 16 x.
Definition u32 (x : Z) : Z := wrap 32 x.
Definition u64 (x : Z) : Z := wrap 64 x.

Definition add64 (a b : Z) : Z := u64 (a + b).
Definition sub64 (a b : Z) : Z := u64 (a - b).
Definition mul64 (a b : Z) : Z := u64 (a * b).
Definition add32 (a b : Z) : Z := u32 (a + b).
Definition sub32 (a b : Z) : Z := u32 (a - b).
Definition mul32 (a b : Z) : Z := u32 (a * b).

Definition usize_MAX : Z := 2 ^ 64 - 1.

(** `a.checked_add(b)`. *)
Definition checked_add64 (a b : Z) : option Z :=
  if a + b <? 2 ^ 64 then Some (a + b) else None.

(** `a.saturating_sub(b)`. *)
Definition saturating_sub (a b : Z) : Z := Z.max 0 (a - b).

(** `!x` on a [w]-bit integer. *)
Definition not_w (w x : Z) : Z := Z.lxor (Z.ones w) x.
Abbreviation not64 := (not_w 64).
Abbreviation not32 := (not_w 32).

(** `x >> k`, `x << k` with the result kept at 64 bits. *)
Definition shr (x k : Z) : Z := Z.shiftr x k.
Definition shl64 (x k : Z) : Z := u64 (Z.shiftl x k).

(** `x & (1 << k) != 0`. *)
Definition bit (x k : Z) : bool := negb (Z.land x (Z.shiftl 1 k) =? 0).

(** `x & !(a - 1)` and `(x + a - 1) & !(a - 1)`. *)
Definition mask_down (x a : Z) : Z := Z.land x (not64 (sub64 a 1)).
Definition mask_up (x a : Z) : Z := Z.land (sub64 (add64 x a) 1) (not64 (sub64 a 1)).

(** `trailing_zeros` of a [w]-bit integer ([w] for zero). *)
Fixpoint ctz_pos (p : positive) : Z :=
  match p with
  | xO q => Z.succ (ctz_pos q)
  | _ => 0
  end.

Definition trailing_zeros (w x : Z) : Z :=
  match x with
  | Zpos p => ctz_pos p
  | _ => w
  end.

(** `next_power_of_two`. *)
Definition next_power_of_two (x : Z) : Z := 2 ^ Z.log2_up x.

(** ** Results *)

Inductive Result (A E : Type) : Type :=
| Ok (a : A)
| Err (e : E).
Arguments Ok {A E} a.
Arguments Err {A E} e.

(** The result of code that may also panic. *)
Inductive outcome (A : Type) : Type :=
| Returns (a : A)
| Panics.
Arguments Returns {A} a.
Arguments Panics {A}.

#[global] Instance Result_eq_dec {A E} `{EqDecision A, EqDecision E} : EqDecision (Result A E).
Proof. solve_decision. Defined.
#[global] Instance outcome_eq_dec {A} `{EqDecision A} : EqDecision (outcome A).
Proof. solve_decision. Defined.

Definition is_ok {A E} (r : Result A E) : bool :=
  match r with Ok _ => true | Err _ => false end.

Definition outcome_bind {A B} (c : outcome A) (k : A -> outcome B) : outcome B :=
  match c with Returns a => k a | Panics => Panics end.

Notation "'let?' x ':=' c 'in' k" :=
  (match c with Ok x => k | Err e => Err e end)
  (at level 10, x name, c at level 100, k at level 200) : kernel_scope.
Notation "'let!' x ':=' c 'in' k" :=
  (outcome_bind c (fun x => k))
  (at level 10, x name, c at level 100, k at level 200) : kernel_scope.
#[global] Open Scope kernel_scope.

(** ** Byte strings *)

(** `u16/u32/u64::from_le_bytes`. *)
Fixpoint le_bytes (bs : list Z) : Z :=
  match bs with
  | [] => 0
  | b :: r => b + 256 * le_bytes r
  end.

(** The [n] little-endian bytes of an integer. *)
Fixpoint to_le (n : nat) (x : Z) : list Z :=
  match n with
  | O => []
  | S k => x mod 256 :: to_le k (x / 256)
  end.

Definition bytes_ok (bs : list Z) : Prop := Forall (fits 8) bs.

(** `buf[i]` of a slice; out of range panics. *)
Definition index {A} (l : list A) (i : Z) : outcome A :=
  if (0 <=? i) && (i <? Z.of_nat (length l)) then
    match l !! Z.to_nat i with Some x => Returns x | None => Panics end
  else Panics.

(** `&buf[a..b]`; panics unless [a <= b <= len]. *)
Definition slice {A} (l : list A) (a b : Z) : outcome (list A) :=
  if (0 <=? a) && (a <=? b) && (b <=? Z.of_nat (length l))
  then Returns (take (Z.to_nat (b - a)) (drop (Z.to_nat a) l))
  else Panics.

(** The bytes [a..b) of a slice already known to be in range. *)
Definition sub_slice {A} (l : list A) (a b : Z) : list A :=
  take (Z.to_nat (b - a)) (drop (Z.to_nat a) l).

(** The bytes of a string literal. *)
Fixpoint bytes_of (s : string) : list Z :=
  match s with
  | EmptyString => []
  | String c s' => Z.of_N (Ascii.N_of_ascii c) :: bytes_of s'
  end.

(** `core::str::from_utf8` succeeds. *)
Definition is_cont (b : Z) : bool := (0x80 <=? b) && (b <=? 0xBF).

Fixpoint utf8_valid (fuel : nat) (l : list Z) : bool :=
  match fuel with
  | O => true
  | S f =>
      match l with
      | [] => true
      | b :: l1 =>
          if b <? 0x80 then utf8_valid f l1
          else match l1 with
          | [] => false
          | c :: l2 =>
              if (0xC2 <=? b) && (b <=? 0xDF) then is_cont c && utf8_valid f l2
              else match l2 with
              | [] => false
              | d :: l3 =>
                  if (0xE0 <=? b) && (b <=? 0xEF) then
                    (if b =? 0xE0 then (0xA0 <=? c) && (c <=? 0xBF)
                     else if b =? 0xED then (0x80 <=? c) && (c <=? 0x9F) else is_cont c)
                    && is_cont d && utf8_valid f l3
                  else match l3 with
                  | [] => false
                  | e :: l4 =>
                      (0xF0 <=? b) && (b <=? 0xF4) &&
                      (if b =? 0xF0 then (0x90 <=? c) && (c <=? 0xBF)
                       else if b =? 0xF4 then (0x80 <=? c) && (c <=? 0x8F) else is_cont c)
                      && is_cont d && is_cont e && utf8_valid f l4
                  end
              end
          end
      end
  end.
Definition from_utf8_ok (l : list Z) : bool := utf8_valid (length l) l.

(** ** Memory as the kernel dereferences it

    [mem] is indexed by the address the code dereferences. *)

Abbreviation mem_t := (Z -> Z).

Definition write_u8 (m : mem_t) (a v : Z) : mem_t := fun x => if x =? a then v else m x.

(** `ptr::write_bytes(a, v, n)`. *)
Definition write_bytes (m : mem_t) (a v n : Z) : mem_t :=
  fun x => if (a <=? x) && (x <? a + n) then v else m x.

(** `ptr::copy_nonoverlapping(bs, a, bs.len())`. *)
Definition copy_to (m : mem_t) (a : Z) (bs : list Z) : mem_t :=
  fun x => if (a <=? x) && (x <? a + Z.of_nat (length bs))
           then default 0 (bs !! Z.to_nat (x - a)) else m x.

(** `ptr::copy(src, dst, n)`: the ranges may overlap. *)
Definition ptr_copy (m : mem_t) (src dst n : Z) : mem_t :=
  fun x => if (dst <=? x) && (x <? dst + n) then m (src + (x - dst)) else m x.

Definition read_n (n : nat) (m : mem_t) (a : Z) : list Z :=
  map (fun k => m (a + Z.of_nat k)) (seq 0 n).

Definition read_u16 (m : mem_t) (a : Z) : Z := le_bytes (read_n 2 m a).
Definition read_u32 (m : mem_t) (a : Z) : Z := le_bytes (read_n 4 m a).
Definition read_u64 (m : mem_t) (a : Z) : Z := le_bytes (read_n 8 m a).
Definition write_u64 (m : mem_t) (a v : Z) : mem_t := copy_to m a (to_le 8 v).
Definition write_u32 (m : mem_t) (a v : Z) : mem_t := copy_to m a (to_le 4 v).

(** `for i in a..b { s = f(i, s) }`. *)
Definition for_range {S} (a b : Z) (f : Z -> S -> S) (s : S) : S :=
  foldl (fun s i => f i s) s (seqZ a (b - a)).

(** ** Bit-level automation *)

Create Rewrite HintDb kbits.

Lemma testbit_shiftl' a n i :
  Z.testbit (Z.shiftl a n) i = (0 <=? i) && Z.testbit a (i - n).
Proof.
  destruct (Z.leb_spec 0 i); simpl; [by apply Z.shiftl_spec|].
  by apply Z.testbit_neg_r.
Qed.

Lemma testbit_shiftr' a n i :
  Z.testbit (Z.shiftr a n) i = (0 <=? i) && Z.testbit a (i + n).
Proof.
  destruct (Z.leb_spec 0 i); simpl; [by apply Z.shiftr_spec|].
  by apply Z.testbit_neg_r.
Qed.

Lemma testbit_ones' n i :
  0 <= n -> Z.testbit (Z.ones n) i = (0 <=? i) && (i <? n).
Proof. intros. by rewrite Z.testbit_ones. Qed.

Lemma testbit_one i : Z.testbit 1 i = (i =? 0).
Proof. destruct (Z.eqb_spec i 0) as [->|H]; [done|]. destruct i as [|p|p]; [done|by destruct p|done]. Qed.

Lemma testbit_mod' a n i :
  0 <= n -> Z.testbit (a mod 2 ^ n) i = (i <? n) && Z.testbit a i.
Proof.
  intros. destruct (Z.ltb_spec i n); simpl.
  - by apply Z.mod_pow2_bits_low.
  - by apply Z.mod_pow2_bits_high.
Qed.

Lemma testbit_above x w i : fits w x -> 0 <= w <= i -> Z.testbit x i = false.
Proof.
  intros [H0 H1] ?. destruct (Z.eq_dec x 0) as [->|]; [apply Z.testbit_0_l|].
  apply Z.bits_above_log2; [lia|].
  apply Z.lt_le_trans with w; [|lia]. apply Z.log2_lt_pow2; lia.
Qed.

#[export] Hint Rewrite
  Z.land_spec Z.lor_spec Z.lxor_spec Z.ldiff_spec
  testbit_shiftl' testbit_shiftr' testbit_one Z.testbit_0_l : kbits.
#[export] Hint Rewrite testbit_ones' testbit_mod' using lia : kbits.

(** Linear arithmetic with division and remainder by literals. *)
Ltac dlia := Z.to_euclidean_division_equations; lia.

(** Case split on every comparison left in the goal, then propositional reasoning. *)
Ltac zcases :=
  repeat match goal with
  | |- context [Z.leb ?a ?b] => destruct (Z.leb_spec a b); try lia; cbn [andb orb negb xorb]
  | |- context [Z.ltb ?a ?b] => destruct (Z.ltb_spec a b); try lia; cbn [andb orb negb xorb]
  | |- context [Z.eqb ?a ?b] => destruct (Z.eqb_spec a b); try lia; cbn [andb orb negb xorb]
  end.

Ltac zbits :=
  apply Z.bits_inj'; intros i Hi; unfold not_w;
  autorewrite with kbits; zcases;
  repeat rewrite Z.testbit_neg_r by lia;
  cbn [andb orb negb xorb]; try btauto.

(** ** Arithmetic facts shared by the components *)

Lemma u64_small x : fits 64 x -> u64 x = x.
Proof. intros. by apply Z.mod_small. Qed.

Lemma u64_fits x : fits 64 (u64 x).
Proof. apply Z.mod_pos_bound; lia. Qed.

Lemma fits_bits w x : 0 <= w -> 0 <= x -> (forall i, w <= i -> Z.testbit x i = false) -> fits w x.
Proof.
  intros Hw Hx H. split; [done|].
  replace x with (x mod 2 ^ w); [apply Z.mod_pos_bound; lia|].
  apply Z.bits_inj'. intros i Hi. rewrite testbit_mod' by done.
  destruct (Z.ltb_spec i w); [done|]. by rewrite H.
Qed.

Lemma fitsb_spec w x : fitsb w x = true <-> fits w x.
Proof. unfold fitsb, fits. rewrite andb_true_iff, Z.leb_le, Z.ltb_lt. done. Qed.

Lemma land_nonneg_l a b : 0 <= a -> 0 <= Z.land a b.
Proof. intros. rewrite Z.land_nonneg. by left. Qed.

Lemma fits_land_l w a b : 0 <= w -> fits w a -> fits w (Z.land a b).
Proof.
  intros Hw Ha. apply fits_bits; [done|apply land_nonneg_l, Ha|].
  intros i Hi. rewrite Z.land_spec, (testbit_above a w) by (done || lia). done.
Qed.

Lemma fits_lor w a b : 0 <= w -> fits w a -> fits w b -> fits w (Z.lor a b).
Proof.
  intros Hw Ha Hb. apply fits_bits; [done|apply Z.lor_nonneg; split; [apply Ha|apply Hb]|].
  intros i Hi. rewrite Z.lor_spec, (testbit_above a w), (testbit_above b w) by (done || lia). done.
Qed.

Lemma fits_shiftl1 w k : 0 <= k < w -> fits w (Z.shiftl 1 k).
Proof.
  intros. rewrite Z.shiftl_1_l. split; [apply Z.pow_nonneg; lia|].
  apply Z.pow_lt_mono_r; lia.
Qed.

Lemma fits_mono w w' x : 0 <= w <= w' -> fits w x -> fits w' x.
Proof.
  intros ? [??]. split; [done|]. apply Z.lt_le_trans with (2 ^ w); [done|].
  apply Z.pow_le_mono_r; lia.
Qed.

(** Packing a field above [k] bits is addition. *)
Lemma lor_pack a b k : 0 <= k -> fits k a -> Z.lor a (Z.shiftl b k) = a + b * 2 ^ k.
Proof.
  intros Hk Ha. rewrite <- Z.shiftl_mul_pow2 by done.
  pose proof (Z.add_lor_land a (Z.shiftl b k)) as E.
  assert (Z.land a (Z.shiftl b k) = 0) as El; [|lia].
  apply Z.bits_inj'. intros i Hi. rewrite Z.land_spec, testbit_shiftl', Z.testbit_0_l.
  destruct (Z.lt_ge_cases i k); [by rewrite (Z.testbit_neg_r b) by lia; rewrite !andb_false_r|].
  by rewrite (testbit_above a k) by (done || lia).
Qed.

Lemma land_mask a k : 0 <= k -> Z.land a (Z.ones k) = a mod 2 ^ k.
Proof. apply Z.land_ones. Qed.

(** Testing a single bit. *)
Lemma bit_testbit x k : 0 <= k -> bit x k = Z.testbit x k.
Proof.
  intros Hk. unfold bit. destruct (Z.testbit x k) eqn:E.
  - apply negb_true_iff, Z.eqb_neq. intros H.
    assert (Z.testbit (Z.land x (Z.shiftl 1 k)) k = false) as H' by (rewrite H; apply Z.testbit_0_l).
    rewrite Z.land_spec, testbit_shiftl', testbit_one, E in H'.
    destruct (Z.leb_spec 0 k), (Z.eqb_spec (k - k) 0); simpl in H'; done || lia.
  - apply negb_false_iff, Z.eqb_eq. zbits.
    replace i with k by lia. rewrite E. done.
Qed.

(** Aligning to a power of two. *)
Lemma sub_pow2_ones k : 0 <= k < 64 -> sub64 (2 ^ k) 1 = Z.ones k.
Proof.
  intros. unfold sub64. rewrite u64_small, Z.ones_equiv; [lia|].
  split; [assert (0 < 2 ^ k) by (apply Z.pow_pos_nonneg; lia); lia|].
  assert (2 ^ k < 2 ^ 64) by (apply Z.pow_lt_mono_r; lia). lia.
Qed.

Lemma mask_down_spec x k :
  fits 64 x -> 0 <= k < 64 -> mask_down x (2 ^ k) = x - x mod 2 ^ k.
Proof.
  intros Hx Hk. unfold mask_down. rewrite sub_pow2_ones by done.
  assert (0 < 2 ^ k) by (apply Z.pow_pos_nonneg; lia).
  replace (x - x mod 2 ^ k) with (Z.shiftl (Z.shiftr x k) k).
  2:{ rewrite Z.shiftl_mul_pow2, Z.shiftr_div_pow2 by lia.
      pose proof (Z.div_mod x (2 ^ k)). lia. }
  zbits.
  - replace (i - k + k) with i by lia. btauto.
  - rewrite (testbit_above x 64) by (done || lia).
    replace (i - k + k) with i by lia. by rewrite (testbit_above x 64) by (done || lia).
Qed.

Lemma mask_up_spec x k :
  0 <= x -> x + 2 ^ k <= 2 ^ 64 -> 0 <= k < 64 ->
  mask_up x (2 ^ k) = 2 ^ k * ((x + 2 ^ k - 1) / 2 ^ k).
Proof.
  intros Hx Hov Hk. assert (0 < 2 ^ k) by (apply Z.pow_pos_nonneg; lia).
  replace (mask_up x (2 ^ k)) with (mask_down (x + 2 ^ k - 1) (2 ^ k)).
  - rewrite mask_down_spec by (unfold fits; lia).
    pose proof (Z.div_mod (x + 2 ^ k - 1) (2 ^ k)). lia.
  - unfold mask_up, mask_down. f_equal. unfold sub64, add64, u64, wrap.
    rewrite Zminus_mod_idemp_l. rewrite Z.mod_small; lia.
Qed.

Lemma mask_up_bounds x k :
  0 <= x -> x + 2 ^ k <= 2 ^ 64 -> 0 <= k < 64 ->
  x <= mask_up x (2 ^ k) < x + 2 ^ k /\ mask_up x (2 ^ k) mod 2 ^ k = 0.
Proof.
  intros. rewrite mask_up_spec by done.
  assert (0 < 2 ^ k) by (apply Z.pow_pos_nonneg; lia).
  pose proof (Z.div_mod (x + 2 ^ k - 1) (2 ^ k) ltac:(lia)).
  pose proof (Z.mod_pos_bound (x + 2 ^ k - 1) (2 ^ k) ltac:(lia)).
  split; [lia|]. rewrite Z.mul_comm. by apply Z.mod_mul; lia.
Qed.

(** Counting trailing zeros. *)
Lemma ctz_pos_nonneg p : 0 <= ctz_pos p.
Proof. induction p; simpl; lia. Qed.

Lemma ctz_pos_set p : Z.testbit (Zpos p) (ctz_pos p) = true.
Proof.
  induction p as [p IH|p IH|]; [done| |done]. simpl ctz_pos.
  rewrite (Pos2Z.inj_xO p), Z.double_bits_succ. exact IH.
Qed.

Lemma ctz_pos_below p i : i < ctz_pos p -> Z.testbit (Zpos p) i = false.
Proof.
  revert i; induction p as [p IH|p IH|]; intros i Hi; simpl ctz_pos in Hi;
    destruct (decide (i < 0)); try (by apply Z.testbit_neg_r); try lia.
  rewrite (Pos2Z.inj_xO p). destruct (decide (i = 0)) as [->|]; [by apply Z.testbit_even_0|].
  replace i with (Z.succ (i - 1)) by lia. rewrite Z.double_bits_succ. apply IH. lia.
Qed.

Lemma trailing_zeros_spec w x :
  0 < x -> fits w x ->
  0 <= trailing_zeros w x < w /\ Z.testbit x (trailing_zeros w x) = true /\
  (forall i, i < trailing_zeros w x -> Z.testbit x i = false).
Proof.
  intros Hx Hf. destruct x as [|p|p]; try lia. simpl.
  pose proof (ctz_pos_nonneg p). pose proof (ctz_pos_set p) as Hs.
  assert (0 < w) as Hw.
  { destruct (decide (0 < w)); [done|]. destruct Hf as [_ Hf].
    assert (2 ^ w <= 1); [|lia]. destruct (decide (w = 0)) as [->|]; [done|].
    rewrite Z.pow_neg_r; lia. }
  split_and!; try done.
  - destruct (decide (ctz_pos p < w)); [done|].
    rewrite (testbit_above (Zpos p) w) in Hs by (done || lia). done.
  - intros i Hi. by apply ctz_pos_below.
Qed.

(** ** Little-endian encodings *)

Lemma length_to_le n x : length (to_le n x) = n.
Proof. revert x; induction n; intros; simpl; [done|]. by rewrite IHn. Qed.

Lemma to_le_bytes_ok n x : bytes_ok (to_le n x).
Proof.
  revert x; induction n; intros; simpl; constructor; [|apply IHn].
  apply Z.mod_pos_bound. lia.
Qed.

Lemma le_bytes_to_le n x : le_bytes (to_le n x) = x mod 2 ^ (8 * Z.of_nat n).
Proof.
  revert x; induction n as [|n IH]; intros x; simpl; [by rewrite Z.mod_1_r|].
  rewrite IH. replace (8 * Z.of_nat (S n)) with (8 + 8 * Z.of_nat n) by lia.
  rewrite Z.pow_add_r, Z.rem_mul_r by lia. done.
Qed.

Lemma le_bytes_fits bs : bytes_ok bs -> fits (8 * Z.of_nat (length bs)) (le_bytes bs).
Proof.
  induction 1 as [|b bs [Hb1 Hb2] _ [IH1 IH2]]; simpl; [done|].
  change (2 ^ 8) with 256 in Hb2.
  replace (8 * Z.of_nat (S (length bs))) with (8 + 8 * Z.of_nat (length bs)) by lia.
  unfold fits. rewrite Z.pow_add_r by lia. lia.
Qed.

Lemma le_bytes_zeros n : le_bytes (replicate n 0) = 0.
Proof. induction n; simpl; [done|]. by rewrite IHn. Qed.

Lemma le_bytes_drop k l : bytes_ok l -> le_bytes (drop k l) = le_bytes l / 2 ^ (8 * Z.of_nat k).
Proof.
  intros H. revert k. induction H as [|b l Hb Hl IH]; intros [|k]; cbn [drop le_bytes]; try done.
  - change (2 ^ (8 * Z.of_nat 0)) with 1. by rewrite Z.div_1_r.
  - rewrite IH. replace (8 * Z.of_nat (S k)) with (8 + 8 * Z.of_nat k) by lia.
    rewrite Z.pow_add_r, <- Z.div_div by lia. f_equal. unfold fits in Hb. change (2 ^ 8) with 256 in *.
    apply Z.div_unique with b; lia.
Qed.

Lemma le_bytes_take n l : bytes_ok l -> le_bytes (take n l) = le_bytes l mod 2 ^ (8 * Z.of_nat n).
Proof.
  intros H. revert n. induction H as [|b l Hb Hl IH]; intros [|n]; cbn [take le_bytes]; try done.
  - change (2 ^ (8 * Z.of_nat 0)) with 1. by rewrite Z.mod_1_r.
  - rewrite IH. replace (8 * Z.of_nat (S n)) with (8 + 8 * Z.of_nat n) by lia.
    rewrite Z.pow_add_r, Z.rem_mul_r by lia. unfold fits in Hb. change (2 ^ 8) with 256 in *.
    assert (le_bytes l = (b + 256 * le_bytes l) / 256) as E by (apply Z.div_unique with b; lia).
    rewrite <- E. f_equal. apply Z.mod_unique with (le_bytes l); lia.
Qed.

(** Reading a bit field out of a sum of fields. *)
Lemma field_extract k w lo f hi d :
  0 <= k -> 0 <= w -> fits k lo -> fits w f -> d = lo + f * 2 ^ k + hi * 2 ^ (k + w) ->
  (d / 2 ^ k) mod 2 ^ w = f.
Proof.
  intros Hk Hw [Hl1 Hl2] Hf ->. rewrite Z.pow_add_r by done.
  assert (0 < 2 ^ k) by lia.
  replace (lo + f * 2 ^ k + hi * (2 ^ k * 2 ^ w)) with (lo + (f + hi * 2 ^ w) * 2 ^ k) by ring.
  rewrite Z.div_add, Z.div_small, Z.add_0_l, Z.mod_add by lia. by apply Z.mod_small.
Qed.

(** ** Reading back what was written *)

Lemma length_read_n n m a : length (read_n n m a) = n.
Proof. unfold read_n. by rewrite length_map, length_seq. Qed.

Lemma read_n_ext n m m' a :
  (forall x, a <= x < a + Z.of_nat n -> m x = m' x) -> read_n n m a = read_n n m' a.
Proof.
  intros H. apply map_ext_in. intros k [_ Hk]%in_seq. apply H. lia.
Qed.

Lemma read_n_lookup n m a k :
  (k < n)%nat -> read_n n m a !! k = Some (m (a + Z.of_nat k)).
Proof.
  intros. unfold read_n. rewrite list_lookup_fmap, lookup_seq_lt by done. done.
Qed.

Lemma read_n_copy_to m a bs : read_n (length bs) (copy_to m a bs) a = bs.
Proof.
  apply list_eq. intros k. destruct (decide (k < length bs)%nat) as [Hk|Hk].
  - rewrite read_n_lookup by done. unfold copy_to. zcases.
    replace (Z.to_nat (a + Z.of_nat k - a)) with k by lia.
    apply lookup_lt_is_Some_2 in Hk as [y Hy]. by rewrite Hy.
  - rewrite !lookup_ge_None_2; [done| |rewrite length_read_n]; lia.
Qed.

Lemma read_n_copy_to_other n m a bs b :
  b + Z.of_nat n <= a \/ a + Z.of_nat (length bs) <= b ->
  read_n n (copy_to m a bs) b = read_n n m b.
Proof. intros. apply read_n_ext. intros. unfold copy_to. zcases; done. Qed.

Lemma read_n_write_bytes_other n m a v len b :
  b + Z.of_nat n <= a \/ a + len <= b ->
  read_n n (write_bytes m a v len) b = read_n n m b.
Proof. intros. apply read_n_ext. intros. unfold write_bytes. zcases; done. Qed.

Lemma read_n_write_bytes n m a v len b :
  a <= b -> b + Z.of_nat n <= a + len ->
  read_n n (write_bytes m a v len) b = replicate n v.
Proof.
  intros. apply list_eq. intros k. destruct (decide (k < n)%nat).
  - rewrite read_n_lookup, lookup_replicate_2 by done. unfold write_bytes. zcases; done.
  - rewrite !lookup_ge_None_2; [done|rewrite length_replicate|rewrite length_read_n]; lia.
Qed.

Lemma read_write_u64 m a v : fits 64 v -> read_u64 (write_u64 m a v) a = v.
Proof.
  intros Hv. unfold read_u64, write_u64.
  change 8%nat with (length (to_le 8 v)) at 1.
  rewrite read_n_copy_to, le_bytes_to_le. by apply Z.mod_small.
Qed.

Lemma read_write_u64_other m a b v :
  b + 8 <= a \/ a + 8 <= b -> read_u64 (write_u64 m a v) b = read_u64 m b.
Proof.
  intros. unfold read_u64, write_u64. rewrite read_n_copy_to_other; [done|].
  rewrite length_to_le. lia.
Qed.

Lemma read_write_u32 m a v : fits 32 v -> read_u32 (write_u32 m a v) a = v.
Proof.
  intros Hv. unfold read_u32, write_u32.
  change 4%nat with (length (to_le 4 v)) at 1.
  rewrite read_n_copy_to, le_bytes_to_le. by apply Z.mod_small.
Qed.

Lemma read_write_u32_other m a b v :
  b + 4 <= a \/ a + 4 <= b -> read_u32 (write_u32 m a v) b = read_u32 m b.
Proof.
  intros. unfold read_u32, write_u32. rewrite read_n_copy_to_other; [done|].
  rewrite length_to_le. lia.
Qed.

Lemma read_u64_zeroed m a len b :
  a <= b -> b + 8 <= a + len -> read_u64 (write_bytes m a 0 len) b = 0.
Proof.
  intros. unfold read_u64. rewrite read_n_write_bytes by lia. apply le_bytes_zeros.
Qed.

Lemma read_u64_zeroed_other m a v len b :
  b + 8 <= a \/ a + len <= b -> read_u64 (write_bytes m a v len) b = read_u64 m b.
Proof. intros. unfold read_u64. by rewrite read_n_write_bytes_other by lia. Qed.

(** A memory whose cells hold bytes. *)
Definition mem_ok (m : mem_t) : Prop := forall x, fits 8 (m x).

Lemma read_n_ok n m a : mem_ok m -> bytes_ok (read_n n m a).
Proof. intros H. unfold read_n. apply Forall_fmap, Forall_true. intros. apply H. Qed.

Lemma read_u64_fits m a : mem_ok m -> fits 64 (read_u64 m a).
Proof.
  intros H. pose proof (le_bytes_fits _ (read_n_ok 8 m a H)) as Hf.
  rewrite length_read_n in Hf. exact Hf.
Qed.

Lemma mem_ok_copy_to m a bs : mem_ok m -> bytes_ok bs -> mem_ok (copy_to m a bs).
Proof.
  intros Hm Hb x. unfold copy_to. destruct (_ && _); [|apply Hm].
  destruct (bs !! _) eqn:E; simpl; [|done]. by eapply Forall_lookup_1 in E.
Qed.

Lemma mem_ok_write_bytes m a v n : mem_ok m -> fits 8 v -> mem_ok (write_bytes m a v n).
Proof. intros Hm Hv x. unfold write_bytes. destruct (_ && _); [done|apply Hm]. Qed.

Lemma mem_ok_write_u64 m a v : mem_ok m -> mem_ok (write_u64 m a v).
Proof. intros. apply mem_ok_copy_to; [done|apply to_le_bytes_ok]. Qed.

Create HintDb kmem discriminated.
#[export] Hint Resolve mem_ok_copy_to mem_ok_write_bytes mem_ok_write_u64
  read_u64_fits to_le_bytes_ok u64_fits : kmem.

(** The bytes [l] lie at address [a]. *)
Definition stored (mem : mem_t) (a : Z) (l : list Z) : Prop := forall k, (k < length l)%nat -> Some (mem (a + Z.of_nat k)) = l !! k.

Lemma stored_app mem a l1 l2 : stored mem a (l1 ++ l2) -> stored mem a l1 /\ stored mem (a + Z.of_nat (length l1)) l2.
Proof.
  intros H. split; intros k Hk.
  - rewrite H by (rewrite length_app; lia). by apply lookup_app_l.
  - replace (a + Z.of_nat (length l1) + Z.of_nat k) with (a + Z.of_nat (length l1 + k)) by lia.
    rewrite H by (rewrite length_app; lia). rewrite lookup_app_r by lia. f_equal. lia.
Qed.
Lemma stored_cons mem a b l : stored mem a (b :: l) -> mem a = b /\ stored mem (a + 1) l.
Proof.
  intros H. apply (stored_app mem a [b] l) in H as [H1 H2]. split; [|done].
  specialize (H1 0%nat ltac:(simpl; lia)). simpl in H1. rewrite Z.add_0_r in H1. by injection H1.
Qed.
Lemma stored_read mem a l : stored mem a l -> read_n (length l) mem a = l.
Proof.
  intros H. apply list_eq. intros k. destruct (decide (k < length l)%nat) as [Hk|Hk].
  - rewrite read_n_lookup by done. by apply H.
  - rewrite !lookup_ge_None_2; rewrite ?length_read_n; [done|lia..].
Qed.
Lemma stored_le mem a n x l : stored mem a (to_le n x ++ l) -> fits (8 * Z.of_nat n) x ->
  le_bytes (read_n n mem a) = x /\ stored mem (a + Z.of_nat n) l.
Proof.
  intros H Hx. apply stored_app in H as [H1 H2]. rewrite length_to_le in H2. split; [|done].
  apply stored_read in H1. rewrite length_to_le in H1. rewrite H1, le_bytes_to_le. by apply Z.mod_small.
Qed.

Lemma read_n_app n k m a : read_n (n + k) m a = read_n n m a ++ read_n k m (a + Z.of_nat n).
Proof.
  unfold read_n. rewrite seq_app, map_app. f_equal. rewrite Nat.add_0_l. rewrite <- (Nat.add_0_r n) at 1.
  rewrite <- fmap_add_seq. unfold fmap. rewrite map_map. apply map_ext. intros i. f_equal. lia.
Qed.

Lemma copy_to_app m a d1 d2 x : copy_to (copy_to m a d1) (a + Z.of_nat (length d1)) d2 x = copy_to m a (d1 ++ d2) x.
Proof.
  unfold copy_to. rewrite length_app. destruct (Z.leb_spec a x); [|zcases; done].
  destruct (Z.ltb_spec x (a + Z.of_nat (length d1))).
  - zcases. by rewrite lookup_app_l by lia.
  - destruct (Z.ltb_spec x (a + Z.of_nat (length d1) + Z.of_nat (length d2))); zcases; try done.
    rewrite lookup_app_r by lia. do 2 f_equal. lia.
Qed.

(** ** Slices *)
Lemma slice_in {A} (l : list A) a b : 0 <= a <= b -> b <= Z.of_nat (length l) -> slice l a b = Returns (sub_slice l a b).
Proof. intros Ha Hb. unfold slice. zcases; done. Qed.

Lemma bytes_ok_dec l : forallb (fitsb 8) l = true -> bytes_ok l.
Proof. intros H. apply Forall_forall. intros x Hx. apply fitsb_spec. by eapply forallb_forall in H; [|apply list_elem_of_In]. Qed.

Lemma length_sub_slice {A} (l : list A) a b :
  0 <= a <= b -> b <= Z.of_nat (length l) -> Z.of_nat (length (sub_slice l a b)) = b - a.
Proof. intros. unfold sub_slice. rewrite length_take, length_drop. lia. Qed.

(** The middle of three parts. *)
Lemma sub_slice_mid {A} (l pre f post : list A) a b :
  l = pre ++ f ++ post -> a = Z.of_nat (length pre) -> b = a + Z.of_nat (length f) -> sub_slice l a b = f.
Proof.
  intros -> -> ->. unfold sub_slice. rewrite Nat2Z.id, drop_app_length, Z.add_simpl_l, Nat2Z.id. apply take_app_length.
Qed.

Lemma bytes_ok_sub_slice l a b : bytes_ok l -> bytes_ok (sub_slice l a b).
Proof. intros H. by apply Forall_take, Forall_drop. Qed.

(** ** Counted loops *)
Lemma for_range_empty {S} a b (f : Z -> S -> S) s : b <= a -> for_range a b f s = s.
Proof. intros. unfold for_range. by rewrite seqZ_nil by lia. Qed.

Lemma for_range_split {S} a b c (f : Z -> S -> S) s :
  a <= b <= c -> for_range a c f s = for_range b c f (for_range a b f s).
Proof.
  intros. unfold for_range. replace (c - a) with ((b - a) + (c - b)) by lia.
  rewrite seqZ_app by lia. rewrite foldl_app. by replace (a + (b - a)) with b by lia.
Qed.

(** Rule of a counted loop: an invariant on the index and the state. *)
Lemma for_range_ind {S} (I : Z -> S -> Prop) a b (f : Z -> S -> S) s :
  a <= b -> I a s -> (forall i s, a <= i < b -> I i s -> I (i + 1) (f i s)) ->
  I b (for_range a b f s).
Proof.
  intros Hab Ha Hstep. remember (Z.to_nat (b - a)) as n eqn:Hn.
  revert b Hab Hn Hstep. induction n as [|n IH]; intros b Hab Hn Hstep.
  - replace b with a by lia. by rewrite for_range_empty by lia.
  - rewrite (for_range_split a (b - 1) b) by lia.
    replace (for_range (b - 1) b f) with (f (b - 1)).
    2:{ unfold for_range. by replace (b - (b - 1)) with 1 by lia. }
    replace b with (b - 1 + 1) at 1 by lia. apply Hstep; [lia|].
    apply IH; [lia..|]. intros. apply Hstep; [lia|done].
Qed.

Lemma for_range_id {S} a b (f : Z -> S -> S) s :
  (forall i, a <= i < b -> f i s = s) -> for_range a b f s = s.
Proof.
  intros H. destruct (decide (a <= b)); [|by rewrite for_range_empty by lia].
  apply (for_range_ind (fun _ s' => s' = s)); [lia|done|]. intros i s' ? ->. by apply H.
Qed.

Lemma for_range_ext {S} a b (f g : Z -> S -> S) s :
  (forall i s, a <= i < b -> f i s = g i s) -> for_range a b f s = for_range a b g s.
Proof.
  intros H. unfold for_range.
  assert (Forall (fun i => a <= i < b) (seqZ a (b - a))) as Hall by (apply Forall_seqZ; lia).
  revert s. induction Hall as [|i l Hi _ IH]; intros s; simpl; [done|]. by rewrite H, IH.
Qed.

Lemma stored_copy_to m a l : stored (copy_to m a l) a l.
Proof.
  intros k Hk. unfold copy_to. zcases. replace (Z.to_nat (a + Z.of_nat k - a)) with k by lia.
  apply lookup_lt_is_Some_2 in Hk as [y Hy]. by rewrite Hy.
Qed.

(** A property of a small range of integers, checked element by element. *)
Lemma range_forall (P : Z -> Prop) n : Forall P (seqZ 0 n) -> forall x, 0 <= x < n -> P x.
Proof. intros H x Hx. apply (proj1 (Forall_forall _ _) H). apply elem_of_seqZ. lia. Qed.
