(* ===== verification/Addr.v ===== *)
(** Typed addresses (src/src/addr.rs): [PhysAddr] and [VirtAddr] are transparent
    wrappers of a 64-bit integer; the two `impl` blocks have the same text, so
    one [Section] is instantiated for both. *)
From S2P Require Import Prelude.

Module PhysAddr.
Record t := Mk { raw : Z }.
Definition new (addr : Z) : t := Mk addr.
Definition as_u64 (a : t) : Z := raw a.
Definition align_down (a : t) (align : Z) : t :=
  Mk (Z.land (raw a) (not64 (sub64 align 1))).
Definition align_up (a : t) (align : Z) : t :=
  Mk (Z.land (sub64 (add64 (raw a) align) 1) (not64 (sub64 align 1))).
Definition is_aligned (a : t) (align : Z) : bool := raw (align_down a align) =? raw a.
Definition add (a : t) (rhs : Z) : t := Mk (add64 (raw a) rhs).
Definition sub (a : t) (rhs : Z) : t := Mk (sub64 (raw a) rhs).
End PhysAddr.

Module VirtAddr.
Record t := Mk { raw : Z }.
Definition new (addr : Z) : t := Mk addr.
Definition as_u64 (a : t) : Z := raw a.
Definition align_down (a : t) (align : Z) : t :=
  Mk (Z.land (raw a) (not64 (sub64 align 1))).
Definition align_up (a : t) (align : Z) : t :=
  Mk (Z.land (sub64 (add64 (raw a) align) 1) (not64 (sub64 align 1))).
Definition is_aligned (a : t) (align : Z) : bool := raw (align_down a align) =? raw a.
Definition add (a : t) (rhs : Z) : t := Mk (add64 (raw a) rhs).
Definition sub (a : t) (rhs : Z) : t := Mk (sub64 (raw a) rhs).
End VirtAddr.

Lemma align_down_as_mask a k :
  PhysAddr.raw (PhysAddr.align_down a k) = mask_down (PhysAddr.raw a) k.
Proof. done. Qed.

Lemma align_up_as_mask a k :
  PhysAddr.raw (PhysAddr.align_up a k) = mask_up (PhysAddr.raw a) k.
Proof. done. Qed.

(** [is_aligned] decides divisibility by a power of two. *)
Lemma is_aligned_spec a k :
  fits 64 (PhysAddr.raw a) -> 0 <= k < 64 ->
  PhysAddr.is_aligned a (2 ^ k) = true <-> PhysAddr.raw a mod 2 ^ k = 0.
Proof.
  intros. unfold PhysAddr.is_aligned.
  rewrite align_down_as_mask, mask_down_spec, Z.eqb_eq by done. lia.
Qed.
