(* ===== verification/Pmm.v ===== *)
(** Physical frame allocator (src/src/memory.rs, section 4). *)
From S2P Require Import Prelude.

Definition PAGE_SIZE : Z := 4096.

Definition LIMINE_MEMMAP_USABLE : Z := 0.
Definition LIMINE_MEMMAP_ACPI_RECLAIMABLE : Z := 2.
Definition LIMINE_MEMMAP_BOOTLOADER_RECLAIMABLE : Z := 5.

(** `BitmapAllocator<N>`: [N] 64-bit words, bit set = frame in use. *)
Abbreviation bitmap := (list Z).

Module BitmapAllocator.

Definition new (N : nat) : bitmap := replicate N (Z.ones 64).

(** The scan of `allocate_next_frame`, from word [i] on. *)
Fixpoint allocate_from (i : Z) (bm : bitmap) : option Z * bitmap :=
  match bm with
  | [] => (None, [])
  | val :: rest =>
      if val =? Z.ones 64 then
        let '(r, rest') := allocate_from (i + 1) rest in (r, val :: rest')
      else
        let b := trailing_zeros 64 (not64 val) in
        (Some (i * 64 + b), Z.lor val (Z.shiftl 1 b) :: rest)
  end.

Definition allocate_next_frame (bm : bitmap) : option Z * bitmap := allocate_from 0 bm.

Definition update_word (bm : bitmap) (i : Z) (f : Z -> Z) : bitmap :=
  if i <? Z.of_nat (length bm) then alter f (Z.to_nat i) bm else bm.

Definition reserve_frame (bm : bitmap) (frame_index : Z) : bitmap :=
  let array_idx := frame_index / 64 in
  let bit_idx := frame_index mod 64 in
  update_word bm array_idx (fun w => Z.lor w (Z.shiftl 1 bit_idx)).

Definition free_frame (bm : bitmap) (frame_index : Z) : bitmap :=
  if frame_index =? 0 then bm
  else
    let array_idx := frame_index / 64 in
    let bit_idx := frame_index mod 64 in
    update_word bm array_idx (fun w => Z.land w (not64 (Z.shiftl 1 bit_idx))).

(** `for i in 0..count { f(start + i) }` *)
Fixpoint for_range (f : bitmap -> Z -> bitmap) (start : Z) (count : nat) (bm : bitmap) : bitmap :=
  match count with
  | O => bm
  | S n => for_range f (start + 1) n (f bm start)
  end.

Definition reserve_range (bm : bitmap) (start_frame count : Z) : bitmap :=
  for_range reserve_frame start_frame (Z.to_nat count) bm.

Definition free_range (bm : bitmap) (start_frame count : Z) : bitmap :=
  for_range free_frame start_frame (Z.to_nat count) bm.

End BitmapAllocator.
Import BitmapAllocator.

(** The static `PHYSICAL_PMM: Mutex<BitmapAllocator<1024>>`. *)
Definition PMM_WORDS : nat := 1024.
Definition PHYSICAL_PMM : bitmap := new PMM_WORDS.

Definition vmm_alloc_frame (pmm : bitmap) : option Z * bitmap :=
  let '(r, pmm') := allocate_next_frame pmm in
  (option_map (fun idx => mul64 idx PAGE_SIZE) r, pmm').

Definition vmm_free_frame (pmm : bitmap) (addr : Z) : bitmap :=
  free_frame pmm (addr / PAGE_SIZE).

Definition alloc_frame (pmm : bitmap) : option Z * bitmap := vmm_alloc_frame pmm.

(** `limine::MemmapEntry`; a response is the array of entry pointers, [None] for a null one. *)
Record MemmapEntry := { base : Z; length_ : Z; typ : Z }.
Abbreviation memmap := (list (option MemmapEntry)).

Definition free_entries (keep : Z -> bool) (mm : memmap) (pmm : bitmap) : bitmap :=
  fold_left (fun pmm oe =>
    match oe with
    | None => pmm
    | Some e =>
        if keep (typ e) then free_range pmm (base e / PAGE_SIZE) (length_ e / PAGE_SIZE) else pmm
    end) mm pmm.

Definition init_pmm_from_limine (resp : option memmap) (pmm : bitmap) : Result unit string * bitmap :=
  match resp with
  | None => (Err "Limine memory map response unavailable"%string, pmm)
  | Some mm =>
      let pmm := free_entries (fun t => t =? LIMINE_MEMMAP_USABLE) mm pmm in
      (Ok tt, reserve_range pmm 0 256)
  end.

Definition init_pmm_static (pmm : bitmap) : bitmap := free_range pmm 0 (1024 * 64).

Definition reclaim_boot_memory (resp : option memmap) (pmm : bitmap) : bitmap :=
  match resp with
  | None => pmm
  | Some mm =>
      let pmm := free_entries (fun t => (t =? LIMINE_MEMMAP_ACPI_RECLAIMABLE)
                                        || (t =? LIMINE_MEMMAP_BOOTLOADER_RECLAIMABLE)) mm pmm in
      reserve_range pmm 0 256
  end.

(** The three guarded `reserve_range` calls of `protect_boot_memory` share this shape. *)
Definition protect_bytes (pmm : bitmap) (start stop : Z) : bitmap :=
  let start_frame := start / PAGE_SIZE in
  let end_frame := sub64 (add64 stop PAGE_SIZE) 1 / PAGE_SIZE in
  if end_frame >? start_frame then reserve_range pmm start_frame (end_frame - start_frame) else pmm.

Definition protect_boot_memory (kernel_phys_start kernel_phys_end heap_start heap_size : Z)
    (ramdisk : option (Z * Z)) (pmm : bitmap) : bitmap :=
  let pmm := reserve_range pmm 0 256 in
  let pmm := protect_bytes pmm kernel_phys_start kernel_phys_end in
  let pmm := protect_bytes pmm heap_start (add64 heap_start heap_size) in
  match ramdisk with
  | Some (ramdisk_addr, ramdisk_size) =>
      protect_bytes pmm ramdisk_addr (add64 ramdisk_addr ramdisk_size)
  | None => pmm
  end.

(** ** Abstract view: the set of frames in use *)

(** [used bm f]: frame [f] is taken.  Frames past the bitmap can never be handed
    out, so they count as taken. *)
Definition used (bm : bitmap) (f : Z) : bool :=
  match bm !! Z.to_nat (f / 64) with
  | Some w => Z.testbit w (f mod 64)
  | None => true
  end.

Definition wf (bm : bitmap) : Prop := Forall (fits 64) bm.

Definition frames (bm : bitmap) : Z := 64 * Z.of_nat (length bm).

Lemma used_cons w bm f :
  0 <= f -> used (w :: bm) f = if f <? 64 then Z.testbit w f else used bm (f - 64).
Proof.
  intros Hf. unfold used. destruct (Z.ltb_spec f 64).
  - rewrite Z.div_small, Z.mod_small by lia. done.
  - assert (f / 64 = (f - 64) / 64 + 1) as -> by dlia.
    assert (f mod 64 = (f - 64) mod 64) as -> by dlia.
    replace (Z.to_nat ((f - 64) / 64 + 1)) with (S (Z.to_nat ((f - 64) / 64))) by dlia.
    done.
Qed.

Lemma used_past bm f : frames bm <= f -> used bm f = true.
Proof.
  intros Hf. unfold used, frames in *. rewrite lookup_ge_None_2; [done|].
  assert (Z.of_nat (length bm) <= f / 64) by (apply Z.div_le_lower_bound; lia). lia.
Qed.

Lemma used_false_range bm f : 0 <= f -> used bm f = false -> 0 <= f < frames bm.
Proof.
  intros Hf H. split; [done|]. destruct (decide (f < frames bm)); [done|].
  rewrite used_past in H by lia. done.
Qed.

Lemma not64_fits x : fits 64 x -> fits 64 (not64 x).
Proof.
  intros Hx. unfold not_w. apply fits_bits; [lia| |].
  - apply Z.lxor_nonneg. destruct Hx. rewrite Z.ones_equiv. lia.
  - intros i Hi. rewrite Z.lxor_spec, testbit_ones', (testbit_above x 64) by (done || lia). zcases; done.
Qed.

Lemma not64_zero x : fits 64 x -> not64 x = 0 -> x = Z.ones 64.
Proof.
  intros Hx H. unfold not_w in H. apply Z.lxor_eq in H. done.
Qed.

Lemma testbit_not64 x i : 0 <= i < 64 -> Z.testbit (not64 x) i = negb (Z.testbit x i).
Proof. intros. unfold not_w. rewrite Z.lxor_spec, testbit_ones' by lia. zcases. by destruct (Z.testbit x i). Qed.

(** The three facts about one word that the scan rests on. *)
Lemma first_clear_bit w :
  fits 64 w -> w <> Z.ones 64 ->
  let b := trailing_zeros 64 (not64 w) in
  0 <= b < 64 /\ Z.testbit w b = false /\ (forall i, 0 <= i < b -> Z.testbit w i = true).
Proof.
  intros Hw Hne b. pose proof (not64_fits w Hw) as Hn.
  assert (0 < not64 w) as Hpos.
  { destruct (decide (not64 w = 0)) as [E|]; [by apply not64_zero in E|]. destruct Hn; lia. }
  destruct (trailing_zeros_spec 64 (not64 w) Hpos Hn) as (Hr & Hs & Hl). fold b in Hr, Hs, Hl.
  split_and!; try lia.
  - rewrite testbit_not64 in Hs by lia. by apply negb_true_iff in Hs.
  - intros i Hi. specialize (Hl i ltac:(lia)). rewrite testbit_not64 in Hl by lia.
    by apply negb_false_iff in Hl.
Qed.

Lemma testbit_set w b i : 0 <= b -> Z.testbit (Z.lor w (Z.shiftl 1 b)) i = Z.testbit w i || (i =? b).
Proof.
  intros. destruct (decide (0 <= i)).
  - autorewrite with kbits. zcases; btauto.
  - rewrite !(Z.testbit_neg_r _ i) by lia. zcases; done.
Qed.

Lemma allocate_from_spec i bm r bm' :
  wf bm -> allocate_from i bm = (r, bm') ->
  wf bm' /\ length bm' = length bm /\
  match r with
  | Some f =>
      let k := f - i * 64 in
      0 <= k /\ used bm k = false /\ (forall g, 0 <= g < k -> used bm g = true) /\
      (forall g, 0 <= g -> used bm' g = used bm g || (g =? k))
  | None => bm' = bm /\ (forall g, 0 <= g -> used bm g = true)
  end.
Proof.
  intros Hwf. revert i r bm'. induction Hwf as [|w bm Hw Hbm IH]; intros i r bm' Hal; simpl in Hal.
  { simplify_eq. split_and!; try done. constructor. }
  destruct (Z.eqb_spec w (Z.ones 64)) as [->|Hne].
  - destruct (allocate_from (i + 1) bm) as [r1 bm1] eqn:E. simplify_eq.
    destruct (IH _ _ _ E) as (Hwf1 & Hlen & Hr). split_and!; [by constructor|simpl; lia|].
    assert (forall g, 0 <= g < 64 -> Z.testbit (Z.ones 64) g = true) as Hones
      by (intros; by rewrite testbit_ones' by lia; zcases).
    destruct r as [f|].
    + destruct Hr as (Hk & Hu & Hbelow & Hafter). split_and!; [lia| | |].
      * rewrite used_cons by lia. zcases.
        replace (f - i * 64 - 64) with (f - (i + 1) * 64) by lia. done.
      * intros g Hg. rewrite used_cons by lia. destruct (Z.ltb_spec g 64); [apply Hones; lia|].
        apply Hbelow. lia.
      * intros g Hg. rewrite !used_cons by lia. destruct (Z.ltb_spec g 64).
        { rewrite Hones by lia. done. }
        rewrite Hafter by lia. f_equal. zcases; done.
    + destruct Hr as [-> Hr]. split; [done|]. intros g Hg. rewrite used_cons by lia.
      destruct (Z.ltb_spec g 64); [apply Hones; lia|]. apply Hr. lia.
  - simplify_eq. destruct (first_clear_bit w Hw Hne) as (Hb & Hclear & Hbelow).
    set (b := trailing_zeros 64 (not64 w)) in *.
    split_and!; [constructor; [|done]|done|].
    { apply fits_lor; [lia|done|]. by apply fits_shiftl1. }
    replace (i * 64 + b - i * 64) with b by lia. split_and!; [lia| | |].
    + rewrite used_cons by lia. zcases; done.
    + intros g Hg. rewrite used_cons by lia. zcases. apply Hbelow. lia.
    + intros g Hg. rewrite !used_cons by lia. destruct (Z.ltb_spec g 64).
      * apply testbit_set. lia.
      * zcases. by rewrite orb_false_r.
Qed.

(** ** What each operation does to the set of used frames *)

Lemma length_update_word bm i f : length (update_word bm i f) = length bm.
Proof. unfold update_word. destruct (_ <? _); [apply length_alter|done]. Qed.

Lemma wf_update_word bm i f :
  wf bm -> (forall w, fits 64 w -> fits 64 (f w)) -> wf (update_word bm i f).
Proof.
  intros Hwf Hf. unfold update_word. destruct (_ <? _); [|done].
  apply Forall_alter; [done|]. intros x _ Hx. by apply Hf.
Qed.

(** Changing one bit of one word changes one frame. *)
Lemma used_update_word bm k f (c : bool) g :
  wf bm -> 0 <= k -> 0 <= g ->
  (forall w i, fits 64 w -> 0 <= i < 64 ->
     Z.testbit (f w) i = if i =? k mod 64 then c else Z.testbit w i) ->
  used (update_word bm (k / 64) f) g =
    if (g =? k) && (g <? frames bm) then c else used bm g.
Proof.
  intros Hwf Hk Hg Hf. unfold update_word.
  destruct (Z.ltb_spec (k / 64) (Z.of_nat (length bm))) as [Hlt|Hge].
  - unfold used. destruct (decide (k / 64 = g / 64)) as [E|Hne].
    + rewrite <- E, list_lookup_alter_eq.
      destruct (lookup_lt_is_Some_2 bm (Z.to_nat (k / 64))) as [w Hw]; [dlia|].
      rewrite Hw. cbn [fmap option_fmap option_map].
      rewrite Hf; [|by eapply Forall_lookup_1|apply Z.mod_pos_bound; lia].
      unfold frames. zcases; try done; dlia.
    + rewrite list_lookup_alter_ne by (intros ?; apply Hne; dlia).
      zcases; try done. subst. done.
  - unfold frames. zcases; try done. subst. dlia.
Qed.

Lemma used_reserve_frame bm k g :
  wf bm -> 0 <= k -> 0 <= g -> used (reserve_frame bm k) g = used bm g || (g =? k).
Proof.
  intros Hwf Hk Hg. unfold reserve_frame. rewrite (used_update_word _ _ _ true) by
    (done || (intros w i ? ?; rewrite testbit_set by (apply Z.mod_pos_bound; lia); zcases; btauto)).
  destruct (Z.eqb_spec g k), (Z.ltb_spec g (frames bm)); simpl; try btauto.
  rewrite used_past by lia. done.
Qed.

Lemma used_free_frame bm k g :
  wf bm -> 0 <= k -> 0 <= g ->
  used (free_frame bm k) g =
    used bm g && negb ((g =? k) && negb (k =? 0) && (k <? frames bm)).
Proof.
  intros Hwf Hk Hg. unfold free_frame. destruct (Z.eqb_spec k 0) as [->|Hk0].
  { cbn [negb]. btauto. }
  rewrite (used_update_word _ _ _ false).
  - destruct (Z.eqb_spec g k), (Z.ltb_spec g (frames bm)); simpl; zcases; btauto.
  - done.
  - done.
  - done.
  - intros w i ? ?. rewrite Z.land_spec, testbit_not64, testbit_shiftl', testbit_one by lia.
    zcases; btauto.
Qed.

Lemma wf_reserve_frame bm k : wf bm -> wf (reserve_frame bm k).
Proof.
  intros. apply wf_update_word; [done|]. intros w Hw. apply fits_lor; [lia|done|].
  apply fits_shiftl1, Z.mod_pos_bound. lia.
Qed.

Lemma wf_free_frame bm k : wf bm -> wf (free_frame bm k).
Proof.
  intros. unfold free_frame. destruct (_ =? _); [done|]. apply wf_update_word; [done|].
  intros w Hw. by apply fits_land_l.
Qed.

Lemma length_reserve_frame bm k : length (reserve_frame bm k) = length bm.
Proof. apply length_update_word. Qed.

Lemma length_free_frame bm k : length (free_frame bm k) = length bm.
Proof. unfold free_frame. destruct (_ =? _); [done|]. apply length_update_word. Qed.

Create HintDb kpmm discriminated.
Create Rewrite HintDb kpmm.
#[export] Hint Resolve wf_reserve_frame wf_free_frame : kpmm.
#[export] Hint Rewrite length_reserve_frame length_free_frame length_update_word : kpmm.

(** ** Ranges *)

Section for_range.
Context (f : bitmap -> Z -> bitmap).
Hypothesis f_wf : forall bm k, wf bm -> wf (f bm k).
Hypothesis f_len : forall bm k, length (f bm k) = length bm.

Lemma wf_for_range n s bm : wf bm -> wf (for_range f s n bm).
Proof. revert s bm; induction n; simpl; auto. Qed.

Lemma length_for_range n s bm : length (for_range f s n bm) = length bm.
Proof. revert s bm; induction n as [|n IH]; intros s bm; simpl; [done|]. by rewrite IH, f_len. Qed.
End for_range.

Lemma wf_reserve_range bm s c : wf bm -> wf (reserve_range bm s c).
Proof. apply wf_for_range, wf_reserve_frame. Qed.
Lemma wf_free_range bm s c : wf bm -> wf (free_range bm s c).
Proof. apply wf_for_range, wf_free_frame. Qed.
Lemma length_reserve_range bm s c : length (reserve_range bm s c) = length bm.
Proof. apply length_for_range, length_reserve_frame. Qed.
Lemma length_free_range bm s c : length (free_range bm s c) = length bm.
Proof. apply length_for_range, length_free_frame. Qed.
#[export] Hint Resolve wf_reserve_range wf_free_range : kpmm.
#[export] Hint Rewrite length_reserve_range length_free_range : kpmm.

Definition in_range (s c g : Z) : bool := (s <=? g) && (g <? s + c).

Lemma used_reserve_range bm s c g :
  wf bm -> 0 <= s -> 0 <= g ->
  used (reserve_range bm s c) g = used bm g || in_range s c g.
Proof.
  unfold reserve_range, in_range. intros Hwf Hs Hg.
  destruct (decide (0 <= c)) as [Hc|Hc].
  2:{ replace (Z.to_nat c) with 0%nat by lia. simpl. zcases; btauto. }
  rewrite <- (Z2Nat.id c) at 2 by done. generalize (Z.to_nat c) as n. clear c Hc. intros n.
  revert s bm Hs Hwf; induction n as [|n IH]; intros s bm Hs Hwf; cbn [for_range].
  - zcases; btauto.
  - rewrite IH, used_reserve_frame by (auto with kpmm; lia). zcases; btauto.
Qed.

(** Frame 0 and frames past the bitmap are never released. *)
Definition freeable (bm : bitmap) (g : Z) : bool := negb (g =? 0) && (g <? frames bm).

Lemma used_free_range bm s c g :
  wf bm -> 0 <= s -> 0 <= g ->
  used (free_range bm s c) g = used bm g && negb (in_range s c g && freeable bm g).
Proof.
  unfold free_range, in_range, freeable. intros Hwf Hs Hg.
  destruct (decide (0 <= c)) as [Hc|Hc].
  2:{ replace (Z.to_nat c) with 0%nat by lia. simpl. zcases; btauto. }
  rewrite <- (Z2Nat.id c) at 2 by done. generalize (Z.to_nat c) as n. clear c Hc. intros n.
  revert s bm Hs Hwf; induction n as [|n IH]; intros s bm Hs Hwf; cbn [for_range].
  - zcases; btauto.
  - rewrite IH, used_free_frame by (auto with kpmm; lia).
    unfold frames. rewrite length_free_frame. zcases; btauto.
Qed.

(** ** Boot-time population *)

Definition covers (keep : Z -> bool) (oe : option MemmapEntry) (g : Z) : bool :=
  match oe with
  | Some e => keep (typ e) && in_range (base e / PAGE_SIZE) (length_ e / PAGE_SIZE) g
  | None => false
  end.

Definition covered (keep : Z -> bool) (mm : memmap) (g : Z) : bool :=
  existsb (fun oe => covers keep oe g) mm.

(** Entry bases are 64-bit values. *)
Definition memmap_ok (mm : memmap) : Prop :=
  Forall (fun oe => match oe with Some e => fits 64 (base e) | None => True end) mm.

Lemma free_entries_spec keep mm bm :
  wf bm -> memmap_ok mm ->
  wf (free_entries keep mm bm) /\ length (free_entries keep mm bm) = length bm /\
  forall g, 0 <= g -> used (free_entries keep mm bm) g =
                      used bm g && negb (covered keep mm g && freeable bm g).
Proof.
  intros Hwf Hmm. revert bm Hwf. unfold free_entries.
  induction Hmm as [|oe mm Hoe _ IH]; intros bm Hwf; cbn [fold_left covered existsb].
  { split_and!; try done. intros. btauto. }
  destruct oe as [e|].
  2:{ apply IH. done. }
  cbn [covers]. destruct (keep (typ e)); [|by apply IH].
  set (bm1 := free_range bm _ _).
  assert (wf bm1) as Hwf1 by (apply wf_free_range; done).
  assert (length bm1 = length bm) as Hlen by apply length_free_range.
  destruct (IH bm1 Hwf1) as (H1 & H2 & H3). split_and!; [done|by rewrite H2|].
  intros g Hg. rewrite H3 by done. unfold bm1.
  rewrite used_free_range; [|done|apply Z.div_pos; [apply Hoe|done]|done].
  fold bm1. unfold freeable, frames. rewrite Hlen. unfold covered. cbn [andb]. btauto.
Qed.

(** ** The interface the rest of the kernel relies on

    Addresses rather than frame numbers: what `vmm_alloc_frame` returns and
    `vmm_free_frame` takes. *)

Class FrameAllocator (P : Type) := {
  fa_ok : P -> Prop;
  fa_used : P -> Z -> bool;
  fa_freeable : P -> Z -> bool;
  fa_alloc : P -> option Z * P;
  fa_free : P -> Z -> P;
  fa_alloc_some : forall p a p', fa_ok p -> fa_alloc p = (Some a, p') ->
    fa_ok p' /\ a mod 4096 = 0 /\ 0 < a < 2 ^ 48 /\
    fa_used p a = false /\ fa_freeable p a = true /\
    (forall b, b mod 4096 = 0 -> 0 <= b -> fa_used p' b = fa_used p b || (b =? a)) /\
    (forall b, fa_freeable p' b = fa_freeable p b);
  fa_alloc_none : forall p p', fa_ok p -> fa_alloc p = (None, p') -> p' = p;
  fa_free_spec : forall p a, fa_ok p -> a mod 4096 = 0 -> 0 <= a ->
    fa_ok (fa_free p a) /\
    (forall b, b mod 4096 = 0 -> 0 <= b ->
       fa_used (fa_free p a) b = fa_used p b && negb ((b =? a) && fa_freeable p a)) /\
    (forall b, fa_freeable (fa_free p a) b = fa_freeable p b)
}.

(** The bitmap is usable as an allocator when its words are 64-bit values, frame 0
    is reserved, and it tracks at most 2^36 frames (1024 words track 2^16). *)
Definition pmm_ok (bm : bitmap) : Prop :=
  wf bm /\ used bm 0 = true /\ frames bm <= 2 ^ 36.

Lemma vmm_alloc_frame_spec bm r bm' :
  pmm_ok bm -> vmm_alloc_frame bm = (r, bm') ->
  pmm_ok bm' /\ length bm' = length bm /\
  match r with
  | Some a => exists f, a = f * 4096 /\ 0 < f < frames bm /\ used bm f = false /\
      (forall g, 0 <= g < f -> used bm g = true) /\
      (forall g, 0 <= g -> used bm' g = used bm g || (g =? f))
  | None => bm' = bm /\ (forall g, 0 <= g -> used bm g = true)
  end.
Proof.
  intros (Hwf & H0 & Hlen) Hal. unfold vmm_alloc_frame, allocate_next_frame in Hal.
  destruct (allocate_from 0 bm) as [r0 bm0] eqn:E. simplify_eq.
  destruct (allocate_from_spec 0 bm r0 bm' Hwf E) as (Hwf' & Hl & Hr).
  destruct r0 as [f|]; simpl.
  - simpl in Hr. rewrite !Z.sub_0_r in Hr. destruct Hr as (Hf & Hu & Hb & Ha).
    pose proof (used_false_range bm f Hf Hu).
    assert (f <> 0) by (intros ->; congruence).
    split_and!; [split_and!; [done| |unfold frames in *; by rewrite Hl]|done|].
    + rewrite Ha, H0 by lia. done.
    + exists f. split_and!; try done; try lia.
      unfold mul64, PAGE_SIZE. apply u64_small. split; [lia|]. change (2 ^ 64) with (2 ^ 36 * 2 ^ 28). lia.
  - destruct Hr as [-> Hr]. split_and!; done.
Qed.

Lemma vmm_free_frame_spec bm a :
  pmm_ok bm -> 0 <= a ->
  pmm_ok (vmm_free_frame bm a) /\ length (vmm_free_frame bm a) = length bm /\
  forall g, 0 <= g -> used (vmm_free_frame bm a) g =
                      used bm g && negb ((g =? a / 4096) && freeable bm (a / 4096)).
Proof.
  intros (Hwf & H0 & Hlen) Ha. unfold vmm_free_frame, PAGE_SIZE.
  assert (0 <= a / 4096) as Hk by (apply Z.div_pos; lia).
  assert (forall g, 0 <= g -> used (free_frame bm (a / 4096)) g =
            used bm g && negb ((g =? a / 4096) && freeable bm (a / 4096))) as Hu.
  { intros g Hg. rewrite used_free_frame by done. unfold freeable. btauto. }
  split_and!; [split_and!|by rewrite length_free_frame|done].
  - by apply wf_free_frame.
  - rewrite Hu, H0 by lia. unfold freeable. zcases; done.
  - unfold frames. by rewrite length_free_frame.
Qed.

#[export] Instance pmm_allocator : FrameAllocator bitmap.
Proof.
  refine {| fa_ok := pmm_ok;
            fa_used bm a := used bm (a / 4096);
            fa_freeable bm a := freeable bm (a / 4096);
            fa_alloc := vmm_alloc_frame;
            fa_free := vmm_free_frame |}.
  - intros bm a bm' Hok Hal. destruct (vmm_alloc_frame_spec bm _ bm' Hok Hal) as (Hok' & Hl & Hr).
    destruct Hr as (f & -> & Hf & Hu & _ & Ha). destruct Hok as (_ & _ & Hn).
    rewrite Z.div_mul by lia.
    split_and!; [done|by apply Z.mod_mul|lia|change (2 ^ 48) with (2 ^ 36 * 4096); lia|done| | |].
    + unfold freeable. zcases; done.
    + intros b Hb Hb0. rewrite Ha by (apply Z.div_pos; lia). f_equal. zcases; try done; dlia.
    + intros b. unfold freeable, frames. by rewrite Hl.
  - intros bm bm' Hok Hal. destruct (vmm_alloc_frame_spec bm _ bm' Hok Hal) as (_ & _ & [? _]). done.
  - intros bm a Hok Hal Ha. destruct (vmm_free_frame_spec bm a Hok Ha) as (Hok' & Hl & Hu).
    split_and!; [done| |].
    + intros b Hb Hb0. rewrite Hu by (apply Z.div_pos; lia). f_equal. f_equal. f_equal.
      zcases; try done; dlia.
    + intros b. unfold freeable, frames. by rewrite Hl.
Defined.

Lemma used_protect_bytes bm s e g :
  wf bm -> 0 <= s -> 0 <= e -> e + 4096 <= 2 ^ 64 -> 0 <= g ->
  used (protect_bytes bm s e) g =
    used bm g || ((s / 4096 <=? g) && (g <? (e + 4095) / 4096)).
Proof.
  intros Hwf Hs He Hov Hg. unfold protect_bytes, PAGE_SIZE, sub64, add64, u64, wrap.
  rewrite Zminus_mod_idemp_l. rewrite Z.mod_small by lia.
  replace (e + 4096 - 1) with (e + 4095) by lia.
  assert (0 <= s / 4096) by (apply Z.div_pos; lia).
  destruct (Z.gtb_spec ((e + 4095) / 4096) (s / 4096)).
  - rewrite used_reserve_range by done. unfold in_range.
    replace (s / 4096 + ((e + 4095) / 4096 - s / 4096)) with ((e + 4095) / 4096) by lia. done.
  - zcases; btauto.
Qed.

Lemma wf_protect_bytes bm s e : wf bm -> wf (protect_bytes bm s e).
Proof. intros. unfold protect_bytes. destruct (_ >? _); auto with kpmm. Qed.
Lemma length_protect_bytes bm s e : length (protect_bytes bm s e) = length bm.
Proof. unfold protect_bytes. destruct (_ >? _); [apply length_reserve_range|done]. Qed.
#[export] Hint Resolve wf_protect_bytes : kpmm.
#[export] Hint Rewrite length_protect_bytes : kpmm.

(** The frames `protect_boot_memory` keeps out of the pool. *)
Definition boot_protected (kstart kend hstart hsize : Z) (ramdisk : option (Z * Z)) (g : Z) : bool :=
  (g <? 256)
  || ((kstart / 4096 <=? g) && (g <? (kend + 4095) / 4096))
  || ((hstart / 4096 <=? g) && (g <? (hstart + hsize + 4095) / 4096))
  || match ramdisk with
     | Some (ra, rs) => (ra / 4096 <=? g) && (g <? (ra + rs + 4095) / 4096)
     | None => false
     end.

(** The byte ranges handed to `protect_boot_memory` do not reach the top of the address space. *)
Definition boot_args_ok (kstart kend hstart hsize : Z) (ramdisk : option (Z * Z)) : Prop :=
  0 <= kstart /\ 0 <= kend /\ kend + 4096 <= 2 ^ 64 /\
  0 <= hstart /\ 0 <= hsize /\ hstart + hsize + 4096 <= 2 ^ 64 /\
  match ramdisk with
  | Some (ra, rs) => 0 <= ra /\ 0 <= rs /\ ra + rs + 4096 <= 2 ^ 64
  | None => True
  end.

Lemma protect_boot_memory_spec ks ke hs hz rd bm :
  wf bm -> boot_args_ok ks ke hs hz rd ->
  wf (protect_boot_memory ks ke hs hz rd bm) /\
  length (protect_boot_memory ks ke hs hz rd bm) = length bm /\
  forall g, 0 <= g -> used (protect_boot_memory ks ke hs hz rd bm) g =
                      used bm g || boot_protected ks ke hs hz rd g.
Proof.
  intros Hwf (? & ? & ? & ? & ? & ? & Hrd). unfold protect_boot_memory, add64.
  rewrite (u64_small (hs + hz)) by (split; lia).
  destruct rd as [[ra rs]|]; [destruct Hrd as (? & ? & ?)|].
  - rewrite (u64_small (ra + rs)) by (split; lia).
    split_and!; [by auto with kpmm|by autorewrite with kpmm|].
    intros g Hg. rewrite !used_protect_bytes, used_reserve_range by (auto with kpmm; lia).
    unfold boot_protected, in_range. zcases; btauto.
  - split_and!; [by auto with kpmm|by autorewrite with kpmm|].
    intros g Hg. rewrite !used_protect_bytes, used_reserve_range by (auto with kpmm; lia).
    unfold boot_protected, in_range. zcases; btauto.
Qed.

Lemma wf_new N : wf (new N).
Proof. apply Forall_replicate. done. Qed.

Lemma used_new N g : 0 <= g -> used (new N) g = true.
Proof.
  intros Hg. unfold used, new. destruct (replicate _ _ !! _) eqn:E; [|done].
  apply lookup_replicate in E as [-> _]. rewrite testbit_ones' by lia.
  pose proof (Z.mod_pos_bound g 64). zcases; done.
Qed.

(** ** Properties *)

(** Every sequence of operations the kernel performs on the frame pool. *)
Inductive pmm_step : bitmap -> bitmap -> Prop :=
| step_alloc bm r bm' : allocate_next_frame bm = (r, bm') -> pmm_step bm bm'
| step_free bm k : 0 <= k -> pmm_step bm (free_frame bm k)
| step_reserve bm k : 0 <= k -> pmm_step bm (reserve_frame bm k).

Definition pmm_reachable : bitmap -> Prop := rtc pmm_step PHYSICAL_PMM.

Lemma pmm_step_inv bm bm' :
  pmm_step bm bm' -> wf bm -> used bm 0 = true ->
  wf bm' /\ used bm' 0 = true /\ length bm' = length bm.
Proof.
  intros Hs Hwf H0. destruct Hs as [bm r bm' E|bm k Hk|bm k Hk].
  - destruct (allocate_from_spec 0 bm r bm' Hwf E) as (? & ? & Hr). split_and!; try done.
    destruct r as [f|]; [|by destruct Hr as [-> _]].
    destruct Hr as (_ & _ & _ & Ha). rewrite Ha, H0 by lia. done.
  - split_and!; [by apply wf_free_frame| |apply length_free_frame].
    rewrite used_free_frame, H0 by (done || lia). zcases; done.
  - split_and!; [by apply wf_reserve_frame| |apply length_reserve_frame].
    rewrite used_reserve_frame, H0 by (done || lia). done.
Qed.

Lemma pmm_reachable_inv bm :
  pmm_reachable bm -> wf bm /\ used bm 0 = true /\ length bm = PMM_WORDS.
Proof.
  intros H. unfold pmm_reachable in H.
  remember PHYSICAL_PMM as bm0 eqn:E.
  assert (wf bm0 /\ used bm0 0 = true /\ length bm0 = PMM_WORDS) as Hinv.
  { subst. split_and!; [apply wf_new|by apply used_new|apply length_replicate]. }
  clear E. induction H as [|bm1 bm2 bm3 Hs _ IH]; [done|].
  destruct Hinv as (? & ? & ?). destruct (pmm_step_inv bm1 bm2) as (? & ? & ?); try done.
  apply IH. split_and!; congruence.
Qed.

(** `allocate_next_frame` returns the lowest-numbered free frame and marks exactly
    that frame as used; it returns `None`, and changes nothing, exactly when every
    frame the bitmap tracks is in use. *)
Theorem allocate_next_frame_lowest bm r bm' (Hwf : wf bm) :
  allocate_next_frame bm = (r, bm') ->
  wf bm' /\
  match r with
  | Some f =>
      0 <= f < frames bm /\ used bm f = false /\
      (forall g, 0 <= g < f -> used bm g = true) /\
      (forall g, 0 <= g -> used bm' g = used bm g || (g =? f))
  | None => bm' = bm /\ forall g, 0 <= g < frames bm -> used bm g = true
  end.
Proof.
  intros Hal. destruct (allocate_from_spec 0 bm r bm' Hwf Hal) as (Hwf' & _ & Hr).
  split; [done|]. destruct r as [f|].
  - simpl in Hr. rewrite !Z.sub_0_r in Hr. destruct Hr as (? & ? & ? & ?).
    split_and!; try done; by apply used_false_range.
  - destruct Hr as [-> Hr]. split; [done|]. intros g [Hg _]. by apply Hr.
Qed.

Lemma allocate_next_frame_lowest_witness :
  wf [Z.ones 64; 0x17] /\
  allocate_next_frame [Z.ones 64; 0x17] = (Some 67, [Z.ones 64; 0x1f]) /\
  used [Z.ones 64; 0x1f] 69 = false.
Proof.
  assert (wf [Z.ones 64; 0x17]) as Hwf by (repeat constructor; vm_compute; done).
  assert (allocate_next_frame [Z.ones 64; 0x17] = (Some 67, [Z.ones 64; 0x1f])) as E by reflexivity.
  destruct (allocate_next_frame_lowest _ _ _ Hwf E) as (_ & _ & _ & _ & Ha).
  split_and!; [done|done|]. rewrite Ha by lia. reflexivity.
Defined.

(** whatever sequence of allocations, releases and reservations the kernel performs
    on `PHYSICAL_PMM`, `vmm_alloc_frame` never hands out physical address 0, so the
    guard `if frame == 0 { panic!(..) }` of `handle_page_fault` cannot fire; what it
    hands out is a page-aligned address below 256 MiB. *)
Theorem vmm_alloc_frame_nonzero bm a bm' (Hreach : pmm_reachable bm) :
  vmm_alloc_frame bm = (Some a, bm') ->
  0 < a < 256 * 1024 * 1024 /\ a mod PAGE_SIZE = 0 /\ pmm_reachable bm'.
Proof.
  intros Hal. destruct (pmm_reachable_inv bm Hreach) as (Hwf & H0 & Hlen).
  assert (pmm_ok bm) as Hok.
  { split_and!; try done. unfold frames. rewrite Hlen. vm_compute. done. }
  destruct (vmm_alloc_frame_spec bm _ bm' Hok Hal) as (_ & _ & f & -> & Hf & _).
  unfold frames in Hf. rewrite Hlen in Hf. change (64 * Z.of_nat PMM_WORDS) with 65536 in Hf.
  split_and!; [lia|lia|unfold PAGE_SIZE; by apply Z.mod_mul|].
  eapply rtc_r; [exact Hreach|]. unfold vmm_alloc_frame in Hal.
  destruct (allocate_next_frame bm) as [r b] eqn:E. simplify_eq. by eapply step_alloc.
Qed.

Lemma vmm_alloc_frame_nonzero_witness :
  let bm := free_range PHYSICAL_PMM 0 8 in
  exists bm', vmm_alloc_frame bm = (Some 4096, bm') /\ pmm_reachable bm'.
Proof.
  set (bm := free_range PHYSICAL_PMM 0 8). eexists. split; [reflexivity|].
  refine (proj2 (proj2 (vmm_alloc_frame_nonzero bm 4096 _ _ eq_refl))).
  unfold bm, free_range. cbn [Z.to_nat Pos.to_nat Pos.iter_op Init.Nat.add for_range].
  repeat (eapply rtc_r; [|apply step_free; lia]). apply rtc_refl.
Defined.

(** releasing the frame that was just allocated restores the pool: the same frames
    are in use as before the allocation. *)
Theorem alloc_free_roundtrip bm a bm' (Hok : pmm_ok bm) :
  vmm_alloc_frame bm = (Some a, bm') ->
  forall g, 0 <= g -> used (vmm_free_frame bm' a) g = used bm g.
Proof.
  intros Hal g Hg. destruct (vmm_alloc_frame_spec bm _ bm' Hok Hal) as (Hok' & Hl & f & -> & Hf & Hu & _ & Ha).
  destruct (vmm_free_frame_spec bm' (f * 4096)) as (_ & _ & Hfree); [done|lia|].
  rewrite Hfree, Z.div_mul, Ha by lia. unfold freeable, frames. rewrite Hl. unfold frames in Hf.
  destruct (Z.eqb_spec g f) as [->|]; [rewrite Hu|]; zcases; btauto.
Qed.

Lemma alloc_free_roundtrip_witness :
  used (vmm_free_frame [Z.ones 64; 0x1f] (67 * 4096)) 67 = false.
Proof.
  refine (alloc_free_roundtrip [Z.ones 64; 0x17] (67 * 4096) _ _ eq_refl 67 ltac:(lia)).
  split_and!; [repeat constructor; vm_compute; done|reflexivity|vm_compute; done].
Defined.

Definition usable (t : Z) : bool := t =? LIMINE_MEMMAP_USABLE.
Definition reclaimable (t : Z) : bool :=
  (t =? LIMINE_MEMMAP_ACPI_RECLAIMABLE) || (t =? LIMINE_MEMMAP_BOOTLOADER_RECLAIMABLE).

(** The order of main.rs on x86_64: the Limine map, the protected ranges, the reclaim. *)
Abbreviation boot_pool_x86 mm ks ke hs hz rd :=
  (reclaim_boot_memory (Some mm)
    (protect_boot_memory ks ke hs hz rd (snd (init_pmm_from_limine (Some mm) PHYSICAL_PMM)))).

(** the exact content of the frame pool after the x86_64 boot sequence
    (`init_pmm_from_limine`, `protect_boot_memory`, `reclaim_boot_memory`): a frame is
    free when it is tracked, lies at or above 1 MiB, and either a USABLE entry of the
    memory map covers it and no boot-critical range does, or a reclaimable entry
    covers it (reclaiming overrides the protection of the kernel, heap and ramdisk). *)
Theorem boot_pool_x86_exact mm ks ke hs hz rd g
    (Hmm : memmap_ok mm) (Hargs : boot_args_ok ks ke hs hz rd) (Hg : 0 <= g) :
  used (boot_pool_x86 mm ks ke hs hz rd) g = false <->
  256 <= g < 65536 /\
  ((covered usable mm g = true /\ boot_protected ks ke hs hz rd g = false)
   \/ covered reclaimable mm g = true).
Proof.
  unfold reclaim_boot_memory, init_pmm_from_limine. cbn [snd].
  fold reclaimable. fold usable.
  destruct (free_entries_spec usable mm PHYSICAL_PMM) as (Hwf1 & Hl1 & Hu1); [apply wf_new|done|].
  set (b1 := free_entries usable mm PHYSICAL_PMM) in *.
  set (b2 := reserve_range b1 0 256).
  destruct (protect_boot_memory_spec ks ke hs hz rd b2) as (Hwf3 & Hl3 & Hu3);
    [unfold b2; auto with kpmm|done|].
  set (b3 := protect_boot_memory ks ke hs hz rd b2) in *.
  destruct (free_entries_spec reclaimable mm b3 Hwf3 Hmm) as (Hwf4 & Hl4 & Hu4).
  set (b4 := free_entries reclaimable mm b3) in *.
  rewrite used_reserve_range, Hu4, Hu3 by (done || lia). unfold b2.
  rewrite used_reserve_range, Hu1 by (done || lia). unfold PHYSICAL_PMM at 1.
  rewrite used_new by done. unfold freeable, frames. rewrite Hl3. unfold b2.
  rewrite length_reserve_range, Hl1. change (64 * Z.of_nat (length PHYSICAL_PMM)) with 65536.
  unfold in_range. destruct (boot_protected _ _ _ _ _ g), (covered usable mm g), (covered reclaimable mm g);
    zcases; simpl; intuition (try done; try lia).
Qed.

Definition example_map : memmap :=
  [Some {| base := 0x100000; length_ := 0x200000; typ := 0 |};
   Some {| base := 0x300000; length_ := 0x10000; typ := 5 |}; None].

Lemma boot_pool_x86_exact_witness :
  used (boot_pool_x86 example_map 0x100000 0x140000 0x150000 0xA0000 None) 0x200 = false.
Proof.
  refine (proj2 (boot_pool_x86_exact example_map 0x100000 0x140000 0x150000 0xA0000 None 0x200 _ _ _) _).
  - repeat constructor; vm_compute; done.
  - vm_compute. intuition congruence.
  - lia.
  - split; [lia|]. left. split; reflexivity.
Defined.

Lemma init_pmm_static_spec bm :
  wf bm -> wf (init_pmm_static bm) /\
  forall g, 0 <= g -> used (init_pmm_static bm) g =
                      used bm g && negb (in_range 0 65536 g && freeable bm g).
Proof.
  intros Hwf. unfold init_pmm_static. change (1024 * 64) with 65536. split; [by apply wf_free_range|].
  intros g Hg. by rewrite used_free_range by (done || lia).
Qed.

(** on AArch64 (`init_pmm_static` then `protect_boot_memory`) the pool holds exactly
    the tracked frames outside the protected ranges. *)
Theorem boot_pool_aarch64_exact ks ke hs hz g
    (Hargs : boot_args_ok ks ke hs hz None) (Hg : 0 <= g) :
  used (protect_boot_memory ks ke hs hz None (init_pmm_static PHYSICAL_PMM)) g = false <->
  g < 65536 /\ boot_protected ks ke hs hz None g = false.
Proof.
  destruct (init_pmm_static_spec PHYSICAL_PMM (wf_new _)) as [Hwf Hst].
  generalize dependent (init_pmm_static PHYSICAL_PMM). intros bm Hwf Hst.
  destruct (protect_boot_memory_spec ks ke hs hz None bm Hwf Hargs) as (_ & _ & Hu).
  rewrite Hu, Hst, (used_new PMM_WORDS) by done.
  unfold freeable. change (frames PHYSICAL_PMM) with 65536. unfold in_range.
  destruct (boot_protected ks ke hs hz None g) eqn:E; [rewrite orb_true_r; split; [done|by intros [_ ?]]|].
  unfold boot_protected in E. destruct (Z.ltb_spec g 256); [done|].
  zcases; simpl; intuition (try done; try lia).
Qed.

Lemma boot_pool_aarch64_exact_witness :
  used (protect_boot_memory 0 0x120000 0x150000 0x800000 None (init_pmm_static PHYSICAL_PMM)) 0x950 = false.
Proof.
  refine (proj2 (boot_pool_aarch64_exact 0 0x120000 0x150000 0x800000 0x950 _ _) _).
  - vm_compute. intuition congruence.
  - lia.
  - split; [lia|reflexivity].
Defined.
