(* ===== verification/Vmm.v ===== *)
(** Virtual memory (src/src/vmm.rs, and the page-table code of src/src/memory.rs
    and src/src/mmu.rs).

    The two `arch` modules of vmm.rs contain the same four-level walk over
    different descriptor encodings.  [PageArch] collects what differs (the
    encoding, `phys_to_virt`, and the x86_64-only upgrade of an existing
    intermediate entry); [X86] and [A64] are the two encodings; the walk is
    written once over the class. *)
From S2P Require Import Prelude Pmm.

(** ** `memory::MapFlags` *)
Record MapFlags := {
  writable : bool;
  user_accessible : bool;
  execute_disable : bool;
  device : bool
}.

Definition kernel_code : MapFlags :=
  {| writable := false; user_accessible := false; execute_disable := false; device := false |}.
Definition kernel_data : MapFlags :=
  {| writable := true; user_accessible := false; execute_disable := true; device := false |}.

Inductive MemoryError := FrameAllocationFailed | AlreadyMapped | InvalidAddress.
#[export] Instance MemoryError_eq_dec : EqDecision MemoryError.
Proof. solve_decision. Defined.

Definition USER_SPACE_BASE : Z := Z.shiftl 1 39.

Definition or_if (b : bool) (mask raw : Z) : Z := if b then Z.lor raw mask else raw.

(** ** x86_64 page-table entries *)
Module X86.
Definition ADDR_MASK : Z := 0x000FFFFFFFFFF000.
Definition is_present (e : Z) : bool := negb (Z.land e 1 =? 0).
Definition is_user_accessible (e : Z) : bool := bit e 2.
Definition is_writable (e : Z) : bool := bit e 1.
Definition physical_address (e : Z) : Z := Z.land e ADDR_MASK.
Definition set_frame (phys_addr : Z) (flags : MapFlags) : Z :=
  let raw := Z.lor (Z.land phys_addr ADDR_MASK) 1 in
  let raw := or_if (writable flags) (Z.shiftl 1 1) raw in
  let raw := or_if (user_accessible flags) (Z.shiftl 1 2) raw in
  or_if (execute_disable flags) (Z.shiftl 1 63) raw.
Definition ensure_user_accessible (e : Z) : Z := Z.lor e (Z.shiftl 1 2).
(** `memory::phys_to_virt` on x86_64. *)
Definition phys_to_virt (hhdm phys : Z) : Z := add64 phys hhdm.
(** The huge-page test of `translate_addr`, `(entry.0 & (1 << 7)) != 0`. *)
Definition is_huge (e : Z) : bool := bit e 7.
End X86.

(** ** AArch64 descriptors *)
Module A64.
Definition ADDR_MASK : Z := 0x0000FFFFFFFFF000.
Definition is_present (e : Z) : bool := negb (Z.land e 1 =? 0).
Definition is_user_accessible (e : Z) : bool := bit e 6.
Definition is_writable (e : Z) : bool := negb (bit e 7).
Definition physical_address (e : Z) : Z := Z.land e ADDR_MASK.
Definition set_frame (phys : Z) (flags : MapFlags) (is_table : bool) : Z :=
  let raw := Z.lor (Z.land phys ADDR_MASK) 3 in
  let raw := Z.lor raw (Z.shiftl 1 10) in
  let raw := or_if (negb (writable flags)) (Z.shiftl 1 7) raw in
  let raw := or_if (user_accessible flags) (Z.shiftl 1 6) raw in
  let raw := or_if (execute_disable flags) (Z.lor (Z.shiftl 1 53) (Z.shiftl 1 54)) raw in
  or_if (negb is_table && device flags) (Z.shiftl 1 2) raw.
Definition phys_to_virt (_hhdm phys : Z) : Z := phys.
(** The block-descriptor test of `translate_addr`, `(entry.0 & 0b11) == 0b01`. *)
Definition is_block (e : Z) : bool := Z.land e 3 =? 1.
End A64.

Class PageArch := {
  p2v : Z -> Z -> Z;
  is_present : Z -> bool;
  is_user_accessible : Z -> bool;
  is_writable : Z -> bool;
  physical_address : Z -> Z;
  set_frame : Z -> MapFlags -> bool -> Z;
  is_block : Z -> bool;
  (** What `next_table` does to an entry that already exists, for a user mapping. *)
  upgrade : option (Z -> Z);
  (** The root register `handle_page_fault` reads, given the faulting address and the
      values of CR3 / TTBR0_EL1 and TTBR1_EL1. *)
  fault_root : Z -> Z -> Z -> Z
}.

Definition x86_64 : PageArch := {|
  p2v := X86.phys_to_virt;
  is_present := X86.is_present;
  is_user_accessible := X86.is_user_accessible;
  is_writable := X86.is_writable;
  physical_address := X86.physical_address;
  set_frame phys flags _ := X86.set_frame phys flags;
  is_block := X86.is_huge;
  upgrade := Some X86.ensure_user_accessible;
  fault_root _ cr3 _ := Z.land cr3 0x000FFFFFFFFFF000
|}.

Definition aarch64 : PageArch := {|
  p2v := A64.phys_to_virt;
  is_present := A64.is_present;
  is_user_accessible := A64.is_user_accessible;
  is_writable := A64.is_writable;
  physical_address := A64.physical_address;
  set_frame := A64.set_frame;
  is_block := A64.is_block;
  upgrade := None;
  fault_root fault_addr ttbr0 ttbr1 :=
    Z.land (if fault_addr <? 0xFFFF000000000000 then ttbr0 else ttbr1) 0x0000FFFFFFFFF000
|}.

(** ** Machine state the memory code runs on

    [mem] is memory as the kernel dereferences it, [pmm] the frame pool, [hhdm]
    `memory::HHDM_OFFSET`, [root_reg] the live CR3 / TTBR0_EL1, [root_reg1] TTBR1_EL1. *)
Record machine (P : Type) := Machine {
  mem : mem_t;
  pmm : P;
  hhdm : Z;
  root_reg : Z;
  root_reg1 : Z
}.
Arguments Machine {P}. Arguments mem {P}. Arguments pmm {P}. Arguments hhdm {P}.
Arguments root_reg {P}. Arguments root_reg1 {P}.

Definition with_mem {P} (f : mem_t) (m : machine P) : machine P :=
  Machine f (pmm m) (hhdm m) (root_reg m) (root_reg1 m).
Definition with_pmm {P} (p : P) (m : machine P) : machine P :=
  Machine (mem m) p (hhdm m) (root_reg m) (root_reg1 m).
Definition with_root {P} (r : Z) (m : machine P) : machine P :=
  Machine (mem m) (pmm m) (hhdm m) r (root_reg1 m).

(** `(virt >> k) & 0x1FF`. *)
Definition table_idx (virt k : Z) : Z := Z.land (shr virt k) 0x1FF.

(** The address of `entries[i]` of a dereferenceable table pointer. *)
Definition entry_ptr (table i : Z) : Z := table + 8 * i.

Section walk.
Context `{A : PageArch} {P : Type} `{FA : FrameAllocator P}.
Implicit Types m : machine P.

Definition table_flags : MapFlags :=
  {| writable := true; user_accessible := true; execute_disable := false; device := false |}.

(** `arch::next_table`: [ea] is the address of the entry. *)
Definition next_table (ea : Z) (user : bool) m : Result Z MemoryError * machine P :=
  let e := read_u64 (mem m) ea in
  if negb (is_present e) then
    match fa_alloc (pmm m) with
    | (None, p') => (Err FrameAllocationFailed, with_pmm p' m)
    | (Some frame, p') =>
        let m := with_pmm p' m in
        let m := with_mem (write_bytes (mem m) (p2v (hhdm m) frame) 0 4096) m in
        let e' := set_frame frame table_flags true in
        let m := with_mem (write_u64 (mem m) ea e') m in
        (Ok (p2v (hhdm m) (physical_address e')), m)
    end
  else
    match upgrade with
    | Some up =>
        if user then
          let e' := up e in
          (Ok (p2v (hhdm m) (physical_address e')), with_mem (write_u64 (mem m) ea e') m)
        else (Ok (p2v (hhdm m) (physical_address e)), m)
    | None => (Ok (p2v (hhdm m) (physical_address e)), m)
    end.

(** `arch::map_page`. *)
Definition map_page (root virt phys : Z) (flags : MapFlags) m : Result unit MemoryError * machine P :=
  if negb (Z.land virt 0xFFF =? 0) || negb (Z.land phys 0xFFF =? 0) then (Err InvalidAddress, m)
  else
    let u := user_accessible flags in
    let t0 := p2v (hhdm m) root in
    match next_table (entry_ptr t0 (table_idx virt 39)) u m with
    | (Err e, m) => (Err e, m)
    | (Ok t1, m) =>
      match next_table (entry_ptr t1 (table_idx virt 30)) u m with
      | (Err e, m) => (Err e, m)
      | (Ok t2, m) =>
        match next_table (entry_ptr t2 (table_idx virt 21)) u m with
        | (Err e, m) => (Err e, m)
        | (Ok t3, m) =>
          let ea := entry_ptr t3 (table_idx virt 12) in
          if is_present (read_u64 (mem m) ea) then (Err AlreadyMapped, m)
          else (Ok tt, with_mem (write_u64 (mem m) ea (set_frame phys flags false)) m)
        end
      end
    end.

(** `arch::unmap_page`. *)
Definition unmap_page (root virt : Z) m : Result unit MemoryError * machine P :=
  if negb (Z.land virt 0xFFF =? 0) then (Err InvalidAddress, m)
  else
    let e0 := read_u64 (mem m) (entry_ptr (p2v (hhdm m) root) (table_idx virt 39)) in
    if negb (is_present e0) then (Err InvalidAddress, m) else
    let e1 := read_u64 (mem m) (entry_ptr (p2v (hhdm m) (physical_address e0)) (table_idx virt 30)) in
    if negb (is_present e1) then (Err InvalidAddress, m) else
    let e2 := read_u64 (mem m) (entry_ptr (p2v (hhdm m) (physical_address e1)) (table_idx virt 21)) in
    if negb (is_present e2) then (Err InvalidAddress, m) else
    let ea := entry_ptr (p2v (hhdm m) (physical_address e2)) (table_idx virt 12) in
    if negb (is_present (read_u64 (mem m) ea)) then (Err InvalidAddress, m) else
    (Ok tt, with_mem (write_u64 (mem m) ea 0) m).

(** `arch::translate_addr`. *)
Definition translate_addr (root virt : Z) m : option Z :=
  let e0 := read_u64 (mem m) (entry_ptr (p2v (hhdm m) root) (table_idx virt 39)) in
  if negb (is_present e0) then None else
  let e1 := read_u64 (mem m) (entry_ptr (p2v (hhdm m) (physical_address e0)) (table_idx virt 30)) in
  if negb (is_present e1) then None else
  if is_block e1 then
    Some (add64 (Z.land (physical_address e1) (not64 0x3FFFFFFF)) (Z.land virt 0x3FFFFFFF)) else
  let e2 := read_u64 (mem m) (entry_ptr (p2v (hhdm m) (physical_address e1)) (table_idx virt 21)) in
  if negb (is_present e2) then None else
  if is_block e2 then
    Some (add64 (Z.land (physical_address e2) (not64 0x1FFFFF)) (Z.land virt 0x1FFFFF)) else
  let e3 := read_u64 (mem m) (entry_ptr (p2v (hhdm m) (physical_address e2)) (table_idx virt 12)) in
  if negb (is_present e3) then None else
  Some (add64 (physical_address e3) (Z.land virt 0xFFF)).

(** `handle_page_fault`. *)
Definition handle_page_fault (fault_addr : Z) (present is_user : bool) m : outcome bool * machine P :=
  if present then (Returns false, m)
  else
    let aligned_virt := Z.land fault_addr (not64 0xFFF) in
    let root := fault_root fault_addr (root_reg m) (root_reg1 m) in
    match fa_alloc (pmm m) with
    | (None, p') => (Returns false, with_pmm p' m)
    | (Some frame, p') =>
        let m := with_pmm p' m in
        if frame =? 0 then (Panics, m)
        else
          let m := with_mem (write_bytes (mem m) (p2v (hhdm m) frame) 0 4096) m in
          let flags := {| writable := true; user_accessible := is_user;
                          execute_disable := false; device := false |} in
          let '(r, m) := map_page root aligned_virt frame flags m in
          (Returns (is_ok r), m)
    end.

(** ** Teardown *)

(** `for i in lo..hi { body }` over a loop state. *)
Definition for_loop {S} (lo hi : nat) (body : Z -> S -> S) (s : S) : S :=
  fold_left (fun s i => body (Z.of_nat i) s) (seq lo (hi - lo)) s.

Definition present_entry (m : machine P) (table_phys i : Z) : option Z :=
  let e := read_u64 (mem m) (entry_ptr (p2v (hhdm m) table_phys) i) in
  if is_present e then Some (physical_address e) else None.

Definition for_present (m : machine P) (lo : nat) (table_phys : Z) (body : Z -> P -> P) (p : P) : P :=
  for_loop lo 512 (fun i p => match present_entry m table_phys i with
                              | Some a => body a p
                              | None => p
                              end) p.

(** `free_process_page_table`: only the pool changes, the tables are read. *)
Definition free_process_page_table (root : Z) (m : machine P) : machine P :=
  let p := for_present m 1 root (fun l1_phys p =>
      let p := for_present m 0 l1_phys (fun l2_phys p =>
          let p := for_present m 0 l2_phys (fun l3_phys p =>
              let p := for_present m 0 l3_phys (fun leaf p => fa_free p leaf) p in
              fa_free p l3_phys) p in
          fa_free p l2_phys) p in
      fa_free p l1_phys) (pmm m) in
  with_pmm (fa_free p root) m.

(** ** User-pointer validation *)

(** `present_child`, returning the dereferenceable table pointer. *)
Definition present_child (m : machine P) (e : Z) : option Z :=
  if is_present e then Some (p2v (hhdm m) (physical_address e)) else None.

Definition page_is_user_accessible (root virt : Z) (need_write : bool) (m : machine P) : bool :=
  let t0 := p2v (hhdm m) root in
  match present_child m (read_u64 (mem m) (entry_ptr t0 (table_idx virt 39))) with
  | None => false
  | Some t1 =>
    match present_child m (read_u64 (mem m) (entry_ptr t1 (table_idx virt 30))) with
    | None => false
    | Some t2 =>
      match present_child m (read_u64 (mem m) (entry_ptr t2 (table_idx virt 21))) with
      | None => false
      | Some t3 =>
        let leaf := read_u64 (mem m) (entry_ptr t3 (table_idx virt 12)) in
        is_present leaf && is_user_accessible leaf && (negb need_write || is_writable leaf)
      end
    end
  end.

(** The page loop of `validate_user_range`; [fuel] bounds the number of pages. *)
Fixpoint check_pages (fuel : nat) (root page last_page : Z) (need_write : bool) (m : machine P) : bool :=
  match fuel with
  | O => false
  | S n =>
      if negb (page_is_user_accessible root page need_write m) then false
      else if page =? last_page then true
      else check_pages n root (add64 page 0x1000) last_page need_write m
  end.

Definition validate_user_range (root ptr len : Z) (need_write : bool) (m : machine P) : bool :=
  if len =? 0 then true
  else match checked_add64 ptr len with
  | None => false
  | Some stop =>
      if ptr <? USER_SPACE_BASE then false
      else
        let first_page := Z.land ptr (not64 0xFFF) in
        let last_page := Z.land (sub64 stop 1) (not64 0xFFF) in
        check_pages (S (Z.to_nat ((last_page - first_page) / 4096))) root first_page last_page need_write m
  end.

(** `mmu::identity_map_range`: errors of `map_page` are dropped. *)
Definition identity_map_range (root base size : Z) (flags : MapFlags) m : machine P :=
  let pages := sub64 (add64 size 4096) 1 / 4096 in
  for_loop 0 (Z.to_nat pages)
    (fun i m => let addr := add64 base (mul64 i 4096) in snd (map_page root addr addr flags m)) m.

End walk.

(** ** Page tables of processes, and the boot-time maps *)
Section process_tables.
Context {P : Type} `{FA : FrameAllocator P}.
Implicit Types m : machine P.

(** `memory::set_hhdm_offset`. *)
Definition set_hhdm_offset (offset : Z) m : machine P :=
  Machine (mem m) (pmm m) offset (root_reg m) (root_reg1 m).

(** `memory::create_process_page_table` on x86_64: every entry of the live PML4 is copied. *)
Definition create_process_page_table_x86 m : option Z * machine P :=
  match fa_alloc (pmm m) with
  | (None, p') => (None, with_pmm p' m)
  | (Some root_frame, p') =>
      let m := with_pmm p' m in
      let new_root := X86.phys_to_virt (hhdm m) root_frame in
      let m := with_mem (write_bytes (mem m) new_root 0 4096) m in
      let active_root := X86.phys_to_virt (hhdm m) (Z.land (root_reg m) (not64 0xFFF)) in
      (Some root_frame,
       for_loop 0 512 (fun i m =>
         with_mem (write_u64 (mem m) (entry_ptr new_root i) (read_u64 (mem m) (entry_ptr active_root i))) m) m)
  end.

(** The same function on AArch64: the kernel root, if there is one, is copied byte by byte. *)
Definition create_process_page_table_aarch64 (kernel_root : Z) m : option Z * machine P :=
  match fa_alloc (pmm m) with
  | (None, p') => (None, with_pmm p' m)
  | (Some root_frame, p') =>
      let m := with_pmm p' m in
      let m := with_mem (write_bytes (mem m) root_frame 0 4096) m in
      if negb (kernel_root =? 0)
      then (Some root_frame, with_mem (copy_to (mem m) root_frame (read_n 4096 (mem m) kernel_root)) m)
      else (Some root_frame, m)
  end.

(** `memory::map_page` (x86_64): the older mapping routine used for MMIO and loader pages. *)
Definition get_or_create_table (ea : Z) m : Result Z string * machine P :=
  let val := read_u64 (mem m) ea in
  if negb (Z.land val 1 =? 0) then
    (Ok (X86.phys_to_virt (hhdm m) (Z.land val (not64 0xFFF))), m)
  else match fa_alloc (pmm m) with
  | (None, p') => (Err "Out of memory: failed to allocate page table frame"%string, with_pmm p' m)
  | (Some new_frame, p') =>
      let m := with_pmm p' m in
      let m := with_mem (write_bytes (mem m) (X86.phys_to_virt (hhdm m) new_frame) 0 4096) m in
      let m := with_mem (write_u64 (mem m) ea (Z.lor new_frame 7)) m in
      (Ok (X86.phys_to_virt (hhdm m) new_frame), m)
  end.

Definition memory_map_page (page_table_root vaddr paddr : Z) m : Result unit string * machine P :=
  let pml4 := X86.phys_to_virt (hhdm m) page_table_root in
  match get_or_create_table (entry_ptr pml4 (table_idx vaddr 39)) m with
  | (Err e, m) => (Err e, m)
  | (Ok pdpt, m) =>
    match get_or_create_table (entry_ptr pdpt (table_idx vaddr 30)) m with
    | (Err e, m) => (Err e, m)
    | (Ok pd, m) =>
      match get_or_create_table (entry_ptr pd (table_idx vaddr 21)) m with
      | (Err e, m) => (Err e, m)
      | (Ok pt, m) =>
          (Ok tt, with_mem (write_u64 (mem m) (entry_ptr pt (table_idx vaddr 12)) (Z.lor paddr 7)) m)
      end
    end
  end.

(** `memory::unmap_low_half_identity_map`. *)
Definition unmap_low_half_identity_map m : machine P :=
  let root_phys := Z.land (root_reg m) (not64 0xFFF) in
  with_mem (write_u64 (mem m) (X86.phys_to_virt (hhdm m) root_phys) 0) m.

(** `mmu::init`: [None] is the endless loop taken when no root frame is left; otherwise
    the new `KERNEL_ROOT` and the machine with TTBR0_EL1 loaded. *)
Definition KERNEL_IDENTITY_MAP_SIZE : Z := 32 * 1024 * 1024.
Definition LOCAL_BASE : Z := 0x40000000.
Definition GPIO_BASE : Z := 0x3F200000.
Definition UART0_BASE : Z := 0x3F201000.
Definition FB_ADDR : Z := 0xFD000000.
Definition FB_SIZE : Z := 4096 * 768.

Definition mmu_init m : option (Z * machine P) :=
  match fa_alloc (pmm m) with
  | (None, _) => None
  | (Some root, p') =>
      let m := with_pmm p' m in
      let m := with_mem (write_bytes (mem m) root 0 4096) m in
      let normal := {| writable := true; user_accessible := false; execute_disable := false; device := false |} in
      let dev := {| writable := true; user_accessible := false; execute_disable := true; device := true |} in
      let m := identity_map_range (A := aarch64) root 0 KERNEL_IDENTITY_MAP_SIZE normal m in
      let m := identity_map_range (A := aarch64) root LOCAL_BASE 4096 dev m in
      let m := identity_map_range (A := aarch64) root GPIO_BASE 4096 dev m in
      let m := identity_map_range (A := aarch64) root UART0_BASE 4096 dev m in
      let m := identity_map_range (A := aarch64) root FB_ADDR FB_SIZE dev m in
      Some (root, with_root root m)
  end.

(** The translation-control value `mmu::init` computes from ID_AA64MMFR0_EL1. *)
Definition read_pa_range_bits (mmfr0 : Z) : Z := Z.land mmfr0 0xF.
Definition mmu_tcr (ips : Z) : Z :=
  Z.lor (Z.lor (Z.lor (Z.lor (Z.lor (Z.lor (Z.lor (Z.lor 16 (Z.shiftl 1 8)) (Z.shiftl 1 10))
    (Z.shiftl 3 12)) (Z.shiftl 0 14)) (Z.shiftl 16 16)) (Z.shiftl 1 23)) (Z.shiftl 2 30)) (shl64 ips 32).
Definition mmu_sctlr (sctlr : Z) : Z :=
  Z.lor (Z.lor (Z.lor sctlr (Z.shiftl 1 0)) (Z.shiftl 1 2)) (Z.shiftl 1 12).
End process_tables.

(** ** The second `arch` module of vmm.rs

    The walk at the AArch64 encoding; at [x86_64] it is the first `arch` module. *)
Module arch_aarch64.
Definition next_table {P} `{FrameAllocator P} := Vmm.next_table (A := aarch64) (P := P).
Definition map_page {P} `{FrameAllocator P} := Vmm.map_page (A := aarch64) (P := P).
Definition unmap_page {P} := Vmm.unmap_page (A := aarch64) (P := P).
Definition translate_addr {P} := Vmm.translate_addr (A := aarch64) (P := P).
End arch_aarch64.
