(* ===== verification/VmmTheory.v ===== *)
(** Theory of the page-table walk of [Vmm]: laws of the two descriptor encodings,
    the tree view of a page table, and what `next_table` does to it. *)
From S2P Require Import Prelude Pmm Vmm.

(** A page-aligned 64-bit address. *)
Definition page (a : Z) : Prop := a mod 4096 = 0 /\ fits 64 a.

(** ** Laws of a descriptor encoding *)
Class PageArchLaws (A : PageArch) := {
  present_zero : is_present 0 = false;
  pa_page : forall e, physical_address e mod 4096 = 0 /\ 0 <= physical_address e < 2 ^ 52;
  present_set_frame : forall p f t, is_present (set_frame p f t) = true;
  pa_set_frame : forall p f t, p mod 4096 = 0 -> 0 <= p < 2 ^ 48 ->
    physical_address (set_frame p f t) = p;
  block_set_frame : forall p f t, is_block (set_frame p f t) = false;
  user_set_frame : forall p f t, is_user_accessible (set_frame p f t) = user_accessible f;
  writable_set_frame : forall p f t, is_writable (set_frame p f t) = writable f;
  fits_set_frame : forall p f t, 0 <= p -> fits 64 (set_frame p f t);
  upgrade_same : forall up e, upgrade = Some up -> fits 64 e ->
    is_present (up e) = is_present e /\ physical_address (up e) = physical_address e /\
    is_block (up e) = is_block e /\ fits 64 (up e);
  p2v_sep : forall h t t', page h -> page t -> page t' -> t <> t' ->
    p2v h t + 4096 <= p2v h t' \/ p2v h t' + 4096 <= p2v h t;
  p2v_range : forall h t, page h -> page t -> 0 <= p2v h t <= 2 ^ 64 - 4096;
  p2v_offset : forall h t x, page h -> page t -> 0 <= x < 4096 -> p2v h (t + x) = p2v h t + x
}.

Lemma present_bit e : negb (Z.land e 1 =? 0) = Z.testbit e 0.
Proof. change 1 with (Z.shiftl 1 0). apply (bit_testbit e 0). lia. Qed.

Lemma mask_page k e :
  0 <= k -> Z.land e (Z.shiftl (Z.ones k) 12) mod 4096 = 0 /\
  0 <= Z.land e (Z.shiftl (Z.ones k) 12) < 2 ^ (k + 12).
Proof.
  intros Hk. assert (fits (k + 12) (Z.land e (Z.shiftl (Z.ones k) 12))) as Hf.
  { apply fits_bits; [lia| |].
    - rewrite Z.land_nonneg. right. apply Z.shiftl_nonneg. rewrite Z.ones_equiv.
      pose proof (Z.pow_pos_nonneg 2 k). lia.
    - intros i Hi. autorewrite with kbits. zcases; btauto. }
  split; [|exact Hf]. change 4096 with (2 ^ 12). rewrite <- Z.land_ones by lia.
  apply Z.bits_inj'. intros i Hi. autorewrite with kbits. zcases; btauto.
Qed.

Lemma mask_page_id k p :
  0 <= k -> p mod 4096 = 0 -> 0 <= p < 2 ^ (k + 12) -> Z.land p (Z.shiftl (Z.ones k) 12) = p.
Proof.
  intros Hk Hp Hr. apply Z.bits_inj'. intros i Hi. autorewrite with kbits.
  destruct (decide (i < 12)).
  - assert (Z.testbit p i = false) as ->; [|done].
    rewrite <- (Z.mod_pow2_bits_low p 12) by lia. change (2 ^ 12) with 4096. rewrite Hp. apply Z.testbit_0_l.
  - destruct (decide (i < k + 12)); [zcases; btauto|].
    rewrite (testbit_above p (k + 12)) by (done || lia). done.
Qed.

(** Peel the conditional `raw |= mask` steps of `set_frame`. *)
Lemma testbit_or_if b mask raw i :
  Z.testbit (or_if b mask raw) i = Z.testbit raw i || (b && Z.testbit mask i).
Proof. destruct b; simpl; [apply Z.lor_spec|by rewrite orb_false_r]. Qed.

Lemma fits_or_if w b mask raw : 0 <= w -> fits w raw -> fits w mask -> fits w (or_if b mask raw).
Proof. intros. destruct b; [by apply fits_lor|done]. Qed.

Lemma page_sep_add h t t' :
  page h -> page t -> page t' -> t <> t' ->
  add64 t h + 4096 <= add64 t' h \/ add64 t' h + 4096 <= add64 t h.
Proof. unfold page, add64, u64, wrap, fits. intros. dlia. Qed.

Lemma page_add_range h t : page h -> page t -> 0 <= add64 t h <= 2 ^ 64 - 4096.
Proof. unfold page, add64, u64, wrap, fits. intros. dlia. Qed.

Lemma page_add_offset h t x : page h -> page t -> 0 <= x < 4096 -> add64 (t + x) h = add64 t h + x.
Proof. unfold page, add64, u64, wrap, fits. intros. dlia. Qed.

Lemma x86_mask : X86.ADDR_MASK = Z.shiftl (Z.ones 40) 12.
Proof. reflexivity. Qed.
Lemma a64_mask : A64.ADDR_MASK = Z.shiftl (Z.ones 36) 12.
Proof. reflexivity. Qed.

(** [pte_bits]: a single-bit fact about an encoded descriptor. *)
Ltac pte_bits :=
  rewrite ?testbit_or_if, ?Z.lor_spec, ?x86_mask, ?a64_mask;
  change 3 with (Z.ones 2);
  autorewrite with kbits; zcases; btauto.

#[export] Instance x86_64_laws : PageArchLaws x86_64.
Proof.
  split; cbn [is_present is_user_accessible is_writable physical_address set_frame is_block upgrade p2v x86_64].
  - done.
  - intros e. unfold X86.physical_address. rewrite x86_mask. by apply (mask_page 40).
  - intros p f _. unfold X86.is_present, X86.set_frame. rewrite present_bit. pte_bits.
  - intros p f _ Hp Hr. unfold X86.physical_address.
    rewrite <- (mask_page_id 40 p) at 2 by (done || (change (2 ^ 48) with (2 ^ 36 * 2 ^ 12) in Hr; change (2 ^ (40 + 12)) with (2 ^ 40 * 2 ^ 12); lia)).
    unfold X86.set_frame. apply Z.bits_inj'. intros i Hi.
    rewrite Z.land_spec, !testbit_or_if, Z.lor_spec, !x86_mask. autorewrite with kbits. zcases; btauto.
  - intros p f _. unfold X86.is_huge. rewrite bit_testbit by lia. unfold X86.set_frame. pte_bits.
  - intros p f _. unfold X86.is_user_accessible. rewrite bit_testbit by lia. unfold X86.set_frame. pte_bits.
  - intros p f _. unfold X86.is_writable. rewrite bit_testbit by lia. unfold X86.set_frame. pte_bits.
  - intros p f _ Hp. unfold X86.set_frame.
    repeat (apply fits_or_if; [lia| |by apply fits_shiftl1]). apply fits_lor; [lia| |done].
    rewrite x86_mask. apply (fits_mono 52); [lia|]. by apply (mask_page 40).
  - intros up e [= <-] He. unfold X86.is_present, X86.physical_address, X86.is_huge, X86.ensure_user_accessible.
    rewrite !present_bit, !bit_testbit, x86_mask by lia. split_and!.
    + autorewrite with kbits. zcases; btauto.
    + apply Z.bits_inj'. intros i Hi. autorewrite with kbits. zcases; btauto.
    + autorewrite with kbits. zcases; btauto.
    + apply fits_lor; [lia|done|by apply fits_shiftl1].
  - intros. by apply page_sep_add.
  - intros. by apply page_add_range.
  - intros. by apply page_add_offset.
Qed.

Lemma a64_block_bits e : A64.is_block e = Z.testbit e 0 && negb (Z.testbit e 1).
Proof.
  unfold A64.is_block. change 3 with (Z.ones 2). rewrite Z.land_ones by lia.
  assert (e mod 2 ^ 2 = Z.b2z (Z.testbit e 0) + 2 * Z.b2z (Z.testbit e 1)) as ->.
  { replace (Z.testbit e 1) with (Z.testbit (e / 2 ^ 1) 0) by (by rewrite Z.div_pow2_bits by lia).
    rewrite !Z.bit0_mod. change (2 ^ 2) with 4. change (2 ^ 1) with 2. dlia. }
  destruct (Z.testbit e 0), (Z.testbit e 1); reflexivity.
Qed.

#[export] Instance aarch64_laws : PageArchLaws aarch64.
Proof.
  split; cbn [is_present is_user_accessible is_writable physical_address set_frame is_block upgrade p2v aarch64].
  - done.
  - intros e. unfold A64.physical_address. rewrite a64_mask.
    destruct (mask_page 36 e) as [? ?]; [lia|]. split; [done|]. change (2 ^ 52) with (2 ^ 48 * 2 ^ 4). change (2 ^ (36 + 12)) with (2 ^ 48) in *. lia.
  - intros p f t. unfold A64.is_present, A64.set_frame. rewrite present_bit. pte_bits.
  - intros p f t Hp Hr. unfold A64.physical_address.
    rewrite <- (mask_page_id 36 p) at 2 by (done || lia).
    unfold A64.set_frame. apply Z.bits_inj'. intros i Hi. change 3 with (Z.ones 2).
    rewrite Z.land_spec, !testbit_or_if, !Z.lor_spec, !a64_mask. autorewrite with kbits. zcases; btauto.
  - intros p f t. rewrite a64_block_bits. unfold A64.set_frame. pte_bits.
  - intros p f t. unfold A64.is_user_accessible. rewrite bit_testbit by lia. unfold A64.set_frame. pte_bits.
  - intros p f t. unfold A64.is_writable. rewrite bit_testbit by lia. unfold A64.set_frame. pte_bits.
  - intros p f t Hp. unfold A64.set_frame.
    repeat (apply fits_or_if; [lia| |first [by apply fits_shiftl1|done]]).
    apply fits_lor; [lia| |by apply fits_shiftl1]. apply fits_lor; [lia| |done].
    rewrite a64_mask. apply (fits_mono 48); [lia|]. by apply (mask_page 36).
  - done.
  - intros h t t' _ [? [??]] [? [??]] ?. unfold A64.phys_to_virt. dlia.
  - intros h t _ [? [??]]. unfold A64.phys_to_virt. dlia.
  - done.
Qed.

(** ** Index arithmetic *)

Lemma table_idx_div v k : 0 <= k -> table_idx v k = (v / 2 ^ k) mod 512.
Proof.
  intros. unfold table_idx, shr. change 0x1FF with (Z.ones 9).
  by rewrite Z.land_ones, Z.shiftr_div_pow2 by lia.
Qed.

Lemma table_idx_range v k : 0 <= k -> 0 <= table_idx v k < 512.
Proof. intros. rewrite table_idx_div by done. apply Z.mod_pos_bound. lia. Qed.

(** The four indices of an address, top level first. *)
Definition vpath (v : Z) : list Z :=
  [table_idx v 39; table_idx v 30; table_idx v 21; table_idx v 12].

(** The bits of an address that select its page: bits 12..47. *)
Definition vpn (v : Z) : Z := (v / 4096) mod 2 ^ 36.

Lemma vpath_vpn v v' : vpath v = vpath v' <-> vpn v = vpn v'.
Proof.
  unfold vpath, vpn. rewrite !table_idx_div by lia.
  change (2 ^ 39) with (4096 * (512 * (512 * 512))). change (2 ^ 30) with (4096 * (512 * 512)).
  change (2 ^ 21) with (4096 * 512). change (2 ^ 12) with 4096.
  rewrite <- !Z.div_div by lia.
  generalize (v / 4096) as a, (v' / 4096) as b. intros a b.
  change (2 ^ 36) with (512 * (512 * (512 * 512))). rewrite !Z.rem_mul_r by lia.
  split; [intros [= H1 H2 H3 H4]; congruence|].
  intros E.
  assert (forall x, 0 <= x mod 512 < 512) as B by (intros; apply Z.mod_pos_bound; lia).
  pose proof (B a). pose proof (B b). pose proof (B (a / 512)). pose proof (B (b / 512)).
  pose proof (B (a / 512 / 512)). pose proof (B (b / 512 / 512)).
  f_equal; [|f_equal; [|f_equal; [|f_equal]]]; lia.
Qed.

Lemma vpath_valid v : Forall (fun i => 0 <= i < 512) (vpath v).
Proof. repeat constructor; apply table_idx_range; lia. Qed.

Lemma page_idx_offset v off :
  v mod 4096 = 0 -> 0 <= off < 4096 -> vpath (v + off) = vpath v /\ Z.land (v + off) 0xFFF = off.
Proof.
  intros Hv Ho. split.
  - apply vpath_vpn. unfold vpn. f_equal. dlia.
  - change 0xFFF with (Z.ones 12). rewrite Z.land_ones by lia. change (2 ^ 12) with 4096. dlia.
Qed.

Lemma land_fff v : Z.land v 0xFFF = v mod 4096.
Proof. change 0xFFF with (Z.ones 12). by rewrite Z.land_ones by lia. Qed.

(** ** The tree view *)
Section tree.
Context `{A : PageArch} `{!PageArchLaws A} {P : Type} `{FA : FrameAllocator P}.
Implicit Types (m : machine P) (q : list Z).

Definition entry m (t i : Z) : Z := read_u64 (mem m) (entry_ptr (p2v (hhdm m) t) i).

(** The table an entry of a level-[lvl] table leads to; huge pages exist at levels 1 and 2. *)
Definition child (lvl : nat) (e : Z) : option Z :=
  if is_present e && negb ((0 <? Z.of_nat lvl) && is_block e) then Some (physical_address e) else None.

Fixpoint walk m (t : Z) (lvl : nat) q : option Z :=
  match q with
  | [] => Some t
  | i :: q' => match child lvl (entry m t i) with
               | Some t' => walk m t' (S lvl) q'
               | None => None
               end
  end.

Lemma walk_app m t lvl q1 q2 :
  walk m t lvl (q1 ++ q2) = walk m t lvl q1 ≫= (fun t' => walk m t' (lvl + length q1)%nat q2).
Proof.
  revert t lvl; induction q1 as [|i q1 IH]; intros t lvl; simpl.
  - by rewrite Nat.add_0_r.
  - destruct (child lvl (entry m t i)); [|done]. rewrite IH.
    by rewrite Nat.add_succ_r.
Qed.

Lemma walk_snoc m t q i :
  walk m t 0 (q ++ [i]) = walk m t 0 q ≫= (fun t' => child (length q) (entry m t' i)).
Proof.
  rewrite walk_app. destruct (walk m t 0 q); simpl; [|done].
  by destruct (child _ _).
Qed.

Lemma walk_page m root q t :
  page root -> walk m root 0 q = Some t -> page t.
Proof.
  intros Hr. destruct q as [|i q _] using rev_ind; [by intros [= <-]|].
  rewrite walk_snoc. destruct (walk m root 0 q) as [t1|]; simpl; [|done].
  unfold child. destruct (_ && _); [|done]. intros [= <-].
  destruct (pa_page (entry m t1 i)) as [? ?]. split; [done|].
  split; [lia|]. change (2 ^ 64) with (2 ^ 52 * 2 ^ 12). lia.
Qed.

(** Entries that lead to the same place. *)
Definition same_entry (e e' : Z) : Prop :=
  is_present e' = is_present e /\
  (is_present e = true -> physical_address e' = physical_address e /\ is_block e' = is_block e).

Lemma same_entry_refl e : same_entry e e.
Proof. done. Qed.

Lemma same_entry_child lvl e e' : same_entry e e' -> child lvl e' = child lvl e.
Proof.
  intros [H1 H2]. unfold child. rewrite H1. destruct (is_present e); [|done].
  destruct H2 as [-> ->]; done.
Qed.

(** Two machines agree on the entries a path visits, from table [t] of level [lvl] on. *)
Definition agree_from m m' (t : Z) (lvl : nat) q : Prop :=
  hhdm m' = hhdm m /\
  forall q1 j q2 t', q = q1 ++ j :: q2 -> walk m t lvl q1 = Some t' ->
    same_entry (entry m t' j) (entry m' t' j).

Lemma agree_from_cons m m' t lvl i q :
  agree_from m m' t lvl (i :: q) ->
  same_entry (entry m t i) (entry m' t i) /\
  (forall t', child lvl (entry m t i) = Some t' -> agree_from m m' t' (S lvl) q).
Proof.
  intros [Hh H]. split; [by eapply (H [] i q)|].
  intros t' Ht. split; [done|]. intros q1 j q2 t'' -> Hw.
  eapply (H (i :: q1) j q2); [done|]. simpl. by rewrite Ht.
Qed.

Lemma walk_agree m m' t lvl q :
  agree_from m m' t lvl q -> walk m' t lvl q = walk m t lvl q.
Proof.
  revert t lvl; induction q as [|i q IH]; intros t lvl H; [done|].
  apply agree_from_cons in H as [Hs H]. simpl. rewrite (same_entry_child lvl _ _ Hs).
  destruct (child lvl (entry m t i)) as [t'|]; [|done]. by apply IH, H.
Qed.

(** `translate_addr` as a recursion over the remaining indices. *)
Definition block_addr (lvl : nat) (e v : Z) : Z :=
  match lvl with
  | 1%nat => add64 (Z.land (physical_address e) (not64 0x3FFFFFFF)) (Z.land v 0x3FFFFFFF)
  | _ => add64 (Z.land (physical_address e) (not64 0x1FFFFF)) (Z.land v 0x1FFFFF)
  end.

Fixpoint tr m (t : Z) (lvl : nat) q (v : Z) : option Z :=
  match q with
  | [] => None
  | i :: q' =>
      let e := entry m t i in
      if negb (is_present e) then None else
      match q' with
      | [] => Some (add64 (physical_address e) (Z.land v 0xFFF))
      | _ => if (0 <? Z.of_nat lvl) && is_block e then Some (block_addr lvl e v)
             else tr m (physical_address e) (S lvl) q' v
      end
  end.

Lemma translate_tr root v m : translate_addr root v m = tr m root 0 (vpath v) v.
Proof.
  unfold translate_addr, vpath. cbn [tr]. unfold block_addr, entry.
  change (0 <? Z.of_nat 0) with false. change (0 <? Z.of_nat 1) with true.
  change (0 <? Z.of_nat 2) with true. cbn [andb]. reflexivity.
Qed.

Lemma tr_agree m m' t lvl q v :
  agree_from m m' t lvl q -> tr m' t lvl q v = tr m t lvl q v.
Proof.
  revert t lvl; induction q as [|i q IH]; intros t lvl H; [done|].
  apply agree_from_cons in H as [[Hp Hs] H]. cbn [tr]. rewrite Hp. unfold child in H.
  destruct (is_present (entry m t i)); [|done]. destruct (Hs eq_refl) as [Ha Hb].
  cbn [negb andb] in *. rewrite Ha, Hb. unfold block_addr. rewrite Ha.
  destruct q as [|j q]; [done|].
  destruct (_ && is_block (entry m t i)); [done|]. by apply IH, H.
Qed.

(** A path that meets an absent entry translates to nothing. *)
Lemma tr_none m t lvl q v q1 j q2 t' :
  q = q1 ++ j :: q2 -> walk m t lvl q1 = Some t' -> is_present (entry m t' j) = false ->
  tr m t lvl q v = None.
Proof.
  intros ->. revert t lvl; induction q1 as [|i q1 IH]; intros t lvl; simpl.
  - intros [= ->] ->. done.
  - unfold child. destruct (is_present (entry m t i)); [|done]. cbn [negb andb].
    destruct (_ && is_block _); [done|]. intros Hw Hp. rewrite (IH _ _ Hw Hp).
    by destruct (q1 ++ j :: q2) eqn:E; [destruct q1|].
Qed.

(** A fully walked path ends in its leaf entry. *)
Lemma tr_leaf m root q i v t :
  walk m root 0 q = Some t ->
  tr m root 0 (q ++ [i]) v =
    if is_present (entry m t i)
    then Some (add64 (physical_address (entry m t i)) (Z.land v 0xFFF)) else None.
Proof.
  generalize 0%nat as lvl. revert root. induction q as [|j q IH]; intros root lvl; simpl.
  - intros [= ->]. by destruct (is_present _).
  - unfold child. destruct (is_present (entry m root j)); [|done]. cbn [negb andb].
    destruct (_ && is_block _); [done|]. intros Hw. rewrite (IH _ _ Hw).
    by destruct (q ++ [i]) eqn:E; [destruct q|].
Qed.

(** ** Entries after a write *)

Lemma entry_addr_sep m t i t' i' :
  page (hhdm m) -> page t -> page t' -> 0 <= i < 512 -> 0 <= i' < 512 -> (t, i) <> (t', i') ->
  entry_ptr (p2v (hhdm m) t') i' + 8 <= entry_ptr (p2v (hhdm m) t) i \/
  entry_ptr (p2v (hhdm m) t) i + 8 <= entry_ptr (p2v (hhdm m) t') i'.
Proof.
  intros Hh Ht Ht' Hi Hi' Hne. unfold entry_ptr.
  destruct (decide (t = t')) as [->|Hn]; [|destruct (p2v_sep (hhdm m) t t' Hh Ht Ht' Hn); lia].
  assert (i <> i') by congruence. lia.
Qed.

Definition set_entry m (t i e : Z) : machine P :=
  with_mem (write_u64 (mem m) (entry_ptr (p2v (hhdm m) t) i) e) m.

(** Bytes of a page other than [t] survive a write to an entry of [t]. *)
Lemma set_entry_other_page m t i e a x :
  page (hhdm m) -> page t -> page a -> a <> t -> 0 <= i < 512 -> 0 <= x < 4096 ->
  mem (set_entry m t i e) (p2v (hhdm m) a + x) = mem m (p2v (hhdm m) a + x).
Proof.
  intros Hh Ht Ha Hne Hi Hx. simpl. unfold write_u64, copy_to. rewrite length_to_le. unfold entry_ptr.
  destruct (p2v_sep (hhdm m) a t Hh Ha Ht Hne); zcases; done.
Qed.

Lemma entry_set_eq m t i e : fits 64 e -> entry (set_entry m t i e) t i = e.
Proof. intros. unfold entry, set_entry. simpl. by apply read_write_u64. Qed.

Lemma entry_set_ne m t i e t' i' :
  page (hhdm m) -> page t -> page t' -> 0 <= i < 512 -> 0 <= i' < 512 -> (t, i) <> (t', i') ->
  entry (set_entry m t i e) t' i' = entry m t' i'.
Proof.
  intros. unfold entry, set_entry. simpl. apply read_write_u64_other. by apply entry_addr_sep.
Qed.

Definition zero_page m (f : Z) : machine P :=
  with_mem (write_bytes (mem m) (p2v (hhdm m) f) 0 4096) m.

Lemma entry_zero_eq m f i : 0 <= i < 512 -> entry (zero_page m f) f i = 0.
Proof. intros. unfold entry, zero_page, entry_ptr. simpl. apply read_u64_zeroed; lia. Qed.

Lemma entry_zero_ne m f t i :
  page (hhdm m) -> page f -> page t -> 0 <= i < 512 -> f <> t ->
  entry (zero_page m f) t i = entry m t i.
Proof.
  intros Hh Hf Ht Hi Hn. unfold entry, zero_page, entry_ptr. simpl.
  apply read_u64_zeroed_other. destruct (p2v_sep (hhdm m) f t Hh Hf Ht Hn); lia.
Qed.

(** ** Private page tables

    [U] selects the top-level indices a process owns privately.  Every table below
    them is reached by one path only, the frames of all reachable tables are taken,
    and no huge page lies below them. *)
Definition valid_path q : Prop := Forall (fun i => 0 <= i < 512) q /\ (length q <= 3)%nat.

Definition user_path (U : Z -> bool) q : Prop :=
  match q with [] => False | i :: _ => U i = true end.

Record pt_inv (U : Z -> bool) (root : Z) m : Prop := {
  inv_mem : mem_ok (mem m);
  inv_pmm : fa_ok (pmm m);
  inv_hhdm : page (hhdm m);
  inv_root : page root;
  inv_used : forall q t, valid_path q -> walk m root 0 q = Some t -> fa_used (pmm m) t = true;
  inv_top : forall q, valid_path q -> walk m root 0 q = Some root -> q = [];
  inv_private : forall q q' t, valid_path q -> valid_path q' -> user_path U q ->
    walk m root 0 q = Some t -> walk m root 0 q' = Some t -> q' = q;
  inv_noblock : forall q t i, valid_path q -> user_path U q -> 0 <= i < 512 ->
    (length q < 3)%nat -> walk m root 0 q = Some t ->
    is_present (entry m t i) = true -> is_block (entry m t i) = false
}.

Lemma valid_prefix q1 q2 : valid_path (q1 ++ q2) -> valid_path q1.
Proof. intros [Hf Hl]. apply Forall_app in Hf as [? _]. rewrite length_app in Hl. split; [done|lia]. Qed.

Lemma valid_snoc q i : valid_path (q ++ [i]) <-> Forall (fun i => 0 <= i < 512) q /\ 0 <= i < 512 /\ (length q <= 2)%nat.
Proof.
  unfold valid_path. rewrite Forall_app, Forall_singleton, length_app. simpl.
  split; [intros [[? ?] ?]|intros (? & ? & ?)]; split_and!; try done; lia.
Qed.

Lemma user_path_app U q q' : user_path U q -> user_path U (q ++ q').
Proof. by destruct q. Qed.

(** The table at a private path, or the root at the empty one, has no other path. *)
Lemma unique_path U root m q i q' t :
  pt_inv U root m -> valid_path q -> valid_path q' -> user_path U (q ++ [i]) ->
  walk m root 0 q = Some t -> walk m root 0 q' = Some t -> q' = q.
Proof.
  intros I Hq Hq' Hu Hw Hw'. destruct q as [|k q].
  - simpl in Hw. simplify_eq. by eapply inv_top.
  - by eapply inv_private.
Qed.
(** ** What a step of the code may do to the tree

    A frame is foreign to the tree when it is taken but no table of it. *)
Definition foreign (root : Z) m (a : Z) : Prop :=
  page a /\ fa_used (pmm m) a = true /\ forall q, valid_path q -> walk m root 0 q <> Some a.

(** [a] holds the same bytes in both machines. *)
Definition same_page m m' (a : Z) : Prop :=
  forall x, 0 <= x < 4096 -> mem m' (p2v (hhdm m) a + x) = mem m (p2v (hhdm m) a + x).

(** [keeps]: the invariant is re-established, every table stays where it was, no
    address translates differently, and no foreign frame is written. *)
Record keeps (U : Z -> bool) (root : Z) m m' : Prop := {
  keeps_inv : pt_inv U root m';
  keeps_hhdm : hhdm m' = hhdm m;
  keeps_reg : root_reg m' = root_reg m;
  keeps_reg1 : root_reg1 m' = root_reg1 m;
  keeps_walk : forall q t, valid_path q -> walk m root 0 q = Some t -> walk m' root 0 q = Some t;
  keeps_tr : forall v, translate_addr root v m' = translate_addr root v m;
  keeps_foreign : forall a, foreign root m a -> foreign root m' a /\ same_page m m' a
}.

Lemma keeps_refl U root m : pt_inv U root m -> keeps U root m m.
Proof. by split. Qed.

Lemma same_page_trans m1 m2 m3 a :
  hhdm m2 = hhdm m1 -> same_page m1 m2 a -> same_page m2 m3 a -> same_page m1 m3 a.
Proof. intros E H1 H2 x Hx. rewrite <- H1 by done. rewrite <- E. by apply H2. Qed.

Lemma keeps_trans U root m1 m2 m3 : keeps U root m1 m2 -> keeps U root m2 m3 -> keeps U root m1 m3.
Proof.
  intros [? ? ? ? W1 T1 F1] [? ? ? ? W2 T2 F2].
  split; [done|congruence|congruence|congruence|by eauto|intros v; by rewrite T2|].
  intros a [Ha1 S1]%F1. apply F2 in Ha1 as [? S2]. split; [done|by eapply same_page_trans].
Qed.

Lemma vpath_split v q1 j q2 :
  vpath v = q1 ++ j :: q2 -> valid_path q1 /\ 0 <= j < 512 /\ (length q1 + S (length q2) = 4)%nat.
Proof.
  intros E. pose proof (vpath_valid v) as Hv. assert (length (vpath v) = 4%nat) as Hl by done.
  rewrite E in Hv, Hl. apply Forall_app in Hv as [H1 H2%Forall_cons]. rewrite length_app in Hl.
  simpl in Hl. destruct H2 as [Hj _]. split_and!; [split; [done|lia]|apply Hj|apply Hj|lia].
Qed.

(** A table reached by a valid path is a page other than a frame the pool still holds. *)
Lemma walk_not_free U root m q t f :
  pt_inv U root m -> valid_path q -> walk m root 0 q = Some t -> fa_used (pmm m) f = false -> t <> f.
Proof. intros I Hq Hw Hf ->. rewrite (inv_used _ _ _ I q f Hq Hw) in Hf. done. Qed.

(** *** Linking a fresh, zeroed table below an absent entry *)
Section link.
Context (U : Z -> bool) (root : Z) (m : machine P) (p : list Z) (i t f : Z) (pool : P).
Context (I : pt_inv U root m) (Hp : valid_path (p ++ [i])) (Hu : user_path U (p ++ [i])).
Context (Hw : walk m root 0 p = Some t) (Habs : is_present (entry m t i) = false).
Context (Hal : fa_alloc (pmm m) = (Some f, pool)).

Definition linked : machine P :=
  set_entry (zero_page (with_pmm pool m) f) t i (set_frame f table_flags true).

Lemma link_valid_p : valid_path p.
Proof. by eapply valid_prefix. Qed.

Lemma link_idx : 0 <= i < 512.
Proof. by apply valid_snoc in Hp as (_ & ? & _). Qed.

Lemma link_fresh : fa_used (pmm m) f = false.
Proof. by destruct (fa_alloc_some _ _ _ (inv_pmm _ _ _ I) Hal) as (_ & _ & _ & ? & _). Qed.

Lemma link_frame_page : page f /\ f mod 4096 = 0 /\ 0 <= f < 2 ^ 48.
Proof.
  destruct (fa_alloc_some _ _ _ (inv_pmm _ _ _ I) Hal) as (_ & ? & ? & _).
  assert (fits 64 f) by (split; [lia|change (2 ^ 64) with (2 ^ 48 * 2 ^ 16); lia]).
  split; [done|]. split; [done|lia].
Qed.

Lemma link_t : page t /\ t <> f.
Proof.
  split; [exact (walk_page m root p t (inv_root _ _ _ I) Hw)|].
  exact (walk_not_free U root m p t f I link_valid_p Hw link_fresh).
Qed.

Lemma linked_entry_new : entry linked t i = set_frame f table_flags true.
Proof. apply entry_set_eq, fits_set_frame, link_frame_page. Qed.

Lemma linked_entry_frame j : 0 <= j < 512 -> entry linked f j = 0.
Proof.
  intros Hj. destruct link_t, link_frame_page. unfold linked.
  rewrite entry_set_ne; [by apply entry_zero_eq|apply I|done|done|apply link_idx|done|congruence].
Qed.

Lemma linked_entry_other s j :
  page s -> s <> f -> 0 <= j < 512 -> (t, i) <> (s, j) -> entry linked s j = entry m s j.
Proof.
  intros Hs Hn Hj Hne. destruct link_t, link_frame_page. unfold linked.
  rewrite entry_set_ne; [|apply I|done|done|apply link_idx|done|done].
  rewrite entry_zero_ne; [done|apply I|done|done|done|done].
Qed.

Lemma linked_child : child (length p) (entry linked t i) = Some f.
Proof.
  rewrite linked_entry_new. unfold child.
  rewrite present_set_frame, block_set_frame, andb_false_r. simpl.
  by rewrite pa_set_frame by apply link_frame_page.
Qed.

(** The entry a walk step reads is the old one, except at the linked slot. *)
Lemma linked_entry_at q s j :
  valid_path q -> 0 <= j < 512 -> walk m root 0 q = Some s ->
  (q = p /\ s = t /\ j = i) \/ entry linked s j = entry m s j.
Proof.
  intros Hq Hj Hs. destruct (decide ((t, i) = (s, j))) as [[= <- <-]|Hne].
  - left. split; [|done]. eapply unique_path; eauto using link_valid_p.
  - right. apply linked_entry_other; [exact (walk_page m root q s (inv_root _ _ _ I) Hs)| |done|done].
    exact (walk_not_free U root m q s f I Hq Hs link_fresh).
Qed.

Lemma linked_walk_mono q s : valid_path q -> walk m root 0 q = Some s -> walk linked root 0 q = Some s.
Proof.
  revert s; induction q as [|j q IH] using rev_ind; intros s Hq; [done|].
  pose proof (proj1 (valid_snoc _ _) Hq) as (Hf & Hj & Hl). apply valid_prefix in Hq.
  rewrite !walk_snoc. destruct (walk m root 0 q) as [s1|] eqn:Es; simpl; [|done].
  rewrite (IH s1 Hq eq_refl). simpl.
  destruct (linked_entry_at q s1 j Hq Hj Es) as [(-> & -> & ->)| ->]; [|done].
  unfold child at 1. by rewrite Habs.
Qed.

Lemma linked_walk_inv q s : valid_path q -> walk linked root 0 q = Some s ->
  walk m root 0 q = Some s \/ (q = p ++ [i] /\ s = f).
Proof.
  revert s; induction q as [|j q IH] using rev_ind; intros s Hq; [by left|].
  pose proof (proj1 (valid_snoc _ _) Hq) as (Hf & Hj & Hl). apply valid_prefix in Hq.
  rewrite !walk_snoc. destruct (walk linked root 0 q) as [s1|] eqn:Es; simpl; [|done].
  destruct (IH s1 Hq eq_refl) as [Hs1|[-> ->]].
  - rewrite Hs1. simpl. destruct (linked_entry_at q s1 j Hq Hj Hs1) as [(-> & -> & ->)| ->]; [|by left].
    rewrite linked_child. intros [= <-]. by right.
  - rewrite linked_entry_frame by done. unfold child. by rewrite present_zero.
Qed.

Lemma linked_walk_new : walk linked root 0 (p ++ [i]) = Some f.
Proof.
  rewrite walk_snoc, (linked_walk_mono p t link_valid_p Hw). apply linked_child.
Qed.

Lemma linked_tr v : translate_addr root v linked = translate_addr root v m.
Proof.
  rewrite !translate_tr.
  destruct (decide (take (length p + 1) (vpath v) = p ++ [i])) as [E|Hne].
  - rewrite <- (take_drop (length p + 1) (vpath v)), E.
    destruct (drop (length p + 1) (vpath v)) as [|j q3] eqn:Ed.
    { apply (f_equal length) in Ed. rewrite length_drop in Ed. apply valid_snoc in Hp as (_ & _ & ?).
      simpl in Ed. lia. }
    assert (0 <= j < 512) as Hj.
    { eapply (vpath_split v (p ++ [i]) j q3). by rewrite <- E, <- Ed, take_drop. }
    rewrite (tr_none linked root 0 _ v (p ++ [i]) j q3 f); [|done|apply linked_walk_new|].
    2:{ rewrite linked_entry_frame by done. apply present_zero. }
    symmetry. apply (tr_none m root 0 _ v p i (j :: q3) t); [by rewrite <- app_assoc|done|done].
  - apply tr_agree. split; [done|]. intros q1 j q2 s Eq Hs.
    destruct (vpath_split _ _ _ _ Eq) as (Hq1 & Hj & _).
    destruct (linked_entry_at q1 s j Hq1 Hj Hs) as [(-> & -> & ->)| ->]; [|apply same_entry_refl].
    exfalso. apply Hne. rewrite Eq, take_app_ge by lia. by replace (length p + 1 - length p)%nat with 1%nat by lia.
Qed.

Lemma linked_used a : a mod 4096 = 0 -> 0 <= a ->
  fa_ok (pmm linked) /\ fa_used (pmm linked) a = fa_used (pmm m) a || (a =? f).
Proof.
  intros. destruct (fa_alloc_some _ _ _ (inv_pmm _ _ _ I) Hal) as (? & _ & _ & _ & _ & Hb & _).
  simpl. rewrite Hb by done. done.
Qed.

Lemma linked_inv : pt_inv U root linked.
Proof.
  assert (forall q s, valid_path q -> walk linked root 0 q = Some s -> page s) as Hpg.
  { intros q s _. apply walk_page, (inv_root _ _ _ I). }
  assert (forall q, valid_path q -> walk m root 0 q <> Some f) as Hnf.
  { intros q Hq Hf. by apply (walk_not_free U root m q f f I Hq Hf link_fresh). }
  split; try apply I.
  - apply mem_ok_write_u64, mem_ok_write_bytes; [apply I|done].
  - by apply (linked_used 0).
  - intros q s Hq Hs. destruct (Hpg q s Hq Hs) as [? [? _]].
    rewrite (proj2 (linked_used s ltac:(done) ltac:(done))).
    destruct (linked_walk_inv q s Hq Hs) as [Hs'|[_ ->]]; [|by rewrite Z.eqb_refl, orb_true_r].
    by rewrite (inv_used _ _ _ I q s).
  - intros q Hq Hs. destruct (linked_walk_inv q root Hq Hs) as [Hs'|[_ Hr]]; [by eapply inv_top|].
    exfalso. apply (Hnf []); [split; [constructor|simpl; lia]|by rewrite <- Hr].
  - intros q q' s Hq Hq' Huq Hs Hs'.
    destruct (linked_walk_inv q s Hq Hs) as [H1|[-> ->]], (linked_walk_inv q' _ Hq' Hs') as [H2|[-> H2]].
    + by eapply inv_private.
    + subst s. by apply Hnf in H1.
    + by apply Hnf in H2.
    + done.
  - intros q s j Hq Huq Hj Hl Hs Hpr.
    destruct (linked_walk_inv q s Hq Hs) as [H1|[-> ->]].
    + destruct (linked_entry_at q s j Hq Hj H1) as [(-> & -> & ->)|E].
      * rewrite linked_entry_new. apply block_set_frame.
      * rewrite E in Hpr |- *. by eapply inv_noblock.
    + rewrite linked_entry_frame, present_zero in Hpr by done. done.
Qed.

Lemma linked_foreign a : foreign root m a -> foreign root linked a /\ same_page m linked a.
Proof.
  intros (Ha & Hus & Hn). destruct link_t as [Ht _], link_frame_page as [Hfp _].
  assert (a <> f) as Haf by (intros ->; by rewrite link_fresh in Hus).
  assert (a <> t) as Hat by (intros ->; by apply (Hn p link_valid_p)).
  split; [split; [exact Ha|split]|].
  - destruct Ha as [? [? _]]. rewrite (proj2 (linked_used a ltac:(done) ltac:(done))). by rewrite Hus.
  - intros q Hq Hs. destruct (linked_walk_inv q a Hq Hs) as [?|[_ ?]]; [|done]. by apply (Hn q Hq).
  - intros x Hx. unfold linked.
    rewrite (set_entry_other_page (zero_page (with_pmm pool m) f) t i _ a x); [|apply I|done|done|done|apply link_idx|done].
    simpl. unfold write_bytes. destruct (p2v_sep (hhdm m) a f (inv_hhdm _ _ _ I) Ha Hfp Haf); zcases; done.
Qed.

Lemma linked_keeps : keeps U root m linked.
Proof.
  split; [apply linked_inv|done|done|done|apply linked_walk_mono|apply linked_tr|apply linked_foreign].
Qed.
End link.
(** *** Rewriting an entry so that it leads to the same place *)
Lemma rewrite_keeps U root m p t i e :
  pt_inv U root m -> valid_path p -> walk m root 0 p = Some t -> 0 <= i < 512 -> fits 64 e -> same_entry (entry m t i) e ->
  keeps U root m (set_entry m t i e).
Proof.
  intros I Hp Hpt Hi He Hs. set (m' := set_entry m t i e).
  pose proof (walk_page m root p t (inv_root _ _ _ I) Hpt) as Ht.
  assert (forall s j, page s -> 0 <= j < 512 -> same_entry (entry m s j) (entry m' s j)) as Hsame.
  { intros s j Hsp Hj. destruct (decide ((t, i) = (s, j))) as [[= <- <-]|Hne].
    - unfold m'. by rewrite entry_set_eq.
    - unfold m'. rewrite entry_set_ne; [apply same_entry_refl|apply I|done..]. }
  assert (forall q, Forall (fun i => 0 <= i < 512) q -> agree_from m m' root 0 q) as Hag.
  { intros q Hq. split; [done|]. intros q1 j q2 s -> Hw. apply Forall_app in Hq as [_ Hq%Forall_cons].
    apply Hsame; [exact (walk_page m root q1 s (inv_root _ _ _ I) Hw)|apply Hq]. }
  assert (forall q, valid_path q -> walk m' root 0 q = walk m root 0 q) as Hwk.
  { intros q [Hq _]. by apply walk_agree, Hag. }
  split; [|done|done|done| | |].
  - destruct I as [I1 I2 I3 I4 I5 I6 I7 I8]. split; try done.
    + by apply mem_ok_write_u64.
    + intros q s Hq. rewrite Hwk by done. by apply I5.
    + intros q Hq. rewrite Hwk by done. by apply I6.
    + intros q q' s Hq Hq'. rewrite !Hwk by done. by apply I7.
    + intros q s j Hq Huq Hj Hl Hw Hpr. rewrite Hwk in Hw by done.
      destruct (Hsame s j (walk_page m root q s I4 Hw) Hj) as [H1 H2]. rewrite H1 in Hpr.
      destruct (H2 Hpr) as [_ ->]. by eapply I8.
  - intros q s Hq Hw. by rewrite Hwk.
  - intros v. rewrite !translate_tr. by apply tr_agree, Hag, vpath_valid.
  - intros a (Ha & Hus & Hn). split; [split; [exact Ha|split; [done|]]|].
    + intros q Hq. rewrite Hwk by done. by apply Hn.
    + intros x Hx. apply set_entry_other_page; try done; [apply I|]. intros ->. by apply (Hn p Hp).
Qed.

(** *** Writing a leaf entry *)
Section leaf.
Context (U : Z -> bool) (root : Z) (m : machine P) (p : list Z) (i t e : Z).
Context (I : pt_inv U root m) (Hp : valid_path p) (Hl : length p = 3%nat) (Hi : 0 <= i < 512).
Context (Hu : user_path U p) (Hw : walk m root 0 p = Some t) (He : fits 64 e).

Lemma leaf_entry_at q s j :
  valid_path q -> 0 <= j < 512 -> walk m root 0 q = Some s -> q ++ [j] <> p ++ [i] ->
  entry (set_entry m t i e) s j = entry m s j.
Proof.
  intros Hq Hj Hs Hne. apply entry_set_ne; [apply I| | |done|done|].
  - exact (walk_page m root p t (inv_root _ _ _ I) Hw).
  - exact (walk_page m root q s (inv_root _ _ _ I) Hs).
  - intros [= <- <-]. apply Hne. f_equal. by eapply inv_private.
Qed.

Lemma leaf_walk q : valid_path q -> walk (set_entry m t i e) root 0 q = walk m root 0 q.
Proof.
  intros Hq. apply walk_agree. split; [done|]. intros q1 j q2 s -> Hs.
  assert (Forall (fun i => 0 <= i < 512) (j :: q2)) as Hj by (eapply Forall_app, Hq).
  apply Forall_cons in Hj as [Hj _].
  rewrite (leaf_entry_at q1); [apply same_entry_refl|by eapply valid_prefix|done|done|].
  intros E%(f_equal length). destruct Hq as [_ Hq]. rewrite !length_app in *. simpl in *. lia.
Qed.

Lemma leaf_inv : pt_inv U root (set_entry m t i e).
Proof.
  destruct I as [I1 I2 I3 I4 I5 I6 I7 I8]. split; try done.
  - by apply mem_ok_write_u64.
  - intros q s Hq. rewrite leaf_walk by done. by apply I5.
  - intros q Hq. rewrite leaf_walk by done. by apply I6.
  - intros q q' s Hq Hq'. rewrite !leaf_walk by done. by apply I7.
  - intros q s j Hq Huq Hj Hl' Hs. rewrite leaf_walk in Hs by done.
    rewrite (leaf_entry_at q); [by eapply I8|done|done|done|].
    intros E%(f_equal length). rewrite !length_app in E. simpl in E. lia.
Qed.

Lemma leaf_foreign a :
  foreign root m a -> foreign root (set_entry m t i e) a /\ same_page m (set_entry m t i e) a.
Proof.
  intros (Ha & Hus & Hn). split; [split; [exact Ha|split; [done|]]|].
  - intros q Hq. rewrite leaf_walk by done. by apply Hn.
  - intros x Hx. apply set_entry_other_page; try done; [apply I| |].
    + exact (walk_page m root p t (inv_root _ _ _ I) Hw).
    + intros ->. by apply (Hn p Hp).
Qed.

Lemma leaf_tr_same v : vpath v = p ++ [i] ->
  translate_addr root v (set_entry m t i e) =
    if is_present e then Some (add64 (physical_address e) (Z.land v 0xFFF)) else None.
Proof.
  intros E. rewrite translate_tr, E, (tr_leaf _ _ _ _ _ t), entry_set_eq by (done || by rewrite leaf_walk).
  done.
Qed.

Lemma leaf_tr_other v : vpath v <> p ++ [i] ->
  translate_addr root v (set_entry m t i e) = translate_addr root v m.
Proof.
  intros Hne. rewrite !translate_tr. apply tr_agree. split; [done|]. intros q1 j q2 s Eq Hs.
  destruct (vpath_split _ _ _ _ Eq) as (Hq1 & Hj & Hlen).
  rewrite (leaf_entry_at q1); [apply same_entry_refl|done|done|done|].
  intros E. apply Hne. rewrite Eq. apply (f_equal length) in E as El. rewrite !length_app in El. simpl in El.
  destruct q2; [done|simpl in Hlen; lia].
Qed.
End leaf.

(** ** `next_table` on a private path *)
Lemma next_table_spec U root m p i t user :
  pt_inv U root m -> valid_path (p ++ [i]) -> user_path U (p ++ [i]) -> walk m root 0 p = Some t ->
  match next_table (entry_ptr (p2v (hhdm m) t) i) user m with
  | (Ok ptr, m') => keeps U root m m' /\
      exists t', ptr = p2v (hhdm m') t' /\ walk m' root 0 (p ++ [i]) = Some t'
  | (Err e, m') => e = FrameAllocationFailed /\ m' = m
  end.
Proof.
  intros I Hp Hu Hw. unfold next_table. fold (entry m t i).
  pose proof (proj1 (valid_snoc _ _) Hp) as (_ & Hi & Hl).
  pose proof (walk_page m root p t (inv_root _ _ _ I) Hw) as Ht.
  assert (is_present (entry m t i) = true -> walk m root 0 (p ++ [i]) = Some (physical_address (entry m t i))) as Hold.
  { intros Hpr. rewrite walk_snoc, Hw. simpl. unfold child. rewrite Hpr. destruct p as [|k p']; [done|].
    rewrite (inv_noblock _ _ _ I (k :: p') t i); [by rewrite andb_false_r| |done|done|simpl in *; lia|done|done].
    by eapply valid_prefix. }
  destruct (is_present (entry m t i)) eqn:Hpr; simpl.
  - assert (keeps U root m m) as K by by apply keeps_refl.
    destruct upgrade as [up|] eqn:Eup; [destruct user|]; try by eauto.
    destruct (upgrade_same up (entry m t i) Eup) as (H1 & H2 & H3 & H4); [by apply read_u64_fits, I|].
    fold (set_entry m t i (up (entry m t i))).
    assert (keeps U root m (set_entry m t i (up (entry m t i)))) as K'.
    { apply (rewrite_keeps U root m p); try done. by eapply valid_prefix. }
    split; [done|]. exists (physical_address (entry m t i)). rewrite H2. split; [done|].
    apply K'; [done|]. by apply Hold.
  - destruct (fa_alloc (pmm m)) as [[f|] pool] eqn:Hal.
    + split; [by apply (linked_keeps U root m p i t f pool)|].
      exists f. split; [|by apply linked_walk_new with (U := U)].
      simpl. by rewrite pa_set_frame by (by eapply link_frame_page).
    + apply fa_alloc_none in Hal as ->; [|apply I]. split; [done|]. by destruct m.
Qed.
End tree.
