(* ===== verification/VmmCorrect.v ===== *)
(** Correctness of `map_page`, `unmap_page`, `translate_addr`, `handle_page_fault`
    (src/src/vmm.rs) and of the boot identity map (src/src/mmu.rs), for both
    architectures at once and against the [FrameAllocator] interface. *)
From S2P Require Import Prelude Pmm Vmm VmmTheory.

Section correct.
Context `{A : PageArch} `{!PageArchLaws A} {P : Type} `{FA : FrameAllocator P}.
Implicit Types (m : machine P) (U : Z -> bool).

(** The table path of an address: its first three indices. *)
Definition tpath (v : Z) : list Z := [table_idx v 39; table_idx v 30; table_idx v 21].

Lemma vpath_tpath v : vpath v = tpath v ++ [table_idx v 12].
Proof. done. Qed.

Lemma tpath_valid v : valid_path (tpath v).
Proof. split; [repeat constructor; apply table_idx_range; lia|simpl; lia]. Qed.

Lemma tpath_prefix_valid v q1 q2 : tpath v = q1 ++ q2 -> valid_path q1.
Proof. intros E. apply (valid_prefix q1 q2). rewrite <- E. apply tpath_valid. Qed.

Lemma misaligned_spec v : negb (Z.land v 0xFFF =? 0) = negb (v mod 4096 =? 0).
Proof. by rewrite land_fff. Qed.

(** The three `next_table` calls of `map_page`. *)
Definition descend (root virt : Z) (user : bool) m : Result Z MemoryError * machine P :=
  match next_table (entry_ptr (p2v (hhdm m) root) (table_idx virt 39)) user m with
  | (Err e, m) => (Err e, m)
  | (Ok t1, m) =>
    match next_table (entry_ptr t1 (table_idx virt 30)) user m with
    | (Err e, m) => (Err e, m)
    | (Ok t2, m) => next_table (entry_ptr t2 (table_idx virt 21)) user m
    end
  end.

Lemma map_page_descend root virt phys flags m :
  map_page root virt phys flags m =
  if negb (virt mod 4096 =? 0) || negb (phys mod 4096 =? 0) then (Err InvalidAddress, m) else
  match descend root virt (user_accessible flags) m with
  | (Err e, m) => (Err e, m)
  | (Ok t3, m) =>
      let ea := entry_ptr t3 (table_idx virt 12) in
      if is_present (read_u64 (mem m) ea) then (Err AlreadyMapped, m)
      else (Ok tt, with_mem (write_u64 (mem m) ea (set_frame phys flags false)) m)
  end.
Proof.
  unfold map_page, descend. rewrite !misaligned_spec. destruct (_ || _); [done|].
  destruct (next_table _ _ m) as [[t1|] m1]; [|done].
  destruct (next_table _ _ m1) as [[t2|] m2]; [|done].
  by destruct (next_table _ _ m2) as [[t3|] m3].
Qed.

(** A failed `next_table` leaves the pool it failed on. *)
Lemma next_table_err ea user m e m' :
  next_table ea user m = (Err e, m') -> exists p', fa_alloc (pmm m) = (None, p') /\ pmm m' = p'.
Proof.
  unfold next_table. destruct (is_present _); simpl.
  - destruct upgrade; [destruct user|]; done.
  - destruct (fa_alloc (pmm m)) as [[f|] p'] eqn:E; [done|]. intros [= <- <-]. by exists p'.
Qed.

Lemma descend_spec U root virt user m :
  pt_inv U root m -> U (table_idx virt 39) = true ->
  match descend root virt user m with
  | (Ok ptr, m') => keeps U root m m' /\
      exists t', ptr = p2v (hhdm m') t' /\ walk m' root 0 (tpath virt) = Some t'
  | (Err e, m') => e = FrameAllocationFailed /\ keeps U root m m' /\
      fst (fa_alloc (pmm m')) = None
  end.
Proof.
  intros I Hu. unfold descend.
  set (i0 := table_idx virt 39) in *. set (i1 := table_idx virt 30). set (i2 := table_idx virt 21).
  assert (valid_path ([] ++ [i0])) as V1 by (by apply (tpath_prefix_valid virt _ [i1; i2])).
  assert (valid_path ([i0] ++ [i1])) as V2 by (by apply (tpath_prefix_valid virt _ [i2])).
  assert (valid_path ([i0; i1] ++ [i2])) as V3 by apply (tpath_valid virt).
  pose proof (next_table_spec U root m [] i0 root user I V1 Hu eq_refl) as N1.
  pose proof (next_table_err (entry_ptr (p2v (hhdm m) root) i0) user m) as E1.
  destruct (next_table (entry_ptr (p2v (hhdm m) root) i0) user m) as [[ptr1|e1] m1].
  2:{ destruct N1 as [-> ->]. destruct (E1 _ _ eq_refl) as (p' & Hal & _).
      split_and!; [done|by apply keeps_refl|by rewrite Hal]. }
  destruct N1 as (K1 & t1 & -> & W1).
  pose proof (next_table_spec U root m1 [i0] i1 t1 user (keeps_inv _ _ _ _ K1) V2 Hu W1) as N2.
  pose proof (next_table_err (entry_ptr (p2v (hhdm m1) t1) i1) user m1) as E2.
  destruct (next_table (entry_ptr (p2v (hhdm m1) t1) i1) user m1) as [[ptr2|e2] m2].
  2:{ destruct N2 as [-> ->]. destruct (E2 _ _ eq_refl) as (p' & Hal & _).
      split_and!; [done|done|by rewrite Hal]. }
  destruct N2 as (K2 & t2 & -> & W2).
  pose proof (next_table_spec U root m2 [i0; i1] i2 t2 user (keeps_inv _ _ _ _ K2) V3 Hu W2) as N3.
  pose proof (next_table_err (entry_ptr (p2v (hhdm m2) t2) i2) user m2) as E3.
  destruct (next_table (entry_ptr (p2v (hhdm m2) t2) i2) user m2) as [[ptr3|e3] m3].
  2:{ destruct N3 as [-> ->]. destruct (E3 _ _ eq_refl) as (p' & Hal & _).
      split_and!; [done|by eapply keeps_trans|by rewrite Hal]. }
  destruct N3 as (K3 & t3 & -> & W3). split; [|by exists t3].
  eapply keeps_trans; [exact K1|]. by eapply keeps_trans.
Qed.

(** ** `map_page` *)

(** Success writes one leaf entry below tables that kept everything. *)
Lemma map_page_ok_inv U root virt phys flags m m' :
  pt_inv U root m -> U (table_idx virt 39) = true ->
  map_page root virt phys flags m = (Ok tt, m') ->
  virt mod 4096 = 0 /\ phys mod 4096 = 0 /\
  exists m1 t, keeps U root m m1 /\ walk m1 root 0 (tpath virt) = Some t /\
    is_present (entry m1 t (table_idx virt 12)) = false /\
    m' = set_entry m1 t (table_idx virt 12) (set_frame phys flags false).
Proof.
  intros I Hu. rewrite map_page_descend. destruct (_ || _) eqn:Ea; [done|].
  apply orb_false_iff in Ea as [Hv%negb_false_iff%Z.eqb_eq Hp%negb_false_iff%Z.eqb_eq].
  pose proof (descend_spec U root virt (user_accessible flags) m I Hu) as D.
  destruct (descend root virt _ m) as [[ptr|e] m1]; [|done]. destruct D as (K & t & -> & W).
  cbn zeta. fold (entry m1 t (table_idx virt 12)).
  destruct (is_present (entry m1 t (table_idx virt 12))) eqn:Epr; [done|].
  intros [= <-]. split_and!; [done|done|]. by exists m1, t.
Qed.

Lemma map_page_err_inv U root virt phys flags m e m' :
  pt_inv U root m -> U (table_idx virt 39) = true ->
  map_page root virt phys flags m = (Err e, m') ->
  keeps U root m m' /\
  match e with
  | InvalidAddress => virt mod 4096 <> 0 \/ phys mod 4096 <> 0
  | AlreadyMapped => translate_addr root virt m <> None
  | FrameAllocationFailed => fst (fa_alloc (pmm m')) = None
  end.
Proof.
  intros I Hu. rewrite map_page_descend. destruct (_ || _) eqn:Ea.
  { intros [= <- <-]. split; [by apply keeps_refl|].
    apply orb_true_iff in Ea as [H%negb_true_iff%Z.eqb_neq|H%negb_true_iff%Z.eqb_neq]; auto. }
  pose proof (descend_spec U root virt (user_accessible flags) m I Hu) as D.
  destruct (descend root virt _ m) as [[ptr|e'] m1].
  2:{ destruct D as (-> & K & Hal). by intros [= <- <-]. }
  destruct D as (K & t & -> & W). cbn zeta. fold (entry m1 t (table_idx virt 12)).
  destruct (is_present (entry m1 t (table_idx virt 12))) eqn:Epr; [|done].
  intros [= <- <-]. split; [done|]. rewrite <- (keeps_tr _ _ _ _ K), translate_tr, vpath_tpath.
  rewrite (tr_leaf _ _ _ _ _ t W), Epr. done.
Qed.

Lemma tpath_user U v : U (table_idx v 39) = true -> user_path U (tpath v).
Proof. done. Qed.

Lemma idx12 v : 0 <= table_idx v 12 < 512.
Proof. apply table_idx_range. lia. Qed.

Lemma set_entry_inv U root m virt t e :
  pt_inv U root m -> U (table_idx virt 39) = true -> walk m root 0 (tpath virt) = Some t -> fits 64 e ->
  pt_inv U root (set_entry m t (table_idx virt 12) e).
Proof. intros. by apply (leaf_inv U root m (tpath virt)); try apply idx12; try apply tpath_valid. Qed.

Lemma set_entry_tr U root m virt t e v :
  pt_inv U root m -> U (table_idx virt 39) = true -> walk m root 0 (tpath virt) = Some t -> fits 64 e ->
  translate_addr root v (set_entry m t (table_idx virt 12) e) =
  if decide (vpn v = vpn virt)
  then (if is_present e then Some (add64 (physical_address e) (Z.land v 0xFFF)) else None)
  else translate_addr root v m.
Proof.
  intros I Hu W He. destruct (decide _) as [E|E]; rewrite <- vpath_vpn in E; rewrite vpath_tpath with (v := virt) in E.
  - by apply (leaf_tr_same U root m (tpath virt)); try apply idx12; try apply tpath_valid.
  - by apply (leaf_tr_other U root m (tpath virt)); try apply idx12; try apply tpath_valid.
Qed.

Lemma add64_page p off : 0 <= p < 2 ^ 48 -> 0 <= off < 4096 -> add64 p off = p + off.
Proof. intros. apply u64_small. split; [lia|]. change (2 ^ 64) with (2 ^ 48 * 2 ^ 16). lia. Qed.

Lemma vpn_offset v off : v mod 4096 = 0 -> 0 <= off < 4096 -> vpn (v + off) = vpn v.
Proof. intros. unfold vpn. f_equal. dlia. Qed.

(** The permission check reads the leaf a walked path ends in. *)
Lemma page_user_walk U root m virt t w :
  pt_inv U root m -> U (table_idx virt 39) = true -> walk m root 0 (tpath virt) = Some t ->
  page_is_user_accessible root virt w m =
    let leaf := entry m t (table_idx virt 12) in
    is_present leaf && is_user_accessible leaf && (negb w || is_writable leaf).
Proof.
  intros I Hu. unfold page_is_user_accessible, present_child, tpath. cbn [walk].
  fold (entry m root (table_idx virt 39)). unfold child.
  destruct (is_present (entry m root (table_idx virt 39))); [|done]. cbn [negb andb].
  destruct (_ && is_block _); [done|]. cbn [negb].
  generalize (physical_address (entry m root (table_idx virt 39))) as t1. intros t1.
  fold (entry m t1 (table_idx virt 30)).
  destruct (is_present (entry m t1 (table_idx virt 30))); [|done]. cbn [negb andb].
  destruct (_ && is_block _); [done|]. cbn [negb].
  generalize (physical_address (entry m t1 (table_idx virt 30))) as t2. intros t2.
  fold (entry m t2 (table_idx virt 21)).
  destruct (is_present (entry m t2 (table_idx virt 21))); [|done]. cbn [negb andb].
  destruct (_ && is_block _); [done|]. cbn [negb]. by intros [= ->].
Qed.

(** A root table with no entries satisfies the invariant. *)
Lemma empty_inv root m :
  mem_ok (mem m) -> fa_ok (pmm m) -> page (hhdm m) -> page root -> fa_used (pmm m) root = true ->
  (forall i, 0 <= i < 512 -> is_present (entry m root i) = false) ->
  pt_inv (fun _ => true) root m.
Proof.
  intros Hm Hp Hh Hr Hus Habs.
  assert (forall q t, valid_path q -> walk m root 0 q = Some t -> q = [] /\ t = root) as Hw.
  { intros [|i q] t [Hq _]; simpl; [by intros [= <-]|]. apply Forall_cons in Hq as [Hi _].
    unfold child. by rewrite Habs. }
  split; try done.
  - intros q t Hq [_ ->]%Hw; done.
  - intros q Hq [-> _]%Hw; done.
  - intros q q' t Hq Hq' _ [-> _]%Hw [-> _]%Hw; done.
  - intros q t i Hq Hu _ _ [-> _]%Hw; done.
Qed.

(** ** Claims *)

(** What a successful `map_page` establishes. *)
Record mapped U (root virt phys : Z) (flags : MapFlags) m m' : Prop := {
  mapped_inv : pt_inv U root m';
  mapped_hhdm : hhdm m' = hhdm m;
  mapped_tr : forall off, 0 <= off < 4096 -> translate_addr root (virt + off) m' = Some (phys + off);
  mapped_perm : forall w, page_is_user_accessible root virt w m' =
    user_accessible flags && (negb w || writable flags);
  mapped_other : forall v, vpn v <> vpn virt -> translate_addr root v m' = translate_addr root v m;
  mapped_foreign : forall a, foreign root m a -> foreign root m' a /\ same_page m m' a
}.

(** Writing the leaf entry of a walked path maps the page. *)
Lemma leaf_mapped U root virt phys flags m m1 t :
  U (table_idx virt 39) = true -> virt mod 4096 = 0 -> phys mod 4096 = 0 -> 0 <= phys < 2 ^ 48 ->
  keeps U root m m1 -> walk m1 root 0 (tpath virt) = Some t ->
  mapped U root virt phys flags m (set_entry m1 t (table_idx virt 12) (set_frame phys flags false)).
Proof.
  intros Hu Hv Hp Hphys K W. pose proof (keeps_inv _ _ _ _ K) as I1.
  assert (fits 64 (set_frame phys flags false)) as Hf by (apply fits_set_frame; lia).
  pose proof (set_entry_inv U root m1 virt t _ I1 Hu W Hf) as I2. split; [done|apply K| | | |].
  - intros off Ho. rewrite (set_entry_tr U root m1 virt t) by done.
    rewrite decide_True by (by apply vpn_offset). rewrite present_set_frame, pa_set_frame by done.
    f_equal. destruct (page_idx_offset virt off Hv Ho) as [_ ->]. by apply add64_page.
  - intros w. rewrite (page_user_walk U root _ virt t w I2 Hu).
    + cbn zeta. rewrite entry_set_eq, present_set_frame, user_set_frame, writable_set_frame by done. done.
    + by rewrite (leaf_walk U root m1 (tpath virt)) by (done || apply tpath_valid || apply idx12).
  - intros v Hne. rewrite (set_entry_tr U root m1 virt t), decide_False by done. by apply K.
  - intros a Ha. destruct (keeps_foreign _ _ _ _ K a Ha) as [Ha1 S1].
    destruct (leaf_foreign U root m1 (tpath virt) (table_idx virt 12) t (set_frame phys flags false)) with (a := a)
      as [Ha2 S2]; try done; try apply tpath_valid; try apply idx12.
    split; [done|]. eapply same_page_trans; [apply K|exact S1|done].
Qed.

Lemma map_page_mapped U root virt phys flags m m' :
  pt_inv U root m -> U (table_idx virt 39) = true -> 0 <= phys < 2 ^ 48 ->
  map_page root virt phys flags m = (Ok tt, m') -> mapped U root virt phys flags m m'.
Proof.
  intros I Hu Hphys E. destruct (map_page_ok_inv _ _ _ _ _ _ _ I Hu E) as (Hv & Hp & m1 & t & K & W & _ & ->).
  by apply leaf_mapped.
Qed.

(** C1: a successful `map_page` installs the mapping it was asked for and nothing else: every
    byte of the page translates to the corresponding byte of the frame, the permission
    check sees exactly the requested user and write permissions, every address on
    another page translates as before, frames that are not page tables of this address
    space are not written, and the page-table invariant is kept. *)
Theorem map_page_correct U root virt phys flags m m'
  (I : pt_inv U root m) (Hu : U (table_idx virt 39) = true) (Hphys : 0 <= phys < 2 ^ 48) :
  map_page root virt phys flags m = (Ok tt, m') ->
  pt_inv U root m' /\
  (forall off, 0 <= off < 4096 -> translate_addr root (virt + off) m' = Some (phys + off)) /\
  (forall w, page_is_user_accessible root virt w m' = user_accessible flags && (negb w || writable flags)) /\
  (forall v, vpn v <> vpn virt -> translate_addr root v m' = translate_addr root v m) /\
  (forall a, foreign root m a -> same_page m m' a).
Proof.
  intros E. destruct (map_page_mapped _ _ _ _ _ _ _ I Hu Hphys E) as [? ? ? ? ? F].
  split_and!; try done. intros a Ha. by apply F.
Qed.

(** a failing `map_page` changes no translation and writes no foreign frame, and the
    error tells what happened: `InvalidAddress` for a misaligned argument,
    `AlreadyMapped` for a page that already translates, `FrameAllocationFailed` only
    when the pool has run dry. *)
Theorem map_page_error U root virt phys flags m e m'
  (I : pt_inv U root m) (Hu : U (table_idx virt 39) = true) :
  map_page root virt phys flags m = (Err e, m') ->
  pt_inv U root m' /\
  (forall v, translate_addr root v m' = translate_addr root v m) /\
  (forall a, foreign root m a -> same_page m m' a) /\
  match e with
  | InvalidAddress => virt mod 4096 <> 0 \/ phys mod 4096 <> 0
  | AlreadyMapped => translate_addr root virt m <> None
  | FrameAllocationFailed => fst (fa_alloc (pmm m')) = None
  end.
Proof.
  intros E. destruct (map_page_err_inv _ _ _ _ _ _ _ _ I Hu E) as [K He].
  split_and!; [apply K|apply K| |done]. intros a Ha. by apply K.
Qed.

(** Where `unmap_page` ends up. *)
Lemma unmap_page_inv U root virt m :
  pt_inv U root m -> U (table_idx virt 39) = true -> virt mod 4096 = 0 ->
  (exists t, walk m root 0 (tpath virt) = Some t /\ is_present (entry m t (table_idx virt 12)) = true /\
     unmap_page root virt m = (Ok tt, set_entry m t (table_idx virt 12) 0)) \/
  (translate_addr root virt m = None /\ unmap_page root virt m = (Err InvalidAddress, m)).
Proof.
  intros I Hu Hv. unfold unmap_page, translate_addr. rewrite misaligned_spec, Hv. cbn [Z.eqb negb].
  assert (forall q i t, valid_path (q ++ [i]) -> user_path U (q ++ [i]) -> walk m root 0 q = Some t ->
    is_present (entry m t i) = true -> walk m root 0 (q ++ [i]) = Some (physical_address (entry m t i)) /\
    (q <> [] -> is_block (entry m t i) = false)) as Hstep.
  { intros q i t Hq Huq W Hpr. pose proof (proj1 (valid_snoc _ _) Hq) as (_ & Hi & Hl).
    assert (q <> [] -> is_block (entry m t i) = false) as Hb.
    { intros Hne. apply (inv_noblock _ _ _ I q t i); try done; [by eapply valid_prefix|by destruct q|lia]. }
    split; [|done]. rewrite walk_snoc, W. simpl. unfold child. rewrite Hpr. destruct q; [done|].
    by rewrite Hb, andb_false_r by done. }
  fold (entry m root (table_idx virt 39)).
  destruct (is_present (entry m root (table_idx virt 39))) eqn:P0; [|by right]. cbn [negb].
  destruct (Hstep [] (table_idx virt 39) root) as [W0 _];
    [by apply (tpath_prefix_valid virt _ [table_idx virt 30; table_idx virt 21])|done|done|done|].
  revert W0. generalize (physical_address (entry m root (table_idx virt 39))) as t1. intros t1 W1.
  fold (entry m t1 (table_idx virt 30)).
  destruct (is_present (entry m t1 (table_idx virt 30))) eqn:P1; [|by right]. cbn [negb].
  destruct (Hstep [table_idx virt 39] (table_idx virt 30) t1) as [W2 B2];
    [by apply (tpath_prefix_valid virt _ [table_idx virt 21])|done|done|done|].
  rewrite B2 by done. revert W2. clear B2 P1.
  generalize (physical_address (entry m t1 (table_idx virt 30))) as t2. intros t2 W2.
  fold (entry m t2 (table_idx virt 21)).
  destruct (is_present (entry m t2 (table_idx virt 21))) eqn:P2; [|by right]. cbn [negb].
  destruct (Hstep [table_idx virt 39; table_idx virt 30] (table_idx virt 21) t2) as [W3 B3];
    [apply (tpath_valid virt)|done|done|done|].
  rewrite B3 by done. revert W3. clear B3 P2.
  generalize (physical_address (entry m t2 (table_idx virt 21))) as t3. intros t3 W3.
  fold (entry m t3 (table_idx virt 12)).
  destruct (is_present (entry m t3 (table_idx virt 12))) eqn:P3; [|by right]. cbn [negb].
  left. by exists t3.
Qed.

(** `unmap_page` of a page-aligned address removes exactly that page: it answers `Ok`
    when the page translated before and then no byte of it translates any more, it answers
    `InvalidAddress` and changes nothing when the page was not mapped, and in both cases
    every other page translates as before. *)
Theorem unmap_page_correct U root virt m r m'
  (I : pt_inv U root m) (Hu : U (table_idx virt 39) = true) (Hv : virt mod 4096 = 0) :
  unmap_page root virt m = (r, m') ->
  pt_inv U root m' /\
  (r = Ok tt <-> translate_addr root virt m <> None) /\
  (r <> Ok tt -> r = Err InvalidAddress /\ m' = m) /\
  (forall off, 0 <= off < 4096 -> r = Ok tt -> translate_addr root (virt + off) m' = None) /\
  (forall v, vpn v <> vpn virt -> translate_addr root v m' = translate_addr root v m).
Proof.
  destruct (unmap_page_inv U root virt m I Hu Hv) as [(t & W & Hpr & ->)|[Hn ->]]; intros [= <- <-].
  - assert (fits 64 0) as H0 by done. split_and!; try done.
    + by apply (set_entry_inv U).
    + split; [intros _|done]. by rewrite translate_tr, vpath_tpath, (tr_leaf _ _ _ _ _ t W), Hpr.
    + intros off Ho _. rewrite (set_entry_tr U root m virt t) by done.
      by rewrite decide_True, present_zero by (by apply vpn_offset).
    + intros v Hne. by rewrite (set_entry_tr U root m virt t), decide_False by done.
  - split_and!; try done. 
Qed.

(** mapping a page and unmapping it again restores every translation of the address
    space (the intermediate tables stay allocated). *)
Theorem map_unmap_roundtrip U root virt phys flags m m'
  (I : pt_inv U root m) (Hu : U (table_idx virt 39) = true) (Hphys : 0 <= phys < 2 ^ 48)
  (Hmap : map_page root virt phys flags m = (Ok tt, m')) :
  exists m'', unmap_page root virt m' = (Ok tt, m'') /\
  forall v, translate_addr root v m'' = translate_addr root v m.
Proof.
  destruct (map_page_ok_inv _ _ _ _ _ _ _ I Hu Hmap) as (Hv & Hp & m1 & t & K & W & Habs & ->).
  pose proof (keeps_inv _ _ _ _ K) as I1.
  set (e := set_frame phys flags false). set (i := table_idx virt 12).
  assert (fits 64 e) as Hf by (apply fits_set_frame; lia).
  pose proof (set_entry_inv U root m1 virt t e I1 Hu W Hf) as I2. fold i in I2.
  assert (walk (set_entry m1 t i e) root 0 (tpath virt) = Some t) as W2.
  { by rewrite (leaf_walk U root m1 (tpath virt)) by (done || apply tpath_valid || apply idx12). }
  destruct (unmap_page_inv U root virt _ I2 Hu Hv) as [(t' & W' & _ & ->)|[Hn _]].
  - rewrite W2 in W'. injection W' as <-. eexists. split; [done|]. intros v. fold i.
    unfold i. rewrite (set_entry_tr U root _ virt t) by done. fold i.
    rewrite <- (keeps_tr _ _ _ _ K). destruct (decide _) as [E|E].
    + apply vpath_vpn in E. by rewrite translate_tr, E, vpath_tpath, (tr_leaf _ _ _ _ _ t W), Habs, present_zero.
    + unfold i. by rewrite (set_entry_tr U root _ virt t), decide_False by done.
  - unfold i in Hn. rewrite (set_entry_tr U root m1 virt t), decide_True in Hn by done.
    unfold e in Hn. by rewrite present_set_frame in Hn.
Qed.

(** ** Page faults *)

(** Memory changes confined to one frame outside the tree leave the tree as it is. *)
Lemma off_tree U root m m' f :
  pt_inv U root m -> hhdm m' = hhdm m -> root_reg m' = root_reg m -> root_reg1 m' = root_reg1 m ->
  mem_ok (mem m') -> fa_ok (pmm m') ->
  (forall a, page a -> fa_used (pmm m) a = true -> fa_used (pmm m') a = true) ->
  (forall q, valid_path q -> walk m root 0 q <> Some f) ->
  (forall a, page a -> a <> f -> same_page m m' a) ->
  pt_inv U root m' /\
  (forall q, valid_path q -> walk m' root 0 q = walk m root 0 q) /\
  (forall v, translate_addr root v m' = translate_addr root v m) /\
  (forall a, foreign root m a -> foreign root m' a).
Proof.
  intros I Hh Hr0 Hr1 Hm Hok Hmono Hnf Hsame.
  assert (forall q s j, valid_path q -> 0 <= j < 512 -> walk m root 0 q = Some s -> entry m' s j = entry m s j) as He.
  { intros q s j Hq Hj Hw. pose proof (walk_page m root q s (inv_root _ _ _ I) Hw) as Hs.
    assert (s <> f) as Hne by (intros ->; by apply (Hnf q)).
    unfold entry, read_u64. f_equal. rewrite Hh. apply read_n_ext. intros x Hx. unfold entry_ptr in Hx.
    replace x with (p2v (hhdm m) s + (x - p2v (hhdm m) s)) by lia. apply Hsame; [done|done|lia]. }
  assert (forall q, valid_path q -> walk m' root 0 q = walk m root 0 q) as Hwk.
  { intros q Hq. apply walk_agree. split; [done|]. intros q1 j q2 s -> Hs.
    rewrite (He q1); [apply same_entry_refl|by eapply valid_prefix| |done].
    destruct Hq as [Hq _]. by apply Forall_app in Hq as [_ [? _]%Forall_cons]. }
  split; [|split; [done|split]].
  - destruct I as [I1 I2 I3 I4 I5 I6 I7 I8]. split; try done.
    + by rewrite Hh.
    + intros q s Hq. rewrite Hwk by done. intros Hw.
      by apply Hmono; [exact (walk_page m root q s I4 Hw)|apply (I5 q)].
    + intros q Hq. rewrite Hwk by done. by apply I6.
    + intros q q' s Hq Hq'. rewrite !Hwk by done. by apply I7.
    + intros q s j Hq Huq Hj Hl Hw. rewrite Hwk in Hw by done. rewrite (He q) by done. by eapply I8.
  - intros v. rewrite !translate_tr. apply tr_agree. split; [done|]. intros q1 j q2 s Eq Hs.
    destruct (vpath_split _ _ _ _ Eq) as (Hq1 & Hj & _). rewrite (He q1); [apply same_entry_refl|done..].
  - intros a (Ha & Hau & Hn). split; [done|split; [by apply Hmono|]].
    intros q Hq. rewrite Hwk by done. by apply Hn.
Qed.

Lemma frame_page f : f mod 4096 = 0 -> 0 < f < 2 ^ 48 -> page f.
Proof. intros. split; [done|split; [lia|change (2 ^ 64) with (2 ^ 48 * 2 ^ 16); lia]]. Qed.

(** Taking a frame and clearing it, without linking it anywhere. *)
Lemma alloc_keeps U root m f pool :
  pt_inv U root m -> fa_alloc (pmm m) = (Some f, pool) ->
  keeps U root m (zero_page (with_pmm pool m) f) /\ foreign root (zero_page (with_pmm pool m) f) f.
Proof.
  intros I Hal. set (m' := zero_page (with_pmm pool m) f).
  destruct (fa_alloc_some _ _ _ (inv_pmm _ _ _ I) Hal) as (Hok & Hfm & Hf48 & Hfree & _ & Hus & _).
  pose proof (frame_page f Hfm Hf48) as Hfp.
  assert (forall q, valid_path q -> walk m root 0 q <> Some f) as Hnf.
  { intros q Hq Hw. by apply (walk_not_free U root m q f f I Hq Hw Hfree). }
  assert (forall a, page a -> a <> f -> same_page m m' a) as Hsame.
  { intros a Ha Hne x Hx. simpl. unfold write_bytes.
    destruct (p2v_sep (hhdm m) a f (inv_hhdm _ _ _ I) Ha Hfp Hne); zcases; done. }
  destruct (off_tree U root m m' f) as (I' & Hwk & Htr & Hfor); try done.
  { apply mem_ok_write_bytes; [apply I|done]. }
  { intros a [Ha [Ha0 _]] E. simpl. by rewrite Hus, E. }
  split; [split; try done|split; [done|split]].
  - intros q s Hq Hw. by rewrite Hwk.
  - intros a Ha. split; [by apply Hfor|]. apply Hsame; [apply Ha|]. intros ->.
    destruct Ha as (_ & Hau & _). congruence.
  - simpl. by rewrite Hus, Z.eqb_refl, orb_true_r by lia.
  - intros q Hq. rewrite Hwk by done. by apply Hnf.
Qed.

(** Filling a frame that is not part of the tree. *)
Lemma fill_foreign U root m f o bs :
  pt_inv U root m -> foreign root m f -> bytes_ok bs -> 0 <= o -> o + Z.of_nat (length bs) <= 4096 ->
  let m' := with_mem (copy_to (mem m) (p2v (hhdm m) f + o) bs) m in
  pt_inv U root m' /\
  (forall v, translate_addr root v m' = translate_addr root v m) /\
  (forall a, foreign root m a -> foreign root m' a) /\
  (forall a, page a -> a <> f -> same_page m m' a).
Proof.
  intros I (Hfp & Hfu & Hnf) Hbs Ho Hlen m'.
  assert (forall a, page a -> a <> f -> same_page m m' a) as Hsame.
  { intros a Ha Hne x Hx. unfold m'. simpl. unfold copy_to.
    destruct (p2v_sep (hhdm m) a f (inv_hhdm _ _ _ I) Ha Hfp Hne); zcases; done. }
  destruct (off_tree U root m m' f) as (I' & _ & Htr & Hfor); try done.
  - apply mem_ok_copy_to; [apply I|done].
  - apply I.
Qed.

Lemma land_not_fff v : fits 64 v -> Z.land v (not64 0xFFF) = v - v mod 4096.
Proof. intros. apply (mask_down_spec v 12); [done|lia]. Qed.

Lemma align_vpn v : (v - v mod 4096) mod 4096 = 0 /\ vpn (v - v mod 4096) = vpn v /\
  vpath (v - v mod 4096) = vpath v.
Proof.
  assert (vpn (v - v mod 4096) = vpn v) as E by (unfold vpn; f_equal; dlia).
  split_and!; [dlia|done|by apply vpath_vpn].
Qed.

(** C34: the page-fault handler never reaches its panic and reports success only when it did
    its job: the faulting page then translates to a frame that was free before, that frame
    reads as zeros (no byte of an earlier owner leaks into it), and the mapping is
    writable and user-accessible iff the fault came from user mode.  When it reports
    failure no translation has changed, and in both cases all other pages translate as
    before. *)
Theorem handle_page_fault_correct U m fault_addr present is_user
  (I : pt_inv U (fault_root fault_addr (root_reg m) (root_reg1 m)) m)
  (Hu : U (table_idx fault_addr 39) = true) (Hfa : fits 64 fault_addr) :
  let root := fault_root fault_addr (root_reg m) (root_reg1 m) in
  let page_addr := fault_addr - fault_addr mod 4096 in
  match handle_page_fault fault_addr present is_user m with
  | (Panics, _) => False
  | (Returns b, m') =>
      pt_inv U root m' /\
      (forall v, vpn v <> vpn fault_addr -> translate_addr root v m' = translate_addr root v m) /\
      (b = false -> forall v, translate_addr root v m' = translate_addr root v m) /\
      (b = true -> present = false /\ exists frame, fa_used (pmm m) frame = false /\
        (forall off, 0 <= off < 4096 ->
           translate_addr root (page_addr + off) m' = Some (frame + off) /\
           mem m' (p2v (hhdm m') frame + off) = 0) /\
        (forall w, page_is_user_accessible root page_addr w m' = is_user))
  end.
Proof.
  cbn zeta. set (root := fault_root _ _ _) in *. unfold handle_page_fault. fold root.
  destruct present; [done|]. rewrite land_not_fff by done. set (pg := fault_addr - fault_addr mod 4096).
  destruct (align_vpn fault_addr) as (Hpg & Hvpn & Hvp). fold pg in Hpg, Hvpn, Hvp.
  assert (U (table_idx pg 39) = true) as Hu' by (by injection Hvp as -> _ _ _).
  destruct (fa_alloc (pmm m)) as [[frame|] pool] eqn:Hal.
  2:{ apply fa_alloc_none in Hal as ->; [|apply I]. destruct m; simpl in *. by split_and!. }
  destruct (fa_alloc_some _ _ _ (inv_pmm _ _ _ I) Hal) as (_ & Hfm & Hf48 & Hfree & _).
  rewrite (proj2 (Z.eqb_neq frame 0)) by lia.
  destruct (alloc_keeps U root m frame pool I Hal) as [K Hfor].
  set (flags := {| writable := true; user_accessible := is_user; execute_disable := false; device := false |}).
  fold (zero_page (with_pmm pool m) frame). set (m1 := zero_page (with_pmm pool m) frame) in *.
  pose proof (keeps_inv _ _ _ _ K) as I1.
  destruct (map_page root pg frame flags m1) as [[[]|e] m'] eqn:Emap; simpl.
  - destruct (map_page_mapped U root pg frame flags m1 m' I1 Hu' ltac:(lia) Emap) as [M1 M2 M3 M4 M5 M6].
    split_and!; [done| |done|].
    + intros v Hne. rewrite M5 by congruence. by apply K.
    + intros _. split; [done|]. exists frame. split_and!; [done| |].
      * intros off Ho. split; [by apply M3|]. destruct (M6 frame Hfor) as [_ S]. rewrite M2, S by done.
        simpl. unfold write_bytes. zcases; done.
      * intros w. rewrite M4. simpl. by rewrite orb_true_r, andb_true_r.
  - destruct (map_page_err_inv _ _ _ _ _ _ _ _ I1 Hu' Emap) as [K2 _].
    assert (forall v, translate_addr root v m' = translate_addr root v m) as Ht.
    { intros v. rewrite (keeps_tr _ _ _ _ K2). by apply K. }
    split_and!; [apply K2|by intros v _|done|done].
Qed.
End correct.

(** ** Concrete instances *)

(** A machine with cleared memory, frames 0..7 taken, and an empty table at frame 1. *)
Definition demo_machine : machine bitmap :=
  Machine (fun _ => 0) [0xFF] 0xFFFF800000000000 4096 0.

Lemma demo_inv (A : PageArch) (L : PageArchLaws A) : pt_inv (fun _ => true) 4096 demo_machine.
Proof.
  apply empty_inv; [done| |by split|by split|done|intros i Hi; apply present_zero].
  split_and!; [repeat constructor; vm_compute; done|reflexivity|vm_compute; done].
Qed.

Definition demo_flags : MapFlags :=
  {| writable := true; user_accessible := true; execute_disable := true; device := false |}.

(** [run_ok H]: the second component of a call whose result is computed. *)
Lemma split_call {R S} (c : R * S) (r : R) : fst c = r -> c = (r, snd c).
Proof. by destruct c; intros <-. Qed.

Definition demo_mapped (A : PageArch) : machine bitmap :=
  snd (map_page (A := A) 4096 0x8000001000 0x7000 demo_flags demo_machine).

Lemma map_page_correct_witness :
  translate_addr (A := x86_64) 4096 (0x8000001000 + 42) (demo_mapped x86_64) = Some (0x7000 + 42) /\
  translate_addr (A := aarch64) 4096 (0x8000001000 + 42) (demo_mapped aarch64) = Some (0x7000 + 42).
Proof.
  split.
  - refine (proj1 (proj2 (map_page_correct (A := x86_64) (fun _ => true) 4096 0x8000001000 0x7000 demo_flags
      demo_machine (demo_mapped x86_64) (demo_inv _ _) eq_refl ltac:(lia) _)) 42 ltac:(lia)).
    apply split_call. vm_compute. reflexivity.
  - refine (proj1 (proj2 (map_page_correct (A := aarch64) (fun _ => true) 4096 0x8000001000 0x7000 demo_flags
      demo_machine (demo_mapped aarch64) (demo_inv _ _) eq_refl ltac:(lia) _)) 42 ltac:(lia)).
    apply split_call. vm_compute. reflexivity.
Defined.

(** An exhausted pool: the second table cannot be allocated. *)
Definition exhausted_machine : machine bitmap :=
  Machine (fun _ => 0) [Z.ones 64 - Z.shiftl 1 63] 0xFFFF800000000000 4096 0.

Lemma exhausted_inv : pt_inv (A := x86_64) (fun _ => true) 4096 exhausted_machine.
Proof.
  apply empty_inv; [done| |by split|by split|done|intros i Hi; apply present_zero].
  split_and!; [repeat constructor; vm_compute; done|reflexivity|vm_compute; done].
Qed.

Lemma map_page_error_witness :
  let m' := snd (map_page (A := x86_64) 4096 0x8000001000 0x7000 demo_flags exhausted_machine) in
  fst (map_page (A := x86_64) 4096 0x8000001000 0x7000 demo_flags exhausted_machine) = Err FrameAllocationFailed /\
  fst (fa_alloc (pmm m')) = None.
Proof.
  intros m'. assert (fst (map_page (A := x86_64) 4096 0x8000001000 0x7000 demo_flags exhausted_machine)
    = Err FrameAllocationFailed) as E by (vm_compute; reflexivity).
  split; [exact E|].
  exact (proj2 (proj2 (proj2 (map_page_error (A := x86_64) (fun _ => true) 4096 0x8000001000 0x7000 demo_flags
    exhausted_machine _ m' exhausted_inv eq_refl (split_call _ _ E))))).
Defined.

Lemma demo_mapped_inv : pt_inv (A := x86_64) (fun _ => true) 4096 (demo_mapped x86_64).
Proof.
  refine (mapped_inv _ _ _ _ _ _ _ (map_page_mapped (A := x86_64) (fun _ => true) 4096 0x8000001000 0x7000 demo_flags
      demo_machine (demo_mapped x86_64) (demo_inv _ _) eq_refl ltac:(lia) _)).
  apply split_call. vm_compute. reflexivity.
Qed.

Lemma unmap_page_correct_witness :
  let m' := snd (unmap_page (A := x86_64) 4096 0x8000001000 (demo_mapped x86_64)) in
  translate_addr (A := x86_64) 4096 (0x8000001000 + 42) m' = None.
Proof.
  intros m'. assert (fst (unmap_page (A := x86_64) 4096 0x8000001000 (demo_mapped x86_64)) = Ok tt) as E
    by (vm_compute; reflexivity).
  destruct (unmap_page_correct (A := x86_64) (fun _ => true) 4096 0x8000001000 (demo_mapped x86_64) _ m'
    demo_mapped_inv eq_refl eq_refl (split_call _ _ E)) as (_ & _ & _ & H & _).
  apply H; [lia|done].
Defined.

Lemma map_unmap_roundtrip_witness :
  exists m'', unmap_page (A := aarch64) 4096 0x8000001000 (demo_mapped aarch64) = (Ok tt, m'') /\
  translate_addr (A := aarch64) 4096 0x8000001000 m'' = translate_addr (A := aarch64) 4096 0x8000001000 demo_machine.
Proof.
  destruct (map_unmap_roundtrip (A := aarch64) (fun _ => true) 4096 0x8000001000 0x7000 demo_flags
      demo_machine (demo_mapped aarch64) (demo_inv _ _) eq_refl ltac:(lia)) as (m'' & E & H).
  - apply split_call. vm_compute. reflexivity.
  - exists m''. split; [exact E|apply H].
Defined.

Lemma handle_page_fault_correct_witness :
  let m' := snd (handle_page_fault (A := x86_64) 0x8000001234 false true demo_machine) in
  fst (handle_page_fault (A := x86_64) 0x8000001234 false true demo_machine) = Returns true /\
  exists frame, translate_addr (A := x86_64) 4096 0x8000001234 m' = Some (frame + 0x234).
Proof.
  intros m'. assert (fst (handle_page_fault (A := x86_64) 0x8000001234 false true demo_machine) = Returns true) as E
    by (vm_compute; reflexivity).
  split; [exact E|].
  pose proof (handle_page_fault_correct (A := x86_64) (fun _ => true) demo_machine 0x8000001234 false true
    (demo_inv _ _) eq_refl ltac:(unfold fits; lia)) as H.
  cbv zeta in H. rewrite (split_call _ _ E) in H. destruct H as (_ & _ & _ & H).
  destruct (H eq_refl) as (_ & frame & _ & Ht & _). exists frame. exact (proj1 (Ht 0x234 ltac:(lia))).
Defined.
