(* ===== verification/VmmBoot.v ===== *)
(** `memory::map_page` (src/src/memory.rs), the older mapping routine of x86_64 that maps
    device memory at boot: it agrees with the walk of `vmm::map_page`, so the theory of the
    page-table tree applies to it. *)
From S2P Require Import Prelude Pmm Vmm VmmTheory VmmCorrect.

Section older.
Context {P : Type} `{FA : FrameAllocator P}.
#[local] Existing Instance x86_64.
Implicit Types (m : machine P) (U : Z -> bool).

Definition out_of_memory : string := "Out of memory: failed to allocate page table frame".

(** The routine takes all bits above 11 of an entry for the address of a table, so it needs
    entries without flags in their high bits. *)
Definition plain U root m : Prop := forall q t i,
  valid_path (q ++ [i]) -> user_path U (q ++ [i]) -> walk m root 0 q = Some t ->
  is_present (entry m t i) = true -> fits 52 (entry m t i).

Lemma plain_address e : fits 52 e -> Z.land e (not64 0xFFF) = X86.physical_address e.
Proof.
  intros He. unfold X86.physical_address. rewrite x86_mask. apply Z.bits_inj'. intros i Hi. autorewrite with kbits.
  destruct (decide (i < 52)); [|by rewrite (testbit_above e 52) by (done || lia)]. f_equal.
  unfold not_w. change 0xFFF with (Z.ones 12). autorewrite with kbits. zcases; done.
Qed.

Lemma frame_entry f : f mod 4096 = 0 -> 0 <= f < 2 ^ 48 -> Z.lor f 7 = X86.set_frame f table_flags /\ fits 52 (Z.lor f 7).
Proof.
  intros Hf Hr. unfold X86.set_frame, table_flags, or_if. cbn [writable user_accessible execute_disable].
  rewrite x86_mask, mask_page_id by (done || (simpl; lia)). split.
  - by rewrite <- !Z.lor_assoc.
  - apply fits_lor; [lia|unfold fits in *; change (2 ^ 52) with (2 ^ 48 * 16); lia|done].
Qed.

Definition like {E A} (r : Result A E * machine P) : Result A string * machine P :=
  match r with (Ok a, m) => (Ok a, m) | (Err _, m) => (Err out_of_memory, m) end.

Lemma get_or_create_next ea m :
  fa_ok (pmm m) -> (is_present (read_u64 (mem m) ea) = true -> fits 52 (read_u64 (mem m) ea)) ->
  get_or_create_table ea m = like (next_table ea false m).
Proof.
  intros Hok Hpl. unfold get_or_create_table, next_table. cbn [x86_64 is_present upgrade p2v physical_address set_frame] in *.
  unfold X86.is_present in *. destruct (negb (Z.land (read_u64 (mem m) ea) 1 =? 0)); cbn [negb].
  - by rewrite plain_address by auto.
  - destruct (fa_alloc (pmm m)) as [[f|] p'] eqn:Ea; [|done].
    destruct (fa_alloc_some _ _ _ Hok Ea) as (_ & Hf & Hr & _). destruct (frame_entry f Hf ltac:(lia)) as [-> _].
    cbn [like]. pose proof (pa_set_frame (A := x86_64) f table_flags true Hf ltac:(lia)) as E. cbn [x86_64 physical_address set_frame] in E. by rewrite E.
Qed.

(** A step of the walk leaves entries plain. *)
Lemma next_table_plain U root m p i t m' ptr :
  pt_inv U root m -> plain U root m -> valid_path (p ++ [i]) -> user_path U (p ++ [i]) -> walk m root 0 p = Some t ->
  next_table (entry_ptr (p2v (hhdm m) t) i) false m = (Ok ptr, m') -> plain U root m'.
Proof.
  intros I Hpl Hp Hu Hw. unfold next_table. fold (entry m t i). destruct (is_present (entry m t i)) eqn:Hpr; cbn [negb].
  { cbn [x86_64 upgrade]. by intros [= _ <-]. }
  destruct (fa_alloc (pmm m)) as [[f|] pool] eqn:Hal; [|done]. intros [= _ <-].
  change (plain U root (linked m i t f pool)). intros q s j Hq Huq Hs Hpr'.
  pose proof (proj1 (valid_snoc _ _) Hq) as (_ & Hj & _). pose proof (valid_prefix _ _ Hq) as Hq'.
  destruct (link_frame_page U root m f pool I Hal) as (_ & Hf & Hfr).
  assert (s = f \/ walk m root 0 q = Some s) as [->|Hs'].
  { destruct (linked_walk_inv U root m p i t f pool I Hp Hu Hw Hal q s Hq' Hs) as [?|[_ ->]]; auto. }
  - by rewrite (linked_entry_frame U root m p i t f pool) in Hpr' by done.
  - destruct (linked_entry_at U root m p i t f pool I Hp Hu Hw Hal q s j Hq' Hj Hs') as [(-> & -> & ->)|E].
    + rewrite (linked_entry_new U root m i t f pool) by done. cbn [x86_64 set_frame].
      destruct (frame_entry f Hf Hfr) as [<- ?]. done.
    + rewrite E in Hpr' |- *. by apply (Hpl q s j).
Qed.

(** The three tables of the path, found or made. *)
Definition descend_older (root virt : Z) m : Result Z string * machine P :=
  match get_or_create_table (entry_ptr (X86.phys_to_virt (hhdm m) root) (table_idx virt 39)) m with
  | (Err e, m) => (Err e, m)
  | (Ok t1, m) =>
    match get_or_create_table (entry_ptr t1 (table_idx virt 30)) m with
    | (Err e, m) => (Err e, m)
    | (Ok t2, m) => get_or_create_table (entry_ptr t2 (table_idx virt 21)) m
    end
  end.

Lemma get_or_create_spec U root m p i t :
  pt_inv U root m -> plain U root m -> valid_path (p ++ [i]) -> user_path U (p ++ [i]) -> walk m root 0 p = Some t ->
  match get_or_create_table (entry_ptr (p2v (hhdm m) t) i) m with
  | (Ok ptr, m') => keeps U root m m' /\ plain U root m' /\
      exists t', ptr = p2v (hhdm m') t' /\ walk m' root 0 (p ++ [i]) = Some t'
  | (Err e, m') => e = out_of_memory /\ m' = m /\ fst (fa_alloc (pmm m)) = None
  end.
Proof.
  intros I Hpl Hp Hu Hw. rewrite get_or_create_next; [|apply I|by apply (Hpl p t i)].
  pose proof (next_table_spec U root m p i t false I Hp Hu Hw) as N.
  pose proof (next_table_plain U root m p i t) as Np. pose proof (next_table_err (entry_ptr (p2v (hhdm m) t) i) false m) as Ne.
  destruct (next_table _ false m) as [[ptr|e] m']; cbn [like].
  - destruct N as (K & t' & -> & W'). split_and!; [done|by eapply Np|by eauto].
  - destruct N as [_ ->]. destruct (Ne e m eq_refl) as (p' & -> & _). done.
Qed.

Lemma descend_older_spec U root virt m :
  pt_inv U root m -> plain U root m -> U (table_idx virt 39) = true ->
  match descend_older root virt m with
  | (Ok ptr, m') => keeps U root m m' /\ plain U root m' /\
      exists t', ptr = p2v (hhdm m') t' /\ walk m' root 0 (tpath virt) = Some t'
  | (Err e, m') => e = out_of_memory /\ keeps U root m m' /\ plain U root m' /\ fst (fa_alloc (pmm m')) = None
  end.
Proof.
  intros I Hpl Hu. unfold descend_older.
  set (i0 := table_idx virt 39) in *. set (i1 := table_idx virt 30). set (i2 := table_idx virt 21).
  assert (valid_path ([] ++ [i0])) as V1 by (by apply (tpath_prefix_valid virt _ [i1; i2])).
  assert (valid_path ([i0] ++ [i1])) as V2 by (by apply (tpath_prefix_valid virt _ [i2])).
  assert (valid_path ([i0; i1] ++ [i2])) as V3 by apply (tpath_valid virt).
  pose proof (get_or_create_spec U root m [] i0 root I Hpl V1 Hu eq_refl) as N1. cbn [x86_64 p2v] in N1.
  destruct (get_or_create_table _ m) as [[ptr1|e1] m1].
  2:{ destruct N1 as (-> & -> & Hal). split_and!; [done|by apply keeps_refl|done|done]. }
  destruct N1 as (K1 & Hpl1 & t1 & -> & W1).
  pose proof (get_or_create_spec U root m1 [i0] i1 t1 (keeps_inv _ _ _ _ K1) Hpl1 V2 Hu W1) as N2. cbn [x86_64 p2v] in N2.
  destruct (get_or_create_table _ m1) as [[ptr2|e2] m2].
  2:{ by destruct N2 as (-> & -> & Hal). }
  destruct N2 as (K2 & Hpl2 & t2 & -> & W2).
  pose proof (get_or_create_spec U root m2 [i0; i1] i2 t2 (keeps_inv _ _ _ _ K2) Hpl2 V3 Hu W2) as N3. cbn [x86_64 p2v] in N3.
  destruct (get_or_create_table _ m2) as [[ptr3|e3] m3].
  2:{ destruct N3 as (-> & -> & Hal). split_and!; [done|by eapply keeps_trans|done|done]. }
  destruct N3 as (K3 & Hpl3 & t3 & -> & W3). split_and!; [|done|by exists t3].
  eapply keeps_trans; [exact K1|]. by eapply keeps_trans.
Qed.

Lemma memory_map_page_descend root virt phys m :
  memory_map_page root virt phys m =
  match descend_older root virt m with
  | (Err e, m) => (Err e, m)
  | (Ok pt, m) => (Ok tt, with_mem (write_u64 (mem m) (entry_ptr pt (table_idx virt 12)) (Z.lor phys 7)) m)
  end.
Proof.
  unfold memory_map_page, descend_older. destruct (get_or_create_table _ m) as [[t1|] m1]; [|done].
  destruct (get_or_create_table _ m1) as [[t2|] m2]; [|done]. by destruct (get_or_create_table _ m2) as [[t3|] m3].
Qed.

(** `memory::map_page` maps the page it is asked for, for reading and writing from every
    ring, whatever was mapped there before, and nothing else; or the pool has run dry, and
    then no address translates differently. *)
Lemma memory_map_page_spec U root virt phys m :
  pt_inv U root m -> plain U root m -> U (table_idx virt 39) = true ->
  virt mod 4096 = 0 -> phys mod 4096 = 0 -> 0 <= phys < 2 ^ 48 ->
  match memory_map_page root virt phys m with
  | (Ok _, m') => mapped U root virt phys table_flags m m' /\ plain U root m'
  | (Err e, m') => e = out_of_memory /\ keeps U root m m' /\ plain U root m' /\ fst (fa_alloc (pmm m')) = None
  end.
Proof.
  intros I Hpl Hu Hv Hp Hphys. rewrite memory_map_page_descend. pose proof (descend_older_spec U root virt m I Hpl Hu) as D.
  destruct (descend_older root virt m) as [[ptr|e] m1]; [|done]. destruct D as (K & Hpl1 & t & -> & W).
  destruct (frame_entry phys Hp Hphys) as [-> _].
  change (with_mem _ m1) with (set_entry m1 t (table_idx virt 12) (set_frame phys table_flags false)).
  assert (fits 64 (set_frame phys table_flags false)) as Hf by (apply fits_set_frame; lia). split; [by apply leaf_mapped|].
  intros q s j Hq Huq Hs Hpr. pose proof (proj1 (valid_snoc _ _) Hq) as (_ & Hj & Hl).
  assert (walk m1 root 0 q = Some s) as Hs'.
  { rewrite <- Hs. symmetry. apply (leaf_walk U root m1 (tpath virt)); try done; [apply K|apply tpath_valid|apply idx12|by eapply valid_prefix]. }
  rewrite (leaf_entry_at U root m1 (tpath virt) _ t _ (keeps_inv _ _ _ _ K) (tpath_valid _)) with (q := q) in Hpr |- *;
    try done; try apply idx12; try (by eapply valid_prefix); try (by apply (Hpl1 q)).
  all: intros E%(f_equal length); rewrite !length_app in E; simpl in E, Hl; lia.
Qed.
End older.
