(* ===== verification/MmuCorrect.v ===== *)
(** Correctness of the boot-time map of AArch64 (`mmu::init`, src/src/mmu.rs): the table it
    loads is the identity on the kernel's memory and the devices, and holds nothing else.

    A table is seen through its leaf entries: [leaf] is the abstract state, of which
    translations and permissions are functions and which `map_page` changes at one page. *)
From S2P Require Import Prelude Pmm Vmm VmmTheory VmmCorrect.

(** ** Counting the frames that are left *)

(** The free frames with an index below [n]. *)
Fixpoint free_below (n : nat) (bm : bitmap) : Z :=
  match n with
  | O => 0
  | S n => (if used bm (Z.of_nat n) then 0 else 1) + free_below n bm
  end.

Lemma free_below_take n bm bm' f :
  0 <= f -> used bm f = false -> (forall g, 0 <= g -> used bm' g = used bm g || (g =? f)) ->
  free_below n bm' = free_below n bm - (if f <? Z.of_nat n then 1 else 0).
Proof.
  intros Hf Hu H. induction n as [|n IH]; cbn [free_below]; [destruct (Z.ltb_spec f (Z.of_nat 0)); lia|].
  rewrite IH, H by lia. destruct (Z.eqb_spec (Z.of_nat n) f) as [E|Hn].
  - rewrite E, Hu. cbn [orb]. zcases; lia.
  - rewrite orb_false_r. destruct (used bm (Z.of_nat n)); zcases; lia.
Qed.

Lemma free_below_pos n bm : 0 < free_below n bm -> exists g, 0 <= g < Z.of_nat n /\ used bm g = false.
Proof.
  induction n as [|n IH]; cbn [free_below]; [lia|]. destruct (used bm (Z.of_nat n)) eqn:E.
  - intros (g & ? & ?)%IH. exists g. split; [lia|done].
  - intros _. exists (Z.of_nat n). split; [lia|done].
Qed.

Lemma free_below_top n (k : nat) bm : (k <= n)%nat ->
  (forall g, Z.of_nat n - Z.of_nat k <= g < Z.of_nat n -> used bm g = false) -> Z.of_nat k <= free_below n bm.
Proof.
  revert k. induction n as [|n IH]; intros k Hk H; cbn [free_below]; [lia|]. destruct k as [|k].
  - specialize (IH 0%nat ltac:(lia) ltac:(lia)). destruct (used bm (Z.of_nat n)); lia.
  - rewrite H by lia. specialize (IH k ltac:(lia)). assert (Z.of_nat k <= free_below n bm) by (apply IH; intros; apply H; lia). lia.
Qed.

(** While frames below [n] are left, the allocator hands out one of them. *)
Lemma alloc_below n bm : pmm_ok bm -> 0 < free_below n bm ->
  exists f bm', vmm_alloc_frame bm = (Some f, bm') /\ 0 < f < 4096 * Z.of_nat n /\ free_below n bm' = free_below n bm - 1.
Proof.
  intros Hok Hn. destruct (vmm_alloc_frame bm) as [r bm'] eqn:E.
  destruct (vmm_alloc_frame_spec bm r bm' Hok E) as (_ & _ & H). destruct (free_below_pos n bm Hn) as (g & Hg & Hu).
  destruct r as [a|]; [|destruct H as [_ H]; rewrite H in Hu by lia; done].
  destruct H as (f & -> & Hf & Hfree & Hlow & Hused).
  assert (f <= g) by (destruct (Z.le_gt_cases f g); [done|]; rewrite Hlow in Hu by lia; done).
  exists (f * 4096), bm'. split; [done|]. split; [lia|].
  rewrite (free_below_take n bm bm' f) by (done || lia). zcases; lia.
Qed.

Section leaves.
Context `{A : PageArch} `{!PageArchLaws A}.
Implicit Types m : machine bitmap.
Abbreviation own := (fun _ : Z => true).

(** ** The leaf entry of an address; a missing table counts as an empty one *)
Definition leaf (root v : Z) m : Z :=
  match walk m root 0 (tpath v) with Some t => entry m t (table_idx v 12) | None => 0 end.

(** Below a present entry of a table that is not the last, the walk goes on. *)
Lemma walk_present root m q i t : pt_inv own root m -> valid_path (q ++ [i]) -> walk m root 0 q = Some t ->
  is_present (entry m t i) = true -> walk m root 0 (q ++ [i]) = Some (physical_address (entry m t i)).
Proof.
  intros I Hq W Hp. pose proof (proj1 (valid_snoc _ _) Hq) as (_ & Hi & Hl). rewrite walk_snoc, W. cbn [mbind option_bind]. unfold child. rewrite Hp.
  destruct q as [|k q]; [done|]. rewrite (inv_noblock _ _ _ I (k :: q) t i); [by rewrite andb_false_r| |done|done| |done|done].
  - by eapply valid_prefix.
  - cbn in Hl |- *. lia.
Qed.

(** A walk either meets an absent entry or reaches the last table. *)
Lemma walk_ends root m v : pt_inv own root m ->
  let e0 := entry m root (table_idx v 39) in
  let e1 := entry m (physical_address e0) (table_idx v 30) in
  let e2 := entry m (physical_address e1) (table_idx v 21) in
  (is_present e0 && is_present e1 && is_present e2 = true /\ walk m root 0 (tpath v) = Some (physical_address e2)) \/
  (is_present e0 && is_present e1 && is_present e2 = false /\ walk m root 0 (tpath v) = None /\
   exists q j q2 t, tpath v = q ++ j :: q2 /\ walk m root 0 q = Some t /\ is_present (entry m t j) = false).
Proof.
  intros I e0 e1 e2. set (i0 := table_idx v 39) in *. set (i1 := table_idx v 30) in *. set (i2 := table_idx v 21) in *.
  assert (forall q j q2 t, tpath v = q ++ j :: q2 -> walk m root 0 q = Some t -> is_present (entry m t j) = false ->
    walk m root 0 (tpath v) = None) as Hnone.
  { intros q j q2 t E W Hp. rewrite E. change (q ++ j :: q2) with (q ++ [j] ++ q2). rewrite app_assoc, walk_app, walk_snoc, W. cbn [mbind option_bind].
    unfold child. by rewrite Hp. }
  destruct (is_present e0) eqn:P0; [|right; split_and!; [done|by apply (Hnone [] i0 [i1; i2] root)|by exists [], i0, [i1; i2], root]].
  pose proof (walk_present root m [] i0 root I (tpath_prefix_valid v ([] ++ [i0]) [i1; i2] eq_refl) eq_refl P0) as W1.
  destruct (is_present e1) eqn:P1.
  2:{ right. split_and!; [done|by apply (Hnone [i0] i1 [i2] (physical_address e0))|by exists [i0], i1, [i2], (physical_address e0)]. }
  pose proof (walk_present root m [i0] i1 _ I (tpath_prefix_valid v ([i0] ++ [i1]) [i2] eq_refl) W1 P1) as W2.
  destruct (is_present e2) eqn:P2.
  2:{ right. split_and!; [done|by apply (Hnone [i0; i1] i2 [] (physical_address e1))|by exists [i0; i1], i2, [], (physical_address e1)]. }
  left. split; [done|]. exact (walk_present root m [i0; i1] i2 _ I (tpath_valid v) W2 P2).
Qed.

(** Translation and permissions are those of the leaf entry. *)
Lemma translate_leaf root v m : pt_inv own root m ->
  translate_addr root v m =
  if is_present (leaf root v m) then Some (add64 (physical_address (leaf root v m)) (Z.land v 0xFFF)) else None.
Proof.
  intros I. unfold leaf. rewrite translate_tr, vpath_tpath. destruct (walk_ends root m v I) as [[_ W]|(_ & W & q & j & q2 & t & E & Wq & Hp)]; rewrite W.
  - by apply tr_leaf.
  - rewrite present_zero. apply (tr_none m root 0 _ v q j (q2 ++ [table_idx v 12]) t); [by rewrite E, <- app_assoc|done|done].
Qed.

Lemma user_leaf root v w m : pt_inv own root m ->
  page_is_user_accessible root v w m =
  is_present (leaf root v m) && is_user_accessible (leaf root v m) && (negb w || is_writable (leaf root v m)).
Proof.
  intros I. unfold leaf. destruct (walk_ends root m v I) as [[_ W]|(Hp & W & _)]; rewrite W; [by apply (page_user_walk own)|].
  rewrite present_zero. cbn [andb]. unfold page_is_user_accessible, present_child.
  fold (entry m root (table_idx v 39)). set (e0 := entry m root (table_idx v 39)) in *. destruct (is_present e0); [|done].
  fold (entry m (physical_address e0) (table_idx v 30)). set (e1 := entry m (physical_address e0) (table_idx v 30)) in *.
  destruct (is_present e1); [|done]. cbn [andb] in Hp. fold (entry m (physical_address e1) (table_idx v 21)). by rewrite Hp.
Qed.

(** ** One `map_page` of the kernel's own pages *)

(** [N]: all tables of the tree lie below frame [N]. *)
Record ktable (N : nat) (root : Z) m : Prop := {
  kt_inv : pt_inv own root m;
  kt_low : forall q t, valid_path q -> walk m root 0 q = Some t -> 0 <= t < 4096 * Z.of_nat N
}.

(** [m'] is [m] with at most [c] frames more in tables. *)
Record grown (N : nat) (root c : Z) m m' : Prop := {
  gr_table : ktable N root m';
  gr_keeps : keeps own root m m';
  gr_leaf : forall v, leaf root v m' = leaf root v m;
  gr_free : free_below N (pmm m) - c <= free_below N (pmm m')
}.

Lemma next_table_grown N root m p i t :
  ktable N root m -> valid_path (p ++ [i]) -> walk m root 0 p = Some t ->
  walk m root 0 (p ++ [i]) <> None \/ 0 < free_below N (pmm m) ->
  exists t' m', next_table (entry_ptr (p2v (hhdm m) t) i) false m = (Ok (p2v (hhdm m') t'), m') /\
    walk m' root 0 (p ++ [i]) = Some t' /\ grown N root 1 m m' /\ (walk m root 0 (p ++ [i]) <> None -> m' = m).
Proof.
  intros [I Hlow] Hp W Hn. unfold next_table. fold (entry m t i). destruct (is_present (entry m t i)) eqn:Hpr; cbn [negb].
  - exists (physical_address (entry m t i)), m. split; [by destruct upgrade|]. split; [by apply walk_present|]. split; [|done].
    split; [done|by apply keeps_refl|done|lia].
  - assert (walk m root 0 (p ++ [i]) = None) as Wn by (rewrite walk_snoc, W; cbn [mbind option_bind]; unfold child; by rewrite Hpr).
    destruct Hn as [Hn|Hn]; [done|]. destruct (alloc_below N (pmm m) (inv_pmm _ _ _ I) Hn) as (f & pool & Hal & Hf & Hfree). cbn [fa_alloc pmm_allocator]. rewrite Hal.
    set (m' := linked m i t f pool).
    pose proof (linked_keeps own root m p i t f pool I Hp ltac:(by destruct p) W Hpr Hal) as K.
    pose proof (linked_walk_inv own root m p i t f pool I Hp ltac:(by destruct p) W Hal) as Winv.
    fold m' in K, Winv. exists f, m'. split; [f_equal; f_equal; f_equal; apply pa_set_frame; by eapply (link_frame_page own root m f pool)|].
    split; [exact (linked_walk_new own root m p i t f pool I Hp ltac:(by destruct p) W Hpr Hal)|]. split.
    + split; [split; [apply K|]|exact K| |unfold m'; cbn [pmm linked]; change (pmm (linked m i t f pool)) with pool; lia].
      * intros q s Hq Ws. destruct (Winv q s Hq Ws) as [H|[_ ->]]; [by eapply Hlow|lia].
      * intros v. unfold leaf. destruct (walk m root 0 (tpath v)) as [s|] eqn:Ws.
        -- rewrite (keeps_walk _ _ _ _ K _ _ (tpath_valid v) Ws).
           destruct (linked_entry_at own root m p i t f pool I Hp ltac:(by destruct p) W Hal (tpath v) s (table_idx v 12) (tpath_valid v) (idx12 v) Ws) as [(E & _)|E]; [|done].
           exfalso. subst p. destruct Hp as [_ Hl]. rewrite length_app in Hl. cbn in Hl. lia.
        -- destruct (walk m' root 0 (tpath v)) as [s|] eqn:Ws'; [|done].
           destruct (Winv (tpath v) s (tpath_valid v) Ws') as [H|[_ ->]]; [congruence|].
           by apply (linked_entry_frame own root m p i t f pool), idx12.
    + by rewrite Wn.
Qed.

Lemma grown_trans N root c1 c2 m1 m2 m3 : grown N root c1 m1 m2 -> grown N root c2 m2 m3 -> grown N root (c1 + c2) m1 m3.
Proof.
  intros [_ K1 L1 F1] [T2 K2 L2 F2]. split; [done|by eapply keeps_trans|intros v; by rewrite L2|lia].
Qed.

Lemma grown_refl N root m : ktable N root m -> grown N root 0 m m.
Proof. intros T. split; [done|apply keeps_refl, T|done|lia]. Qed.

(** The frames `map_page` may need for the tables above a page. *)
Definition tables_needed (root v : Z) m : Z := match walk m root 0 (tpath v) with Some _ => 0 | None => 3 end.

Lemma descend_grown N root v m : ktable N root m -> tables_needed root v m <= free_below N (pmm m) ->
  exists t m', descend root v false m = (Ok (p2v (hhdm m') t), m') /\ walk m' root 0 (tpath v) = Some t /\
    grown N root (tables_needed root v m) m m'.
Proof.
  intros T Hc. unfold descend. set (i0 := table_idx v 39). set (i1 := table_idx v 30). set (i2 := table_idx v 21).
  assert (valid_path ([] ++ [i0])) as V1 by (by apply (tpath_prefix_valid v _ [i1; i2])).
  assert (valid_path ([i0] ++ [i1])) as V2 by (by apply (tpath_prefix_valid v _ [i2])).
  assert (valid_path ([i0; i1] ++ [i2])) as V3 by apply (tpath_valid v).
  assert (forall q1 q2 m, walk m root 0 (q1 ++ q2) <> None -> walk m root 0 q1 <> None) as Hpre.
  { intros q1 q2 m1 H. rewrite walk_app in H. by destruct (walk m1 root 0 q1). }
  unfold tables_needed in *. destruct (walk m root 0 (tpath v)) as [t|] eqn:W.
  - assert (walk m root 0 ([i0; i1] ++ [i2]) <> None) as W3 by (change ([i0; i1] ++ [i2]) with (tpath v); by rewrite W).
    pose proof (Hpre _ _ _ W3) as W2. pose proof (Hpre [i0] [i1] m W2) as W1.
    destruct (next_table_grown N root m [] i0 root T V1 eq_refl (or_introl W1)) as (t1 & m1 & -> & Wt1 & _ & E1). rewrite (E1 W1) in *.
    destruct (next_table_grown N root m [i0] i1 t1 T V2 Wt1 (or_introl W2)) as (t2 & m2 & -> & Wt2 & _ & E2). rewrite (E2 W2) in *.
    destruct (next_table_grown N root m [i0; i1] i2 t2 T V3 Wt2 (or_introl W3)) as (t3 & m3 & -> & Wt3 & _ & E3). rewrite (E3 W3) in *.
    exists t3, m. split; [done|]. split; [exact Wt3|]. by apply grown_refl.
  - destruct (next_table_grown N root m [] i0 root T V1 eq_refl) as (t1 & m1 & -> & Wt1 & G1 & _); [right; lia|].
    destruct (next_table_grown N root m1 [i0] i1 t1 (gr_table _ _ _ _ _ G1) V2 Wt1) as (t2 & m2 & -> & Wt2 & G2 & _);
      [right; pose proof (gr_free _ _ _ _ _ G1); lia|].
    destruct (next_table_grown N root m2 [i0; i1] i2 t2 (gr_table _ _ _ _ _ G2) V3 Wt2) as (t3 & m3 & -> & Wt3 & G3 & _);
      [right; pose proof (gr_free _ _ _ _ _ G1); pose proof (gr_free _ _ _ _ _ G2); lia|].
    exists t3, m3. split; [done|]. split; [exact Wt3|].
    exact (grown_trans _ _ _ _ _ _ _ (grown_trans _ _ _ _ _ _ _ G1 G2) G3).
Qed.

(** What mapping pages does to the table: the leaves that [new] gives change, no others. *)
Record mapped_as (N : nat) (root c : Z) (new : Z -> option Z) m m' : Prop := {
  ma_table : ktable N root m';
  ma_hhdm : hhdm m' = hhdm m;
  ma_leaf : forall v, leaf root v m' = default (leaf root v m) (new v);
  ma_free : free_below N (pmm m) - c <= free_below N (pmm m');
  ma_walk : forall q t, valid_path q -> walk m root 0 q = Some t -> walk m' root 0 q = Some t;
  ma_foreign : forall a, foreign root m a -> foreign root m' a /\ same_page m m' a
}.

Lemma mapped_as_trans N root c1 c2 n1 n2 m1 m2 m3 :
  mapped_as N root c1 n1 m1 m2 -> mapped_as N root c2 n2 m2 m3 ->
  mapped_as N root (c1 + c2) (fun v => match n2 v with Some e => Some e | None => n1 v end) m1 m3.
Proof.
  intros [_ H1 L1 F1 W1 O1] [T2 H2 L2 F2 W2 O2]. split; [done|congruence| |lia|by eauto|].
  - intros v. rewrite L2, L1. by destruct (n2 v).
  - intros a [Ha S1]%O1. apply O2 in Ha as [? S2]. split; [done|by eapply same_page_trans].
Qed.

Lemma map_page_leaf N root v flags m :
  ktable N root m -> tables_needed root v m <= free_below N (pmm m) -> user_accessible flags = false ->
  v mod 4096 = 0 -> 0 <= v < 2 ^ 48 -> is_present (leaf root v m) = false ->
  exists m', map_page root v v flags m = (Ok tt, m') /\ walk m' root 0 (tpath v) <> None /\
    mapped_as N root (tables_needed root v m) (fun u => if vpn u =? vpn v then Some (set_frame v flags false) else None) m m'.
Proof.
  intros T Hc Hf Hv Hr Habs. rewrite map_page_descend, Hv, Hf. cbn [Z.eqb negb orb].
  destruct (descend_grown N root v m T Hc) as (t & m1 & -> & W & [[I1 Low] K L F]). cbn zeta. fold (entry m1 t (table_idx v 12)).
  assert (leaf root v m1 = entry m1 t (table_idx v 12)) as El by (unfold leaf; by rewrite W). rewrite <- El, L, Habs.
  set (e := set_frame v flags false). assert (fits 64 e) as He by (apply fits_set_frame; lia).
  fold (set_entry m1 t (table_idx v 12) e).
  assert (forall q, valid_path q -> walk (set_entry m1 t (table_idx v 12) e) root 0 q = walk m1 root 0 q) as Wl.
  { intros q. by apply (leaf_walk own root m1 (tpath v)); try apply tpath_valid; try apply idx12. }
  eexists. split; [reflexivity|]. split; [rewrite Wl by apply tpath_valid; by rewrite W|]. split.
  - split; [by apply (set_entry_inv own)|]. intros q s Hq. rewrite Wl by done. by apply Low.
  - apply K.
  - intros u. rewrite <- L. unfold leaf. rewrite Wl by apply tpath_valid. destruct (Z.eqb_spec (vpn u) (vpn v)) as [E|E]; cbn [default].
    + apply vpath_vpn in E. rewrite !vpath_tpath in E. apply app_inj_tail in E as [-> ->]. by rewrite W, entry_set_eq.
    + rewrite <- vpath_vpn, !vpath_tpath in E. destruct (walk m1 root 0 (tpath u)) as [s|] eqn:Wu; [|done].
      by apply (leaf_entry_at own root m1 (tpath v)) with (q := tpath u); try apply tpath_valid; try apply idx12.
  - exact F.
  - intros q s Hq Ws. rewrite Wl by done. by apply K.
  - intros a Ha. destruct (keeps_foreign _ _ _ _ K a Ha) as [Ha1 S1].
    destruct (leaf_foreign own root m1 (tpath v) (table_idx v 12) t e) with (a := a) as [Ha2 S2]; try done; try apply tpath_valid; try apply idx12.
    split; [done|]. eapply same_page_trans; [apply K|exact S1|done].
Qed.

Lemma mapped_as_ext N root c c' n n' m m' :
  (forall v, n v = n' v) -> c <= c' -> mapped_as N root c n m m' -> mapped_as N root c' n' m m'.
Proof. intros E Hc [T H L F W O]. split; [done|done|intros v; by rewrite L, E|lia|done|done]. Qed.

(** ** A range of pages *)

(** The leaves of an identity map of the [n] pages from [base] on. *)
Definition page_of (v : Z) : Z := vpn v * 4096.
Definition identity (base n : Z) (flags : MapFlags) (v : Z) : option Z :=
  if (base <=? page_of v) && (page_of v <? base + 4096 * n) then Some (set_frame (page_of v) flags false) else None.

(** The tables the range needs at most: three for its first page and for each page that
    starts another 2 MiB. *)
Fixpoint range_needs (base : Z) (n : nat) : Z :=
  match n with
  | O => 0
  | S k => range_needs base k + (if (Z.of_nat k =? 0) || ((base + 4096 * Z.of_nat k) mod 0x200000 =? 0) then 3 else 0)
  end.

Lemma page_of_aligned v : v mod 4096 = 0 -> 0 <= v < 2 ^ 48 -> page_of v = v.
Proof. intros Ha Hr. unfold page_of, vpn. rewrite Z.mod_small; [dlia|]. change (2 ^ 48) with (2 ^ 36 * 4096) in Hr. dlia. Qed.

Lemma same_tables v : v mod 4096 = 0 -> v mod 0x200000 <> 0 -> tpath (v - 4096) = tpath v.
Proof.
  intros Ha Hb. assert ((v - 4096) / 2 ^ 21 = v / 2 ^ 21) as E by (change (2 ^ 21) with 0x200000; dlia). unfold tpath.
  assert (forall k, 21 <= k -> table_idx (v - 4096) k = table_idx v k) as H.
  { intros k Hk. rewrite !table_idx_div by lia. replace (2 ^ k) with (2 ^ 21 * 2 ^ (k - 21)) by (rewrite <- Z.pow_add_r by lia; f_equal; lia).
    rewrite <- !Z.div_div by (try apply Z.pow_pos_nonneg; lia). by rewrite E. }
  by rewrite !H by lia.
Qed.

Lemma for_loop_S {S} n (f : Z -> S -> S) s : for_loop 0 (Datatypes.S n) f s = f (Z.of_nat n) (for_loop 0 n f s).
Proof. unfold for_loop. rewrite !Nat.sub_0_r, seq_S, fold_left_app. done. Qed.

Lemma identity_loop N root base n flags m :
  ktable N root m -> user_accessible flags = false -> base mod 4096 = 0 -> 0 <= base -> base + 4096 * Z.of_nat n <= 2 ^ 48 ->
  range_needs base n <= free_below N (pmm m) ->
  (forall v, is_Some (identity base (Z.of_nat n) flags v) -> is_present (leaf root v m) = false) ->
  let m' := for_loop 0 n (fun i m => let addr := add64 base (mul64 i 4096) in snd (map_page root addr addr flags m)) m in
  mapped_as N root (range_needs base n) (identity base (Z.of_nat n) flags) m m' /\
  ((0 < n)%nat -> walk m' root 0 (tpath (base + 4096 * (Z.of_nat n - 1))) <> None).
Proof.
  intros T Hf Hb H0 Hmax. induction n as [|n IH]; intros Hfree Habs.
  { split; [|lia]. cbn. split; try done; [|lia]. intros v. unfold identity. zcases; done. }
  cbv zeta. rewrite for_loop_S. cbn [range_needs] in Hfree |- *.
  destruct IH as [M Hlast]; [lia|destruct (_ || _); lia| |].
  { intros v [e He]. apply Habs. revert He. unfold identity. zcases; done. }
  set (m1 := for_loop 0 n _ m) in *. set (v := base + 4096 * Z.of_nat n).
  assert (add64 base (mul64 (Z.of_nat n) 4096) = v) as ->.
  { unfold add64, mul64. rewrite (u64_small (_ * _)) by (unfold fits; lia). unfold v. rewrite u64_small; [lia|unfold fits; lia]. }
  assert (v mod 4096 = 0) as Hv by (unfold v; dlia).
  set (c := if (Z.of_nat n =? 0) || (v mod 0x200000 =? 0) then 3 else 0).
  assert (tables_needed root v m1 <= c) as Hc.
  { unfold tables_needed, c. destruct (Z.eqb_spec (Z.of_nat n) 0); [cbn [orb]; destruct (walk m1 root 0 (tpath v)); lia|].
    destruct (Z.eqb_spec (v mod 0x200000) 0) as [|Hn2]; [cbn [orb]; destruct (walk m1 root 0 (tpath v)); lia|].
    cbn [orb]. specialize (Hlast ltac:(lia)). replace (base + 4096 * (Z.of_nat n - 1)) with (v - 4096) in Hlast by (unfold v; lia).
    rewrite (same_tables v Hv Hn2) in Hlast. by destruct (walk _ _ _ _). }
  pose proof (ma_free _ _ _ _ _ _ M) as Hfree1.
  destruct (map_page_leaf N root v flags m1) as (m2 & -> & Hw & M2); [apply M|fold v c in Hfree; lia|done|done|unfold v in *; lia| |].
  { rewrite (ma_leaf _ _ _ _ _ _ M). unfold identity at 1. rewrite page_of_aligned by (done || unfold v in *; lia).
    replace (v <? base + 4096 * Z.of_nat n) with false by (unfold v; lia). rewrite andb_false_r. cbn [default]. apply Habs.
    unfold identity. rewrite page_of_aligned by (done || unfold v in *; lia). unfold v. zcases. by eexists. }
  cbn [snd]. split.
  - eapply mapped_as_ext; [| |exact (mapped_as_trans _ _ _ _ _ _ _ _ _ M M2)]; [|fold v c; lia].
    intros u. cbn beta. unfold identity. assert (vpn v * 4096 = v) as Ev by (apply page_of_aligned; [done|unfold v in *; lia]).
    destruct (Z.eqb_spec (vpn u) (vpn v)) as [E|E].
    + unfold page_of. rewrite E, Ev. unfold v. zcases. done.
    + assert (page_of u <> v) by (unfold page_of; lia). assert (page_of u mod 4096 = 0) by (unfold page_of; dlia).
      unfold v in *. zcases; try done. exfalso. dlia.
  - intros _. by replace (base + 4096 * (Z.of_nat (S n) - 1)) with v by (unfold v; lia).
Qed.

(** ** Several ranges *)
Record range := mkRange { r_base : Z; r_size : Z; r_flags : MapFlags }.

Definition r_pages (r : range) : Z := r_size r / 4096.
Definition range_ok (r : range) : Prop :=
  r_base r mod 4096 = 0 /\ 0 <= r_base r /\ r_size r mod 4096 = 0 /\ 0 < r_size r /\ r_base r + r_size r <= 2 ^ 48 /\ user_accessible (r_flags r) = false.
Definition apart (r s : range) : Prop := r_base r + r_size r <= r_base s \/ r_base s + r_size s <= r_base r.

Definition range_leaf (r : range) : Z -> option Z := identity (r_base r) (r_pages r) (r_flags r).
Fixpoint ranges_leaf (l : list range) (v : Z) : option Z :=
  match l with
  | [] => None
  | r :: l => match ranges_leaf l v with Some e => Some e | None => range_leaf r v end
  end.
Fixpoint ranges_need (l : list range) : Z :=
  match l with [] => 0 | r :: l => range_needs (r_base r) (Z.to_nat (r_pages r)) + ranges_need l end.

Lemma range_needs_nonneg base n : 0 <= range_needs base n.
Proof. induction n; cbn [range_needs]; [lia|]. destruct (_ || _); lia. Qed.
Lemma ranges_need_nonneg l : 0 <= ranges_need l.
Proof. induction l as [|r l IH]; cbn [ranges_need]; [lia|]. pose proof (range_needs_nonneg (r_base r) (Z.to_nat (r_pages r))). lia. Qed.

Lemma range_mapped N root r m : ktable N root m -> range_ok r ->
  range_needs (r_base r) (Z.to_nat (r_pages r)) <= free_below N (pmm m) ->
  (forall v, is_Some (range_leaf r v) -> is_present (leaf root v m) = false) ->
  mapped_as N root (range_needs (r_base r) (Z.to_nat (r_pages r))) (range_leaf r) m
    (identity_map_range root (r_base r) (r_size r) (r_flags r) m).
Proof.
  intros T (Hb & H0 & Hs & Hs0 & Hmax & Hf) Hfree Habs. unfold identity_map_range.
  assert (sub64 (add64 (r_size r) 4096) 1 / 4096 = r_pages r) as ->.
  { unfold add64, sub64, r_pages. rewrite (u64_small (_ + _)) by (unfold fits; lia). rewrite u64_small by (unfold fits; lia). dlia. }
  assert (0 <= r_pages r /\ 4096 * r_pages r = r_size r) as [Hp Hp'] by (unfold r_pages; dlia).
  assert (Z.of_nat (Z.to_nat (r_pages r)) = r_pages r) as En by lia.
  destruct (identity_loop N root (r_base r) (Z.to_nat (r_pages r)) (r_flags r) m) as [M _]; try done; [lia| |].
  - intros v. rewrite En. apply Habs.
  - rewrite En in M. exact M.
Qed.

Lemma leaf_in_range r v e : range_ok r -> range_leaf r v = Some e -> r_base r <= page_of v < r_base r + r_size r.
Proof. intros (? & ? & ? & ? & _). unfold range_leaf, identity, r_pages. zcases; try done. intros _. dlia. Qed.

Lemma ranges_mapped N root l m : ktable N root m -> Forall range_ok l -> ForallOrdPairs apart l ->
  ranges_need l <= free_below N (pmm m) ->
  (forall v r, r ∈ l -> is_Some (range_leaf r v) -> is_present (leaf root v m) = false) ->
  mapped_as N root (ranges_need l) (ranges_leaf l) m
    (fold_left (fun m r => identity_map_range root (r_base r) (r_size r) (r_flags r) m) l m).
Proof.
  intros T Hl Hd. revert m T Hl. induction Hd as [|r l Hr Hd IH]; intros m T Hl Hfree Habs; cbn [fold_left ranges_need] in *.
  { split; try done. lia. }
  apply Forall_cons in Hl as [Hok Hl]. pose proof (ranges_need_nonneg l).
  pose proof (range_mapped N root r m T Hok ltac:(lia) (fun v => Habs v r (list_elem_of_here _ _))) as M.
  eapply mapped_as_ext; [| |eapply mapped_as_trans; [exact M|apply IH]]; [done|lia|apply M|done|pose proof (ma_free _ _ _ _ _ _ M); lia|].
  intros v r2 Hr2 [e He]. rewrite (ma_leaf _ _ _ _ _ _ M). destruct (range_leaf r v) as [e1|] eqn:E1.
  - exfalso. rewrite Forall_forall in Hl, Hr. specialize (Hl r2 Hr2). specialize (Hr r2 Hr2). apply leaf_in_range in E1, He; [|done|done].
    unfold apart in Hr. lia.
  - cbn [default]. apply (Habs v r2); [by right|by eexists].
Qed.
End leaves.

(** ** `mmu::init` *)
Definition kernel_memory : MapFlags := {| writable := true; user_accessible := false; execute_disable := false; device := false |}.
Definition device_memory : MapFlags := {| writable := true; user_accessible := false; execute_disable := true; device := true |}.

Definition boot_ranges : list range :=
  [mkRange 0 KERNEL_IDENTITY_MAP_SIZE kernel_memory; mkRange LOCAL_BASE 4096 device_memory; mkRange GPIO_BASE 4096 device_memory;
   mkRange UART0_BASE 4096 device_memory; mkRange Vmm.FB_ADDR FB_SIZE device_memory].

Lemma boot_ranges_ok : Forall range_ok boot_ranges /\ ForallOrdPairs apart boot_ranges.
Proof.
  split; [|unfold boot_ranges; repeat constructor; vm_compute; intuition congruence].
  unfold boot_ranges. repeat constructor; vm_compute; congruence.
Qed.

(** A range that starts on a 2 MiB boundary needs three tables for each 2 MiB begun. *)
Lemma range_needs_aligned base n : base mod 0x200000 = 0 -> range_needs base n = 3 * ((Z.of_nat n + 511) / 512).
Proof.
  intros Hb. induction n as [|n IH]; cbn [range_needs]; [reflexivity|]. rewrite IH.
  assert (((Z.of_nat n =? 0) || ((base + 4096 * Z.of_nat n) mod 0x200000 =? 0)) = (Z.of_nat n mod 512 =? 0)) as ->.
  { destruct (Z.eqb_spec (Z.of_nat n) 0) as [E|E]; [by rewrite E|]. cbn [orb].
    replace (base + 4096 * Z.of_nat n) with (Z.of_nat n * 4096 + (base / 0x200000) * 0x200000) by dlia.
    rewrite Z.mod_add by lia. change 0x200000 with (512 * 4096). rewrite Zmult_mod_distr_r. zcases; done. }
  destruct (Z.eqb_spec (Z.of_nat n mod 512) 0); dlia.
Qed.

Lemma boot_ranges_need : ranges_need boot_ranges = 63.
Proof.
  unfold ranges_need, boot_ranges, r_pages. cbn [r_base r_size].
  rewrite (range_needs_aligned 0), (range_needs_aligned Vmm.FB_ADDR), !Z2Nat.id by (done || reflexivity). reflexivity.
Qed.

Lemma mmu_init_ranges (m : machine bitmap) :
  mmu_init m =
  match vmm_alloc_frame (pmm m) with
  | (None, _) => None
  | (Some root, p') =>
      Some (root, with_root root (fold_left (fun m r => identity_map_range (A := aarch64) root (r_base r) (r_size r) (r_flags r) m) boot_ranges
        (zero_page (A := aarch64) (with_pmm p' m) root)))
  end.
Proof.
  unfold mmu_init, boot_ranges, zero_page, kernel_memory, device_memory. cbn [fold_left r_base r_size r_flags fa_alloc pmm_allocator].
  destruct (vmm_alloc_frame (pmm m)) as [[root|] p']; [|done]. cbn [p2v aarch64]. unfold A64.phys_to_virt. reflexivity.
Qed.

(** What the boot map is to hold at an address. *)
Definition boot_map (v : Z) : option MapFlags :=
  if v <? KERNEL_IDENTITY_MAP_SIZE then Some kernel_memory
  else if ((LOCAL_BASE <=? v) && (v <? LOCAL_BASE + 4096)) || ((GPIO_BASE <=? v) && (v <? GPIO_BASE + 4096))
     || ((UART0_BASE <=? v) && (v <? UART0_BASE + 4096)) || ((Vmm.FB_ADDR <=? v) && (v <? Vmm.FB_ADDR + FB_SIZE))
  then Some device_memory else None.

Lemma page_of_small v : 0 <= v < 2 ^ 48 -> page_of v = v - v mod 4096.
Proof. intros Hv. unfold page_of, vpn. rewrite Z.mod_small; [dlia|]. change (2 ^ 48) with (2 ^ 36 * 4096) in Hv. dlia. Qed.

Lemma range_leaf_at r v : range_ok r -> 0 <= v < 2 ^ 48 ->
  range_leaf (A := aarch64) r v =
  if (r_base r <=? v) && (v <? r_base r + r_size r) then Some (A64.set_frame (page_of v) (r_flags r) false) else None.
Proof.
  intros (Hb & _ & Hs & _) Hv. unfold range_leaf, identity, r_pages. cbn [set_frame aarch64]. rewrite (page_of_small v Hv).
  assert (4096 * (r_size r / 4096) = r_size r) as -> by dlia. zcases; try done; exfalso; dlia.
Qed.

Lemma boot_ranges_leaf v : 0 <= v < 2 ^ 48 ->
  ranges_leaf (A := aarch64) boot_ranges v = option_map (fun f => A64.set_frame (page_of v) f false) (boot_map v).
Proof.
  intros Hv. destruct boot_ranges_ok as [Hok _]. unfold boot_ranges in *. rewrite !Forall_cons in Hok. destruct Hok as (? & ? & ? & ? & ? & _).
  unfold boot_map. cbn [ranges_leaf]. rewrite !range_leaf_at by done. cbn [r_base r_size r_flags].
  unfold LOCAL_BASE, GPIO_BASE, UART0_BASE, Vmm.FB_ADDR, FB_SIZE, KERNEL_IDENTITY_MAP_SIZE. zcases; try done; exfalso; lia.
Qed.

Definition mapped_frames : nat := Z.to_nat (KERNEL_IDENTITY_MAP_SIZE / 4096).
Lemma mapped_frames_eq : Z.of_nat mapped_frames = 8192.
Proof. unfold mapped_frames. by rewrite Z2Nat.id. Qed.

Section mmu.
Context (m : machine bitmap).

(** The table `mmu::init` starts from. *)
Lemma empty_root root p' : mem_ok (mem m) -> pmm_ok (pmm m) -> page (hhdm m) -> vmm_alloc_frame (pmm m) = (Some root, p') ->
  let m0 := zero_page (A := aarch64) (with_pmm p' m) root in
  pt_inv (A := aarch64) (fun _ => true) root m0 /\
  (forall q t, valid_path q -> walk (A := aarch64) m0 root 0 q = Some t -> t = root) /\
  (forall v, leaf (A := aarch64) root v m0 = 0) /\
  (forall a, page a -> fa_used (pmm m) a = true -> foreign (A := aarch64) root m0 a /\ same_page (A := aarch64) m m0 a).
Proof.
  intros Hm Hp Hh Hal m0. destruct (@fa_alloc_some bitmap pmm_allocator (pmm m) root p' Hp Hal) as (Hp' & Hr & Hr48 & Hfresh & _ & Hu & _).
  assert (page root) as Hroot by (apply frame_page; [done|lia]).
  assert (forall i, 0 <= i < 512 -> entry (A := aarch64) m0 root i = 0) as He by (intros i; apply entry_zero_eq).
  assert (pt_inv (A := aarch64) (fun _ => true) root m0) as I.
  { apply empty_inv; try done.
    - by apply mem_ok_write_bytes.
    - change (fa_used p' root = true). rewrite Hu by (done || lia). by rewrite Z.eqb_refl, orb_true_r.
    - intros i Hi. by rewrite He. }
  assert (forall q t, valid_path q -> walk (A := aarch64) m0 root 0 q = Some t -> t = root) as Hw.
  { intros [|i q] t [Hq _]; cbn [walk]; [by intros [= <-]|]. apply Forall_cons in Hq as [Hi _]. rewrite He by done. done. }
  split; [exact I|]. split; [exact Hw|]. split.
  - intros v. unfold leaf. destruct (walk m0 root 0 (tpath v)) as [t|] eqn:E; [|done].
    rewrite (Hw _ _ (tpath_valid v) E). apply He, idx12.
  - intros a Ha Hua. assert (a <> root) as Hne by (intros ->; congruence). split.
    + split; [done|]. split; [change (fa_used p' a = true); rewrite Hu by (apply Ha); by rewrite Hua|].
      intros q Hq E. by apply Hw in E.
    + intros x Hx. unfold m0, zero_page, write_bytes. cbn [mem with_mem with_pmm hhdm]. destruct (p2v_sep (A := aarch64) (hhdm m) a root Hh Ha Hroot Hne); zcases; done.
Qed.

(** AArch64 turns the MMU on over a table that changes nothing for the kernel.  With 64 frames
    free below the 32 MiB that are to be mapped, `mmu::init` returns and loads a table that
    translates the kernel's memory, the two device pages, the interrupt controller and the
    frame buffer to themselves and no other address of the 48-bit space to anything; device
    pages have device attributes and cannot be executed, no page is open to user code, every
    table lies in the memory that is mapped, and no frame that was taken before is written. *)
Theorem mmu_init_identity : mem_ok (mem m) -> pmm_ok (pmm m) -> page (hhdm m) -> 64 <= free_below mapped_frames (pmm m) ->
  exists root m', mmu_init m = Some (root, m') /\ root_reg m' = root /\
    (forall v, 0 <= v < 2 ^ 48 -> translate_addr (A := aarch64) root v m' = match boot_map v with Some _ => Some v | None => None end) /\
    (forall v f, 0 <= v < 2 ^ 48 -> boot_map v = Some f -> leaf (A := aarch64) root v m' = A64.set_frame (page_of v) f false) /\
    (forall v w, 0 <= v < 2 ^ 48 -> page_is_user_accessible (A := aarch64) root v w m' = false) /\
    (forall q t, valid_path q -> walk (A := aarch64) m' root 0 q = Some t -> boot_map t = Some kernel_memory) /\
    (forall a, page a -> used (pmm m) (a / 4096) = true -> same_page (A := aarch64) m m' a).
Proof.
  intros Hm Hp Hh Hn. destruct (alloc_below mapped_frames (pmm m) Hp ltac:(lia)) as (root & p' & Hal & Hr & Hfree).
  rewrite mmu_init_ranges, Hal. destruct (empty_root root p' Hm Hp Hh Hal) as (I & Hw & Hl & Hfor).
  set (m0 := zero_page (with_pmm p' m) root) in *. assert (hhdm m0 = hhdm m) as Hh0 by reflexivity. destruct boot_ranges_ok as [Hok Hd].
  destruct (ranges_mapped (A := aarch64) mapped_frames root boot_ranges m0) as [T Hh' L _ _ O].
  - split; [exact I|]. intros q t Hq E. rewrite (Hw q t Hq E). lia.
  - done.
  - done.
  - rewrite boot_ranges_need. change (pmm m0) with p'. lia.
  - intros v r _ _. by rewrite Hl.
  - revert T Hh' L O. generalize (fold_left (fun m r => identity_map_range (A := aarch64) root (r_base r) (r_size r) (r_flags r) m) boot_ranges m0).
    clearbody m0. intros m1 T Hh' L O. exists root, (with_root root m1).
    assert (forall v, 0 <= v < 2 ^ 48 -> leaf (A := aarch64) root v m1 = default 0 (option_map (fun f => A64.set_frame (page_of v) f false) (boot_map v))) as L'.
    { intros v Hv. by rewrite L, Hl, boot_ranges_leaf. }
    clear L Hl. split; [done|]. split; [done|].
    assert (Htr : forall v, 0 <= v < 2 ^ 48 -> translate_addr (A := aarch64) root v m1 = match boot_map v with Some _ => Some v | None => None end).
    { intros v Hv. rewrite translate_leaf, L' by (done || apply T). destruct (boot_map v) as [f|]; [|done]. cbn [option_map default id].
      change A64.set_frame with (set_frame (PageArch := aarch64)). pose proof (page_of_small v Hv) as E.
      rewrite present_set_frame, pa_set_frame, land_fff by (rewrite E; dlia). rewrite E, add64_page by dlia. f_equal. lia. }
    assert (Hus : forall v w, 0 <= v < 2 ^ 48 -> page_is_user_accessible (A := aarch64) root v w m1 = false).
    { intros v w Hv. rewrite user_leaf, L' by (done || apply T). destruct (boot_map v) as [f|] eqn:E; [|done]. cbn [option_map default id].
      change A64.set_frame with (set_frame (PageArch := aarch64)). rewrite user_set_frame, present_set_frame.
      assert (user_accessible f = false) as ->; [|done]. revert E. unfold boot_map. repeat case_match; by intros [= <-]. }
    split_and!; [exact Htr| |exact Hus| |].
    + intros v f Hv E. transitivity (leaf (A := aarch64) root v m1); [done|]. by rewrite L', E.
    + intros q t Hq E. rewrite (walk_agree m1) in E by (split; [done|]; intros; apply same_entry_refl). destruct (kt_low _ _ _ T q t Hq E) as [? Ht]. rewrite mapped_frames_eq in Ht.
      unfold boot_map. destruct (Z.ltb_spec t KERNEL_IDENTITY_MAP_SIZE) as [_|Hge]; [done|]. unfold KERNEL_IDENTITY_MAP_SIZE in Hge. lia.
    + intros a Ha Hua. destruct (Hfor a Ha Hua) as [F1 S1]. destruct (O a F1) as [_ S2]. exact (same_page_trans m m0 m1 a Hh0 S1 S2).
Qed.
End mmu.
