(* ===== verification/VmmUser.v ===== *)
(** User-pointer validation and the life of a process page table: `validate_user_range`,
    `free_process_page_table` (src/src/vmm.rs) and `create_process_page_table`
    (src/src/memory.rs). *)
From S2P Require Import Prelude Pmm Vmm VmmTheory VmmCorrect.

(** ** `validate_user_range` *)
Section validate.
Context `{A : PageArch} {P : Type}.
Implicit Types m : machine P.

Lemma check_pages_spec n root page m w :
  0 <= page -> page + 4096 * Z.of_nat n < 2 ^ 64 ->
  check_pages (S n) root page (page + 4096 * Z.of_nat n) w m = true <->
  forall k, 0 <= k <= Z.of_nat n -> page_is_user_accessible root (page + 4096 * k) w m = true.
Proof.
  revert page; induction n as [|n IH]; intros page H0 Hov.
  - cbn [check_pages]. rewrite Z.mul_0_r, Z.add_0_r, Z.eqb_refl.
    destruct (page_is_user_accessible root page w m) eqn:E; simpl.
    + split; [|done]. intros _ k Hk. by replace (page + 4096 * k) with page by lia.
    + split; [done|]. intros H. specialize (H 0 ltac:(lia)). by rewrite Z.mul_0_r, Z.add_0_r, E in H.
  - cbn [check_pages]. fold (check_pages (A := A) (P := P)).
    destruct (page_is_user_accessible root page w m) eqn:E; simpl.
    + rewrite (proj2 (Z.eqb_neq _ _)) by lia.
      assert (add64 page 4096 = page + 4096) as Hadd by (apply u64_small; unfold fits; lia).
      rewrite Hadd. replace (page + 4096 * Z.of_nat (S n)) with (page + 4096 + 4096 * Z.of_nat n) by lia.
      destruct (IH (page + 4096)) as [IH1 IH2]; [lia|lia|]. cbn [check_pages] in IH1, IH2.
      split.
      * intros H k Hk. destruct (decide (k = 0)) as [->|]; [by rewrite Z.mul_0_r, Z.add_0_r|].
        replace (page + 4096 * k) with (page + 4096 + 4096 * (k - 1)) by lia. apply IH1; [done|lia].
      * intros H. apply IH2. intros k Hk. replace (page + 4096 + 4096 * k) with (page + 4096 * (k + 1)) by lia.
        apply H. lia.
    + split; [done|]. intros H. specialize (H 0 ltac:(lia)). by rewrite Z.mul_0_r, Z.add_0_r, E in H.
Qed.

Lemma validate_user_range_spec root ptr len w m :
  fits 64 ptr -> fits 64 len ->
  validate_user_range root ptr len w m = true <->
  len = 0 \/
  (ptr + len < 2 ^ 64 /\ USER_SPACE_BASE <= ptr /\
   forall a, ptr <= a < ptr + len -> page_is_user_accessible root (a - a mod 4096) w m = true).
Proof.
  intros Hp Hl. unfold validate_user_range, checked_add64, fits in *.
  destruct (Z.eqb_spec len 0) as [->|Hl0]; [split; [by left|done]|].
  destruct (Z.ltb_spec (ptr + len) (2 ^ 64)) as [Hov|Hov]; [|split; [done|intros [?|[? _]]; lia]].
  destruct (Z.ltb_spec ptr USER_SPACE_BASE) as [Hb|Hb]; [split; [done|intros [?|(_ & ? & _)]; lia]|].
  assert (sub64 (ptr + len) 1 = ptr + len - 1) as -> by (apply u64_small; unfold fits; lia).
  rewrite !land_not_fff by (unfold fits; lia).
  set (f := ptr - ptr mod 4096). set (l := ptr + len - 1 - (ptr + len - 1) mod 4096).
  assert (0 <= f /\ f <= ptr < f + 4096 /\ f mod 4096 = 0) as (Hf0 & Hf & Hfm) by (unfold f; dlia).
  assert (l <= ptr + len - 1 < l + 4096 /\ l mod 4096 = 0) as (Hll & Hlm) by (unfold l; dlia).
  assert (f <= l) as Hfl by dlia.
  set (n := Z.to_nat ((l - f) / 4096)).
  assert (l = f + 4096 * Z.of_nat n) as El by (unfold n; dlia).
  rewrite El, check_pages_spec by lia. split.
  - intros H. right. split_and!; [done|done|]. intros a Ha.
    replace (a - a mod 4096) with (f + 4096 * ((a - f) / 4096)) by dlia. apply H. unfold n. dlia.
  - intros [?|(_ & _ & H)] k Hk; [done|].
    specialize (H (if decide (k = 0) then ptr else f + 4096 * k)).
    destruct (decide (k = 0)) as [->|].
    + rewrite Z.mul_0_r, Z.add_0_r. apply H. lia.
    + replace (f + 4096 * k - (f + 4096 * k) mod 4096) with (f + 4096 * k) in H by dlia. apply H. lia.
Qed.

(** C10: `validate_user_range` accepts exactly the empty range and the ranges that do not wrap,
    start at or above `USER_SPACE_BASE` and whose every byte lies on a page the
    permission walk accepts (present, user-accessible, and writable if asked); in
    particular its page loop always ends with the right answer, whatever the length. *)
Theorem validate_user_range_exact root ptr len w m (Hp : fits 64 ptr) (Hl : fits 64 len) :
  validate_user_range root ptr len w m = true <->
  len = 0 \/
  (ptr + len < 2 ^ 64 /\ USER_SPACE_BASE <= ptr /\
   forall a, ptr <= a < ptr + len -> page_is_user_accessible root (a - a mod 4096) w m = true).
Proof. by apply validate_user_range_spec. Qed.
End validate.

Lemma validate_user_range_exact_witness :
  validate_user_range (A := x86_64) 4096 0x8000001ff0 16 true (demo_mapped x86_64) = true /\
  page_is_user_accessible (A := x86_64) 4096 0x8000001000 true (demo_mapped x86_64) = true.
Proof.
  assert (validate_user_range (A := x86_64) 4096 0x8000001ff0 16 true (demo_mapped x86_64) = true) as E
    by (vm_compute; reflexivity).
  split; [exact E|].
  apply (validate_user_range_exact (A := x86_64) 4096 0x8000001ff0 16 true (demo_mapped x86_64)
    ltac:(unfold fits; lia) ltac:(unfold fits; lia)) in E as [?|(_ & _ & H)]; [lia|].
  exact (H 0x8000001ff4 ltac:(lia)).
Defined.

(** ** Teardown *)
Section teardown.
Context `{A : PageArch} `{!PageArchLaws A} {P : Type} `{FA : FrameAllocator P}.
Implicit Types m : machine P.

(** The frames the present entries of a table point to, from index [lo] on. *)
Definition presents m (lo : nat) (t : Z) : list Z :=
  omap (fun i => present_entry m t (Z.of_nat i)) (seq lo (512 - lo)).

Lemma for_present_fold m lo t body (p : P) :
  for_present m lo t body p = fold_left (fun p a => body a p) (presents m lo t) p.
Proof.
  unfold for_present, for_loop, presents. generalize (seq lo (512 - lo)) as l. intros l. revert p.
  induction l as [|i l IH]; intros p; [done|]. simpl. destruct (present_entry m t (Z.of_nat i)); apply IH.
Qed.

(** What the teardown releases, in order. *)
Definition leaves m (l3 : Z) : list Z := presents m 0 l3 ++ [l3].
Definition below2 m (l2 : Z) : list Z := flat_map (leaves m) (presents m 0 l2) ++ [l2].
Definition below1 m (l1 : Z) : list Z := flat_map (below2 m) (presents m 0 l1) ++ [l1].
Definition released m (root : Z) : list Z := flat_map (below1 m) (presents m 1 root) ++ [root].

Lemma fold_free_flat_map (g : Z -> list Z) (h : Z -> P -> P) l p :
  (forall a p, h a p = fold_left fa_free (g a) p) ->
  fold_left (fun p a => h a p) l p = fold_left fa_free (flat_map g l) p.
Proof.
  intros Hh. revert p; induction l as [|a l IH]; intros p; [done|]. simpl.
  by rewrite fold_left_app, IH, Hh.
Qed.

Lemma free_process_page_table_fold root m :
  free_process_page_table root m = with_pmm (fold_left fa_free (released m root) (pmm m)) m.
Proof.
  unfold free_process_page_table, released. rewrite fold_left_app. cbn [fold_left]. f_equal. f_equal.
  rewrite for_present_fold. apply fold_free_flat_map. intros l1 p.
  unfold below1. rewrite fold_left_app. cbn [fold_left]. f_equal.
  rewrite for_present_fold. apply fold_free_flat_map. intros l2 p'.
  unfold below2. rewrite fold_left_app. cbn [fold_left]. f_equal.
  rewrite for_present_fold. apply fold_free_flat_map. intros l3 p''.
  unfold leaves. rewrite fold_left_app. cbn [fold_left]. f_equal. by rewrite for_present_fold.
Qed.

(** Following present entries, whatever their kind. *)
Fixpoint follow m (t : Z) (q : list Z) : option Z :=
  match q with
  | [] => Some t
  | i :: q' => match present_entry m t i with Some t' => follow m t' q' | None => None end
  end.

Lemma elem_presents m lo t a :
  (lo <= 512)%nat ->
  a ∈ presents m lo t <-> exists i, Z.of_nat lo <= i < 512 /\ present_entry m t i = Some a.
Proof.
  intros Hlo. unfold presents. rewrite list_elem_of_omap. split.
  - intros (i & Hi & E). apply elem_of_seq in Hi. exists (Z.of_nat i). split; [lia|done].
  - intros (i & Hi & E). exists (Z.to_nat i). split; [apply elem_of_seq; lia|]. by rewrite Z2Nat.id by lia.
Qed.

Definition idx_ok (i : Z) : Prop := 0 <= i < 512.

(** One level of the teardown's list, in terms of paths. *)
Lemma elem_level m (g : Z -> list Z) n lo t a :
  (lo <= 512)%nat ->
  (forall t', a ∈ g t' <-> exists q, Forall idx_ok q /\ (length q <= n)%nat /\ follow m t' q = Some a) ->
  a ∈ flat_map g (presents m lo t) ++ [t] <->
  exists q, Forall idx_ok q /\ (length q <= S n)%nat /\ follow m t q = Some a /\
            (forall i q', q = i :: q' -> Z.of_nat lo <= i).
Proof.
  intros Hlo Hg. rewrite elem_of_app, list_elem_of_singleton. split.
  - intros [H| ->]; [|exists []; split_and!; [constructor|simpl; lia|done|done]].
    apply list_elem_of_In, in_flat_map in H as (t' & Ht%list_elem_of_In & H%list_elem_of_In).
    apply elem_presents in Ht as (i & Hi & E); [|done]. apply Hg in H as (q & H1 & H2 & H3).
    exists (i :: q). simpl. rewrite E. split_and!; [constructor; [split; lia|done]|lia|done|].
    intros i' q' [= <- <-]. lia.
  - intros ([|i q] & H1 & H2 & H3 & H4); [right; by injection H3|]. left. simpl in H2, H3.
    destruct (present_entry m t i) as [t'|] eqn:E; [|done]. apply Forall_cons in H1 as [Hi H1].
    apply list_elem_of_In, in_flat_map. exists t'.
    split; apply list_elem_of_In.
    + apply elem_presents; [done|]. exists i. specialize (H4 i q eq_refl). split; [split; [lia|apply Hi]|done].
    + apply Hg. exists q. split_and!; [done|lia|done].
Qed.

Lemma elem_released m root a :
  a ∈ released m root <->
  exists q, Forall idx_ok q /\ (length q <= 4)%nat /\ follow m root q = Some a /\
            (forall i q', q = i :: q' -> 1 <= i).
Proof.
  assert (forall n g t', (forall t, a ∈ flat_map g (presents m 0 t) ++ [t] <->
    exists q, Forall idx_ok q /\ (length q <= n)%nat /\ follow m t q = Some a /\
            (forall i q', q = i :: q' -> Z.of_nat 0 <= i)) ->
    a ∈ flat_map g (presents m 0 t') ++ [t'] <->
    exists q, Forall idx_ok q /\ (length q <= n)%nat /\ follow m t' q = Some a) as Hdrop.
  { intros n g t' H. rewrite H. split.
    - intros (q & ? & ? & ? & _). by exists q.
    - intros (q & Hq & ? & ?). exists q. split_and!; try done. intros i q' ->.
      apply Forall_cons in Hq as [[? _] _]. done. }
  assert (forall t, a ∈ leaves m t <-> exists q, Forall idx_ok q /\ (length q <= 1)%nat /\ follow m t q = Some a) as H3.
  { intros t. unfold leaves. replace (presents m 0 t) with (flat_map (fun x => [x]) (presents m 0 t)).
    2:{ induction (presents m 0 t) as [|x l IH]; [done|]. simpl. by rewrite IH. }
    apply Hdrop. intros t'. apply elem_level; [lia|]. intros s. rewrite list_elem_of_singleton. split.
    - intros ->. exists []. split_and!; [constructor|simpl; lia|done].
    - intros ([|] & _ & Hl & E); [by injection E|simpl in Hl; lia]. }
  assert (forall t, a ∈ below2 m t <-> exists q, Forall idx_ok q /\ (length q <= 2)%nat /\ follow m t q = Some a) as H2.
  { intros t. apply Hdrop. intros t'. by apply elem_level; [lia|]. }
  assert (forall t, a ∈ below1 m t <-> exists q, Forall idx_ok q /\ (length q <= 3)%nat /\ follow m t q = Some a) as H1.
  { intros t. apply Hdrop. intros t'. by apply elem_level; [lia|]. }
  apply elem_level; [lia|done].
Qed.

(** Releasing a list of frames. *)
Lemma fold_free_spec l (p : P) :
  fa_ok p -> Forall (fun a => a mod 4096 = 0 /\ 0 <= a) l ->
  fa_ok (fold_left fa_free l p) /\
  (forall b, fa_freeable (fold_left fa_free l p) b = fa_freeable p b) /\
  forall b, b mod 4096 = 0 -> 0 <= b ->
    fa_used (fold_left fa_free l p) b = fa_used p b && negb (bool_decide (b ∈ l) && fa_freeable p b).
Proof.
  revert p; induction l as [|a l IH]; intros p Hok Hl; cbn [fold_left].
  - split_and!; [done|done|]. intros b _ _. rewrite bool_decide_eq_false_2 by apply not_elem_of_nil. btauto.
  - apply Forall_cons in Hl as [[Ha1 Ha2] Hl]. destruct (fa_free_spec p a Hok Ha1 Ha2) as (Hok' & Hu & Hf).
    destruct (IH (fa_free p a) Hok' Hl) as (H1 & H2 & H3). split_and!; [done|intros b; by rewrite H2|].
    intros b Hb Hb0. rewrite H3, Hu, Hf by done. destruct (Z.eqb_spec b a) as [->|Hne].
    + rewrite (bool_decide_eq_true_2 (a ∈ a :: l)) by (by left). btauto.
    + assert (bool_decide (b ∈ a :: l) = bool_decide (b ∈ l)) as ->; [|btauto].
      apply bool_decide_ext. rewrite elem_of_cons. split; [by intros [?|?]|by right].
Qed.

Lemma follow_page m t q a : t mod 4096 = 0 /\ 0 <= t -> follow m t q = Some a -> a mod 4096 = 0 /\ 0 <= a.
Proof.
  revert t; induction q as [|i q IH]; intros t Ht; simpl; [by intros [= <-]|].
  unfold present_entry. destruct (is_present _); [|done]. apply IH.
  destruct (pa_page (read_u64 (mem m) (entry_ptr (p2v (hhdm m) t) i))) as [? ?]. lia.
Qed.

Lemma teardown_used root m a :
  fa_ok (pmm m) -> page root -> a mod 4096 = 0 -> 0 <= a ->
  fa_ok (pmm (free_process_page_table root m)) /\
  fa_used (pmm (free_process_page_table root m)) a =
    fa_used (pmm m) a && negb (bool_decide (a ∈ released m root) && fa_freeable (pmm m) a).
Proof.
  intros Hok [Hr [Hr0 _]] Ha Ha0. rewrite free_process_page_table_fold. cbn [pmm with_pmm].
  destruct (fold_free_spec (released m root) (pmm m) Hok) as (H1 & _ & H3); [|split; [done|by apply H3]].
  apply Forall_forall. intros b (q & _ & _ & Hf & _)%elem_released. exact (follow_page m root q b (conj Hr Hr0) Hf).
Qed.

End teardown.

(** ** Creation *)

(** Reading inside a copied block. *)
Lemma read_n_copied n N (m m' : mem_t) a k o :
  0 <= o -> o + Z.of_nat n <= Z.of_nat N ->
  read_n n (copy_to m a (read_n N m' k)) (a + o) = read_n n m' (k + o).
Proof.
  intros Ho Hn. apply map_ext_in. intros j [_ Hj]%in_seq. unfold copy_to. rewrite length_read_n.
  zcases. rewrite read_n_lookup by lia. simpl. f_equal. lia.
Qed.

Section create.
Context {P : Type} `{FA : FrameAllocator P}.
Implicit Types m : machine P.

(** The entry-copying loop of the x86_64 version. *)
Definition copy_entries (new act : Z) (k : nat) m : machine P :=
  fold_left (fun m i => set_entry (A := x86_64) m new (Z.of_nat i) (entry (A := x86_64) m act (Z.of_nat i))) (seq 0 k) m.

Lemma copy_entries_spec new act k m :
  mem_ok (mem m) -> page (hhdm m) -> page new -> page act -> act <> new -> (k <= 512)%nat ->
  let m' := copy_entries new act k m in
  (mem_ok (mem m') /\ pmm m' = pmm m /\ hhdm m' = hhdm m) /\
  (forall i, 0 <= i < Z.of_nat k -> entry (A := x86_64) m' new i = entry (A := x86_64) m act i) /\
  (forall i, 0 <= i < 512 -> entry (A := x86_64) m' act i = entry (A := x86_64) m act i).
Proof.
  intros Hm Hh Hnew Hact Hne. cbn zeta. induction k as [|k IH]; intros Hk; [split_and!; try done; lia|].
  destruct (IH ltac:(lia)) as ((Hm' & Hpm & Hhd) & Hlow & Hother). clear IH.
  unfold copy_entries in *. rewrite seq_S, fold_left_app. cbn [fold_left Nat.add].
  set (mk := fold_left _ (seq 0 k) m) in *.
  assert (fits 64 (entry (A := x86_64) mk act (Z.of_nat k))) as Hf by (by apply read_u64_fits).
  assert (page (hhdm mk)) as Hh' by (by rewrite Hhd).
  split_and!; [by apply mem_ok_write_u64|done|done| |].
  - intros i Hi. destruct (decide (i = Z.of_nat k)) as [->|].
    + rewrite entry_set_eq by done. apply Hother. lia.
    + rewrite entry_set_ne; [apply Hlow; lia|done|done|done|lia|lia|congruence].
  - intros i Hi. rewrite entry_set_ne; [by apply Hother|done|done|done|lia|lia|congruence].
Qed.

Lemma for_loop_copy new act k m h :
  hhdm m = h ->
  for_loop 0 k (fun i m =>
    with_mem (write_u64 (mem m) (entry_ptr (X86.phys_to_virt h new) i)
                        (read_u64 (mem m) (entry_ptr (X86.phys_to_virt h act) i))) m) m = copy_entries new act k m.
Proof.
  unfold for_loop, copy_entries. rewrite Nat.sub_0_r. generalize (seq 0 k) as l. intros l. revert m.
  induction l as [|i l IH]; intros m <-; [done|]. cbn [fold_left]. by rewrite IH.
Qed.

Lemma create_x86_entries m r m1 :
  let cr3 := Z.land (root_reg m) (not64 0xFFF) in
  mem_ok (mem m) -> fa_ok (pmm m) -> page (hhdm m) -> page cr3 -> fa_used (pmm m) cr3 = true ->
  create_process_page_table_x86 m = (Some r, m1) ->
  fa_alloc (pmm m) = (Some r, pmm m1) /\ hhdm m1 = hhdm m /\ page r /\
  forall i, 0 <= i < 512 -> entry (A := x86_64) m1 r i = entry (A := x86_64) m cr3 i.
Proof.
  cbn zeta. set (cr3 := Z.land (root_reg m) (not64 0xFFF)). intros Hm Hok Hh Hc Hcu.
  unfold create_process_page_table_x86. destruct (fa_alloc (pmm m)) as [[f|] pool] eqn:Hal; [|done].
  destruct (fa_alloc_some _ _ _ Hok Hal) as (_ & Hf1 & Hf2 & Hfree & _).
  assert (page f) as Hfp by (split; [done|split; [lia|change (2 ^ 64) with (2 ^ 48 * 2 ^ 16); lia]]).
  assert (cr3 <> f) as Hne by congruence. 
  cbn zeta. rewrite (for_loop_copy f cr3) by done. intros [= <- <-].
  change (with_mem _ _) with (zero_page (A := x86_64) (with_pmm pool m) f).
  destruct (copy_entries_spec f cr3 512 (zero_page (A := x86_64) (with_pmm pool m) f)) as ((_ & Hp & Hhd) & He & _);
    [by apply mem_ok_write_bytes|done|done|done|done|lia|].
  rewrite Hp, Hhd. split; [done|split; [done|split; [done|]]]. intros i Hi. rewrite He by lia.
  by rewrite entry_zero_ne by (done || congruence).
Qed.

(** on x86_64 a process page table starts as a copy of all 512 entries of the live
    PML4, while `free_process_page_table` treats every top-level entry except index 0
    as private.  So tearing down a freshly created process table releases the tables that
    the kernel's own PML4 entries 1..511 (its higher half) point to, although they are
    still in use by the kernel. *)
Theorem x86_exit_releases_kernel_tables m r m1 i a
  (Hm : mem_ok (mem m)) (Hok : fa_ok (pmm m)) (Hh : page (hhdm m))
  (Hc : page (Z.land (root_reg m) (not64 0xFFF)))
  (Hcu : fa_used (pmm m) (Z.land (root_reg m) (not64 0xFFF)) = true)
  (Hi : 1 <= i < 512)
  (Hent : present_entry (A := x86_64) m (Z.land (root_reg m) (not64 0xFFF)) i = Some a)
  (Hkernel : fa_used (pmm m) a = true) (Hfree : fa_freeable (pmm m) a = true) :
  create_process_page_table_x86 m = (Some r, m1) ->
  fa_used (pmm m1) a = true /\
  fa_used (pmm (free_process_page_table (A := x86_64) r m1)) a = false.
Proof.
  intros Hcr. destruct (create_x86_entries m r m1 Hm Hok Hh Hc Hcu Hcr) as (Hal & Hhd & Hr & He).
  destruct (fa_alloc_some _ _ _ Hok Hal) as (Hok1 & _ & _ & _ & _ & Hus & Hfr).
  assert (a mod 4096 = 0 /\ 0 <= a) as [Ha Ha0].
  { apply (follow_page (A := x86_64) m (Z.land (root_reg m) (not64 0xFFF)) [i] a).
    - destruct Hc as [? [? _]]. done.
    - simpl. by rewrite Hent. }
  split; [by rewrite Hus, Hkernel|].
  destruct (teardown_used (A := x86_64) r m1 a Hok1 Hr Ha Ha0) as [_ ->].
  rewrite bool_decide_eq_true_2, Hfr, Hfree; [btauto|].
  apply elem_released. exists [i]. split_and!; [repeat constructor; lia|simpl; lia| |intros ? ? [= <- _]; lia].
  simpl. unfold present_entry in *. fold (entry (A := x86_64) m1 r i). rewrite He by lia.
  unfold entry. destruct (is_present _); [exact Hent|done].
Qed.

Lemma create_a64_entries kroot m r m1 :
  mem_ok (mem m) -> fa_ok (pmm m) -> page (hhdm m) -> page kroot ->
  (kroot = 0 \/ fa_used (pmm m) kroot = true) ->
  create_process_page_table_aarch64 kroot m = (Some r, m1) ->
  fa_alloc (pmm m) = (Some r, pmm m1) /\ page r /\
  forall i, 0 <= i < 512 -> entry (A := aarch64) m1 r i = if kroot =? 0 then 0 else entry (A := aarch64) m kroot i.
Proof.
  intros Hm Hok Hh Hk Hku. unfold create_process_page_table_aarch64.
  destruct (fa_alloc (pmm m)) as [[f|] pool] eqn:Hal; [|done].
  destruct (fa_alloc_some _ _ _ Hok Hal) as (_ & Hf1 & Hf2 & Hfree & _).
  assert (page f) as Hfp by (split; [done|split; [lia|change (2 ^ 64) with (2 ^ 48 * 2 ^ 16); lia]]).
  fold (zero_page (A := aarch64) (with_pmm pool m) f).
  destruct (Z.eqb_spec kroot 0) as [->|Hk0]; cbn [negb]; intros [= <- <-]; (split; [done|split; [done|]]).
  - intros i Hi. by apply (entry_zero_eq (A := aarch64) (with_pmm pool m) f).
  - intros i Hi. destruct Hku as [?|Hku]; [done|]. assert (kroot <> f) as Hne by congruence.
    transitivity (entry (A := aarch64) (zero_page (A := aarch64) (with_pmm pool m) f) kroot i);
      [|by rewrite entry_zero_ne by (done || congruence)].
    unfold entry, entry_ptr. cbn [mem with_mem hhdm p2v aarch64]. unfold A64.phys_to_virt, read_u64.
    by rewrite read_n_copied by lia.
Qed.

(** on AArch64, where the kernel's identity map lives below top-level index 0 only,
    creating a process page table and tearing it down again gives the pool back exactly
    as it was: no frame is lost and none of the kernel's own frames is released. *)
Theorem aarch64_create_free_restores kroot m r m1 a
  (Hm : mem_ok (mem m)) (Hok : fa_ok (pmm m)) (Hh : page (hhdm m)) (Hk : page kroot)
  (Hku : kroot = 0 \/ fa_used (pmm m) kroot = true)
  (Hlow : forall i, 1 <= i < 512 -> present_entry (A := aarch64) m kroot i = None) (Ha : page a) :
  create_process_page_table_aarch64 kroot m = (Some r, m1) ->
  fa_used (pmm (free_process_page_table (A := aarch64) r m1)) a = fa_used (pmm m) a.
Proof.
  intros Hcr. destruct (create_a64_entries kroot m r m1 Hm Hok Hh Hk Hku Hcr) as (Hal & Hr & He).
  destruct (fa_alloc_some _ _ _ Hok Hal) as (Hok1 & _ & _ & Hfree & Hrf & Hus & Hfr).
  destruct Ha as [Ha1 [Ha2 _]].
  destruct (teardown_used (A := aarch64) r m1 a Hok1 Hr Ha1 Ha2) as [_ ->].
  assert (a ∈ released (A := aarch64) m1 r <-> a = r) as Hrel.
  { rewrite elem_released. split; [|intros ->; exists []; split_and!; [constructor|simpl; lia|done|done]].
    intros ([|i q] & Hq & _ & Hf & Hge); [by injection Hf|]. specialize (Hge i q eq_refl).
    apply Forall_cons in Hq as [[_ Hi] _]. simpl in Hf. unfold present_entry at 1 in Hf.
    fold (entry (A := aarch64) m1 r i) in Hf. rewrite He in Hf by lia.
    destruct (kroot =? 0); [done|]. specialize (Hlow i ltac:(lia)). unfold present_entry in Hlow.
    unfold entry in Hf. destruct (is_present _); done. }
  rewrite (bool_decide_ext _ _ Hrel), Hus, Hfr by done.
  destruct (Z.eqb_spec a r) as [->|Hne].
  - rewrite bool_decide_eq_true_2, Hrf, Hfree by done. done.
  - rewrite bool_decide_eq_false_2 by done. btauto.
Qed.
End create.

(** *** Instances *)

(** A kernel with one higher-half table: PML4 (frame 1) entry 256 leads to frame 2. *)
Definition demo_kernel : machine bitmap :=
  set_entry (A := x86_64) demo_machine 4096 256 (X86.set_frame 0x2000 kernel_data).

Lemma demo_mem_ok : mem_ok (mem demo_machine).
Proof. intros x. vm_compute. done. Qed.

Lemma demo_pool_ok : fa_ok (pmm demo_machine).
Proof. split_and!; [repeat constructor; vm_compute; done|reflexivity|vm_compute; done]. Qed.


Lemma x86_exit_releases_kernel_tables_witness :
  let m1 := snd (create_process_page_table_x86 demo_kernel) in
  fa_used (pmm m1) 0x2000 = true /\
  fa_used (pmm (free_process_page_table (A := x86_64) 0x8000 m1)) 0x2000 = false.
Proof.
  intros m1.
  assert (fst (create_process_page_table_x86 demo_kernel) = Some 0x8000) as E by (vm_compute; reflexivity).
  apply (x86_exit_releases_kernel_tables demo_kernel 0x8000 m1 256 0x2000).
  - apply mem_ok_write_u64, demo_mem_ok.
  - apply demo_pool_ok.
  - by split.
  - vm_compute. done.
  - reflexivity.
  - lia.
  - vm_compute. reflexivity.
  - reflexivity.
  - reflexivity.
  - exact (split_call _ _ E).
Defined.

Lemma aarch64_create_free_restores_witness :
  let m1 := snd (create_process_page_table_aarch64 4096 demo_machine) in
  fa_used (pmm (free_process_page_table (A := aarch64) 0x8000 m1)) 0x8000 = false.
Proof.
  intros m1.
  assert (fst (create_process_page_table_aarch64 4096 demo_machine) = Some 0x8000) as E by (vm_compute; reflexivity).
  rewrite (aarch64_create_free_restores 4096 demo_machine 0x8000 m1 0x8000); [reflexivity|apply demo_mem_ok|apply demo_pool_ok| | |by right| | |exact (split_call _ _ E)].
  - by split.
  - by split.
  - done.
  - by split.
Defined.
