(* ===== verification/Heap.v ===== *)
(** The kernel heap: `FastBlockAllocator` and its `GlobalAlloc` implementation
    (src/src/memory.rs).  Free blocks are kept in nine singly linked lists whose links
    live in the blocks themselves, so the model keeps the memory. *)
From S2P Require Import Prelude Vmm.

Definition BUCKET_COUNT : nat := 9.
Definition MIN_BLOCK_SIZE : Z := 8.

(** `core::alloc::Layout`. *)
Record Layout := { size : Z; align : Z }.

Definition isize_MAX : Z := 2 ^ 63 - 1.

(** `Layout::from_size_align(size, align).unwrap()` (the alignment comes from a layout). *)
Definition from_size_align (sz al : Z) : outcome Layout :=
  if sz <=? isize_MAX - (al - 1) then Returns {| size := sz; align := al |} else Panics.

Record FastBlockAllocator := {
  buckets : list Z;
  heap_start : Z;
  heap_end : Z;
  next_free_byte : Z
}.

(** The allocator behind its lock, the `INITIALIZED` flag and the memory it manages. *)
Record heap := Heap {
  fba : FastBlockAllocator;
  INITIALIZED : bool;
  hmem : mem_t
}.

Definition FastBlockAllocator_new : FastBlockAllocator :=
  {| buckets := replicate BUCKET_COUNT 0; heap_start := 0; heap_end := 0; next_free_byte := 0 |}.

(** `FastBlockAllocator::init`. *)
Definition heap_init (start sz : Z) (h : heap) : heap :=
  Heap {| buckets := buckets (fba h); heap_start := start; heap_end := add64 start sz; next_free_byte := start |}
       true (hmem h).

(** `init_memory_subsystem` initialises the allocator under its lock. *)
Definition init_memory_subsystem (start sz : Z) (h : heap) : heap := heap_init start sz h.

Definition target_bucket_index (l : Layout) : option Z :=
  let sz := next_power_of_two (Z.max (size l) (align l)) in
  if 2048 <? sz then None else Some (saturating_sub (trailing_zeros 64 sz) 3).

Section heap.
Context `{A : PageArch} (hhdm : Z).

Definition fallback_alloc (l : Layout) (f : FastBlockAllocator) : Z * FastBlockAllocator :=
  let alloc_start := mask_up (next_free_byte f) (align l) in
  match checked_add64 alloc_start (size l) with
  | Some stop =>
      if stop <=? heap_end f
      then (p2v hhdm alloc_start,
            {| buckets := buckets f; heap_start := heap_start f; heap_end := heap_end f; next_free_byte := stop |})
      else (0, f)
  | None => (0, f)
  end.

Definition with_bucket (i : Z) (p : Z) (f : FastBlockAllocator) : FastBlockAllocator :=
  {| buckets := <[Z.to_nat i := p]> (buckets f); heap_start := heap_start f;
     heap_end := heap_end f; next_free_byte := next_free_byte f |}.

(** `GlobalAlloc::alloc`. *)
Definition alloc (l : Layout) (h : heap) : outcome (Z * heap) :=
  if negb (INITIALIZED h) then Returns (0, h) else
  let sz := Z.max (size l) MIN_BLOCK_SIZE in
  let! l := from_size_align sz (align l) in
  let! r := match target_bucket_index l with
            | Some i =>
                let! node := index (buckets (fba h)) i in
                if negb (node =? 0)
                then Returns (node, with_bucket i (read_u64 (hmem h) node) (fba h))
                else Returns (fallback_alloc l (fba h))
            | None => Returns (fallback_alloc l (fba h))
            end in
  let '(ptr, f) := r in
  Returns (ptr, Heap f true (if negb (ptr =? 0) then write_bytes (hmem h) ptr 0 sz else hmem h)).

(** `GlobalAlloc::dealloc`. *)
Definition dealloc (ptr : Z) (l : Layout) (h : heap) : outcome heap :=
  if ptr =? 0 then Returns h else
  let sz := Z.max (size l) MIN_BLOCK_SIZE in
  let! l := from_size_align sz (align l) in
  match target_bucket_index l with
  | Some i =>
      let! head := index (buckets (fba h)) i in
      Returns (Heap (with_bucket i ptr (fba h)) (INITIALIZED h) (write_u64 (hmem h) ptr head))
  | None => Returns h
  end.
End heap.

(** ** Size classes *)

(** A layout as Rust hands it out: the alignment is a power of two and the size, rounded up
    to it, stays within `isize::MAX`. *)
Definition layout_ok (l : Layout) : Prop :=
  0 <= size l /\ exists k, 0 <= k <= 60 /\ align l = 2 ^ k /\ size l <= 2 ^ 61.

(** The block a layout asks for after the minimum size is applied. *)
Definition eff (l : Layout) : Z := Z.max (size l) MIN_BLOCK_SIZE.

Definition class_size (l : Layout) : Z := next_power_of_two (Z.max (eff l) (align l)).

(** The request fills its size class, or is too large for one. *)
Definition exact_layout (l : Layout) : Prop := eff l = class_size l \/ 2048 < class_size l.

Lemma ctz_pow2 k : 0 <= k -> trailing_zeros 64 (2 ^ k) = k.
Proof.
  intros Hk. pattern k. apply natlike_ind; [done| |done]. intros j Hj IH.
  rewrite Z.pow_succ_r by done. destruct (2 ^ j) as [|p|p] eqn:E; [pose proof (Z.pow_pos_nonneg 2 j); lia| |pose proof (Z.pow_pos_nonneg 2 j); lia].
  change (Z.succ (trailing_zeros 64 (Z.pos p)) = Z.succ j). by rewrite IH.
Qed.

Lemma class_size_pow2 l : layout_ok l ->
  exists j, 3 <= j /\ class_size l = 2 ^ j /\ eff l <= 2 ^ j /\ align l <= 2 ^ j.
Proof.
  intros (H0 & k & Hk & Hal & Hsz). unfold class_size, next_power_of_two, eff, MIN_BLOCK_SIZE.
  set (n := Z.max (Z.max (size l) 8) (align l)). exists (Z.log2_up n).
  assert (8 <= n) as Hn by lia. split_and!; [|done| |].
  - change 3 with (Z.log2_up 8). by apply Z.log2_up_le_mono.
  - pose proof (Z.log2_log2_up_spec n). lia.
  - pose proof (Z.log2_log2_up_spec n). lia.
Qed.

Lemma target_bucket_class l l' :
  layout_ok l -> size l' = eff l -> align l' = align l ->
  match target_bucket_index l' with
  | Some i => exists j, class_size l = 2 ^ j /\ 3 <= j <= 11 /\ i = j - 3
  | None => 2048 < class_size l
  end.
Proof.
  intros Hl Hs Ha. unfold target_bucket_index. rewrite Hs, Ha. fold (class_size l).
  destruct (class_size_pow2 l Hl) as (j & Hj & Ej & _). destruct (Z.ltb_spec 2048 (class_size l)); [done|].
  exists j. rewrite Ej in *. change 2048 with (2 ^ 11) in *.
  assert (j <= 11) by (apply (Z.pow_le_mono_r_iff 2); lia).
  split_and!; [done|lia|lia|]. rewrite ctz_pow2 by lia. unfold saturating_sub. lia.
Qed.

Lemma from_size_align_ok l : layout_ok l ->
  from_size_align (eff l) (align l) = Returns {| size := eff l; align := align l |}.
Proof.
  intros (H0 & k & Hk & Hal & Hsz). unfold from_size_align, isize_MAX, eff, MIN_BLOCK_SIZE.
  assert (2 ^ k <= 2 ^ 60) by (apply Z.pow_le_mono_r; lia).
  change (2 ^ 63) with (8 * 2 ^ 60). change (2 ^ 61) with (2 * 2 ^ 60) in Hsz.
  assert (2 ^ 60 >= 8) by lia. zcases. done.
Qed.

(** ** Blocks and the free lists *)

Definition block := (Z * Z)%type.
Definition inb (x : Z) (b : block) : bool := (b.1 <=? x) && (x <? b.1 + b.2).

(** How many blocks of a list contain an address. *)
Definition cover (x : Z) (bs : list block) : nat := length (base.filter (fun b => inb x b = true) bs).

(** The blocks of the free lists; list number [i] holds blocks of 2^(i+3) bytes. *)
Definition classed (k : nat) (l : list Z) : list block := map (fun a => (a, 2 ^ (Z.of_nat k + 3))) l.

Fixpoint free_blocks (i : nat) (fl : list (list Z)) : list block :=
  match fl with
  | [] => []
  | l :: fl' => classed i l ++ free_blocks (S i) fl'
  end.

(** A linked list in memory. *)
Fixpoint chain (m : mem_t) (head : Z) (l : list Z) : Prop :=
  match l with
  | [] => head = 0
  | a :: l' => head = a /\ a <> 0 /\ chain m (read_u64 m a) l'
  end.

Lemma cover_cons x b bs : cover x (b :: bs) = ((if inb x b then 1 else 0) + cover x bs)%nat.
Proof. unfold cover. rewrite filter_cons. destruct (inb x b); by simpl. Qed.

Lemma cover_app x bs bs' : cover x (bs ++ bs') = (cover x bs + cover x bs')%nat.
Proof. unfold cover. by rewrite filter_app, length_app. Qed.

Lemma cover_elem x b bs : b ∈ bs -> inb x b = true -> (1 <= cover x bs)%nat.
Proof.
  intros Hb Hx. apply list_elem_of_split in Hb as (l1 & l2 & ->). rewrite cover_app, cover_cons, Hx. lia.
Qed.

Lemma cover_free_insert x i fl k l l' :
  fl !! k = Some l ->
  (cover x (free_blocks i (<[k := l']> fl)) + cover x (classed (i + k) l) =
   cover x (free_blocks i fl) + cover x (classed (i + k) l'))%nat.
Proof.
  revert i k; induction fl as [|l0 fl IH]; intros i [|k] E; try done; simpl in *.
  - injection E as ->. rewrite !cover_app, Nat.add_0_r. lia.
  - rewrite !cover_app. specialize (IH (S i) k E). replace (i + S k)%nat with (S i + k)%nat by lia. lia.
Qed.

Lemma elem_free_blocks fl i k l a :
  fl !! k = Some l -> a ∈ l -> (a, 2 ^ (Z.of_nat (i + k) + 3)) ∈ free_blocks i fl.
Proof.
  revert i k; induction fl as [|l0 fl IH]; intros i [|k] E Ha; try done; simpl in *; apply elem_of_app.
  - injection E as ->. left. rewrite Nat.add_0_r. apply list_elem_of_fmap. eauto.
  - right. replace (i + S k)%nat with (S i + k)%nat by lia. by apply IH.
Qed.

(** Writes that miss every node leave a chain alone. *)
Lemma chain_ext m m' head l :
  (forall a, a ∈ l -> read_u64 m' a = read_u64 m a) -> chain m head l -> chain m' head l.
Proof.
  revert head; induction l as [|a l IH]; intros head H; [done|]. simpl. intros (-> & Ha & Hc).
  split_and!; [done|done|]. rewrite H by (by left). apply IH; [|done]. intros b Hb. apply H. by right.
Qed.

(** ** The heap invariant

    [live] are the blocks handed out, [fl] the free lists, [off] the offset at which the
    heap's physical range is mapped.  Every byte between the start of the heap and the
    bump pointer lies in at most one block, live or free, and no block reaches beyond. *)
Section heap_inv.
Context `{A : PageArch} (hhdm off : Z).

Definition lo (h : heap) : Z := heap_start (fba h) + off.
Definition hi (h : heap) : Z := next_free_byte (fba h) + off.

Record heap_inv (h : heap) (live : list block) (fl : list (list Z)) : Prop := {
  hi_init : INITIALIZED h = true;
  hi_len : length (buckets (fba h)) = BUCKET_COUNT;
  hi_len_fl : length fl = BUCKET_COUNT;
  hi_chain : forall i head l, buckets (fba h) !! i = Some head -> fl !! i = Some l -> chain (hmem h) head l;
  hi_cover : forall x, (cover x (live ++ free_blocks 0 fl) <=
                        if decide (lo h <= x < hi h)%Z then 1 else 0)%nat;
  hi_range : 0 <= heap_start (fba h) <= next_free_byte (fba h) /\
             next_free_byte (fba h) <= heap_end (fba h) <= 2 ^ 62 /\ 0 < lo h /\ heap_end (fba h) + off < 2 ^ 64;
  hi_map : forall x, heap_start (fba h) <= x <= heap_end (fba h) -> p2v hhdm x = x + off
}.

Lemma cover_le1 h live fl x : heap_inv h live fl -> (cover x (live ++ free_blocks 0 fl) <= 1)%nat.
Proof. intros I. pose proof (hi_cover _ _ _ I x). destruct (decide _); lia. Qed.

(** Two blocks that no byte shares lie apart. *)
Lemma cover_apart b b' bs :
  (forall x, (cover x (b :: bs) <= 1)%nat) -> b' ∈ bs -> 0 < b.2 -> 0 < b'.2 ->
  b.1 + b.2 <= b'.1 \/ b'.1 + b'.2 <= b.1.
Proof.
  intros Hc Hb Hp Hp'. destruct (decide (b.1 + b.2 <= b'.1)); [by left|].
  destruct (decide (b'.1 + b'.2 <= b.1)); [by right|]. exfalso.
  assert (inb (Z.max b.1 b'.1) b = true) as Hx by (unfold inb; zcases; done).
  assert (inb (Z.max b.1 b'.1) b' = true) as Hx' by (unfold inb; zcases; done).
  specialize (Hc (Z.max b.1 b'.1)). rewrite cover_cons, Hx in Hc.
  pose proof (cover_elem _ _ _ Hb Hx'). lia.
Qed.

(** Free nodes keep their links when only bytes of another block are written. *)
Lemma chains_kept (m m' : mem_t) p sz live (bs : list Z) fl :
  0 < sz ->
  (forall x, (cover x ((p, sz) :: live ++ free_blocks 0 fl) <= 1)%nat) ->
  (forall x, x < p \/ p + sz <= x -> m' x = m x) ->
  forall i head l, bs !! i = Some head -> fl !! i = Some l -> chain m head l -> chain m' head l.
Proof.
  intros Hsz Hc Hm i head l _ Hl. apply chain_ext. intros a Ha.
  pose proof (elem_free_blocks fl 0 i l a Hl Ha) as He. cbn [Nat.add] in He.
  assert (8 <= 2 ^ (Z.of_nat i + 3)) as H8.
  { change 8 with (2 ^ 3). apply Z.pow_le_mono_r; lia. }
  destruct (cover_apart (p, sz) (a, 2 ^ (Z.of_nat i + 3)) (live ++ free_blocks 0 fl)) as [H|H]; simpl in *;
    [done|apply elem_of_app; by right|done|lia| |]; unfold read_u64; f_equal; apply read_n_ext; intros x Hx; apply Hm; lia.
Qed.

Lemma fallback_alloc_spec l h live fl :
  heap_inv h live fl -> layout_ok l ->
  let l' := {| size := eff l; align := align l |} in
  (fallback_alloc hhdm l' (fba h) = (0, fba h)) \/
  (exists start, next_free_byte (fba h) <= start /\ start + eff l <= heap_end (fba h) /\ start mod align l = 0 /\
    fallback_alloc hhdm l' (fba h) =
      (start + off, {| buckets := buckets (fba h); heap_start := heap_start (fba h);
                       heap_end := heap_end (fba h); next_free_byte := start + eff l |})).
Proof.
  intros I (H0 & k & Hk & Hal & Hsz). unfold fallback_alloc. cbn [size align].
  destruct (hi_range _ _ _ I) as (Hr1 & Hr2 & _).
  assert (2 ^ k <= 2 ^ 60) by (apply Z.pow_le_mono_r; lia).
  change (2 ^ 62) with (4 * 2 ^ 60) in Hr2. change (2 ^ 61) with (2 * 2 ^ 60) in Hsz.
  assert (2 ^ 64 = 16 * 2 ^ 60) as E64 by done.
  destruct (mask_up_bounds (next_free_byte (fba h)) k) as [Hb Hm]; [lia|lia|lia|].
  rewrite Hal. set (start := mask_up _ _) in *. unfold checked_add64.
  destruct (Z.ltb_spec (start + eff l) (2 ^ 64)); [|by left].
  destruct (Z.leb_spec (start + eff l) (heap_end (fba h))); [|by left].
  right. exists start. split_and!; [lia|done|done|]. f_equal. apply (hi_map _ _ _ I).
  unfold eff, MIN_BLOCK_SIZE in *. lia.
Qed.

Lemma eff_pos l : 8 <= eff l.
Proof. unfold eff, MIN_BLOCK_SIZE. lia. Qed.

Lemma write_bytes_outside (m : mem_t) p sz x : x < p \/ p + sz <= x -> write_bytes m p 0 sz x = m x.
Proof. intros. unfold write_bytes. zcases; done. Qed.

(** Handing out a block from the bump pointer. *)
Lemma bump_inv l h live fl start :
  heap_inv h live fl -> next_free_byte (fba h) <= start -> start + eff l <= heap_end (fba h) ->
  heap_inv (Heap {| buckets := buckets (fba h); heap_start := heap_start (fba h);
                    heap_end := heap_end (fba h); next_free_byte := start + eff l |}
                 true (write_bytes (hmem h) (start + off) 0 (eff l)))
           ((start + off, eff l) :: live) fl.
Proof.
  intros I Hs He. pose proof (eff_pos l) as H8. destruct (hi_range _ _ _ I) as (Hr1 & Hr2 & Hr3 & Hr4).
  assert (forall x, (cover x (((start + off)%Z, eff l) :: live ++ free_blocks 0 fl) <=
            if decide (lo h <= x < start + eff l + off)%Z then 1 else 0)%nat) as Hcov.
  { intros x. rewrite cover_cons. pose proof (hi_cover _ _ _ I x) as Hc. unfold lo, hi in *.
    unfold inb. cbn [fst snd]. destruct (decide _), (decide _); zcases; lia. }
  split; cbn [INITIALIZED fba buckets heap_start heap_end next_free_byte hmem]; try apply I; try done.
  - intros i head l0 Hb Hl. eapply (chains_kept (hmem h) _ (start + off) (eff l) live); [lia| | |done|done|].
    + intros x. specialize (Hcov x). destruct (decide _); lia.
    + intros x. apply write_bytes_outside.
    + by eapply (hi_chain _ _ _ I).
  - unfold lo in *. simpl. lia.
Qed.

(** Taking the first block of a free list. *)
Lemma pop_inv l h live fl i a rest :
  heap_inv h live fl -> fl !! i = Some (a :: rest) -> buckets (fba h) !! i = Some a ->
  eff l = 2 ^ (Z.of_nat i + 3) ->
  heap_inv (Heap (with_bucket (Z.of_nat i) (read_u64 (hmem h) a) (fba h)) true (write_bytes (hmem h) a 0 (eff l)))
           ((a, eff l) :: live) (<[i := rest]> fl).
Proof.
  intros I Hfl Hbk Heff. pose proof (eff_pos l) as H8.
  assert (forall x, cover x ((a, eff l) :: live ++ free_blocks 0 (<[i := rest]> fl)) =
                    cover x (live ++ free_blocks 0 fl)) as Hcov.
  { intros x. rewrite cover_cons, !cover_app.
    pose proof (cover_free_insert x 0 fl i (a :: rest) rest Hfl) as E. cbn [Nat.add] in E.
    change (classed i (a :: rest)) with ((a, 2 ^ (Z.of_nat i + 3)) :: classed i rest) in E.
    rewrite cover_cons, <- Heff in E. lia. }
  pose proof (hi_chain _ _ _ I i a (a :: rest) Hbk Hfl) as (_ & Ha0 & Hch).
  split; cbn [INITIALIZED fba hmem]; unfold with_bucket; cbn [buckets heap_start heap_end next_free_byte]; try apply I; try done.
  - rewrite length_insert. apply I.
  - rewrite length_insert. apply I.
  - rewrite Nat2Z.id. intros j head l0 Hb Hl.
    eapply (chains_kept (hmem h) _ a (eff l) live (<[i := read_u64 (hmem h) a]> (buckets (fba h))));
      [lia| | |exact Hb|exact Hl|].
    + intros x. rewrite Hcov. by apply (cover_le1 h).
    + intros x. apply write_bytes_outside.
    + destruct (decide (i = j)) as [<-|Hne].
      * rewrite list_lookup_insert_eq in Hb by (by eapply lookup_lt_Some).
        rewrite list_lookup_insert_eq in Hl by (by eapply lookup_lt_Some). by simplify_eq.
      * rewrite list_lookup_insert_ne in Hb by done. rewrite list_lookup_insert_ne in Hl by done. by eapply (hi_chain _ _ _ I).
  - intros x. cbn [app]. rewrite Hcov. apply I.
Qed.

(** Writing the bytes of a live block only. *)
Lemma client_write_inv h live fl p sz (m' : mem_t) :
  heap_inv h live fl -> (p, sz) ∈ live -> 0 < sz ->
  (forall x, x < p \/ p + sz <= x -> m' x = hmem h x) ->
  heap_inv (Heap (fba h) (INITIALIZED h) m') live fl.
Proof.
  intros I Hin Hsz Hm. apply list_elem_of_split in Hin as (l1 & l2 & E).
  destruct I as [I1 I2 I3 I4 I5 I6 I7]. split; try done. simpl. intros i head l Hb Hl.
  eapply (chains_kept (hmem h) m' p sz (l1 ++ l2)); [done| |done|exact Hb|exact Hl|by eapply I4].
  intros x. specialize (I5 x). rewrite E in I5. rewrite cover_cons. rewrite !cover_app, cover_cons in *.
  destruct (decide _); lia.
Qed.

(** Putting a block at the front of its free list. *)
Lemma push_inv l h live fl i p head :
  heap_inv h ((p, eff l) :: live) fl -> p <> 0 -> buckets (fba h) !! i = Some head ->
  eff l = 2 ^ (Z.of_nat i + 3) -> fits 64 head ->
  exists rest, fl !! i = Some rest /\
  heap_inv (Heap (with_bucket (Z.of_nat i) p (fba h)) (INITIALIZED h) (write_u64 (hmem h) p head))
           live (<[i := p :: rest]> fl).
Proof.
  intros I Hp0 Hbk Heff Hfit. pose proof (eff_pos l) as H8.
  assert (is_Some (fl !! i)) as [rest Hfl].
  { apply lookup_lt_is_Some_2. rewrite (hi_len_fl _ _ _ I). rewrite <- (hi_len _ _ _ I). by eapply lookup_lt_Some. }
  exists rest. split; [done|].
  assert (forall x, cover x (live ++ free_blocks 0 (<[i := p :: rest]> fl)) =
                    cover x (((p, eff l) :: live) ++ free_blocks 0 fl)) as Hcov.
  { intros x. cbn [app]. rewrite cover_cons, !cover_app.
    pose proof (cover_free_insert x 0 fl i rest (p :: rest) Hfl) as E. cbn [Nat.add] in E.
    change (classed i (p :: rest)) with ((p, 2 ^ (Z.of_nat i + 3)) :: classed i rest) in E.
    rewrite cover_cons, <- Heff in E. lia. }
  assert (forall j hd l0, buckets (fba h) !! j = Some hd -> fl !! j = Some l0 ->
            chain (write_u64 (hmem h) p head) hd l0) as Hkeep.
  { intros j hd l0 Hb Hl.
    eapply (chains_kept (hmem h) _ p (eff l) live); [lia| | |exact Hb|exact Hl|by eapply (hi_chain _ _ _ I)].
    - intros x. by apply (cover_le1 h ((p, eff l) :: live)).
    - intros x Hx. unfold write_u64, copy_to. rewrite length_to_le. zcases; done. }
  split; cbn [INITIALIZED fba hmem]; unfold with_bucket; cbn [buckets heap_start heap_end next_free_byte]; try apply I.
  - rewrite length_insert. apply I.
  - rewrite length_insert. apply I.
  - rewrite Nat2Z.id. intros j hd l0 Hb Hl. destruct (decide (i = j)) as [<-|Hne].
    + rewrite list_lookup_insert_eq in Hb by (by eapply lookup_lt_Some).
      rewrite list_lookup_insert_eq in Hl by (by eapply lookup_lt_Some). simplify_eq. simpl.
      rewrite read_write_u64 by done. split_and!; [done|done|by eapply Hkeep].
    + rewrite list_lookup_insert_ne in Hb by done. rewrite list_lookup_insert_ne in Hl by done. by eapply Hkeep.
  - intros x. rewrite Hcov. apply I.
Qed.

Lemma index_lookup {T} (l : list T) i x : l !! i = Some x -> index l (Z.of_nat i) = Returns x.
Proof.
  intros E. unfold index. pose proof (lookup_lt_Some _ _ _ E). zcases. by rewrite Nat2Z.id, E.
Qed.

(** The bucket of an exact layout. *)
Lemma bucket_lookup l h live fl :
  heap_inv h live fl -> layout_ok l -> exact_layout l ->
  let l' := {| size := eff l; align := align l |} in
  (target_bucket_index l' = None) \/
  (exists i head, target_bucket_index l' = Some (Z.of_nat i) /\ buckets (fba h) !! i = Some head /\
     eff l = 2 ^ (Z.of_nat i + 3)).
Proof.
  intros I Hok Hex. cbn zeta. pose proof (target_bucket_class l {| size := eff l; align := align l |} Hok eq_refl eq_refl) as Ht.
  destruct (target_bucket_index _) as [b|]; [|by left]. right.
  destruct Ht as (j & Ecl & Hj & ->). exists (Z.to_nat (j - 3)).
  destruct (lookup_lt_is_Some_2 (buckets (fba h)) (Z.to_nat (j - 3))) as [head Eh].
  { rewrite (hi_len _ _ _ I). unfold BUCKET_COUNT. lia. }
  exists head. rewrite Z2Nat.id by lia. split_and!; [done|done|].
  replace (j - 3 + 3) with j by lia. rewrite <- Ecl. destruct Hex as [?|Hbig]; [done|].
  rewrite Ecl in Hbig. change 2048 with (2 ^ 11) in Hbig.
  apply Z.pow_lt_mono_r_iff in Hbig; lia.
Qed.

Lemma alloc_spec l h live fl :
  heap_inv h live fl -> layout_ok l -> exact_layout l ->
  exists p h', alloc hhdm l h = Returns (p, h') /\
  ((p = 0 /\ h' = h) \/
   (p <> 0 /\ (exists fl', heap_inv h' ((p, eff l) :: live) fl') /\
    (forall x, hmem h' x = if inb x (p, eff l) then 0 else hmem h x))).
Proof.
  intros I Hok Hex. unfold alloc. rewrite (hi_init _ _ _ I). cbn [negb]. fold (eff l).
  rewrite from_size_align_ok by done. cbn [outcome_bind].
  set (l' := {| size := eff l; align := align l |}).
  assert (forall p f, let h' := Heap f true (if negb (p =? 0) then write_bytes (hmem h) p 0 (eff l) else hmem h) in
    (p = 0 /\ f = fba h) \/ (p <> 0 /\ (exists fl', heap_inv (Heap f true (write_bytes (hmem h) p 0 (eff l))) ((p, eff l) :: live) fl')) ->
    exists p0 h'0, Returns (p, h') = Returns (p0, h'0) /\
      ((p0 = 0 /\ h'0 = h) \/ (p0 <> 0 /\ (exists fl', heap_inv h'0 ((p0, eff l) :: live) fl') /\
        (forall x, hmem h'0 x = if inb x (p0, eff l) then 0 else hmem h x)))) as Hfin.
  { intros p f h' Hc. exists p, h'. split; [done|]. unfold h'. destruct Hc as [[-> ->]|[Hp Hi]].
    - left. split; [done|]. simpl. destruct h as [? ii ?]. pose proof (hi_init _ _ _ I). simpl in *. by subst ii.
    - right. rewrite (proj2 (Z.eqb_neq p 0) Hp). cbn [negb]. split_and!; [done|done|]. intros x. done. }
  assert (exists p f, fallback_alloc hhdm l' (fba h) = (p, f) /\
    ((p = 0 /\ f = fba h) \/ (p <> 0 /\ (exists fl', heap_inv (Heap f true (write_bytes (hmem h) p 0 (eff l))) ((p, eff l) :: live) fl')))) as (p & f & Ef & Hf).
  { destruct (fallback_alloc_spec l h live fl I Hok) as [E|(start & H1 & H2 & _ & E)].
    - exists 0, (fba h). split; [done|by left].
    - eexists _, _. split; [exact E|]. right. destruct (hi_range _ _ _ I) as (Hr1 & _ & Hr3 & _). unfold lo in Hr3.
      split; [lia|]. exists fl. by apply bump_inv. }
  unfold l' in *. clear l'.
  destruct (bucket_lookup l h live fl I Hok Hex) as [->|(i & head & -> & Hb & Heff)].
  { cbn [outcome_bind]. rewrite Ef. by apply Hfin. }
  rewrite (index_lookup _ _ _ Hb). cbn [outcome_bind].
  destruct (Z.eqb_spec head 0) as [->|Hh0]; cbn [negb outcome_bind]; [rewrite Ef; by apply Hfin|].
  apply Hfin. right. split; [done|].
  destruct (lookup_lt_is_Some_2 fl i) as [lst Hl].
  { rewrite (hi_len_fl _ _ _ I), <- (hi_len _ _ _ I). by eapply lookup_lt_Some. }
  destruct lst as [|a rest].
  { pose proof (hi_chain _ _ _ I i head [] Hb Hl). done. }
  pose proof (hi_chain _ _ _ I i head (a :: rest) Hb Hl) as (-> & _ & _).
  exists (<[i := rest]> fl). by apply (pop_inv l h live fl).
Qed.

Lemma bucket_fits h live fl i head : heap_inv h live fl -> buckets (fba h) !! i = Some head -> fits 64 head.
Proof.
  intros I Hb. destruct (lookup_lt_is_Some_2 fl i) as [lst Hl].
  { rewrite (hi_len_fl _ _ _ I), <- (hi_len _ _ _ I). by eapply lookup_lt_Some. }
  pose proof (hi_chain _ _ _ I i head lst Hb Hl) as Hc. destruct lst as [|a rest]; simpl in Hc; [by subst|].
  destruct Hc as (-> & _ & _).
  pose proof (elem_free_blocks fl 0 i (a :: rest) a Hl ltac:(by left)) as He.
  pose proof (Z.pow_pos_nonneg 2 (Z.of_nat (0 + i) + 3) ltac:(lia) ltac:(lia)).
  pose proof (cover_elem a _ _ He ltac:(unfold inb; cbn [fst snd]; zcases; done)) as H1.
  pose proof (hi_cover _ _ _ I a) as Hc. rewrite cover_app in Hc.
  destruct (hi_range _ _ _ I) as (Hr1 & Hr2 & Hr3 & Hr4). unfold lo, hi, fits in *.
  destruct (decide _); lia.
Qed.

Lemma dealloc_spec l p h live fl :
  heap_inv h ((p, eff l) :: live) fl -> p <> 0 -> layout_ok l -> exact_layout l ->
  exists h', dealloc p l h = Returns h' /\ exists fl', heap_inv h' live fl'.
Proof.
  intros I Hp Hok Hex. unfold dealloc. rewrite (proj2 (Z.eqb_neq p 0) Hp). fold (eff l).
  rewrite from_size_align_ok by done. cbn [outcome_bind].
  destruct (bucket_lookup l h _ fl I Hok Hex) as [->|(i & head & -> & Hb & Heff)].
  - exists h. split; [done|]. exists fl. destruct I as [I1 I2 I3 I4 I5 I6 I7]. split; try done.
    intros x. specialize (I5 x). cbn [app] in I5. rewrite cover_cons in I5. destruct (decide _); lia.
  - rewrite (index_lookup _ _ _ Hb). cbn [outcome_bind]. eexists. split; [done|].
    destruct (push_inv l h live fl i p head I Hp Hb Heff (bucket_fits _ _ _ _ _ I Hb)) as (rest & _ & I'). by eexists.
Qed.

(** ** Runs of the kernel on its heap

    Clients allocate and release with layouts that fill their size class, and write only
    inside blocks they hold. *)
Inductive heap_step : heap * list block -> heap * list block -> Prop :=
| step_alloc l p h h' live : layout_ok l -> exact_layout l ->
    alloc hhdm l h = Returns (p, h') -> p <> 0 -> heap_step (h, live) (h', (p, eff l) :: live)
| step_alloc_null l h h' live : layout_ok l -> exact_layout l ->
    alloc hhdm l h = Returns (0, h') -> heap_step (h, live) (h', live)
| step_dealloc l p h h' live1 live2 : layout_ok l -> exact_layout l ->
    dealloc p l h = Returns h' -> heap_step (h, live1 ++ (p, eff l) :: live2) (h', live1 ++ live2)
| step_write p sz h m' live : (p, sz) ∈ live -> 0 < sz ->
    (forall x, x < p \/ p + sz <= x -> m' x = hmem h x) ->
    heap_step (h, live) (Heap (fba h) (INITIALIZED h) m', live).

Definition boot_heap (start sz : Z) (m : mem_t) : heap :=
  heap_init start sz (Heap FastBlockAllocator_new false m).

Lemma boot_heap_inv start sz m :
  0 <= start -> 0 <= sz -> start + sz <= 2 ^ 62 -> 0 < start + off -> start + sz + off < 2 ^ 64 ->
  (forall x, start <= x <= start + sz -> p2v hhdm x = x + off) ->
  heap_inv (boot_heap start sz m) [] (replicate BUCKET_COUNT []).
Proof.
  intros H0 Hsz Hr Ho Hov Hmap.
  assert (add64 start sz = start + sz) as E.
  { apply u64_small. split; [lia|]. change (2 ^ 62) with (4 * 2 ^ 60) in Hr. change (2 ^ 64) with (16 * 2 ^ 60). lia. }
  split; unfold boot_heap, heap_init, lo, hi; cbn [INITIALIZED fba buckets heap_start heap_end next_free_byte hmem];
    rewrite ?E; try done.
  - intros i head l Hb%list_elem_of_lookup_2%elem_of_replicate_inv Hl%list_elem_of_lookup_2%elem_of_replicate_inv.
    by subst.
  - intros x. unfold cover. simpl. lia.
  - lia.
Qed.

Lemma heap_inv_live h live live' fl :
  (forall x, cover x live' <= cover x live)%nat -> heap_inv h live fl -> heap_inv h live' fl.
Proof.
  intros H [I1 I2 I3 I4 I5 I6 I7]. split; try done. intros x. specialize (I5 x). specialize (H x).
  rewrite cover_app in *. lia.
Qed.

Lemma live_nonzero h live fl b : heap_inv h live fl -> b ∈ live -> 0 < b.2 -> lo h <= b.1 /\ b.1 + b.2 <= hi h.
Proof.
  intros I Hb Hp.
  assert (forall x, inb x b = true -> lo h <= x < hi h) as H.
  { intros x Hx. pose proof (cover_elem x b live Hb Hx). pose proof (hi_cover _ _ _ I x) as Hc.
    rewrite cover_app in Hc. destruct (decide _); [done|lia]. }
  pose proof (H b.1 ltac:(unfold inb; zcases; done)). pose proof (H (b.1 + b.2 - 1) ltac:(unfold inb; zcases; done)). lia.
Qed.

Lemma heap_step_inv s s' :
  heap_step s s' -> (exists fl, heap_inv s.1 s.2 fl) -> exists fl, heap_inv s'.1 s'.2 fl.
Proof.
  intros Hs [fl I]. destruct Hs as [l p h h' live Hok Hex Hal Hp|l h h' live Hok Hex Hal|l p h h' l1 l2 Hok Hex Hd|p sz h m' live Hin Hsz Hm]; simpl in *.
  - destruct (alloc_spec l h live fl I Hok Hex) as (p' & h'' & E & Hc). rewrite Hal in E. simplify_eq.
    destruct Hc as [[? _]|(_ & ? & _)]; done.
  - destruct (alloc_spec l h live fl I Hok Hex) as (p' & h'' & E & Hc). rewrite Hal in E. simplify_eq.
    destruct Hc as [[_ ->]|[? _]]; [by exists fl|done].
  - assert (heap_inv h ((p, eff l) :: l1 ++ l2) fl) as I'.
    { eapply heap_inv_live; [|exact I]. intros x. rewrite cover_cons, !cover_app, cover_cons. lia. }
    pose proof (eff_pos l). destruct (live_nonzero h _ fl (p, eff l) I' ltac:(by left)) as [Hlo _]; simpl in *; [lia|].
    destruct (hi_range _ _ _ I) as (_ & _ & Hr & _).
    destruct (dealloc_spec l p h (l1 ++ l2) fl I') as (h'' & E & Hi); [lia|done|done|]. rewrite Hd in E. by simplify_eq.
  - exists fl. by eapply client_write_inv.
Qed.

Lemma heap_run_inv s s' :
  rtc heap_step s s' -> (exists fl, heap_inv s.1 s.2 fl) -> exists fl, heap_inv s'.1 s'.2 fl.
Proof. induction 1; eauto using heap_step_inv. Qed.
End heap_inv.


(** Two 16-byte blocks, the first one released. *)
Definition demo_layout : Layout := {| size := 16; align := 8 |}.
Definition demo_heap : heap := boot_heap 0x200000 0x1000 (fun _ => 0).

Lemma demo_layout_ok : layout_ok demo_layout /\ exact_layout demo_layout.
Proof. split; [split; [done|exists 3; done]|left; reflexivity]. Qed.


(** The four calls of the scenario below: allocate [n] bytes twice, release the first
    block, allocate 16 bytes. *)
Definition recycle (hhdm n : Z) (h : heap) : outcome (Z * Z * Z) :=
  let ln := {| size := n; align := 1 |} in
  let! r1 := alloc (A := aarch64) hhdm ln h in
  let! r2 := alloc (A := aarch64) hhdm ln (snd r1) in
  let! h3 := dealloc (fst r1) ln (snd r2) in
  let! r4 := alloc (A := aarch64) hhdm {| size := 16; align := 1 |} h3 in
  Returns (fst r1, fst r2, fst r4).

(** without that restriction blocks overlap.  A block taken from the bump pointer has
    the requested size but is recycled under its rounded-up size class: after allocating
    two blocks of [n] bytes (8 < n < 16) and releasing the first, a request for 16 bytes is
    given the first block's address, and its last bytes are the first bytes of the second
    block, which is still in use. *)
Theorem heap_recycled_block_overlaps n (Hn : 8 < n < 16) :
  exists a b c, recycle 0 n demo_heap = Returns (a, b, c) /\
  c = a /\ c < b < c + 16.
Proof.
  exists 0x200000, (0x200000 + n), 0x200000. split; [|lia].
  assert (n = 9 \/ n = 10 \/ n = 11 \/ n = 12 \/ n = 13 \/ n = 14 \/ n = 15) as Hc by lia.
  destruct Hc as [->|[->|[->|[->|[->|[->| ->]]]]]]; vm_compute; reflexivity.
Qed.

Lemma heap_recycled_block_overlaps_witness :
  exists a b c, recycle 0 9 demo_heap = Returns (a, b, c) /\ c = a /\ c < b < c + 16.
Proof. exact (heap_recycled_block_overlaps 9 ltac:(lia)). Defined.
