(* ===== verification/Sync.v ===== *)
(** Locks: `sync::Spinlock` (src/src/sync.rs) and `memory::Mutex` (src/src/memory.rs), as a
    step relation over several CPUs on which interrupts may arrive. *)
From S2P Require Import Prelude.

(** Which lock is modelled: `Spinlock` masks interrupts while it is taken, `Mutex` does not. *)
Inductive lock_kind := Spinlock | Mutex.

(** `disable_and_save_interrupts`: the value it returns, from the flags register it reads. *)
Definition saved_interrupt_state_x86 (rflags : Z) : bool := bit rflags 9.
Definition saved_interrupt_state_aarch64 (daif : Z) : bool := negb (bit daif 7).

(** Where one thread of control is in a critical section; [bool] is the guard's
    `saved_interrupt_state`.  [Releasing] lies between the two statements of `drop`. *)
Inductive frame := Outside | Spinning (saved : bool) | Holding (saved : bool) | Releasing (saved : bool).

(** A CPU: its interrupt-enable flag and the thread it runs, on top of the threads its
    interrupt handlers have suspended. *)
Record cpu := Cpu { irq_on : bool; running : frame; suspended : list frame }.

Record lock_state := LockState { locked : bool; cpus : list cpu }.

(** `lock`, up to the first `swap`. *)
Definition lock_begin (k : lock_kind) (c : cpu) : cpu :=
  match k with
  | Spinlock => Cpu false (Spinning (irq_on c)) (suspended c)
  | Mutex => Cpu (irq_on c) (Spinning false) (suspended c)
  end.

(** One iteration of the spin loop: the atomic exchange, and what follows from its result. *)
Definition try_lock (saved : bool) (l : bool) (c : cpu) : bool * cpu :=
  if l then (true, c) else (true, Cpu (irq_on c) (Holding saved) (suspended c)).

(** `drop`: release the lock, then restore the interrupt flag if it was set. *)
Definition unlock_store (saved : bool) (c : cpu) : bool * cpu :=
  (false, Cpu (irq_on c) (Releasing saved) (suspended c)).
Definition unlock_restore (saved : bool) (c : cpu) : cpu :=
  Cpu (if saved then true else irq_on c) Outside (suspended c).

(** An interrupt is taken only when enabled; the handler runs masked, and its return
    instruction restores the flag that was set on entry. *)
Definition take_irq (c : cpu) : cpu := Cpu false Outside (running c :: suspended c).
Definition iret (f : frame) (rest : list frame) : cpu := Cpu true f rest.

Inductive lock_step (k : lock_kind) : lock_state -> lock_state -> Prop :=
| s_begin l cs i c : cs !! i = Some c -> running c = Outside ->
    lock_step k (LockState l cs) (LockState l (<[i := lock_begin k c]> cs))
| s_swap l cs i c s : cs !! i = Some c -> running c = Spinning s ->
    lock_step k (LockState l cs) (LockState (fst (try_lock s l c)) (<[i := snd (try_lock s l c)]> cs))
| s_store l cs i c s : cs !! i = Some c -> running c = Holding s ->
    lock_step k (LockState l cs) (LockState (fst (unlock_store s c)) (<[i := snd (unlock_store s c)]> cs))
| s_restore l cs i c s : cs !! i = Some c -> running c = Releasing s ->
    lock_step k (LockState l cs) (LockState l (<[i := unlock_restore s c]> cs))
| s_irq l cs i c : cs !! i = Some c -> irq_on c = true ->
    lock_step k (LockState l cs) (LockState l (<[i := take_irq c]> cs))
| s_iret l cs i c f rest : cs !! i = Some c -> running c = Outside -> suspended c = f :: rest ->
    lock_step k (LockState l cs) (LockState l (<[i := iret f rest]> cs)).

(** [n] CPUs, each with some interrupt flag, none near the lock. *)
Definition boot_locks (flags : list bool) : lock_state :=
  LockState false (map (fun b => Cpu b Outside []) flags).

Definition lock_reachable (k : lock_kind) (flags : list bool) : lock_state -> Prop :=
  rtc (lock_step k) (boot_locks flags).

(** ** Counting holders *)
Definition holds (f : frame) : nat := match f with Holding _ => 1 | _ => 0 end.
Definition cpu_holds (c : cpu) : nat := holds (running c) + sum_list (map holds (suspended c)).
Definition holders (s : lock_state) : nat := sum_list (map cpu_holds (cpus s)).

Lemma sum_insert (g : cpu -> nat) cs i c c' :
  cs !! i = Some c ->
  (sum_list (map g (<[i := c']> cs)) + g c = sum_list (map g cs) + g c')%nat.
Proof.
  revert i; induction cs as [|d cs IH]; intros [|i] E; try done; simpl in *.
  - injection E as ->. lia.
  - specialize (IH i E). lia.
Qed.

Lemma sum_lookup (g : cpu -> nat) cs i c : cs !! i = Some c -> (g c <= sum_list (map g cs))%nat.
Proof.
  revert i; induction cs as [|d cs IH]; intros [|i] E; try done; simpl in *.
  - injection E as ->. lia.
  - specialize (IH i E). lia.
Qed.

Lemma holders_inv k s s' :
  lock_step k s s' -> holders s = (if locked s then 1 else 0)%nat ->
  holders s' = (if locked s' then 1 else 0)%nat.
Proof.
  unfold holders. destruct 1 as [l cs i c Hc Hr|l cs i c sv Hc Hr|l cs i c sv Hc Hr|l cs i c sv Hc Hr|l cs i c Hc Hi|l cs i c f rest Hc Hr Hs];
    cbn [locked cpus]; intros H.
  - pose proof (sum_insert cpu_holds cs i c (lock_begin k c) Hc) as E.
    unfold cpu_holds in E at 2 4. rewrite Hr in E. destruct k; simpl in *; lia.
  - pose proof (sum_insert cpu_holds cs i c (snd (try_lock sv l c)) Hc) as E.
    unfold cpu_holds in E at 2 4. rewrite Hr in E. unfold try_lock in *. destruct l; simpl in *; rewrite ?Hr in E; simpl in E; lia.
  - pose proof (sum_insert cpu_holds cs i c (snd (unlock_store sv c)) Hc) as E.
    pose proof (sum_lookup cpu_holds cs i c Hc) as Hle.
    unfold cpu_holds in E at 2 4. unfold cpu_holds in Hle at 1. rewrite Hr in E, Hle. simpl in *. destruct l; lia.
  - pose proof (sum_insert cpu_holds cs i c (unlock_restore sv c) Hc) as E.
    unfold cpu_holds in E at 2 4. rewrite Hr in E. simpl in *. lia.
  - pose proof (sum_insert cpu_holds cs i c (take_irq c) Hc) as E.
    unfold cpu_holds in E at 2 4. simpl in *. lia.
  - pose proof (sum_insert cpu_holds cs i c (iret f rest) Hc) as E.
    unfold cpu_holds in E at 2 4. rewrite Hr, Hs in E. simpl in *. lia.
Qed.

(** A CPU on which a `Spinlock` user is never interrupted. *)
Definition masked_cpu (c : cpu) : Prop :=
  Forall (fun f => f = Outside) (suspended c) /\ (running c <> Outside -> irq_on c = false).

Lemma masked_inv s s' :
  lock_step Spinlock s s' -> Forall masked_cpu (cpus s) -> Forall masked_cpu (cpus s').
Proof.
  destruct 1 as [l cs i c Hc Hr|l cs i c sv Hc Hr|l cs i c sv Hc Hr|l cs i c sv Hc Hr|l cs i c Hc Hi|l cs i c f rest Hc Hr Hs];
    cbn [cpus]; intros H; apply Forall_insert; try done;
    destruct (Forall_lookup_1 _ _ _ _ H Hc) as [H1 H2]; unfold masked_cpu.
  - done.
  - unfold try_lock. destruct l; simpl; (split; [done|]); intros _; apply H2; congruence.
  - simpl. split; [done|]. intros _. apply H2. congruence.
  - simpl. done.
  - simpl. split; [|done]. constructor; [|done]. destruct (running c); try done; by rewrite H2 in Hi.
  - simpl. rewrite Hs in H1. apply Forall_cons in H1 as [-> H1]. done.
Qed.

(** C17: both locks give mutual exclusion on any number of CPUs, with interrupts arriving
    at any point: at most one thread of control is inside the critical section, and the
    flag is set exactly when one is. *)
Theorem lock_mutual_exclusion k flags s (Hr : lock_reachable k flags s) :
  holders s = (if locked s then 1 else 0)%nat.
Proof.
  unfold lock_reachable in Hr. remember (boot_locks flags) as s0 eqn:E.
  assert (holders s0 = (if locked s0 then 1 else 0)%nat) as H0.
  { subst. unfold holders, boot_locks. cbn [cpus locked]. clear Hr. induction flags as [|b fl IH]; [done|exact IH]. }
  clear E. induction Hr as [|s1 s2 s3 Hs _ IH]; [done|]. by apply IH, (holders_inv k s1).
Qed.

Lemma lock_mutual_exclusion_witness :
  holders (LockState true [Cpu false (Holding true) []; Cpu false (Spinning false) []]) = 1%nat.
Proof.
  apply (lock_mutual_exclusion Spinlock [true; false]).
  eapply rtc_l; [apply (s_begin Spinlock false [Cpu true Outside []; Cpu false Outside []] 0 (Cpu true Outside [])); reflexivity|].
  eapply rtc_l; [apply (s_begin Spinlock false [Cpu false (Spinning true) []; Cpu false Outside []] 1 (Cpu false Outside [])); reflexivity|].
  eapply rtc_l; [apply (s_swap Spinlock false [Cpu false (Spinning true) []; Cpu false (Spinning false) []] 0 (Cpu false (Spinning true) []) true); reflexivity|].
  apply rtc_refl.
Defined.

(** a `Spinlock` cannot deadlock with an interrupt handler of its own CPU: in every
    reachable state the threads an interrupt has suspended are outside the lock, and a
    CPU that spins on the lock or holds it has interrupts masked. *)
Theorem spinlock_never_interrupted flags s c f
  (Hr : lock_reachable Spinlock flags s) (Hc : c ∈ cpus s) :
  (f ∈ suspended c -> f = Outside) /\ (running c <> Outside -> irq_on c = false).
Proof.
  assert (Forall masked_cpu (cpus s)) as H.
  { unfold lock_reachable in Hr. remember (boot_locks flags) as s0 eqn:E.
    assert (Forall masked_cpu (cpus s0)) as H0.
    { subst. simpl. apply Forall_fmap, Forall_true. intros b. split; [constructor|done]. }
    clear E Hc. induction Hr as [|s1 s2 s3 Hs _ IH]; [done|]. by apply IH, (masked_inv s1). }
  rewrite Forall_forall in H. destruct (H c Hc) as [H1 H2]. rewrite Forall_forall in H1. by split; [apply H1|].
Qed.

Lemma spinlock_never_interrupted_witness :
  irq_on (Cpu false (Spinning true) []) = false.
Proof.
  apply (spinlock_never_interrupted [true] (LockState false [Cpu false (Spinning true) []]) _ Outside); [|by left|done].
  eapply rtc_l; [apply (s_begin Spinlock false [Cpu true Outside []] 0 (Cpu true Outside [])); reflexivity|]. apply rtc_refl.
Defined.

(** taking and releasing a `Spinlock` leaves the interrupt flag of the CPU as it found
    it, whether it was set or clear. *)
Theorem spinlock_restores_interrupts c saved
  (Hlock : running (lock_begin Spinlock c) = Spinning saved) :
  let c1 := snd (try_lock saved false (lock_begin Spinlock c)) in
  let c2 := unlock_restore saved (snd (unlock_store saved c1)) in
  irq_on c1 = false /\ irq_on c2 = irq_on c /\ running c2 = Outside /\ suspended c2 = suspended c.
Proof.
  simpl in Hlock. injection Hlock as <-. destruct c as [[] r st]; simpl; done.
Qed.

Lemma spinlock_restores_interrupts_witness :
  irq_on (unlock_restore true (snd (unlock_store true (snd (try_lock true false (lock_begin Spinlock (Cpu true Outside []))))))) = true.
Proof. exact (proj1 (proj2 (spinlock_restores_interrupts (Cpu true Outside []) true eq_refl))). Defined.

(** `memory::Mutex`, which guards the heap and the frame pool, has no such protection:
    from any CPU with interrupts enabled a state is reachable in which that CPU's
    handler spins on the lock while the thread it suspended holds it, and on a
    single CPU nothing but further spinning can follow. *)
Theorem mutex_interrupt_deadlock :
  let dead := LockState true [Cpu false (Spinning false) [Holding false]] in
  lock_reachable Mutex [true] dead /\
  forall s, lock_step Mutex dead s -> s = dead.
Proof.
  cbn zeta. split.
  - eapply rtc_l; [apply (s_begin Mutex false [Cpu true Outside []] 0 (Cpu true Outside [])); reflexivity|].
    eapply rtc_l; [apply (s_swap Mutex false [Cpu true (Spinning false) []] 0 (Cpu true (Spinning false) []) false); reflexivity|].
    eapply rtc_l; [apply (s_irq Mutex true [Cpu true (Holding false) []] 0 (Cpu true (Holding false) [])); reflexivity|].
    eapply rtc_l; [apply (s_begin Mutex true [Cpu false Outside [Holding false]] 0 (Cpu false Outside [Holding false])); reflexivity|].
    apply rtc_refl.
  - intros s Hs. inversion Hs as [l cs [|i] c Hc Hr|l cs [|i] c sv Hc Hr|l cs [|i] c sv Hc Hr|l cs [|i] c sv Hc Hr|l cs [|i] c Hc Hi|l cs [|i] c f rest Hc Hr Hsu];
      simpl in *; by simplify_eq.
Qed.
