(* ===== verification/Ring.v ===== *)
(** The keyboard/serial input ring of src/src/interrupts.rs: interrupt handlers put bytes in
    with `enqueue_byte`, the shell takes them out with `dequeue_byte`, without a lock. *)
From S2P Require Import Prelude.

Definition BUFFER_SIZE : Z := 128.

Record ring := Ring { INPUT_BUFFER : list Z; HEAD : Z; TAIL : Z }.

Definition ring_new : ring := Ring (replicate 128 0) 0 0.

Definition advance (i : Z) : Z := add64 i 1 mod BUFFER_SIZE.

(** `INPUT_BUFFER[i] = byte` and `INPUT_BUFFER[i]`; the indices stay below 128. *)
Definition put (r : ring) (i byte : Z) : ring := Ring (<[Z.to_nat i := byte]> (INPUT_BUFFER r)) (HEAD r) (TAIL r).
Definition slot (r : ring) (i : Z) : Z := nth (Z.to_nat i) (INPUT_BUFFER r) 0.
Definition set_tail (r : ring) (t : Z) : ring := Ring (INPUT_BUFFER r) (HEAD r) t.
Definition set_head (r : ring) (h : Z) : ring := Ring (INPUT_BUFFER r) h (TAIL r).

Definition enqueue_byte (byte : Z) (r : ring) : ring :=
  let current_tail := TAIL r in
  let next_tail := advance current_tail in
  if negb (next_tail =? HEAD r) then set_tail (put r current_tail byte) next_tail else r.

Definition dequeue_byte (r : ring) : option Z * ring :=
  let current_head := HEAD r in
  if current_head =? TAIL r then (None, r)
  else let byte := slot r current_head in (Some byte, set_head r (advance current_head)).

(** ** Contents *)
Definition ring_ok (r : ring) : Prop :=
  length (INPUT_BUFFER r) = 128%nat /\ 0 <= HEAD r < 128 /\ 0 <= TAIL r < 128.

Definition count (r : ring) : nat := Z.to_nat ((TAIL r - HEAD r) mod 128).

(** The bytes in the ring, oldest first. *)
Definition contents (r : ring) : list Z :=
  map (fun k => slot r ((HEAD r + Z.of_nat k) mod 128)) (seq 0 (count r)).

Lemma advance_mod i : 0 <= i < 128 -> advance i = (i + 1) mod 128.
Proof. intros. unfold advance, add64, BUFFER_SIZE. rewrite u64_small by (unfold fits; lia). done. Qed.

Lemma advance_range i : 0 <= i < 128 -> 0 <= advance i < 128.
Proof. intros. rewrite advance_mod by done. dlia. Qed.

Lemma count_lt r : (count r < 128)%nat.
Proof. unfold count. dlia. Qed.

(** The ring is full exactly when the next tail would meet the head. *)
Lemma full_iff r : ring_ok r -> advance (TAIL r) = HEAD r <-> count r = 127%nat.
Proof. intros (_ & ? & ?). rewrite advance_mod by done. unfold count. dlia. Qed.

Lemma empty_iff r : ring_ok r -> HEAD r = TAIL r <-> count r = 0%nat.
Proof. intros (_ & ? & ?). unfold count. dlia. Qed.

Lemma slot_put_eq r i b : ring_ok r -> 0 <= i < 128 -> slot (put r i b) i = b.
Proof.
  intros (Hl & _) Hi. unfold slot, put. simpl. rewrite nth_lookup, list_lookup_insert_eq by lia. done.
Qed.

Lemma slot_put_ne r i j b : 0 <= i -> 0 <= j -> i <> j -> slot (put r i b) j = slot r j.
Proof.
  intros. unfold slot, put. simpl. rewrite !nth_lookup, list_lookup_insert_ne by lia. done.
Qed.

Lemma ring_ok_put r i b : ring_ok r -> ring_ok (put r i b).
Proof. intros (? & ? & ?). split; [simpl; by rewrite length_insert|done]. Qed.

Lemma ring_ok_set_tail r : ring_ok r -> ring_ok (set_tail r (advance (TAIL r))).
Proof. intros (? & ? & ?). split; [done|split; [done|by apply advance_range]]. Qed.

Lemma ring_ok_set_head r : ring_ok r -> ring_ok (set_head r (advance (HEAD r))).
Proof. intros (? & ? & ?). split; [done|split; [by apply advance_range|done]]. Qed.

(** Writing the slot at the tail does not change the contents. *)
Lemma contents_put r b : ring_ok r -> contents (put r (TAIL r) b) = contents r.
Proof.
  intros (Hl & Hh & Ht). unfold contents, count. simpl. apply map_ext_in. intros k [_ Hk]%in_seq.
  apply slot_put_ne; [lia|dlia|]. dlia.
Qed.

(** Publishing a byte appends it. *)
Lemma contents_publish r b :
  ring_ok r -> (count r < 127)%nat -> slot r (TAIL r) = b ->
  contents (set_tail r (advance (TAIL r))) = contents r ++ [b].
Proof.
  intros (Hl & Hh & Ht) Hc Hb. unfold contents.
  assert (count (set_tail r (advance (TAIL r))) = S (count r)) as ->.
  { unfold count, set_tail in *. cbn [HEAD TAIL] in *. rewrite advance_mod by done. dlia. }
  rewrite seq_S, map_app. cbn [map Nat.add]. f_equal. f_equal.
  change (slot (set_tail r (advance (TAIL r)))) with (slot r). cbn [HEAD set_tail].
  rewrite <- Hb. f_equal. unfold count. dlia.
Qed.

(** Advancing the head drops the oldest byte. *)
Lemma contents_consume r :
  ring_ok r -> count r <> 0%nat ->
  contents r = slot r (HEAD r) :: contents (set_head r (advance (HEAD r))).
Proof.
  intros (Hl & Hh & Ht) Hc. unfold contents.
  assert (count r = S (count (set_head r (advance (HEAD r))))) as Ec.
  { unfold count, set_head in *. cbn [HEAD TAIL] in *. rewrite advance_mod by done. dlia. }
  rewrite Ec at 1. cbn [seq map]. f_equal.
  - f_equal. dlia.
  - rewrite <- seq_shift, map_map. apply map_ext. intros k. cbn [HEAD set_head].
    change (slot (set_head r (advance (HEAD r)))) with (slot r). f_equal. rewrite advance_mod by done. dlia.
Qed.

Lemma length_contents r : length (contents r) = count r.
Proof. unfold contents. by rewrite length_map, length_seq. Qed.

Lemma enqueue_ok r b : ring_ok r -> ring_ok (enqueue_byte b r).
Proof.
  intros Hok. unfold enqueue_byte. destruct (negb _); [|done].
  apply (ring_ok_set_tail (put r (TAIL r) b)). by apply ring_ok_put.
Qed.

Lemma enqueue_contents r b : ring_ok r ->
  contents (enqueue_byte b r) = if (length (contents r) <? 127)%nat then contents r ++ [b] else contents r.
Proof.
  intros Hok. pose proof Hok as (Hl & Hh & Ht).
  unfold enqueue_byte. rewrite length_contents. pose proof (full_iff r Hok) as Hf. pose proof (count_lt r).
  destruct (Z.eqb_spec (advance (TAIL r)) (HEAD r)) as [E|E]; cbn [negb].
  - apply Hf in E. rewrite E. done.
  - assert (count r <> 127%nat) by tauto. rewrite (proj2 (Nat.ltb_lt _ _)) by lia.
    rewrite <- (contents_put r b Hok). apply (contents_publish (put r (TAIL r) b)).
    + by apply ring_ok_put.
    + change (count (put r (TAIL r) b)) with (count r). lia.
    + by apply slot_put_eq.
Qed.

(** A burst of bytes: the ring takes as many as there is room for, in order. *)
Lemma enqueue_burst bs r : ring_ok r ->
  ring_ok (foldl (fun r b => enqueue_byte b r) r bs) /\
  contents (foldl (fun r b => enqueue_byte b r) r bs) = contents r ++ take (127 - length (contents r)) bs.
Proof.
  revert r. induction bs as [|b bs IH]; intros r Hok; cbn [foldl]; [by rewrite take_nil, app_nil_r|].
  destruct (IH (enqueue_byte b r) (enqueue_ok r b Hok)) as [Hok' ->]. split; [done|].
  rewrite enqueue_contents by done. pose proof (count_lt r). rewrite length_contents.
  destruct (Nat.ltb_spec (count r) 127).
  - rewrite length_app, length_contents. cbn [length].
    replace (127 - count r)%nat with (S (127 - (count r + 1)))%nat by lia. cbn [take]. by rewrite <- app_assoc.
  - rewrite length_contents. replace (127 - count r)%nat with 0%nat by lia. done.
Qed.

Lemma dequeue_contents r : ring_ok r ->
  match contents r with
  | [] => dequeue_byte r = (None, r)
  | c :: q => exists r', dequeue_byte r = (Some c, r') /\ contents r' = q /\ ring_ok r'
  end.
Proof.
  intros Hok. pose proof (empty_iff r Hok) as He. pose proof (length_contents r) as Hlc. unfold dequeue_byte.
  destruct (contents r) as [|c q] eqn:Ec; simpl in Hlc.
  - rewrite (proj2 (Z.eqb_eq _ _)); [done|]. apply He. lia.
  - rewrite (proj2 (Z.eqb_neq _ _)) by (rewrite He; lia).
    rewrite (contents_consume r Hok) in Ec by lia. injection Ec as -> <-.
    eexists. split; [done|]. split; [done|]. by apply ring_ok_set_head.
Qed.

(** run without interference, the ring is a bounded queue: `enqueue_byte` appends the
    byte unless 127 are waiting, in which case it drops it; `dequeue_byte` returns the
    oldest byte and removes it, or reports an empty ring; the indices stay in range. *)
Theorem ring_refines_queue r b (Hok : ring_ok r) :
  ring_ok (enqueue_byte b r) /\
  contents (enqueue_byte b r) = (if (length (contents r) <? 127)%nat then contents r ++ [b] else contents r) /\
  ring_ok (snd (dequeue_byte r)) /\
  match contents r with
  | [] => dequeue_byte r = (None, r)
  | c :: q => fst (dequeue_byte r) = Some c /\ contents (snd (dequeue_byte r)) = q
  end.
Proof.
  pose proof Hok as (Hl & Hh & Ht). split_and!; [by apply enqueue_ok|by apply enqueue_contents| |].
  - unfold dequeue_byte. destruct (_ =? _); [done|]. by apply ring_ok_set_head.
  - pose proof (dequeue_contents r Hok) as H. destruct (contents r) as [|c q]; [done|]. by destruct H as (r' & -> & ? & _).
Qed.

Lemma ring_refines_queue_witness :
  contents (enqueue_byte 65 ring_new) = [65].
Proof.
  refine (proj1 (proj2 (ring_refines_queue ring_new 65 _))). split; [reflexivity|simpl; lia].
Defined.

(** ** The two sides running concurrently

    Each statement that touches shared memory is one step.  The producer is the interrupt
    handler, the consumer the shell; [pushed] and [popped] record the bytes published by a
    TAIL store and taken by a HEAD store. *)
Inductive producer := PIdle | PLoaded (byte tail : Z) | PChecked (byte tail : Z) | PWrote (byte tail : Z).
Inductive consumer := CIdle | CLoaded (head : Z) | CChecked (head : Z) | CRead (head byte : Z).

Record world := World { rg : ring; prod : producer; cons_ : consumer; pushed : list Z; popped : list Z }.

Inductive ring_step : world -> world -> Prop :=
| p_load r c ps qs b :
    ring_step (World r PIdle c ps qs) (World r (PLoaded b (TAIL r)) c ps qs)
| p_full r c ps qs b t : advance t = HEAD r ->
    ring_step (World r (PLoaded b t) c ps qs) (World r PIdle c ps qs)
| p_room r c ps qs b t : advance t <> HEAD r ->
    ring_step (World r (PLoaded b t) c ps qs) (World r (PChecked b t) c ps qs)
| p_write r c ps qs b t :
    ring_step (World r (PChecked b t) c ps qs) (World (put r t b) (PWrote b t) c ps qs)
| p_publish r c ps qs b t :
    ring_step (World r (PWrote b t) c ps qs) (World (set_tail r (advance t)) PIdle c (ps ++ [b]) qs)
| c_load r p ps qs :
    ring_step (World r p CIdle ps qs) (World r p (CLoaded (HEAD r)) ps qs)
| c_empty r p ps qs h : h = TAIL r ->
    ring_step (World r p (CLoaded h) ps qs) (World r p CIdle ps qs)
| c_some r p ps qs h : h <> TAIL r ->
    ring_step (World r p (CLoaded h) ps qs) (World r p (CChecked h) ps qs)
| c_read r p ps qs h :
    ring_step (World r p (CChecked h) ps qs) (World r p (CRead h (slot r h)) ps qs)
| c_advance r p ps qs h b :
    ring_step (World r p (CRead h b) ps qs) (World (set_head r (advance h)) p CIdle ps (qs ++ [b])).

Definition prod_ok (r : ring) (p : producer) : Prop :=
  match p with
  | PIdle => True
  | PLoaded _ t => t = TAIL r
  | PChecked _ t => t = TAIL r /\ (count r < 127)%nat
  | PWrote b t => t = TAIL r /\ (count r < 127)%nat /\ slot r t = b
  end.

Definition cons_ok (r : ring) (c : consumer) : Prop :=
  match c with
  | CIdle => True
  | CLoaded h => h = HEAD r
  | CChecked h => h = HEAD r /\ count r <> 0%nat
  | CRead h b => h = HEAD r /\ count r <> 0%nat /\ slot r h = b
  end.

Definition world_ok (w : world) : Prop :=
  ring_ok (rg w) /\ prod_ok (rg w) (prod w) /\ cons_ok (rg w) (cons_ w) /\
  pushed w = popped w ++ contents (rg w).

Lemma ring_new_ok : ring_ok ring_new.
Proof. split; [done|simpl; lia]. Qed.

Lemma cons_ok_put r c b : ring_ok r -> cons_ok r c -> cons_ok (put r (TAIL r) b) c.
Proof.
  intros Hok H. pose proof (empty_iff r Hok) as He. destruct Hok as (_ & Hh & Ht). destruct c; simpl in *; try done.
  destruct H as (-> & Hc & Hs). split_and!; try done. rewrite slot_put_ne; [done|lia|lia|].
  intros E. apply Hc, He. done.
Qed.

Lemma cons_ok_publish r c : ring_ok r -> (count r < 127)%nat -> cons_ok r c -> cons_ok (set_tail r (advance (TAIL r))) c.
Proof.
  intros (_ & Hh & Ht) Hc H.
  assert (count (set_tail r (advance (TAIL r))) <> 0%nat).
  { unfold count, set_tail in *. cbn [HEAD TAIL] in *. rewrite advance_mod by done. dlia. }
  destruct c; simpl in *; intuition.
Qed.

Lemma prod_ok_consume r p : ring_ok r -> count r <> 0%nat -> prod_ok r p -> prod_ok (set_head r (advance (HEAD r))) p.
Proof.
  intros (_ & Hh & Ht) Hc H. pose proof (count_lt r).
  assert (count (set_head r (advance (HEAD r))) < count r)%nat.
  { unfold count, set_head in *. cbn [HEAD TAIL] in *. rewrite advance_mod by done. dlia. }
  destruct p; simpl in *; try done; destruct H as (-> & ? & ?) || destruct H as (-> & ?); split_and!; try done; lia.
Qed.

Lemma ring_step_ok w w' : ring_step w w' -> world_ok w -> world_ok w'.
Proof.
  unfold world_ok. destruct 1; cbn [rg prod cons_ pushed popped]; intros (Hok & Hp & Hc & E);
    pose proof Hok as (Hl & Hh & Ht); try done.
  - simpl in Hp. subst t. pose proof (full_iff r Hok). pose proof (count_lt r). split_and!; try done. simpl.
    split; [done|]. assert (count r <> 127%nat) by tauto. lia.
  - destruct Hp as [-> Hn]. split_and!; [by apply ring_ok_put| |by apply cons_ok_put|by rewrite contents_put].
    simpl. split_and!; [done|done|by apply slot_put_eq].
  - destruct Hp as (-> & Hn & Hs).
    split; [by apply ring_ok_set_tail|split; [done|split; [by apply cons_ok_publish|]]].
    by rewrite (contents_publish r b), E, app_assoc.
  - simpl in Hc. subst h. pose proof (empty_iff r Hok). split_and!; try done. simpl. split; [done|tauto].
  - destruct Hc as [-> Hn]. by split_and!.
  - destruct Hc as (-> & Hn & Hs). 
    split; [by apply ring_ok_set_head|split; [by apply prod_ok_consume|split; [done|]]].
    rewrite E, (contents_consume r), Hs by done. by rewrite <- app_assoc.
Qed.


