(* ===== verification/Uart.v ===== *)
(** The serial port (src/src/uart.rs).  The transmitter is the list of bytes written to the
    data register; the receiver is a device whose registers show, at every poll, some
    status and some data. *)
From S2P Require Import Prelude.

Inductive UartError := Timeout | LineError.

Definition POLL_ATTEMPTS : Z := 1000000.

(** *** Output *)

(** `fmt::Write::write_str`: carriage return before every line feed. *)
Fixpoint write_str (s : list Z) (out : list Z) : list Z :=
  match s with
  | [] => out
  | b :: s' => write_str s' (if b =? 10 then out ++ [13; b] else out ++ [b])
  end.

Lemma write_str_app a b out : write_str (a ++ b) out = write_str b (write_str a out).
Proof. revert out. induction a as [|x a IH]; intros out; [done|]. apply IH. Qed.

(** `fmt::Write::write_char` on `b as char`: the UTF-8 encoding of U+0000..U+00FF. *)
Definition encode_utf8_latin1 (b : Z) : list Z :=
  if b <? 128 then [b] else [Z.lor 0xC0 (shr b 6); Z.lor 0x80 (Z.land b 0x3F)].
Definition write_char (b : Z) (out : list Z) : list Z := write_str (encode_utf8_latin1 b) out.

(** *** Input *)

(** What the [t]-th poll of the receiver sees: the status register and the data register. *)
Record device := { status_at : nat -> Z; data_at : nat -> Z }.

(** The 16550 (x86_64): LSR bits. *)
Definition LSR_DATA_READY : Z := Z.shiftl 1 0.
Definition LSR_ANY_ERROR : Z := Z.lor (Z.lor (Z.lor (Z.shiftl 1 1) (Z.shiftl 1 2)) (Z.shiftl 1 3)) (Z.shiftl 1 4).
Definition ready_x86 (status : Z) : bool := negb (Z.land status LSR_DATA_READY =? 0).
Definition error_x86 (status : Z) : bool := negb (Z.land status LSR_ANY_ERROR =? 0).

(** The PL011 (AArch64): the flag register and, in bits 32..35 of the status the device
    shows here, the receive status register read right after the data. *)
Definition FR_RXFE : Z := Z.shiftl 1 4.
Definition RSRECR_ANY_ERROR : Z := 15.
Definition ready_aarch64 (status : Z) : bool := Z.land status FR_RXFE =? 0.
Definition error_aarch64 (status : Z) : bool := negb (Z.land (shr status 32) RSRECR_ANY_ERROR =? 0).

Section receive.
Context (ready error : Z -> bool) (d : device).

(** `try_read_byte`: at most [n] polls, starting with poll number [t]; also the number
    of the next poll. *)
Fixpoint try_read_byte (n : nat) (t : nat) : Result Z UartError * nat :=
  match n with
  | O => (Err Timeout, t)
  | S n' =>
      let status := status_at d t in
      if negb (ready status) then try_read_byte n' (S t)
      else if error status then (Err LineError, S t)
      else (Ok (u8 (data_at d t)), S t)
  end.

(** `read_byte`: retry until a good byte arrives; [fuel] bounds the number of attempts. *)
Fixpoint read_byte (fuel : nat) (attempts : nat) (t : nat) : option Z :=
  match fuel with
  | O => None
  | S f => match try_read_byte attempts t with
           | (Ok byte, _) => Some byte
           | (Err _, t') => read_byte f attempts t'
           end
  end.

Definition good (t : nat) : bool := ready (status_at d t) && negb (error (status_at d t)).

Lemma try_read_progress n t k :
  (0 < n)%nat -> good (t + k) = true -> (forall j, (j < k)%nat -> good (t + j) = false) ->
  (try_read_byte n t = (Ok (u8 (data_at d (t + k))), S (t + k))) \/
  (exists e t', try_read_byte n t = (Err e, t') /\ (t < t' <= t + k)%nat).
Proof.
  revert t k; induction n as [|n IH]; intros t k Hn Hg Hb; [lia|]. simpl.
  destruct k as [|k].
  - rewrite Nat.add_0_r in *. left. unfold good in Hg. apply andb_true_iff in Hg as [-> He].
    apply negb_true_iff in He. by rewrite He.
  - pose proof (Hb 0%nat ltac:(lia)) as Hb0. rewrite Nat.add_0_r in Hb0. unfold good in Hb0.
    destruct (ready (status_at d t)); simpl in *.
    + apply negb_false_iff in Hb0. rewrite Hb0. right. eexists _, _. split; [done|]. lia.
    + destruct n as [|n'].
      * right. simpl. eexists _, _. split; [done|]. lia.
      * destruct (IH (S t) k) as [E|(e & t' & E & Ht)]; [lia| | | |].
        -- by replace (S t + k)%nat with (t + S k)%nat by lia.
        -- intros j Hj. replace (S t + j)%nat with (t + S j)%nat by lia. apply Hb. lia.
        -- left. rewrite E. by replace (S t + k)%nat with (t + S k)%nat by lia.
        -- right. exists e, t'. split; [done|]. lia.
Qed.
End receive.

(** `read_byte` returns the first byte that arrives without a line error, however long
    the line is idle and however many corrupted bytes come before it: bad bytes and poll
    timeouts only cost attempts. *)
Theorem read_byte_first_good ready error d attempts t k
  (Ha : (0 < attempts)%nat) (Hg : good ready error d (t + k) = true)
  (Hb : forall j, (j < k)%nat -> good ready error d (t + j) = false) :
  read_byte ready error d (S k) attempts t = Some (u8 (data_at d (t + k))).
Proof.
  assert (forall fuel k t, (k < fuel)%nat -> good ready error d (t + k) = true ->
    (forall j, (j < k)%nat -> good ready error d (t + j) = false) ->
    read_byte ready error d fuel attempts t = Some (u8 (data_at d (t + k)))) as H; [|by apply H; [lia|..]].
  clear Hg Hb k t. induction fuel as [|fuel IH]; intros k t Hk Hg Hb; [lia|]. simpl.
  destruct (try_read_progress ready error d attempts t k Ha Hg Hb) as [->|(e & t' & -> & Ht)]; [done|].
  replace (t + k)%nat with (t' + (k - (t' - t)))%nat by lia. apply IH; [lia| |].
  - by replace (t' + (k - (t' - t)))%nat with (t + k)%nat by lia.
  - intros j Hj. replace (t' + j)%nat with (t + (j + (t' - t)))%nat by lia. apply Hb. lia.
Qed.

Lemma read_byte_first_good_witness :
  let d := {| status_at := fun t => if (t =? 3)%nat then 0x61 else if (t =? 1)%nat then 0x65 else 0x60;
              data_at := fun t => 64 + Z.of_nat t |} in
  read_byte ready_x86 error_x86 d 4 2 0 = Some 67.
Proof.
  intros d. apply (read_byte_first_good ready_x86 error_x86 d 2 0 3); [lia|reflexivity|].
  intros [|[|[|j]]] Hj; try reflexivity; lia.
Defined.
