(* ===== verification/Fd.v ===== *)
(** File descriptors (src/src/fd.rs). *)
From S2P Require Import Prelude Ring Uart.

Inductive FdError := WouldBlock | BadRequest | IoError | NoSpace.

(** The implementations of the `FileDescriptor` trait; the kernel has one. *)
Inductive FileDescriptor := UartFd.

(** `UartFd::read` into a buffer of [len] bytes: the bytes stored, taken from the ring. *)
Fixpoint drain (len : nat) (r : ring) : list Z * ring :=
  match len with
  | O => ([], r)
  | S n => match dequeue_byte r with
           | (Some b, r) => let '(bs, r) := drain n r in (b :: bs, r)
           | (None, r) => ([], r)
           end
  end.

Definition UartFd_read (len : nat) (r : ring) : Result (list Z) FdError * ring :=
  match len with
  | O => (Ok [], r)
  | _ => match drain len r with
         | ([], r) => (Err WouldBlock, r)
         | (bs, r) => (Ok bs, r)
         end
  end.

(** `UartFd::write`: every byte through `write_char`; the count is always the buffer's length. *)
Definition UartFd_write (buf out : list Z) : Result Z FdError * list Z :=
  (Ok (Z.of_nat (length buf)), fold_left (fun out b => write_char b out) buf out).

Definition MAX_PROCESS_FDS : nat := 64.

Record FileDescriptorTable := { fds : list (option FileDescriptor) }.

Definition FileDescriptorTable_new : FileDescriptorTable :=
  {| fds := [Some UartFd; Some UartFd; Some UartFd] |}.

(** The search for an empty slot. *)
Fixpoint first_none (l : list (option FileDescriptor)) : option nat :=
  match l with
  | [] => None
  | None :: _ => Some 0%nat
  | Some _ :: l' => S <$> first_none l'
  end.

Definition allocate (fd : FileDescriptor) (t : FileDescriptorTable) : Result nat FdError * FileDescriptorTable :=
  match first_none (fds t) with
  | Some i => (Ok i, {| fds := <[i := Some fd]> (fds t) |})
  | None =>
      if (length (fds t) <? MAX_PROCESS_FDS)%nat
      then (Ok (length (fds t)), {| fds := fds t ++ [Some fd] |})
      else (Err NoSpace, t)
  end.

Definition get (fd : nat) (t : FileDescriptorTable) : Result FileDescriptor FdError :=
  match fds t !! fd with
  | Some (Some d) => Ok d
  | _ => Err BadRequest
  end.

Definition close (fd : nat) (t : FileDescriptorTable) : Result unit FdError * FileDescriptorTable :=
  if (fd <? length (fds t))%nat then
    match fds t !! fd with
    | Some (Some _) => (Ok tt, {| fds := <[fd := None]> (fds t) |})
    | _ => (Err BadRequest, {| fds := <[fd := None]> (fds t) |})
    end
  else (Err BadRequest, t).

(** ** Contract *)

Definition table_ok (t : FileDescriptorTable) : Prop := (length (fds t) <= MAX_PROCESS_FDS)%nat.

Lemma first_none_spec l :
  match first_none l with
  | Some i => l !! i = Some None /\ forall j, (j < i)%nat -> exists d, l !! j = Some (Some d)
  | None => forall j x, l !! j = Some x -> x <> None
  end.
Proof.
  induction l as [|[d|] l IH]; simpl; [done| |].
  - destruct (first_none l) as [i|]; simpl.
    + destruct IH as [H1 H2]. split; [done|]. intros [|j] Hj; [by exists d|]. apply H2. lia.
    + intros [|j] x; simpl; [by intros [= <-]|apply IH].
  - split; [done|]. intros j Hj. lia.
Qed.

(** `allocate` behaves like POSIX `open`: it returns the lowest descriptor number that is
    not in use, that number then refers to the new file, every other number keeps its
    meaning, and it fails, changing nothing, only when all 64 numbers are in use. *)
Theorem fd_allocate_lowest d t (Hok : table_ok t) :
  let '(r, t') := allocate d t in
  table_ok t' /\
  match r with
  | Ok i => (i < MAX_PROCESS_FDS)%nat /\ get i t = Err BadRequest /\ get i t' = Ok d /\
      (forall j, (j < i)%nat -> exists e, get j t = Ok e) /\
      (forall j, j <> i -> get j t' = get j t)
  | Err e => e = NoSpace /\ t' = t /\ forall j, (j < MAX_PROCESS_FDS)%nat -> exists e, get j t = Ok e
  end.
Proof.
  unfold allocate, table_ok, get in *. pose proof (first_none_spec (fds t)) as H.
  destruct (first_none (fds t)) as [i|].
  - destruct H as [H1 H2]. pose proof (lookup_lt_Some _ _ _ H1). simpl. split_and!.
    + by rewrite length_insert.
    + lia.
    + by rewrite H1.
    + by rewrite list_lookup_insert_eq.
    + intros j Hj. destruct (H2 j Hj) as [e E]. exists e. by rewrite E.
    + intros j Hj. by rewrite list_lookup_insert_ne.
  - assert (forall j, (j < length (fds t))%nat -> exists e, get j t = Ok e) as Hall.
    { intros j Hj. destruct (lookup_lt_is_Some_2 (fds t) j Hj) as [[e|] E]; [|by apply H in E].
      exists e. unfold get. by rewrite E. }
    unfold get in Hall. destruct (Nat.ltb_spec (length (fds t)) MAX_PROCESS_FDS); simpl.
    + split_and!.
      * rewrite length_app. simpl. lia.
      * done.
      * by rewrite lookup_ge_None_2.
      * by rewrite list_lookup_middle.
      * done.
      * intros j Hj. destruct (decide (j < length (fds t))%nat).
        -- by rewrite lookup_app_l.
        -- rewrite !lookup_ge_None_2; [done|lia|]. rewrite length_app. simpl. lia.
    + split_and!; try done. intros j Hj. apply Hall. lia.
Qed.

Lemma fd_allocate_lowest_witness :
  get 3 (snd (allocate UartFd FileDescriptorTable_new)) = Ok UartFd.
Proof.
  pose proof (fd_allocate_lowest UartFd FileDescriptorTable_new ltac:(vm_compute; lia)) as H.
  simpl in H. destruct H as (_ & _ & _ & H & _). exact H.
Defined.

(** `close` takes exactly the given number out of use: it succeeds iff the number refers to
    an open file, afterwards that number is refused, every other number keeps its meaning, and
    the next `allocate` can hand it out again. *)
Theorem fd_close_correct fd t :
  let '(r, t') := close fd t in
  (r = Ok tt <-> exists d, get fd t = Ok d) /\ (r <> Ok tt -> r = Err BadRequest) /\
  get fd t' = Err BadRequest /\ (forall j, j <> fd -> get j t' = get j t) /\
  length (fds t') = length (fds t).
Proof.
  unfold close, get. destruct (Nat.ltb_spec fd (length (fds t))) as [Hlt|Hge].
  - destruct (lookup_lt_is_Some_2 _ _ Hlt) as [[d|] E]; rewrite E; simpl;
      rewrite list_lookup_insert_eq, length_insert by done;
      (split_and!; try done; [naive_solver|..]); intros j Hj; by rewrite list_lookup_insert_ne.
  - rewrite lookup_ge_None_2 by done. split_and!; try done. naive_solver.
Qed.
