(* ===== verification/Elf.v ===== *)
(** The ELF64 loader (src/src/elf.rs) over the page tables of [Vmm]. *)
From S2P Require Import Prelude Pmm Vmm.

Definition ET_EXEC : Z := 2.
Definition ET_DYN : Z := 3.
(** `EM_MACHINE` on the two targets. *)
Definition EM_X86_64 : Z := 62.
Definition EM_AARCH64 : Z := 183.
Definition PT_LOAD : Z := 1.

(** `uN::from_le_bytes(buf[a..b].try_into()..)` of a slice known to be long enough. *)
Definition field (buf : list Z) (a b : Z) : Z := le_bytes (sub_slice buf a b).

Record ProgramHeader := {
  p_type : Z; p_flags : Z; p_offset : Z; p_vaddr : Z; p_filesz : Z; p_memsz : Z
}.

Definition parse_ph (ph : list Z) : ProgramHeader :=
  {| p_type := field ph 0 4; p_flags := field ph 4 8; p_offset := field ph 8 16;
     p_vaddr := field ph 16 24; p_filesz := field ph 32 40; p_memsz := field ph 40 48 |}.

Section elf.
Context `{A : PageArch} {P : Type} `{FA : FrameAllocator P} (EM_MACHINE : Z).
Implicit Types m : machine P.

(** The flags `map_and_copy_segment` maps with; PF_X = 1, PF_W = 2. *)
Definition segment_flags (flags : Z) : MapFlags :=
  {| writable := negb (Z.land flags 2 =? 0); user_accessible := true;
     execute_disable := Z.land flags 1 =? 0; device := false |}.

(** The page loop of `map_and_copy_segment`: [current] is `current_vaddr`, [data_offset] the
    bytes copied so far. *)
Fixpoint copy_pages (fuel : nat) (root vaddr end_vaddr : Z) (data : list Z) (flags : MapFlags)
    (current data_offset : Z) m : Result unit string * machine P :=
  match fuel with
  | O => (Ok tt, m)
  | S n =>
      if negb (current <? end_vaddr) then (Ok tt, m)
      else match fa_alloc (pmm m) with
      | (None, p') => (Err "Out of memory: failed to allocate frame for ELF segment"%string, with_pmm p' m)
      | (Some phys_frame, p') =>
          let m := with_pmm p' m in
          let m := with_mem (write_bytes (mem m) (p2v (hhdm m) phys_frame) 0 4096) m in
          match map_page root current phys_frame flags m with
          | (Err _, m) => (Err "Failed to map page for ELF segment"%string, m)
          | (Ok _, m) =>
              let page_offset := if current <? vaddr then sub64 vaddr current else 0 in
              let bytes_left_in_data := saturating_sub (Z.of_nat (length data)) data_offset in
              let bytes_to_copy := Z.min bytes_left_in_data (4096 - page_offset) in
              if 0 <? bytes_to_copy then
                let dest_ptr := p2v (hhdm m) (add64 phys_frame page_offset) in
                let chunk := sub_slice data data_offset (data_offset + bytes_to_copy) in
                let m := with_mem (copy_to (mem m) dest_ptr chunk) m in
                copy_pages n root vaddr end_vaddr data flags (add64 current 4096) (data_offset + bytes_to_copy) m
              else copy_pages n root vaddr end_vaddr data flags (add64 current 4096) data_offset m
          end
      end
  end.

Definition segment_start (vaddr : Z) : Z := Z.land vaddr (not64 (4096 - 1)).
Definition segment_end (vaddr memsz : Z) : Z :=
  Z.land (sub64 (add64 (add64 vaddr memsz) 4096) 1) (not64 (4096 - 1)).

Definition map_and_copy_segment (page_table_root vaddr : Z) (data : list Z) (memsz flags : Z) m
    : Result unit string * machine P :=
  let start_vaddr := segment_start vaddr in
  let end_vaddr := segment_end vaddr memsz in
  copy_pages (Z.to_nat ((end_vaddr - start_vaddr) / 4096) + 1) page_table_root vaddr end_vaddr data
    (segment_flags flags) start_vaddr 0 m.

(** One iteration of the program-header loop. *)
Definition load_segment (elf_data : list Z) (root : Z) (ph_start : Z) m
    : outcome (Result unit string) * machine P :=
  let len := Z.of_nat (length elf_data) in
  if len <? add64 ph_start 56 then (Returns (Err "Program header entry out of bounds"%string), m)
  else match slice elf_data ph_start (add64 ph_start 56) with
  | Panics => (Panics, m)
  | Returns phb =>
      let ph := parse_ph phb in
      if negb (p_type ph =? PT_LOAD) then (Returns (Ok tt), m)
      else if p_memsz ph <? p_filesz ph then
        (Returns (Err "Invalid segment size: file size exceeds memory size"%string), m)
      else if len <? add64 (p_offset ph) (p_filesz ph) then
        (Returns (Err "Segment file offset out of bounds"%string), m)
      else match checked_add64 (p_vaddr ph) (p_memsz ph) with
      | None => (Returns (Err "Segment size overflows the address space"%string), m)
      | Some end_vaddr =>
          if (p_vaddr ph <? USER_SPACE_BASE) || (end_vaddr <? USER_SPACE_BASE) then
            (Returns (Err "Segment targets the shared kernel region below USER_SPACE_BASE -- refusing to load"%string), m)
          else match slice elf_data (p_offset ph) (add64 (p_offset ph) (p_filesz ph)) with
          | Panics => (Panics, m)
          | Returns segment_data =>
              let '(r, m) := map_and_copy_segment root (p_vaddr ph) segment_data (p_memsz ph) (p_flags ph) m in
              (Returns r, m)
          end
      end
  end.

Fixpoint load_segments (n : nat) (i : Z) (elf_data : list Z) (root ph_off ph_step : Z) m
    : outcome (Result unit string) * machine P :=
  match n with
  | O => (Returns (Ok tt), m)
  | S n' =>
      match load_segment elf_data root (add64 ph_off (mul64 i ph_step)) m with
      | (Returns (Ok _), m) => load_segments n' (i + 1) elf_data root ph_off ph_step m
      | r => r
      end
  end.

(** The header checks, in the order of the source; on success the entry point and the
    program-header table's offset, step and count. *)
Definition check_header (elf_data : list Z) : Result (Z * Z * Z * Z) string :=
  let len := Z.of_nat (length elf_data) in
  let byte i := field elf_data i (i + 1) in
  if len <? 64 then Err "ELF binary is too small to contain a valid header"%string
  else if negb (byte 0 =? 0x7F) || negb (byte 1 =? 69) || negb (byte 2 =? 76) || negb (byte 3 =? 70)
  then Err "Invalid ELF magic header signature"%string
  else if negb (byte 4 =? 2) then Err "Unsupported ELF class: expected 64-bit (ELFCLASS64)"%string
  else if negb (byte 5 =? 1) then Err "Unsupported ELF byte order: expected little-endian"%string
  else
    let e_type := field elf_data 16 18 in
    if negb (e_type =? ET_EXEC) && negb (e_type =? ET_DYN)
    then Err "Unsupported ELF file type: must be Executable or Shared Object (PIE)"%string
    else if negb (field elf_data 18 20 =? EM_MACHINE) then Err "ELF architecture mismatch for target CPU"%string
    else
      let entry_point := field elf_data 24 32 in
      let ph_off := field elf_data 32 40 in
      let ph_step := Z.max (field elf_data 54 56) 56 in
      let ph_num := field elf_data 56 58 in
      if (ph_off =? 0) || (ph_num =? 0) then Err "ELF file contains no program headers"%string
      else if len <? add64 ph_off (mul64 ph_num ph_step)
      then Err "Truncated ELF file: program headers exceed binary size"%string
      else Ok (entry_point, ph_off, ph_step, ph_num).

Definition load_elf_to_process (elf_data : list Z) (page_table_root : Z) m
    : outcome (Result Z string) * machine P :=
  match check_header elf_data with
  | Err e => (Returns (Err e), m)
  | Ok (entry_point, ph_off, ph_step, ph_num) =>
      match load_segments (Z.to_nat ph_num) 0 elf_data page_table_root ph_off ph_step m with
      | (Panics, m) => (Panics, m)
      | (Returns (Err e), m) => (Returns (Err e), m)
      | (Returns (Ok _), m) =>
          if entry_point <? USER_SPACE_BASE
          then (Returns (Err "Entry point is below USER_SPACE_BASE -- refusing to run"%string), m)
          else (Returns (Ok entry_point), m)
      end
  end.
End elf.
