(* ===== verification/ElfCorrect.v ===== *)
(** What the ELF loader of [Elf] puts where, and where its checks are not enough. *)
From S2P Require Import Prelude Pmm Vmm VmmTheory VmmCorrect Elf.

Section load.
Context `{A : PageArch} `{!PageArchLaws A} {P : Type} `{FA : FrameAllocator P}.
Implicit Types (m : machine P) (U : Z -> bool).

(** The byte a loaded segment shows at a virtual address. *)
Definition image (vaddr : Z) (data : list Z) (v : Z) : Z :=
  if vaddr <=? v then nth (Z.to_nat (v - vaddr)) data 0 else 0.

(** What loading the pages of [lo, hi) may change: translations of that range only, and no
    foreign frame. *)
Record extends U (root lo hi : Z) m m' : Prop := {
  ext_inv : pt_inv U root m';
  ext_hhdm : hhdm m' = hhdm m;
  ext_other : forall v, (forall u, lo <= u < hi -> vpn v <> vpn u) -> translate_addr root v m' = translate_addr root v m;
  ext_foreign : forall a, foreign root m a -> foreign root m' a /\ same_page m m' a
}.

Lemma extends_refl U root lo hi m : pt_inv U root m -> extends U root lo hi m m.
Proof. by split. Qed.

Lemma extends_trans U root lo mid hi m1 m2 m3 :
  lo <= mid <= hi -> extends U root lo mid m1 m2 -> extends U root mid hi m2 m3 -> extends U root lo hi m1 m3.
Proof.
  intros Hr [I1 H1 T1 F1] [I2 H2 T2 F2]. split; [done|congruence| |].
  - intros v Hv. rewrite T2, T1; [done| |]; intros u Hu; apply Hv; lia.
  - intros a [Ha S1]%F1. apply F2 in Ha as [? S2]. split; [done|by eapply same_page_trans].
Qed.

(** One page of a range is loaded: it translates to a private frame with the right bytes. *)
Definition loaded (root vaddr : Z) (data : list Z) m (v : Z) : Prop :=
  exists f, foreign root m f /\ translate_addr root v m = Some (f + v mod 4096) /\
            mem m (p2v (hhdm m) f + v mod 4096) = image vaddr data v.

Lemma loaded_extends U root vaddr data lo hi m m' v :
  extends U root lo hi m m' -> (forall u, lo <= u < hi -> vpn v <> vpn u) ->
  loaded root vaddr data m v -> loaded root vaddr data m' v.
Proof.
  intros E Hv (f & Hf & Ht & Hm). destruct (ext_foreign _ _ _ _ _ _ E f Hf) as [Hf' S].
  exists f. split; [done|split].
  - by rewrite (ext_other _ _ _ _ _ _ E).
  - rewrite (ext_hhdm _ _ _ _ _ _ E), S by dlia. done.
Qed.

Lemma vpn_apart v u : 0 <= v -> u < 2 ^ 48 -> v / 4096 < u / 4096 -> vpn v <> vpn u.
Proof.
  intros H0 Hu Hlt. unfold vpn. rewrite !Z.mod_small; [lia| |].
  - split; [dlia|]. apply Z.div_lt_upper_bound; [lia|]. change (4096 * 2 ^ 36) with (2 ^ 48). done.
  - split; [dlia|]. apply Z.lt_trans with (u / 4096); [done|]. apply Z.div_lt_upper_bound; [lia|].
    change (4096 * 2 ^ 36) with (2 ^ 48). done.
Qed.

(** The chunk written into one page. *)
Lemma chunk_image vaddr data cur x :
  cur mod 4096 = 0 -> 0 <= cur -> 0 <= x < 4096 -> vaddr < cur + 4096 -> 0 <= vaddr ->
  let off := Z.min (Z.of_nat (length data)) (Z.max 0 (cur - vaddr)) in
  let po := if cur <? vaddr then vaddr - cur else 0 in
  let n := Z.min (Z.of_nat (length data) - off) (4096 - po) in
  image vaddr data (cur + x) =
    (if (po <=? x) && (x <? po + n) then default 0 (sub_slice data off (off + n) !! Z.to_nat (x - po)) else 0).
Proof.
  intros Hc H0 Hx Hv Hv0. cbn zeta.
  set (L := Z.of_nat (length data)). set (off := Z.min L (Z.max 0 (cur - vaddr))).
  set (po := if cur <? vaddr then vaddr - cur else 0). set (n := Z.min (L - off) (4096 - po)).
  assert (0 <= po < 4096) as Hpo by (unfold po; zcases; lia). assert (0 <= off <= L) as Hoff by (unfold off; lia).
  assert (0 <= n) as Hn by (unfold n; lia).
  assert (vaddr <= cur + x <-> po <= x) as Hpx by (unfold po; zcases; lia).
  unfold image. destruct (Z.leb_spec vaddr (cur + x)) as [Hge|Hlt].
  2:{ destruct (Z.leb_spec po x); [lia|done]. }
  destruct (Z.leb_spec po x) as [Hpx'|]; [|lia]. cbn [andb].
  destruct (Z.ltb_spec x (po + n)) as [Hin|Hout].
  - unfold sub_slice. rewrite lookup_take_lt by lia. rewrite lookup_drop. rewrite nth_lookup. f_equal. f_equal.
    unfold off, po in *. destruct (Z.ltb_spec cur vaddr); lia.
  - apply nth_overflow. unfold n, off, po, L in *. destruct (Z.ltb_spec cur vaddr); lia.
Qed.

Lemma sub_slice_nil {T} (l : list T) a b : b <= a -> sub_slice l a b = [].
Proof. intros. unfold sub_slice. by replace (Z.to_nat (b - a)) with 0%nat by lia. Qed.

(** One page: frame [f] has been mapped zeroed at [cur] in [m], and the chunk is copied. *)
Lemma fill_page U root vaddr data cur f m :
  pt_inv U root m -> foreign root m f -> f < 2 ^ 48 ->
  (forall off, 0 <= off < 4096 -> translate_addr root (cur + off) m = Some (f + off)) ->
  (forall x, 0 <= x < 4096 -> mem m (p2v (hhdm m) f + x) = 0) ->
  bytes_ok data -> cur mod 4096 = 0 -> 0 <= cur -> 0 <= vaddr < cur + 4096 ->
  let off := Z.min (Z.of_nat (length data)) (Z.max 0 (cur - vaddr)) in
  let po := if cur <? vaddr then vaddr - cur else 0 in
  let n := Z.min (Z.of_nat (length data) - off) (4096 - po) in
  let m' := if 0 <? n then with_mem (copy_to (mem m) (p2v (hhdm m) f + po) (sub_slice data off (off + n))) m else m in
  hhdm m' = hhdm m /\ pt_inv U root m' /\ (forall v, translate_addr root v m' = translate_addr root v m) /\
  (forall a, foreign root m a -> foreign root m' a) /\
  (forall a, page a -> a <> f -> same_page m m' a) /\
  (forall v, cur <= v < cur + 4096 -> loaded root vaddr data m' v).
Proof.
  intros I Hf Hf48 Htr Hz Hbs Hc H0 Hv. cbn zeta.
  set (off := Z.min (Z.of_nat (length data)) (Z.max 0 (cur - vaddr))).
  set (po := if cur <? vaddr then vaddr - cur else 0). set (n := Z.min (Z.of_nat (length data) - off) (4096 - po)).
  assert (0 <= po < 4096) as Hpo by (unfold po; zcases; lia).
  assert (0 <= off <= Z.of_nat (length data)) as Hoff by (unfold off; lia).
  assert (Z.of_nat (length (sub_slice data off (off + n))) = n) as Hlen.
  { rewrite length_sub_slice; unfold n; lia. }
  destruct (fill_foreign U root m f po (sub_slice data off (off + n)) I Hf) as (I' & Ht & Hfor & Hs);
    [by apply bytes_ok_sub_slice|lia|rewrite Hlen; unfold n; lia|].
  assert (forall v, cur <= v < cur + 4096 -> image vaddr data v =
    if (po <=? v - cur) && (v - cur <? po + n) then default 0 (sub_slice data off (off + n) !! Z.to_nat (v - cur - po)) else 0) as Himg.
  { intros v Hvr. replace v with (cur + (v - cur)) at 1 by lia. apply chunk_image; lia. }
  destruct (Z.ltb_spec 0 n) as [Hn|Hn].
  2:{ split; [done|split; [done|split; [done|split; [done|split; [done|]]]]]. intros v Hvr. exists f.
      assert (v mod 4096 = v - cur) as -> by dlia. split; [done|split].
      - replace v with (cur + (v - cur)) at 1 by lia. apply Htr. lia.
      - rewrite Himg, Hz by lia. zcases; done. }
  split; [done|split; [done|split; [done|split; [done|split; [done|]]]]].
  intros v Hvr. exists f. assert (v mod 4096 = v - cur) as Em by dlia. rewrite Em.
  split; [by apply Hfor|split].
  - rewrite Ht. replace v with (cur + (v - cur)) at 1 by lia. apply Htr. lia.
  - rewrite Himg by done. cbn [mem with_mem hhdm]. unfold copy_to. rewrite Hlen.
    replace (p2v (hhdm m) f + (v - cur) - (p2v (hhdm m) f + po)) with (v - cur - po) by lia.
    specialize (Hz (v - cur) ltac:(lia)). zcases; done.
Qed.

(** One turn of the loop, on success. *)
Lemma load_one U root vaddr data flags cur f pool m m2 :
  pt_inv U root m -> bytes_ok data -> 0 <= vaddr < cur + 4096 -> 0 <= cur -> cur mod 4096 = 0 ->
  U (table_idx cur 39) = true -> fa_alloc (pmm m) = (Some f, pool) ->
  map_page root cur f flags (zero_page (with_pmm pool m) f) = (Ok tt, m2) ->
  let off := Z.min (Z.of_nat (length data)) (Z.max 0 (cur - vaddr)) in
  let po := if cur <? vaddr then vaddr - cur else 0 in
  let n := Z.min (Z.of_nat (length data) - off) (4096 - po) in
  let m3 := if 0 <? n then with_mem (copy_to (mem m2) (p2v (hhdm m2) (add64 f po)) (sub_slice data off (off + n))) m2
            else m2 in
  extends U root cur (cur + 4096) m m3 /\
  (forall v, cur <= v < cur + 4096 -> loaded root vaddr data m3 v).
Proof.
  intros I Hbs Hv H0 Hc HUc Hal Emap. cbn zeta.
  set (off := Z.min (Z.of_nat (length data)) (Z.max 0 (cur - vaddr))).
  set (po := if cur <? vaddr then vaddr - cur else 0). set (n := Z.min (Z.of_nat (length data) - off) (4096 - po)).
  assert (0 <= po < 4096) as Hpo by (unfold po; zcases; lia).
  destruct (fa_alloc_some _ _ _ (inv_pmm _ _ _ I) Hal) as (_ & Hfm & Hf48 & Hfree & _).
  destruct (alloc_keeps U root m f pool I Hal) as [K Hfor]. set (m1 := zero_page (with_pmm pool m) f) in *.
  destruct (map_page_mapped U root cur f flags m1 m2 (keeps_inv _ _ _ _ K) HUc ltac:(lia) Emap) as [M1 M2 M3 _ M5 M6].
  destruct (M6 f Hfor) as [Hfor2 S2].
  assert (p2v (hhdm m2) (add64 f po) = p2v (hhdm m2) f + po) as ->.
  { rewrite add64_page by lia. apply p2v_offset; [apply M1|by apply frame_page|done]. }
  assert (forall x, 0 <= x < 4096 -> mem m2 (p2v (hhdm m2) f + x) = 0) as Hz.
  { intros x Hx. rewrite M2, S2 by done. simpl. unfold write_bytes. zcases; done. }
  destruct (fill_page U root vaddr data cur f m2 M1 Hfor2 ltac:(lia) M3 Hz Hbs Hc H0 Hv)
    as (Hh3 & I3 & T3 & F3 & S3 & L3). fold off po n in Hh3, I3, T3, F3, S3, L3.
  split; [|done]. split; [done|rewrite Hh3, M2; apply K| |].
  - intros v Hv'. rewrite T3, M5; [by apply K|]. apply Hv'. lia.
  - intros a Ha. destruct (keeps_foreign _ _ _ _ K a Ha) as [Ha1 Sa1]. destruct (M6 a Ha1) as [Ha2 Sa2].
    split; [by apply F3|]. eapply same_page_trans; [rewrite M2; apply K| |apply S3].
    + eapply same_page_trans; [apply K|exact Sa1|exact Sa2].
    + apply Ha.
    + intros ->. destruct Ha as (_ & Hu & _). congruence.
Qed.

Lemma copy_pages_spec fuel U root vaddr stop data flags cur m :
  pt_inv U root m -> bytes_ok data -> 0 <= vaddr < cur + 4096 -> 0 <= cur -> cur mod 4096 = 0 ->
  stop mod 4096 = 0 -> stop <= 2 ^ 48 -> (forall u, cur <= u < stop -> U (table_idx u 39) = true) ->
  stop - cur <= 4096 * (Z.of_nat fuel - 1) ->
  let off := Z.min (Z.of_nat (length data)) (Z.max 0 (cur - vaddr)) in
  let '(r, m') := copy_pages fuel root vaddr stop data flags cur off m in
  extends U root cur (Z.max cur stop) m m' /\
  (r = Ok tt -> forall v, cur <= v < stop -> loaded root vaddr data m' v).
Proof.
  revert cur m; induction fuel as [|fuel IH]; intros cur m I Hbs Hv H0 Hc Hs Hmax HU Hfuel; cbn zeta.
  { simpl. split; [by apply extends_refl|]. intros _ v Hvr. lia. }
  cbn [copy_pages]. fold (copy_pages (A := A) (P := P)).
  destruct (Z.ltb_spec cur stop) as [Hlt|Hge]; cbn [negb].
  2:{ split; [by apply extends_refl|]. intros _ v Hvr. lia. }
  replace (Z.max cur stop) with stop by lia.
  assert (cur + 4096 < 2 ^ 64) as Hov by (change (2 ^ 64) with (2 ^ 48 * 2 ^ 16); lia).
  assert (U (table_idx cur 39) = true) as HUc by (apply HU; lia).
  destruct (fa_alloc (pmm m)) as [[f|] pool] eqn:Hal.
  2:{ apply fa_alloc_none in Hal as ->; [|apply I]. replace (with_pmm (pmm m) m) with m by (by destruct m).
      split; [by apply extends_refl|done]. }
  fold (zero_page (with_pmm pool m) f).
  destruct (map_page root cur f flags (zero_page (with_pmm pool m) f)) as [[[]|e] m2] eqn:Emap.
  2:{ destruct (alloc_keeps U root m f pool I Hal) as [K _].
      destruct (map_page_err_inv _ _ _ _ _ _ _ _ (keeps_inv _ _ _ _ K) HUc Emap) as [K2 _]. split; [|done].
      pose proof (keeps_trans _ _ _ _ _ K K2) as [? ? ? ? ? T F]. by split. }
  destruct (load_one U root vaddr data flags cur f pool m m2) as [E3 L3]; try done.
  set (off := Z.min (Z.of_nat (length data)) (Z.max 0 (cur - vaddr))) in *.
  set (po := if cur <? vaddr then vaddr - cur else 0) in *.
  replace (if cur <? vaddr then sub64 vaddr cur else 0) with po.
  2:{ unfold po. destruct (Z.ltb_spec cur vaddr); [|done]. symmetry. apply u64_small. unfold fits. lia. }
  replace (saturating_sub (Z.of_nat (length data)) off) with (Z.of_nat (length data) - off) by (unfold saturating_sub, off; lia).
  set (n := Z.min (Z.of_nat (length data) - off) (4096 - po)) in *.
  set (m3 := if 0 <? n then _ else m2) in E3, L3.
  assert (cur + 4096 <= stop) as Hstop by dlia.
  specialize (IH (cur + 4096) m3 (ext_inv _ _ _ _ _ _ E3) Hbs ltac:(lia) ltac:(lia) ltac:(dlia) Hs Hmax
    ltac:(intros; apply HU; lia) ltac:(lia)). cbn zeta in IH.
  replace (Z.max (cur + 4096) stop) with stop in IH by lia.
  replace (Z.min (Z.of_nat (length data)) (Z.max 0 (cur + 4096 - vaddr))) with (if 0 <? n then off + n else off) in IH.
  2:{ unfold n, off, po. clear -Hv H0. destruct (Z.ltb_spec cur vaddr); zcases; lia. }
  replace (add64 cur 4096) with (cur + 4096) by (symmetry; apply u64_small; unfold fits; lia).
  assert (forall rm : Result unit string * machine P,
    (let '(r, m') := rm in extends U root (cur + 4096) stop m3 m' /\
       (r = Ok tt -> forall v, cur + 4096 <= v < stop -> loaded root vaddr data m' v)) ->
    let '(r, m') := rm in extends U root cur stop m m' /\
       (r = Ok tt -> forall v, cur <= v < stop -> loaded root vaddr data m' v)) as Hfin.
  { intros [r m'] [E4 L4]. split; [eapply (extends_trans _ _ _ (cur + 4096)); [lia|done|done]|].
    intros Hr v Hvr. destruct (decide (v < cur + 4096)); [|apply L4; [done|lia]].
    eapply loaded_extends; [exact E4| |apply L3; lia]. intros u Hu. apply vpn_apart; [lia|lia|dlia]. }
  revert IH Hfin. unfold m3. destruct (0 <? n); intros IH Hfin; exact (Hfin _ IH).
Qed.

Lemma segment_bounds vaddr memsz :
  0 <= vaddr -> 0 <= memsz -> vaddr + memsz + 4096 <= 2 ^ 64 ->
  segment_start vaddr mod 4096 = 0 /\ segment_start vaddr <= vaddr < segment_start vaddr + 4096 /\
  segment_end vaddr memsz mod 4096 = 0 /\ vaddr + memsz <= segment_end vaddr memsz < vaddr + memsz + 4096 /\
  0 <= segment_start vaddr.
Proof.
  intros H0 Hm Hov.
  assert (segment_start vaddr = vaddr - vaddr mod 4096) as -> by (apply land_not_fff; unfold fits; lia).
  assert (segment_end vaddr memsz = mask_up (vaddr + memsz) (2 ^ 12)) as ->.
  { unfold segment_end, mask_up. f_equal. f_equal. f_equal. apply u64_small. unfold fits. lia. }
  destruct (mask_up_bounds (vaddr + memsz) 12) as [? ?]; [lia|lia|lia|]. change (2 ^ 12) with 4096 in *.
  split_and!; try lia; try dlia.
Qed.

Lemma segment_spec U root vaddr data memsz flags m :
  pt_inv U root m -> bytes_ok data -> 0 <= memsz -> 0 <= vaddr -> vaddr + memsz + 4096 <= 2 ^ 48 ->
  (forall u, segment_start vaddr <= u < segment_end vaddr memsz -> U (table_idx u 39) = true) ->
  let '(r, m') := map_and_copy_segment root vaddr data memsz flags m in
  extends U root (segment_start vaddr) (segment_end vaddr memsz) m m' /\
  (r = Ok tt -> forall v, segment_start vaddr <= v < segment_end vaddr memsz -> loaded root vaddr data m' v).
Proof.
  intros I Hbs Hm0 Hv0 Hend HU.
  assert (2 ^ 48 <= 2 ^ 64) as H64 by (by apply Z.pow_le_mono_r).
  destruct (segment_bounds vaddr memsz) as (B1 & B2 & B3 & B4 & B5); [lia|lia|lia|].
  unfold map_and_copy_segment. set (start := segment_start vaddr) in *. set (stop := segment_end vaddr memsz) in *.
  pose proof (copy_pages_spec (Z.to_nat ((stop - start) / 4096) + 1) U root vaddr stop data (segment_flags flags) start m
    I Hbs ltac:(lia) ltac:(lia) B1 B3 ltac:(dlia) HU ltac:(dlia)) as H. cbn zeta in H.
  replace (Z.min (Z.of_nat (length data)) (Z.max 0 (start - vaddr))) with 0 in H by lia.
  assert (start <= stop) as Hle by dlia. by replace (Z.max start stop) with stop in H by lia.
Qed.


(** ** Whole files *)

(** Where the loop of `load_elf_to_process` looks for its [i]-th header, and that header. *)
Definition ph_pos (elf : list Z) (i : Z) : Z := add64 (field elf 32 40) (mul64 i (Z.max (field elf 54 56) 56)).
Definition ph_count (elf : list Z) : Z := field elf 56 58.
Definition ph_at (elf : list Z) (k : Z) : ProgramHeader := parse_ph (sub_slice elf k (k + 56)).

Lemma slice_returns {T} (l : list T) a b r : slice l a b = Returns r -> r = sub_slice l a b /\ 0 <= a <= b.
Proof. unfold slice. destruct (_ && _) eqn:E; [|done]. intros [= <-]. split; [done|]. lia. Qed.

(** The user half of the address space: top-level indices 1..255. *)
Definition user_half (i : Z) : bool := (1 <=? i) && (i <? 256).

(** Every loadable segment ends below 2^47 (the canonical lower half), page slack included. *)
Definition canonical_ph (ph : ProgramHeader) : Prop :=
  p_type ph = PT_LOAD -> p_vaddr ph + p_memsz ph + 4096 <= 2 ^ 47.
Definition canonical_elf (elf : list Z) : Prop :=
  forall i, 0 <= i < ph_count elf -> canonical_ph (ph_at elf (ph_pos elf i)).

Lemma field_nonneg l a b : bytes_ok l -> 0 <= field l a b.
Proof. intros H. apply (le_bytes_fits (sub_slice l a b)). by apply bytes_ok_sub_slice. Qed.

Lemma user_index u : USER_SPACE_BASE <= u < 2 ^ 47 -> user_half (table_idx u 39) = true.
Proof.
  intros Hu. rewrite table_idx_div by lia. unfold USER_SPACE_BASE in Hu. change (Z.shiftl 1 39) with (2 ^ 39) in Hu.
  change (2 ^ 47) with (256 * 2 ^ 39) in Hu. assert (1 <= u / 2 ^ 39 < 256) as Hd.
  { split; [apply Z.div_le_lower_bound; lia|apply Z.div_lt_upper_bound; lia]. }
  rewrite Z.mod_small by lia. unfold user_half. zcases; done.
Qed.

(** A page below [USER_SPACE_BASE] is not a page of a user segment. *)
Lemma low_vpn v u : 0 <= v < USER_SPACE_BASE -> USER_SPACE_BASE <= u < 2 ^ 47 -> vpn v <> vpn u.
Proof.
  unfold USER_SPACE_BASE. change (Z.shiftl 1 39) with (2 ^ 39). intros Hv Hu. apply vpn_apart; [lia| |].
  - change (2 ^ 48) with (2 * 2 ^ 47). lia.
  - change (2 ^ 39) with (4096 * 2 ^ 27) in *. assert (v / 4096 < 2 ^ 27) by (apply Z.div_lt_upper_bound; lia).
    assert (2 ^ 27 <= u / 4096) by (apply Z.div_le_lower_bound; lia). lia.
Qed.

(** What loading may do to an address space: nothing below [USER_SPACE_BASE]. *)
Record isolated (root : Z) m m' : Prop := {
  iso_inv : pt_inv user_half root m';
  iso_low : forall v, 0 <= v < USER_SPACE_BASE -> translate_addr root v m' = translate_addr root v m;
  iso_foreign : forall a, foreign root m a -> foreign root m' a /\ (hhdm m' = hhdm m /\ same_page m m' a);
  iso_hhdm : hhdm m' = hhdm m
}.

Lemma isolated_refl root m : pt_inv user_half root m -> isolated root m m.
Proof. by split. Qed.

Lemma isolated_trans root m1 m2 m3 : isolated root m1 m2 -> isolated root m2 m3 -> isolated root m1 m3.
Proof.
  intros [I1 L1 F1 H1] [I2 L2 F2 H2]. split; [done| | |congruence].
  - intros v Hv. by rewrite L2, L1.
  - intros a (Ha & _ & S1)%F1. apply F2 in Ha as (? & _ & S2).
    split; [done|split; [congruence|by eapply same_page_trans]].
Qed.

Lemma segment_isolated root vaddr data memsz flags m :
  pt_inv user_half root m -> bytes_ok data -> 0 <= memsz -> USER_SPACE_BASE <= vaddr ->
  vaddr + memsz + 4096 <= 2 ^ 47 ->
  isolated root m (snd (map_and_copy_segment root vaddr data memsz flags m)).
Proof.
  intros I Hbs Hm Hv Hend.
  assert (0 <= vaddr) as Hv0 by (etrans; [|exact Hv]; done).
  assert (2 ^ 47 <= 2 ^ 48 <= 2 ^ 64) as H64 by (split; by apply Z.pow_le_mono_r).
  destruct (segment_bounds vaddr memsz) as (B1 & B2 & B3 & B4 & B5); [lia|lia|lia|].
  assert (USER_SPACE_BASE <= segment_start vaddr) as Hs.
  { assert (USER_SPACE_BASE mod 4096 = 0) by done. dlia. }
  pose proof (segment_spec user_half root vaddr data memsz flags m I Hbs Hm Hv0 ltac:(lia)
    ltac:(intros; apply user_index; lia)) as H.
  destruct (map_and_copy_segment _ _ _ _ _ m) as [r m']. destruct H as [[EI EH EO EF] _]. split; [done| | |done].
  - intros v Hv'. apply EO. intros u Hu. apply low_vpn; lia.
  - intros a [? ?]%EF. done.
Qed.

Lemma load_segment_isolated root elf k m :
  pt_inv user_half root m -> bytes_ok elf -> canonical_ph (ph_at elf k) ->
  isolated root m (snd (load_segment elf root k m)).
Proof.
  intros I Hbs Hcan. pose proof (isolated_refl root m I) as R. unfold load_segment.
  destruct (_ <? add64 k 56); [done|].
  destruct (slice elf k (add64 k 56)) as [phb|] eqn:Esl; [|done].
  apply slice_returns in Esl as [-> Hk].
  assert (add64 k 56 = k + 56) as Ea.
  { unfold add64 in *. pose proof (u64_fits (k + 56)) as [_ Hf]. unfold u64, wrap in *.
    assert (2 ^ 64 > 56) by done. Z.to_euclidean_division_equations. nia. }
  rewrite Ea. fold (ph_at elf k). set (ph := ph_at elf k).
  destruct (Z.eqb_spec (p_type ph) PT_LOAD) as [Ept|]; cbn [negb]; [|done].
  destruct (_ <? _); [done|]. destruct (_ <? _); [done|].
  destruct (checked_add64 (p_vaddr ph) (p_memsz ph)) as [stop|]; [|done].
  destruct (Z.ltb_spec (p_vaddr ph) USER_SPACE_BASE) as [|Hge]; cbn [orb]; [done|].
  destruct (stop <? USER_SPACE_BASE); [done|].
  destruct (slice elf (p_offset ph) _) as [sd|] eqn:Esd; [|done].
  apply slice_returns in Esd as [-> _]. specialize (Hcan Ept). fold ph in Hcan.
  assert (0 <= p_memsz ph) as Hm by (by apply field_nonneg, bytes_ok_sub_slice).
  pose proof (segment_isolated root (p_vaddr ph) (sub_slice elf (p_offset ph) (add64 (p_offset ph) (p_filesz ph)))
    (p_memsz ph) (p_flags ph) m I (bytes_ok_sub_slice _ _ _ Hbs) Hm Hge Hcan) as H.
  by destruct (map_and_copy_segment _ _ _ _ _ m) as [r m'].
Qed.

Lemma load_segments_isolated n i root elf m :
  pt_inv user_half root m -> bytes_ok elf -> canonical_elf elf -> 0 <= i -> i + Z.of_nat n <= ph_count elf ->
  isolated root m (snd (load_segments n i elf root (field elf 32 40) (Z.max (field elf 54 56) 56) m)).
Proof.
  revert i m; induction n as [|n IH]; intros i m I Hbs Hcan Hi Hn; simpl; [by apply isolated_refl|].
  fold (ph_pos elf i).
  pose proof (load_segment_isolated root elf (ph_pos elf i) m I Hbs ltac:(apply Hcan; lia)) as H.
  destruct (load_segment _ _ _ m) as [[[[]|e]|] m1]; [|done|done].
  eapply isolated_trans; [exact H|]. apply IH; [apply H|done|done|lia|lia].
Qed.

(** What the header checks return. *)
Lemma check_header_inv EM elf entry off step num :
  check_header EM elf = Ok (entry, off, step, num) ->
  off = field elf 32 40 /\ step = Z.max (field elf 54 56) 56 /\ num = ph_count elf.
Proof.
  unfold check_header. intros Eh.
  repeat match type of Eh with (if ?c then Err _ else _) = Ok _ => destruct c; [done|] end. by simplify_eq.
Qed.

(** C3: whatever file it is given, the loader leaves the region below `USER_SPACE_BASE` (shared
    by the kernel and all processes) alone, whether it succeeds or fails: no address below it
    translates differently and no frame in use is written, provided the file's loadable
    segments stay in the canonical lower half of the address space.  A file it accepts
    starts at or above `USER_SPACE_BASE`. *)
Theorem elf_load_isolated EM root elf m
  (I : pt_inv user_half root m) (Hbs : bytes_ok elf) (Hcan : canonical_elf elf) :
  let '(r, m') := load_elf_to_process EM elf root m in
  pt_inv user_half root m' /\
  (forall v, 0 <= v < USER_SPACE_BASE -> translate_addr root v m' = translate_addr root v m) /\
  (forall a, foreign root m a -> same_page m m' a) /\
  (forall entry, r = Returns (Ok entry) -> USER_SPACE_BASE <= entry).
Proof.
  unfold load_elf_to_process. destruct (check_header EM elf) as [[[[entry off] step] num]|e] eqn:Eh.
  2:{ by split_and!. }
  apply check_header_inv in Eh as (-> & -> & ->).
  assert (0 <= ph_count elf) as Hn by (by apply field_nonneg).
  pose proof (load_segments_isolated (Z.to_nat (ph_count elf)) 0 root elf m I Hbs Hcan ltac:(lia) ltac:(lia)) as H.
  destruct (load_segments _ _ _ _ _ _ m) as [[[[]|e]|] m'] eqn:El; simpl in H; destruct H as [HI HL HF HH];
    (assert (forall a, foreign root m a -> same_page m m' a) by (intros a Ha; by apply HF)).
  - destruct (Z.ltb_spec entry USER_SPACE_BASE); split_and!; try done. by intros ? [= <-].
  - by split_and!.
  - by split_and!.
Qed.

(** ** Totality *)

(** No file offset of the header table or of a loadable segment wraps around. *)
Definition offsets_ok (elf : list Z) : Prop :=
  field elf 32 40 + 2 ^ 33 <= 2 ^ 64 /\
  forall i, 0 <= i < ph_count elf -> p_type (ph_at elf (ph_pos elf i)) = PT_LOAD ->
    p_offset (ph_at elf (ph_pos elf i)) + p_filesz (ph_at elf (ph_pos elf i)) < 2 ^ 64.

Lemma load_segment_total root elf k m :
  bytes_ok elf -> 0 <= k -> k + 56 < 2 ^ 64 ->
  (p_type (ph_at elf k) = PT_LOAD -> p_offset (ph_at elf k) + p_filesz (ph_at elf k) < 2 ^ 64) ->
  fst (load_segment elf root k m) <> Panics.
Proof.
  intros Hbs Hk Hov Hoff. unfold load_segment.
  assert (add64 k 56 = k + 56) as -> by (apply u64_small; unfold fits; lia).
  destruct (Z.ltb_spec (Z.of_nat (length elf)) (k + 56)); [done|].
  rewrite slice_in by lia. fold (ph_at elf k). set (ph := ph_at elf k).
  destruct (Z.eqb_spec (p_type ph) PT_LOAD) as [Ept|]; cbn [negb]; [|done].
  destruct (_ <? _); [done|].
  assert (0 <= p_offset ph /\ 0 <= p_filesz ph) as [Ho Hf] by (split; by apply field_nonneg, bytes_ok_sub_slice).
  assert (add64 (p_offset ph) (p_filesz ph) = p_offset ph + p_filesz ph) as ->.
  { apply u64_small. specialize (Hoff Ept). fold ph in Hoff. unfold fits. lia. }
  destruct (Z.ltb_spec (Z.of_nat (length elf)) (p_offset ph + p_filesz ph)); [done|].
  destruct (checked_add64 _ _); [|done]. destruct (_ || _); [done|].
  rewrite slice_in by lia. by destruct (map_and_copy_segment _ _ _ _ _ m).
Qed.

Lemma field_fits l a b : bytes_ok l -> 0 <= a <= b -> field l a b < 2 ^ (8 * (b - a)).
Proof.
  intros H Hab. unfold field. pose proof (le_bytes_fits (sub_slice l a b) (bytes_ok_sub_slice _ _ _ H)) as [_ Hf].
  eapply Z.lt_le_trans; [exact Hf|]. apply Z.pow_le_mono_r; [lia|]. unfold sub_slice. rewrite length_take. lia.
Qed.

(** the loader always returns, with a result or an error message, for every file in which
    the offset of the program-header table and the extent of each loadable segment do not wrap
    around the 64-bit address space. *)
Theorem elf_load_total EM root elf m (Hbs : bytes_ok elf) (Hoff : offsets_ok elf) :
  fst (load_elf_to_process EM elf root m) <> Panics.
Proof.
  unfold load_elf_to_process. destruct (check_header EM elf) as [[[[entry off] step] num]|e] eqn:Eh; [|done].
  apply check_header_inv in Eh as (-> & -> & ->). destruct Hoff as [Hb Hoff].
  set (off := field elf 32 40) in *. set (step := Z.max (field elf 54 56) 56).
  assert (0 <= off) as Ho by (by apply field_nonneg).
  assert (0 <= ph_count elf < 2 ^ 16) as Hn by (split; [by apply field_nonneg|by apply (field_fits elf 56 58)]).
  assert (56 <= step < 2 ^ 16) as Hs.
  { pose proof (field_fits elf 54 56 Hbs ltac:(lia)) as H. change (2 ^ (8 * (56 - 54))) with (2 ^ 16) in H.
    unfold step. lia. }
  assert (forall n i (m : machine P), 0 <= i -> i + Z.of_nat n <= ph_count elf ->
    fst (load_segments n i elf root off step m) <> Panics) as Hl.
  { induction n as [|n IH]; intros i m0 Hi Hin; simpl; [done|].
    assert (mul64 i step = i * step) as Em by (apply u64_small; unfold fits; nia).
    assert (add64 off (mul64 i step) = off + i * step) as Ep by (rewrite Em; apply u64_small; unfold fits; nia).
    pose proof (load_segment_total root elf (ph_pos elf i) m0 Hbs) as H. unfold ph_pos in H at 1 2. fold off step in H.
    rewrite Ep in H. specialize (H ltac:(nia) ltac:(nia) ltac:(apply Hoff; lia)). unfold ph_pos in H. fold off step in H.
    destruct (load_segment _ _ _ m0) as [[[[]|e]|] m1]; [|done|done]. apply IH; lia. }
  specialize (Hl (Z.to_nat (ph_count elf)) 0 m ltac:(lia) ltac:(lia)).
  destruct (load_segments _ _ _ _ _ _ m) as [[[[]|e]|] m']; [|done|done]. by destruct (entry <? USER_SPACE_BASE).
Qed.

End load.

(** ** Concrete files *)

(** An ELF header for x86_64 with the given entry point, table offset and count. *)
Definition elf_header (entry ph_off num : Z) : list Z :=
  [0x7F; 69; 76; 70; 2; 1; 1; 0] ++ replicate 8 0 ++ to_le 2 2 ++ to_le 2 62 ++ to_le 4 1 ++
  to_le 8 entry ++ to_le 8 ph_off ++ to_le 8 0 ++ to_le 4 0 ++ to_le 2 64 ++ to_le 2 56 ++ to_le 2 num ++
  replicate 6 0.

Definition load_ph (flags offset vaddr filesz memsz : Z) : list Z :=
  to_le 4 1 ++ to_le 4 flags ++ to_le 8 offset ++ to_le 8 vaddr ++ to_le 8 vaddr ++ to_le 8 filesz ++
  to_le 8 memsz ++ to_le 8 4096.

(** A well-formed program: one writable segment of three bytes and some .bss. *)
Definition good_elf : list Z :=
  elf_header 0x8000001000 64 1 ++ load_ph 6 120 0x8000001000 3 0x20 ++ [11; 22; 33].

(** A file whose program-header table lies 56 bytes before the end of the address space. *)
Definition wrapping_elf : list Z := elf_header 0x8000001000 (2 ^ 64 - 56) 1.

(** A file whose segment lies at 2^48 + 4 MiB. *)
Definition noncanonical_elf : list Z :=
  elf_header 0x8000001000 64 1 ++ load_ph 6 120 (2 ^ 48 + 0x400000) 3 0x20 ++ [11; 22; 33].

Lemma demo_user_inv : pt_inv (A := x86_64) user_half 4096 demo_machine.
Proof.
  destruct (demo_inv x86_64 _) as [I1 I2 I3 I4 I5 I6 I7 I8]. split; try done.
  intros q q' t Hq Hq' Hu. apply I7; [done|done|by destruct q].
Qed.


Lemma elf_load_isolated_witness :
  let m' := snd (load_elf_to_process (A := x86_64) EM_X86_64 good_elf 4096 demo_machine) in
  fst (load_elf_to_process (A := x86_64) EM_X86_64 good_elf 4096 demo_machine) = Returns (Ok 0x8000001000) /\
  translate_addr (A := x86_64) 4096 0x400000 m' = translate_addr (A := x86_64) 4096 0x400000 demo_machine.
Proof.
  intros m'.
  assert (fst (load_elf_to_process (A := x86_64) EM_X86_64 good_elf 4096 demo_machine) = Returns (Ok 0x8000001000)) as E
    by (vm_compute; reflexivity).
  assert (canonical_elf good_elf) as Hcan.
  { intros i Hi. change (ph_count good_elf) with 1 in Hi. replace i with 0 by lia. intros _. vm_compute. done. }
  split; [exact E|].
  pose proof (elf_load_isolated (A := x86_64) EM_X86_64 4096 good_elf demo_machine demo_user_inv
    (bytes_ok_dec good_elf eq_refl) Hcan) as H.
  rewrite (split_call _ _ E) in H. destruct H as (_ & H & _).
  apply H. change USER_SPACE_BASE with 0x8000000000. lia.
Defined.

Lemma elf_load_total_witness :
  fst (load_elf_to_process (A := x86_64) EM_X86_64 good_elf 4096 demo_machine) <> Panics.
Proof.
  apply (elf_load_total (A := x86_64) EM_X86_64 4096 good_elf demo_machine (bytes_ok_dec good_elf eq_refl)).
  split; [vm_compute; done|]. intros i Hi. change (ph_count good_elf) with 1 in Hi. replace i with 0 by lia.
  intros _. vm_compute. done.
Defined.

(** the bound on the header offset is needed: a 64-byte file whose program-header offset is
    2^64 - 56 passes every check, because the sums the checks compare wrap around, and then the
    slice expression panics, which halts the kernel. *)
Theorem elf_wrapping_offset_panics (m : machine bitmap) root :
  length wrapping_elf = 64%nat /\
  load_elf_to_process (A := x86_64) EM_X86_64 wrapping_elf root m = (Panics, m).
Proof. split; reflexivity. Qed.

(** the canonical bound is needed: a segment at 2^48 + 4 MiB passes the check against
    `USER_SPACE_BASE`, but the page walk ignores address bits 48 and up, so loading it
    changes what address 4 MiB, in the region shared with the kernel, translates to. *)
Theorem elf_noncanonical_segment_escapes :
  let '(r, m') := load_elf_to_process (A := x86_64) EM_X86_64 noncanonical_elf 4096 demo_machine in
  r = Returns (Ok 0x8000001000) /\
  translate_addr (A := x86_64) 4096 0x400000 demo_machine = None /\
  translate_addr (A := x86_64) 4096 0x400000 m' <> None.
Proof.
  assert (fst (load_elf_to_process (A := x86_64) EM_X86_64 noncanonical_elf 4096 demo_machine)
    = Returns (Ok 0x8000001000)) as E by (vm_compute; reflexivity).
  assert (translate_addr (A := x86_64) 4096 0x400000
    (snd (load_elf_to_process (A := x86_64) EM_X86_64 noncanonical_elf 4096 demo_machine)) <> None) as E2
    by (vm_compute; done).
  rewrite (split_call _ _ E). split; [done|split; [vm_compute; reflexivity|exact E2]].
Qed.
