(* ===== verification/Task.v ===== *)
(** Tasks and the scheduler (src/src/task.rs), and the process API on top of them
    (src/src/process.rs). *)
From S2P Require Import Prelude Pmm Vmm Elf Fd.

Definition STACK_SIZE : Z := 8192.
Definition MAX_TASKS : nat := 4.

Inductive ExecutionMode := IsolatedProcess | SharedThread.
Inductive TaskState := Ready | Running | Blocked | Terminated.
#[export] Instance TaskState_eq_dec : EqDecision TaskState.
Proof. solve_decision. Defined.
#[export] Instance ExecutionMode_eq_dec : EqDecision ExecutionMode.
Proof. solve_decision. Defined.

Record Message := { sender_id : Z; data : list Z }.

(** The context frame of a task that has not run yet, on either architecture. *)
Inductive TaskContext :=
| X86Context (gprs : list Z) (rip cs rflags rsp ss : Z)
| A64Context (regs : list Z) (spsr elr sp_el0 : Z).

Definition KERNEL_CODE_SELECTOR : Z := 0x08.
Definition KERNEL_DATA_SELECTOR : Z := 0x10.
Definition USER_CODE_SELECTOR : Z := Z.lor 0x18 3.
Definition USER_DATA_SELECTOR : Z := Z.lor 0x20 3.

Record Task := {
  id : Z;
  parent_id : Z;
  sp : Z;
  memory_root : Z;
  owns_memory_root : bool;
  is_ring3 : bool;
  state : TaskState;
  mailbox : option Message;
  fd_table : option FileDescriptorTable
}.

Definition Task_empty : Task :=
  {| id := 0; parent_id := 0; sp := 0; memory_root := 0; owns_memory_root := false;
     is_ring3 := false; state := Terminated; mailbox := None; fd_table := None |}.

Definition with_state (s : TaskState) (t : Task) : Task :=
  {| id := id t; parent_id := parent_id t; sp := sp t; memory_root := memory_root t;
     owns_memory_root := owns_memory_root t; is_ring3 := is_ring3 t; state := s;
     mailbox := mailbox t; fd_table := fd_table t |}.
Definition with_sp (a : Z) (t : Task) : Task :=
  {| id := id t; parent_id := parent_id t; sp := a; memory_root := memory_root t;
     owns_memory_root := owns_memory_root t; is_ring3 := is_ring3 t; state := state t;
     mailbox := mailbox t; fd_table := fd_table t |}.
Definition with_mailbox (mb : option Message) (t : Task) : Task :=
  {| id := id t; parent_id := parent_id t; sp := sp t; memory_root := memory_root t;
     owns_memory_root := owns_memory_root t; is_ring3 := is_ring3 t; state := state t;
     mailbox := mb; fd_table := fd_table t |}.
Definition without_root (t : Task) : Task :=
  {| id := id t; parent_id := parent_id t; sp := sp t; memory_root := 0;
     owns_memory_root := false; is_ring3 := is_ring3 t; state := state t;
     mailbox := mailbox t; fd_table := fd_table t |}.

(** What differs between the two targets: the encoding and size of the first frame, how a
    process table is made, and whether the scheduler programs TSS.RSP0. *)
Class KernelArch (P : Type) `{FrameAllocator P} := {
  ka_page :: PageArch;
  context_size : Z;
  first_context : bool -> Z -> Z -> Z -> TaskContext;
  create_process_page_table : Z -> machine P -> option Z * machine P;
  sets_rsp0 : bool;
  ka_machine : Z
}.

Definition x86_first_context (is_user : bool) (entry aligned_top user_stack_top : Z) : TaskContext :=
  X86Context (replicate 15 0) entry
    (if is_user then Z.lor USER_CODE_SELECTOR 3 else 0x08) 0x202
    (if is_user then sub64 user_stack_top 8 else sub64 aligned_top 8)
    (if is_user then Z.lor USER_DATA_SELECTOR 3 else 0x10).

Definition a64_first_context (is_user : bool) (entry aligned_top user_stack_top : Z) : TaskContext :=
  A64Context (replicate 31 0) (if is_user then 0x0 else 0x5) entry (if is_user then user_stack_top else 0).

#[export] Instance kernel_x86_64 {P} `{FrameAllocator P} : KernelArch P := {|
  ka_page := x86_64; context_size := 160; first_context := x86_first_context;
  create_process_page_table _ := create_process_page_table_x86; sets_rsp0 := true; ka_machine := EM_X86_64 |}.
Definition kernel_aarch64 {P} `{FrameAllocator P} : KernelArch P := {|
  ka_page := aarch64; context_size := 272; first_context := a64_first_context;
  create_process_page_table := create_process_page_table_aarch64; sets_rsp0 := false; ka_machine := EM_AARCH64 |}.

(** Scheduler state: the task table, the two atomics, the machine (page tables, frame pool,
    root register), TSS.RSP0, and the context frames stored on kernel stacks. *)
Record sched (P : Type) := Sched {
  TASKS : list Task;
  CURRENT_TASK : nat;
  TASK_INITIALIZED : bool;
  vm : machine P;
  rsp0 : Z;
  frames : Z -> option TaskContext
}.
Arguments Sched {P}. Arguments TASKS {P}. Arguments CURRENT_TASK {P}. Arguments TASK_INITIALIZED {P}.
Arguments vm {P}. Arguments rsp0 {P}. Arguments frames {P}.

Definition boot_sched {P} (m : machine P) : sched P :=
  Sched (replicate MAX_TASKS Task_empty) 0 false m 0 (fun _ => None).

Section tasks.
Context {P : Type} `{FA : FrameAllocator P} `{KA : !KernelArch P}.
(** Where the linker put `TASKS[i].stack` and `TASKS[i].kernel_stack`, and `mmu::KERNEL_ROOT`. *)
Context (stack_base kernel_stack_base : nat -> Z) (kernel_root : Z).
Implicit Types s : sched P.

Definition task s (i : nat) : Task := nth i (TASKS s) Task_empty.
Definition set_task (i : nat) (t : Task) s : sched P :=
  Sched (<[i := t]> (TASKS s)) (CURRENT_TASK s) (TASK_INITIALIZED s) (vm s) (rsp0 s) (frames s).
Definition with_vm (m : machine P) s : sched P :=
  Sched (TASKS s) (CURRENT_TASK s) (TASK_INITIALIZED s) m (rsp0 s) (frames s).

(** `Task::init`.  The mailbox is not reset. *)
Definition frame_ptr (i : nat) : Z :=
  sub64 (Z.land (add64 (stack_base i) STACK_SIZE) (not64 0xF)) context_size.

Definition Task_init (i : nat) (entry : Z) (mode : ExecutionMode) (root : Z) (owns : bool) (user_stack_top : Z) s
    : sched P :=
  let t := task s i in
  let is_user := bool_decide (mode = IsolatedProcess) && negb (user_stack_top =? 0) in
  let aligned_top := Z.land (add64 (stack_base i) STACK_SIZE) (not64 0xF) in
  let ctx := first_context is_user entry aligned_top user_stack_top in
  let t' := {| id := Z.of_nat i; parent_id := Z.of_nat i; sp := frame_ptr i; memory_root := root;
               owns_memory_root := owns; is_ring3 := is_user; state := Ready;
               mailbox := mailbox t; fd_table := Some FileDescriptorTable_new |} in
  Sched (<[i := t']> (TASKS s)) (CURRENT_TASK s) (TASK_INITIALIZED s) (vm s) (rsp0 s)
        (fun a => if a =? frame_ptr i then Some ctx else frames s a).

Definition kernel_stack_top (i : nat) : Z := Z.land (add64 (kernel_stack_base i) STACK_SIZE) (not64 0xF).

Definition current_task_id s : Z := Z.of_nat (CURRENT_TASK s).
Definition current_task_access_info s : Z * bool :=
  let t := task s (CURRENT_TASK s) in (memory_root t, is_ring3 t).
Definition current_memory_root s : Z := root_reg (vm s).

(** The search loop of `spawn` and `spawn_isolated_at`, and what follows a hit. *)
Definition install (i : nat) (entry : Z) (mode : ExecutionMode) (root : Z) (owns : bool) (ust : Z) s : sched P :=
  let s := Task_init i entry mode root owns ust s in
  if negb (TASK_INITIALIZED s) then
    Sched (<[0%nat := with_state Running (task s 0)]> (TASKS s)) (CURRENT_TASK s) true (vm s) (rsp0 s) (frames s)
  else s.

Fixpoint find_slot (l : list Task) (i : nat) : option nat :=
  match l with
  | [] => None
  | t :: l' => if bool_decide (state t = Terminated) then Some i else find_slot l' (S i)
  end.

Definition register (entry : Z) (mode : ExecutionMode) (root : Z) (owns : bool) (ust : Z) s : bool * sched P :=
  match find_slot (TASKS s) 0 with
  | Some i => (true, install i entry mode root owns ust s)
  | None => (false, s)
  end.

Definition allocate_isolated_page_table (parent_root : Z) s : Z * bool * sched P :=
  match create_process_page_table kernel_root (vm s) with
  | (Some root, m) => (root, true, with_vm m s)
  | (None, m) => (parent_root, false, with_vm m s)
  end.

Definition spawn (entry_point : Z) (mode : ExecutionMode) (user_stack_top : Z) s : bool * sched P :=
  let caller_root := current_memory_root s in
  match mode with
  | SharedThread => register entry_point mode caller_root false user_stack_top s
  | IsolatedProcess =>
      let '(root, owns, s) := allocate_isolated_page_table caller_root s in
      register entry_point mode root owns user_stack_top s
  end.

Definition spawn_at := spawn.

Definition spawn_isolated_at (entry_addr root : Z) (owns : bool) (user_stack_top : Z) s : bool * sched P :=
  register entry_addr IsolatedProcess root owns user_stack_top s.

(** `allocate_user_stack`: four zeroed pages below [USER_STACK_TOP]. *)
Definition USER_STACK_TOP : Z := USER_SPACE_BASE + 0x10000000.
Definition USER_STACK_PAGES : nat := 4.
Definition user_stack_flags : MapFlags :=
  {| writable := true; user_accessible := true; execute_disable := true; device := false |}.

Fixpoint map_stack_pages (n : nat) (root vaddr : Z) (m : machine P) : option unit * machine P :=
  match n with
  | O => (Some tt, m)
  | S n' =>
      match fa_alloc (pmm m) with
      | (None, p') => (None, with_pmm p' m)
      | (Some phys, p') =>
          let m := with_pmm p' m in
          let m := with_mem (write_bytes (mem m) (p2v (hhdm m) phys) 0 4096) m in
          match map_page root vaddr phys user_stack_flags m with
          | (Ok _, m) => map_stack_pages n' root (vaddr + 4096) m
          | (Err _, m) => (None, m)
          end
      end
  end.

Definition allocate_user_stack (root : Z) (m : machine P) : option Z * machine P :=
  match map_stack_pages USER_STACK_PAGES root (USER_STACK_TOP - Z.of_nat USER_STACK_PAGES * 4096) m with
  | (Some _, m) => (Some USER_STACK_TOP, m)
  | (None, m) => (None, m)
  end.

Definition spawn_from_elf (elf_bytes : list Z) s : outcome bool * sched P :=
  let parent_root := current_memory_root s in
  let '(root, owns, s) := allocate_isolated_page_table parent_root s in
  match load_elf_to_process ka_machine elf_bytes root (vm s) with
  | (Panics, m) => (Panics, with_vm m s)
  | (Returns (Err _), m) => (Returns false, with_vm m s)
  | (Returns (Ok entry_point), m) =>
      let s := with_vm m s in
      match allocate_user_stack root (vm s) with
      | (None, m) => (Returns false, with_vm m s)
      | (Some user_stack_top, m) =>
          let '(b, s) := spawn_isolated_at entry_point root owns user_stack_top (with_vm m s) in
          (Returns b, s)
      end
  end.

(** `process::spawn_and_run_elf`. *)
Definition spawn_and_run_elf (elf_binary : list Z) s : outcome (Result unit string) * sched P :=
  match spawn_from_elf elf_binary s with
  | (Panics, s) => (Panics, s)
  | (Returns true, s) => (Returns (Ok tt), s)
  | (Returns false, s) =>
      (Returns (Err "spawn_from_elf failed (bad ELF, allocation failure, or no free task slot)"%string), s)
  end.

(** ** Messages *)

(** The index of the first task for which a test holds. *)
Fixpoint find_task (p : Task -> bool) (l : list Task) (i : nat) : option nat :=
  match l with
  | [] => None
  | t :: l' => if p t then Some i else find_task p l' (S i)
  end.

Definition send_message (dest_id : Z) (message_data : list Z) s : Result unit string * sched P :=
  match find_task (fun t => (id t =? dest_id) && negb (bool_decide (state t = Terminated))) (TASKS s) 0 with
  | None => (Err "Destination task not found"%string, s)
  | Some i =>
      let t := task s i in
      match mailbox t with
      | Some _ => (Err "Destination mailbox is full"%string, s)
      | None =>
          let t := with_mailbox (Some {| sender_id := current_task_id s; data := message_data |}) t in
          (Ok tt, set_task i (if bool_decide (state t = Blocked) then with_state Ready t else t) s)
      end
  end.

(** `receive_message` up to the point where it yields: [true] when it then calls `yield_now`. *)
Definition receive_message s : option Message * bool * sched P :=
  match find_task (fun t => id t =? current_task_id s) (TASKS s) 0 with
  | None => (None, false, s)
  | Some i =>
      match mailbox (task s i) with
      | Some msg => (Some msg, false, set_task i (with_mailbox None (task s i)) s)
      | None => (None, true, set_task i (with_state Blocked (task s i)) s)
      end
  end.

(** `exit` up to its `yield_now`. *)
Definition exit s : sched P :=
  set_task (CURRENT_TASK s) (with_state Terminated (task s (CURRENT_TASK s))) s.

(** `get_task_list`. *)
Record TaskInfo := { ti_id : Z; ti_parent_id : Z; ti_state : TaskState; ti_memory_root : Z }.
Definition get_task_list s : list TaskInfo :=
  map (fun t => {| ti_id := id t; ti_parent_id := parent_id t; ti_state := state t; ti_memory_root := memory_root t |})
      (base.filter (fun t => state t <> Terminated) (TASKS s)).

(** ** `run_schedule` *)

Definition save_current (current_sp : Z) s : sched P :=
  let i := CURRENT_TASK s in
  if negb (current_sp =? 0) && bool_decide (state (task s i) = Running)
  then set_task i (with_state Ready (with_sp current_sp (task s i))) s else s.

(** The round-robin search: up to [n] slots after [i]. *)
Fixpoint next_ready (n : nat) (i : nat) s : option nat :=
  match n with
  | O => None
  | S n' =>
      let j := ((i + 1) mod MAX_TASKS)%nat in
      if bool_decide (state (task s j) = Ready) then Some j else next_ready n' j s
  end.

(** The body of the search loop on a hit: [cur] is `current_idx`, [nxt] is `next_idx`. *)
Definition switch_to (cur nxt : nat) s : Z * sched P :=
  let s := set_task nxt (with_state Running (task s nxt)) s in
  let s := Sched (TASKS s) nxt (TASK_INITIALIZED s) (vm s) (rsp0 s) (frames s) in
  let next_root := memory_root (task s nxt) in
  let s := if negb (next_root =? memory_root (task s cur)) && negb (next_root =? 0)
           then with_vm (with_root next_root (vm s)) s else s in
  let s := if bool_decide (state (task s cur) = Terminated) && owns_memory_root (task s cur)
           then let dead_root := memory_root (task s cur) in
                let s := set_task cur (without_root (task s cur)) s in
                with_vm (free_process_page_table dead_root (vm s)) s
           else s in
  let s := if sets_rsp0
           then Sched (TASKS s) (CURRENT_TASK s) (TASK_INITIALIZED s) (vm s) (kernel_stack_top nxt) (frames s) else s in
  (sp (task s nxt), s).

Definition run_schedule (current_sp : Z) s : Z * sched P :=
  if negb (TASK_INITIALIZED s) then (current_sp, s)
  else
    let cur := CURRENT_TASK s in
    let s := save_current current_sp s in
    match next_ready MAX_TASKS cur s with
    | Some nxt => switch_to cur nxt s
    | None =>
        (current_sp, if bool_decide (state (task s cur) = Ready)
                     then set_task cur (with_state Running (task s cur)) s else s)
    end.
End tasks.
