(* ===== verification/TaskCorrect.v ===== *)
(** Properties of the scheduler, of message passing and of task creation ([Task]). *)
From S2P Require Import Prelude Pmm Vmm VmmTheory VmmCorrect Elf Fd Task.

Section correct.
Context {P : Type} `{FA : FrameAllocator P} `{KA : !KernelArch P}.
Context (stack_base kernel_stack_base : nat -> Z) (kernel_root : Z).
Implicit Types s : sched P.

#[local] Abbreviation run_schedule' := (run_schedule kernel_stack_base).
#[local] Abbreviation spawn' := (spawn stack_base kernel_root).

(** ** Table updates *)

Lemma task_set_eq s i t : (i < length (TASKS s))%nat -> task (set_task i t s) i = t.
Proof. intros. unfold task. simpl. by rewrite nth_lookup, list_lookup_insert_eq. Qed.

Lemma task_set_ne s i j t : i <> j -> task (set_task i t s) j = task s j.
Proof. intros. unfold task. simpl. by rewrite !nth_lookup, list_lookup_insert_ne. Qed.

Lemma task_set s i j t : (i < length (TASKS s))%nat ->
  task (set_task i t s) j = if decide (i = j) then t else task s j.
Proof. intros. destruct (decide _) as [<-|]; [by apply task_set_eq|by apply task_set_ne]. Qed.

Lemma length_set_task s i t : length (TASKS (set_task i t s)) = length (TASKS s).
Proof. simpl. apply length_insert. Qed.

Lemma task_past s i : (length (TASKS s) <= i)%nat -> task s i = Task_empty.
Proof. intros. by apply nth_overflow. Qed.

(** ** The invariant

    Only the current task is ever running, and the id of a task that is alive is its slot. *)
Record sched_ok s : Prop := {
  so_len : length (TASKS s) = MAX_TASKS;
  so_cur : (CURRENT_TASK s < MAX_TASKS)%nat;
  so_running : forall i, state (task s i) = Running -> i = CURRENT_TASK s;
  so_id : forall i, state (task s i) <> Terminated -> id (task s i) = Z.of_nat i;
  so_id0 : forall i, id (task s i) = Z.of_nat i \/ id (task s i) = 0;
  so_uninit : TASK_INITIALIZED s = false -> CURRENT_TASK s = 0%nat /\ forall i, state (task s i) = Terminated
}.

Lemma boot_ok (m : machine P) : sched_ok (boot_sched m).
Proof.
  assert (forall i, task (boot_sched m) i = Task_empty) as H by (by intros [|[|[|[|[]]]]]).
  split; [done|simpl; unfold MAX_TASKS; lia| | | |]; try (intros i; rewrite H; by auto).
  intros _. split; [done|]. intros i. by rewrite H.
Qed.

(** Changing one task without waking anything but the current one keeps the invariant. *)
Lemma set_task_ok s i t :
  sched_ok s -> (i < MAX_TASKS)%nat ->
  (state t = Running -> i = CURRENT_TASK s) -> (state t <> Terminated -> id t = Z.of_nat i) ->
  (id t = Z.of_nat i \/ id t = 0) -> TASK_INITIALIZED s = true -> sched_ok (set_task i t s).
Proof.
  intros [H1 H2 H3 H4 H5 H6] Hi Hr Hd Hd0 Hini.
  split; [by rewrite length_set_task|done| | | |simpl; congruence]; intros j;
    rewrite task_set by lia; destruct (decide _) as [<-|]; try done; [apply H3|apply H4].
Qed.

Lemma sched_ok_vm m s : sched_ok s -> sched_ok (with_vm m s).
Proof. intros [? ? ? ? ? ?]. by split. Qed.

(** The fields the invariant does not look at. *)
Lemma sched_ok_frames s r f m : sched_ok s -> sched_ok (Sched (TASKS s) (CURRENT_TASK s) (TASK_INITIALIZED s) m r f).
Proof. intros [? ? ? ? ? ?]. by split. Qed.

Lemma find_slot_spec l k i :
  find_slot l k = Some i -> (k <= i < k + length l)%nat /\ state (nth (i - k) l Task_empty) = Terminated.
Proof.
  revert k; induction l as [|t l IH]; intros k; simpl; [done|].
  destruct (bool_decide_reflect (state t = Terminated)).
  - intros [= <-]. split; [lia|]. by rewrite Nat.sub_diag.
  - intros H%IH. destruct H as [Hr Hs]. split; [lia|]. replace (i - k)%nat with (S (i - S k)) by lia. done.
Qed.

Lemma find_slot_none l k : find_slot l k = None <-> Forall (fun t => state t <> Terminated) l.
Proof.
  revert k; induction l as [|t l IH]; intros k; simpl; [done|].
  destruct (bool_decide_reflect (state t = Terminated)) as [E|E].
  - split; [done|]. intros H%Forall_cons. tauto.
  - rewrite IH, Forall_cons. tauto.
Qed.

(** The task `Task::init` builds. *)
Definition fresh_task (old : Task) (i : nat) (mode : ExecutionMode) (root : Z) (owns : bool) (ust : Z) : Task :=
  {| id := Z.of_nat i; parent_id := Z.of_nat i; sp := frame_ptr stack_base i; memory_root := root;
     owns_memory_root := owns; is_ring3 := bool_decide (mode = IsolatedProcess) && negb (ust =? 0);
     state := Ready; mailbox := mailbox old; fd_table := Some FileDescriptorTable_new |}.

(** Registration once the scheduler runs: one terminated slot becomes a ready task. *)
Lemma register_spec entry mode root owns ust s b s' :
  sched_ok s -> register stack_base entry mode root owns ust s = (b, s') ->
  if b then exists i, (i < MAX_TASKS)%nat /\ state (task s i) = Terminated /\
      (forall j, j <> i -> task s' j = task s j) /\ CURRENT_TASK s' = CURRENT_TASK s /\ vm s' = vm s /\
      TASK_INITIALIZED s' = true /\ length (TASKS s') = MAX_TASKS /\
      task s' i = (if TASK_INITIALIZED s then fresh_task (task s i) i mode root owns ust
                   else with_state Running (fresh_task (task s i) i mode root owns ust)) /\
      (TASK_INITIALIZED s = false -> i = 0%nat)
  else s' = s /\ Forall (fun t => state t <> Terminated) (TASKS s).
Proof.
  intros Hs. unfold register. destruct (find_slot (TASKS s) 0) as [i|] eqn:E.
  2:{ intros [= <- <-]. split; [done|]. by eapply find_slot_none. }
  destruct (find_slot_spec _ _ _ E) as [Hi Ht]. rewrite Nat.sub_0_r in Ht. fold (task s i) in Ht.
  pose proof (so_len _ Hs) as Hlen. intros [= <- <-]. exists i. unfold install.
  set (s1 := Task_init stack_base i entry mode root owns ust s).
  change (TASK_INITIALIZED s1) with (TASK_INITIALIZED s).
  assert (forall j, task s1 j = if decide (i = j) then fresh_task (task s i) i mode root owns ust else task s j) as Ht1.
  { intros j. apply (task_set s i j (fresh_task (task s i) i mode root owns ust)). lia. }
  assert (length (TASKS s1) = MAX_TASKS) as Hl1 by (simpl; by rewrite length_insert).
  destruct (TASK_INITIALIZED s) eqn:Ei; cbn [negb].
  - split_and!; try done; try lia.
    + intros j Hj. by rewrite Ht1, decide_False.
    + by rewrite Ht1, decide_True.
  - destruct (so_uninit _ Hs Ei) as [Hc Hall].
    assert (i = 0%nat) as ->.
    { destruct (TASKS s) as [|t0 l] eqn:El; [done|]. simpl in E. specialize (Hall 0%nat). unfold task in Hall.
      rewrite El in Hall. simpl in Hall. rewrite bool_decide_eq_true_2 in E by done. by injection E. }
    assert (forall j, task (Sched (<[0%nat := with_state Running (task s1 0)]> (TASKS s1)) (CURRENT_TASK s1) true (vm s1) (rsp0 s1) (frames s1)) j =
      if decide (0%nat = j) then with_state Running (task s1 0) else task s1 j) as Ht2.
    { intros j. apply (task_set s1 0 j). lia. }
    split_and!; try done; try lia.
    + intros j Hj. by rewrite Ht2, decide_False, Ht1, decide_False.
    + simpl. by rewrite !length_insert.
    + by rewrite Ht2, decide_True, Ht1, decide_True.
Qed.

Lemma register_ok entry mode root owns ust s :
  sched_ok s -> sched_ok (snd (register stack_base entry mode root owns ust s)).
Proof.
  intros Hs. pose proof (register_spec entry mode root owns ust s) as H.
  destruct (register _ _ _ _ _ _ s) as [b s']. specialize (H b s' Hs eq_refl). destruct b; [|by destruct H as [-> _]].
  destruct H as (i & Hi & Ht & Hne & Hc & _ & Hini & Hl & Hti & Hz). simpl.
  split; [done|by rewrite Hc; apply Hs| | | |congruence].
  - intros j. destruct (decide (j = i)) as [->|Hj].
    + rewrite Hti, Hc. destruct (TASK_INITIALIZED s) eqn:E; [done|]. intros _.
      destruct (so_uninit _ Hs E) as [-> _]. by rewrite Hz.
    + rewrite Hne, Hc by done. apply Hs.
  - intros j. destruct (decide (j = i)) as [->|Hj].
    + rewrite Hti. by destruct (TASK_INITIALIZED s).
    + rewrite Hne by done. apply Hs.
  - intros j. destruct (decide (j = i)) as [->|Hj].
    + rewrite Hti. left. by destruct (TASK_INITIALIZED s).
    + rewrite Hne by done. apply Hs.
Qed.

(** ** The scheduler *)

Lemma save_current_ok sp s : sched_ok s -> TASK_INITIALIZED s = true -> sched_ok (save_current sp s).
Proof.
  intros Hs Hi. unfold save_current. destruct (_ && _) eqn:E; [|done].
  apply andb_true_iff in E as [_ E%bool_decide_eq_true_1].
  assert (id (task s (CURRENT_TASK s)) = Z.of_nat (CURRENT_TASK s)) as Hid by (apply Hs; by rewrite E).
  apply set_task_ok; [done|apply Hs|done|done|by left|done].
Qed.

Lemma save_current_other sp s j :
  sched_ok s -> j <> CURRENT_TASK s -> task (save_current sp s) j = task s j.
Proof. intros Hs Hj. unfold save_current. destruct (_ && _); [|done]. by apply task_set_ne. Qed.

Lemma save_current_cur sp s :
  sched_ok s ->
  task (save_current sp s) (CURRENT_TASK s) =
    let t := task s (CURRENT_TASK s) in
    if negb (sp =? 0) && bool_decide (state t = Running) then with_state Ready (with_sp sp t) else t.
Proof.
  intros Hs. unfold save_current. destruct (_ && _); [|done]. apply task_set_eq.
  rewrite (so_len _ Hs). apply Hs.
Qed.

Definition slot_after (i d : nat) : nat := ((i + d) mod MAX_TASKS)%nat.

Lemma slot_after_step i d : slot_after ((i + 1) mod MAX_TASKS) d = slot_after i (S d).
Proof. unfold slot_after. rewrite Nat.Div0.add_mod_idemp_l. f_equal. lia. Qed.

Lemma next_ready_spec n i s :
  match next_ready n i s with
  | Some j => exists d, (1 <= d <= n)%nat /\ j = slot_after i d /\ state (task s j) = Ready /\
      forall d', (1 <= d' < d)%nat -> state (task s (slot_after i d')) <> Ready
  | None => forall d, (1 <= d <= n)%nat -> state (task s (slot_after i d)) <> Ready
  end.
Proof.
  revert i; induction n as [|n IH]; intros i; [intros d Hd; lia|]. cbn [next_ready].
  set (j0 := ((i + 1) mod MAX_TASKS)%nat). destruct (bool_decide_reflect (state (task s j0) = Ready)) as [E|E].
  { exists 1%nat. split_and!; [lia|lia|done|done|intros d' Hd; lia]. }
  specialize (IH j0). destruct (next_ready n j0 s) as [j|].
  - destruct IH as (d & Hd & -> & Hr & Hb). exists (S d). unfold j0 in *. rewrite slot_after_step in *.
    split_and!; [lia|lia|done|done|]. intros [|[|d']] Hd'; [lia|done|].
    specialize (Hb (S d') ltac:(lia)). by rewrite slot_after_step in Hb.
  - intros [|[|d]] Hd; [lia|done|]. specialize (IH (S d) ltac:(lia)). unfold j0 in IH. by rewrite slot_after_step in IH.
Qed.

(** Every slot lies within four steps. *)
Lemma slot_after_all i j : (i < MAX_TASKS)%nat -> (j < MAX_TASKS)%nat ->
  exists d, (1 <= d <= MAX_TASKS)%nat /\ slot_after i d = j.
Proof.
  intros Hi Hj. unfold slot_after, MAX_TASKS in *.
  destruct (decide (i < j)%nat).
  - exists (j - i)%nat. split; [lia|]. replace (i + (j - i))%nat with j by lia. by apply Nat.mod_small.
  - exists (4 + j - i)%nat. split; [lia|]. replace (i + (4 + j - i))%nat with (j + 1 * 4)%nat by lia.
    rewrite Nat.Div0.mod_add. by apply Nat.mod_small.
Qed.

Lemma next_ready_none s i :
  (i < MAX_TASKS)%nat -> next_ready MAX_TASKS i s = None -> forall j, (j < MAX_TASKS)%nat -> state (task s j) <> Ready.
Proof.
  intros Hi E j Hj. pose proof (next_ready_spec MAX_TASKS i s) as H. rewrite E in H.
  destruct (slot_after_all i j Hi Hj) as (d & Hd & <-). by apply H.
Qed.

(** What a switch does to the table and to the machine. *)
Definition dead_owner (t : Task) : bool := bool_decide (state t = Terminated) && owns_memory_root t.

Lemma switch_to_spec cur nxt s r s' :
  length (TASKS s) = MAX_TASKS -> (cur < MAX_TASKS)%nat -> (nxt < MAX_TASKS)%nat -> state (task s nxt) = Ready ->
  switch_to kernel_stack_base cur nxt s = (r, s') ->
  r = sp (task s nxt) /\ CURRENT_TASK s' = nxt /\ TASK_INITIALIZED s' = TASK_INITIALIZED s /\
  length (TASKS s') = MAX_TASKS /\
  (forall j, task s' j = if decide (j = nxt) then with_state Running (task s nxt)
                         else if decide (j = cur) then (if dead_owner (task s cur) then without_root (task s cur) else task s cur)
                         else task s j) /\
  vm s' = (let m := if negb (memory_root (task s nxt) =? memory_root (task s cur)) && negb (memory_root (task s nxt) =? 0)
                    then with_root (memory_root (task s nxt)) (vm s) else vm s in
           if dead_owner (task s cur) then free_process_page_table (memory_root (task s cur)) m else m) /\
  (sets_rsp0 = true -> rsp0 s' = kernel_stack_top kernel_stack_base nxt).
Proof.
  intros Hl Hc Hn Hr. unfold switch_to.
  set (s1 := set_task nxt (with_state Running (task s nxt)) s).
  assert (forall j, task s1 j = if decide (nxt = j) then with_state Running (task s nxt) else task s j) as Ht1.
  { intros j. apply task_set. lia. }
  set (s2 := Sched (TASKS s1) nxt (TASK_INITIALIZED s1) (vm s1) (rsp0 s1) (frames s1)).
  change (task s2) with (task s1).
  assert (memory_root (task s1 nxt) = memory_root (task s nxt)) as Hm1 by (by rewrite Ht1, decide_True).
  assert (memory_root (task s1 cur) = memory_root (task s cur)) as Hm2.
  { rewrite Ht1. by destruct (decide _) as [->|]. }
  rewrite Hm1, Hm2. set (sw := negb _ && negb _).
  set (s3 := if sw then with_vm (with_root (memory_root (task s nxt)) (vm s2)) s2 else s2).
  assert (TASKS s3 = TASKS s1 /\ CURRENT_TASK s3 = nxt /\ TASK_INITIALIZED s3 = TASK_INITIALIZED s /\
    vm s3 = if sw then with_root (memory_root (task s nxt)) (vm s) else vm s) as (E1 & E2 & E3 & E4).
  { unfold s3. by destruct sw. }
  assert (forall j, task s3 j = task s1 j) as Ht3 by (intros j; unfold task; by rewrite E1).
  rewrite !Ht3.
  assert (bool_decide (state (task s1 cur) = Terminated) && owns_memory_root (task s1 cur) = dead_owner (task s cur)) as ->.
  { rewrite Ht1. destruct (decide _) as [->|]; [|done]. unfold dead_owner. by rewrite Hr. }
  rewrite Hm2. set (s4 := if dead_owner (task s cur) then _ else s3).
  assert (CURRENT_TASK s4 = nxt /\ TASK_INITIALIZED s4 = TASK_INITIALIZED s /\ length (TASKS s4) = MAX_TASKS /\
    (forall j, task s4 j = if decide (j = nxt) then with_state Running (task s nxt)
                         else if decide (j = cur) then (if dead_owner (task s cur) then without_root (task s cur) else task s cur)
                         else task s j) /\
    vm s4 = if dead_owner (task s cur) then free_process_page_table (memory_root (task s cur)) (vm s3) else vm s3)
    as (F1 & F2 & F3 & F4 & F5).
  { unfold s4. destruct (dead_owner (task s cur)) eqn:Ed.
    - assert (cur <> nxt) as Hne by (intros ->; unfold dead_owner in Ed; rewrite Hr in Ed; done).
      split_and!; try done.
      + simpl. rewrite length_insert, E1. simpl. by rewrite length_insert.
      + intros j. change (task (set_task cur (without_root (task s1 cur)) s3) j =
          if decide (j = nxt) then with_state Running (task s nxt) else if decide (j = cur) then without_root (task s cur) else task s j).
        rewrite task_set by (rewrite E1; simpl; rewrite length_insert; lia). rewrite Ht3, !Ht1.
        repeat destruct (decide _); congruence.
    - split_and!; try done.
      + rewrite E1. simpl. by rewrite length_insert.
      + intros j. rewrite Ht3, Ht1. repeat destruct (decide _); congruence. }
  destruct sets_rsp0; intros [= <- <-]; (split_and!; [|done|done|done|done|by rewrite F5, E4|done]);
    by (change (task (Sched (TASKS s4) _ _ _ _ _)) with (task s4); rewrite F4, decide_True) || by rewrite F4, decide_True.
Qed.

(** One tick of an initialised scheduler: either some slot was ready and the nearest one
    runs, or nothing was. *)
Lemma run_schedule_cases sp s r s' :
  sched_ok s -> TASK_INITIALIZED s = true -> run_schedule' sp s = (r, s') ->
  let s1 := save_current sp s in
  (exists d, (1 <= d <= MAX_TASKS)%nat /\ state (task s1 (slot_after (CURRENT_TASK s) d)) = Ready /\
     (forall d', (1 <= d' < d)%nat -> state (task s1 (slot_after (CURRENT_TASK s) d')) <> Ready) /\
     switch_to kernel_stack_base (CURRENT_TASK s) (slot_after (CURRENT_TASK s) d) s1 = (r, s')) \/
  ((forall j, (j < MAX_TASKS)%nat -> state (task s1 j) <> Ready) /\ r = sp /\ s' = s1).
Proof.
  intros Hs Hi. unfold run_schedule. rewrite Hi. cbn [negb]. pose proof (save_current_ok sp s Hs Hi) as Hs1.
  cbn zeta. pose proof (next_ready_spec MAX_TASKS (CURRENT_TASK s) (save_current sp s)) as H.
  destruct (next_ready MAX_TASKS (CURRENT_TASK s) (save_current sp s)) as [nxt|] eqn:E.
  - destruct H as (d & Hd & -> & Hr & Hb). intros Hsw. left. exists d. done.
  - assert (forall j, (j < MAX_TASKS)%nat -> state (task (save_current sp s) j) <> Ready) as Hn.
    { by apply (next_ready_none (save_current sp s) (CURRENT_TASK s)); [apply Hs|]. }
    rewrite bool_decide_eq_false_2 by (apply Hn, Hs). intros [= <- <-]. by right.
Qed.

Lemma slot_after_lt i d : (slot_after i d < MAX_TASKS)%nat.
Proof. apply Nat.mod_upper_bound. done. Qed.

Lemma save_current_not_running sp s :
  sched_ok s -> sp <> 0 -> forall j, state (task (save_current sp s) j) <> Running.
Proof.
  intros Hs Hsp j. destruct (decide (j = CURRENT_TASK s)) as [->|Hj].
  - rewrite save_current_cur by done. cbn zeta. rewrite (proj2 (Z.eqb_neq _ _) Hsp). cbn [negb andb].
    destruct (bool_decide_reflect (state (task s (CURRENT_TASK s)) = Running)); done.
  - rewrite save_current_other by done. intros Hr. by apply Hs in Hr.
Qed.

Lemma save_current_same sp s : CURRENT_TASK (save_current sp s) = CURRENT_TASK s /\
  TASK_INITIALIZED (save_current sp s) = TASK_INITIALIZED s /\ vm (save_current sp s) = vm s /\
  length (TASKS (save_current sp s)) = length (TASKS s) /\
  forall j, memory_root (task (save_current sp s) j) = memory_root (task s j).
Proof.
  unfold save_current. destruct (_ && _); [|done]. split_and!; try done; [apply length_set_task|].
  intros j. destruct (decide (CURRENT_TASK s < length (TASKS s))%nat) as [Hl|Hl].
  - rewrite task_set by done. by destruct (decide _) as [<-|].
  - unfold task. simpl. rewrite list_insert_ge by lia. done.
Qed.

Lemma run_schedule_ok sp s : sp <> 0 -> sched_ok s -> sched_ok (snd (run_schedule' sp s)).
Proof.
  intros Hsp Hs. destruct (TASK_INITIALIZED s) eqn:Hi.
  2:{ unfold run_schedule. by rewrite Hi. }
  destruct (run_schedule' sp s) as [r s'] eqn:E. simpl.
  pose proof (save_current_ok sp s Hs Hi) as Hs1. destruct (save_current_same sp s) as (Hc & Hi1 & _ & Hl & _).
  destruct (run_schedule_cases sp s r s' Hs Hi E) as [(d & Hd & Hr & _ & Hsw)|(_ & _ & ->)]; [|done].
  pose proof (slot_after_lt (CURRENT_TASK s) d) as Hlt. set (nxt := slot_after (CURRENT_TASK s) d) in *.
  destruct (switch_to_spec (CURRENT_TASK s) nxt _ r s' (so_len _ Hs1) (so_cur _ Hs) Hlt Hr Hsw)
    as (_ & E2 & E3 & E4 & E5 & _ & _).
  assert (forall j, id (task s' j) = id (task (save_current sp s) j) /\
    (j <> nxt -> state (task s' j) = state (task (save_current sp s) j))) as Hsame.
  { intros j. rewrite E5. destruct (decide (j = nxt)) as [->|]; [done|].
    destruct (decide (j = CURRENT_TASK s)) as [->|]; [|done]. by destruct (dead_owner _). }
  split; [done|by rewrite E2| | | |congruence].
  - intros j Hj. rewrite E2. destruct (decide (j = nxt)); [done|]. exfalso. destruct (Hsame j) as [_ Hst].
    rewrite Hst in Hj by done. by apply (save_current_not_running sp s Hs Hsp) in Hj.
  - intros j Hj. destruct (Hsame j) as [-> Hst]. destruct (decide (j = nxt)) as [->|Hne].
    + apply Hs1. by rewrite Hr.
    + apply Hs1. by rewrite <- Hst.
  - intros j. destruct (Hsame j) as [-> _]. apply Hs1.
Qed.

(** ** Runs of the scheduler

    System calls are made by the running task (or by the boot code before the first task
    exists); ticks come with the interrupted context's stack pointer, which is not null. *)
Definition caller_ok s : Prop :=
  TASK_INITIALIZED s = false \/ state (task s (CURRENT_TASK s)) = Running.

Inductive sched_step : sched P -> sched P -> Prop :=
| st_spawn entry mode ust s : caller_ok s -> sched_step s (snd (spawn' entry mode ust s))
| st_elf bytes b s s' : caller_ok s -> spawn_from_elf stack_base kernel_root bytes s = (Returns b, s') -> sched_step s s'
| st_send d msg s : caller_ok s -> sched_step s (snd (send_message d msg s))
| st_receive s : state (task s (CURRENT_TASK s)) = Running -> sched_step s (snd (receive_message s))
| st_exit s : state (task s (CURRENT_TASK s)) = Running -> sched_step s (exit s)
| st_tick sp s : sp <> 0 -> sched_step s (snd (run_schedule' sp s)).

Lemma find_task_spec p l k i :
  find_task p l k = Some i ->
  (k <= i < k + length l)%nat /\ p (nth (i - k) l Task_empty) = true /\
  forall j, (k <= j < i)%nat -> p (nth (j - k) l Task_empty) = false.
Proof.
  revert k; induction l as [|t l IH]; intros k; simpl; [done|]. destruct (p t) eqn:E.
  - intros [= <-]. split_and!; [lia|lia|by rewrite Nat.sub_diag|intros j Hj; lia].
  - intros H%IH. destruct H as (Hr & Hp & Hb). split_and!; [lia|lia| |].
    + by replace (i - k)%nat with (S (i - S k)) by lia.
    + intros j Hj. destruct (decide (j = k)) as [->|]; [by rewrite Nat.sub_diag|].
      replace (j - k)%nat with (S (j - S k)) by lia. apply Hb. lia.
Qed.

Lemma find_task_at s p i :
  find_task p (TASKS s) 0 = Some i ->
  (i < length (TASKS s))%nat /\ p (task s i) = true /\ forall j, (j < i)%nat -> p (task s j) = false.
Proof.
  intros H%find_task_spec. destruct H as (Hr & Hp & Hb). rewrite Nat.sub_0_r in Hp. split_and!; [lia|done|].
  intros j Hj. specialize (Hb j ltac:(lia)). by rewrite Nat.sub_0_r in Hb.
Qed.

Lemma find_task_hit s p i :
  (i < length (TASKS s))%nat -> p (task s i) = true -> (forall j, (j < i)%nat -> p (task s j) = false) ->
  find_task p (TASKS s) 0 = Some i.
Proof.
  assert (forall l k i, (i < length l)%nat -> p (nth i l Task_empty) = true ->
    (forall j, (j < i)%nat -> p (nth j l Task_empty) = false) -> find_task p l k = Some (k + i)%nat) as H.
  { induction l as [|t l IH]; intros k i0 Hi Hp Hb; simpl in *; [lia|]. destruct i0 as [|i0].
    - rewrite Hp. f_equal. lia.
    - rewrite (Hb 0%nat) by lia. rewrite (IH (S k) i0); [f_equal; lia|lia|done|].
      intros j Hj. apply (Hb (S j)). lia. }
  intros. by apply (H (TASKS s) 0%nat i).
Qed.

(** The live task with a given id is the one in that slot. *)
Lemma find_dest s i :
  sched_ok s -> (i < MAX_TASKS)%nat -> state (task s i) <> Terminated ->
  find_task (fun t => (id t =? Z.of_nat i) && negb (bool_decide (state t = Terminated))) (TASKS s) 0 = Some i.
Proof.
  intros Hs Hi Ht. apply find_task_hit.
  - by rewrite (so_len _ Hs).
  - rewrite (so_id _ Hs) by done. rewrite Z.eqb_refl, bool_decide_eq_false_2 by done. done.
  - intros j Hj. destruct (bool_decide_reflect (state (task s j) = Terminated)) as [|Hjt]; [by rewrite andb_false_r|].
    rewrite (so_id _ Hs) by done. rewrite (proj2 (Z.eqb_neq _ _)) by lia. done.
Qed.

Lemma find_self s :
  sched_ok s -> state (task s (CURRENT_TASK s)) <> Terminated ->
  find_task (fun t => id t =? current_task_id s) (TASKS s) 0 = Some (CURRENT_TASK s).
Proof.
  intros Hs Ht. pose proof (so_cur _ Hs). unfold current_task_id. apply find_task_hit.
  - rewrite (so_len _ Hs). done.
  - rewrite (so_id _ Hs) by done. apply Z.eqb_refl.
  - intros j Hj. apply Z.eqb_neq. destruct (so_id0 _ Hs j) as [->| ->]; lia.
Qed.

Lemma sched_step_ok s s' : sched_step s s' -> sched_ok s -> sched_ok s'.
Proof.
  assert (forall r s, sched_ok s -> sched_ok (snd (allocate_isolated_page_table kernel_root r s))) as Hal.
  { intros r s0 H0. unfold allocate_isolated_page_table.
    destruct (create_process_page_table _ _) as [[root|] m]; by apply sched_ok_vm. }
  destruct 1 as [entry mode ust s _|bytes b s s' _ E|d msg s _|s Hr|s Hr|sp s Hsp]; intros Hs.
  - unfold spawn. destruct mode; [|by apply register_ok]. specialize (Hal (current_memory_root s) s Hs).
    destruct (allocate_isolated_page_table _ _ s) as [[root owns] s1]. by apply register_ok.
  - unfold spawn_from_elf in E. specialize (Hal (current_memory_root s) s Hs).
    destruct (allocate_isolated_page_table _ _ s) as [[root owns] s1]. simpl in Hal.
    destruct (load_elf_to_process _ _ _ (vm s1)) as [[[entry|]|] m]; simplify_eq; [|by apply sched_ok_vm].
    destruct (allocate_user_stack root (vm (with_vm m s1))) as [[ust|] m2]; simplify_eq; [|by apply sched_ok_vm, sched_ok_vm].
    unfold spawn_isolated_at in E. pose proof (register_ok entry IsolatedProcess root owns ust (with_vm m2 (with_vm m s1))) as H.
    destruct (register _ _ _ _ _ _ _) as [b' s2]. simplify_eq. by apply H, sched_ok_vm, sched_ok_vm.
  - unfold send_message. destruct (find_task _ (TASKS s) 0) as [i|] eqn:E; [|done].
    apply find_task_at in E as (Hi & Hp & _). rewrite (so_len _ Hs) in Hi.
    apply andb_true_iff in Hp as [_ Hp%negb_true_iff%bool_decide_eq_false_1].
    destruct (mailbox (task s i)); [done|]. simpl.
    pose proof (so_id _ Hs i Hp) as Hid.
    apply set_task_ok; [done|done| | |left; by destruct (bool_decide _)|].
    + destruct (bool_decide_reflect (state (task s i) = Blocked)); [done|]. simpl. apply Hs.
    + intros _. by destruct (bool_decide _).
    + destruct (TASK_INITIALIZED s) eqn:Ei; [done|]. destruct (so_uninit _ Hs Ei) as [_ H]. by rewrite H in Hp.
  - assert (TASK_INITIALIZED s = true) as Hi.
    { destruct (TASK_INITIALIZED s) eqn:Ei; [done|]. destruct (so_uninit _ Hs Ei) as [_ H]. by rewrite H in Hr. }
    unfold receive_message. rewrite find_self by (done || by rewrite Hr).
    pose proof (so_id _ Hs (CURRENT_TASK s) ltac:(by rewrite Hr)) as Hid.
    destruct (mailbox (task s (CURRENT_TASK s))); simpl; (apply set_task_ok; [done|apply Hs|done|done|by left|done]).
  - assert (TASK_INITIALIZED s = true) as Hi.
    { destruct (TASK_INITIALIZED s) eqn:Ei; [done|]. destruct (so_uninit _ Hs Ei) as [_ H]. by rewrite H in Hr. }
    pose proof (so_id _ Hs (CURRENT_TASK s) ltac:(by rewrite Hr)) as Hid.
    unfold exit. apply set_task_ok; [done|apply Hs|done|done|by left|done].
  - by apply run_schedule_ok.
Qed.

(** C7: in every state the scheduler can reach from boot, through any interleaving of
    spawns, program loads, messages, exits and timer ticks, at most one task is
    running and it is the one `CURRENT_TASK` names, and live tasks have distinct ids (the
    id is the slot number), so that message destinations are unambiguous. *)
Theorem scheduler_invariant m s
  (Hr : rtc sched_step (boot_sched m) s) :
  (CURRENT_TASK s < MAX_TASKS)%nat /\
  (forall i, state (task s i) = Running -> i = CURRENT_TASK s) /\
  (forall i j, state (task s i) <> Terminated -> state (task s j) <> Terminated ->
     id (task s i) = id (task s j) -> i = j).
Proof.
  assert (sched_ok s) as Hs.
  { remember (boot_sched m) as s0 eqn:E. assert (sched_ok s0) as H0 by (subst; apply boot_ok). clear E.
    induction Hr as [|s1 s2 s3 Hst _ IH]; [done|]. by apply IH, (sched_step_ok s1). }
  split_and!; [apply Hs|apply Hs|]. intros i j Hi Hj E. rewrite !(so_id _ Hs) in E by done. lia.
Qed.

(** [k] timer ticks. *)
Definition ticks (sps : list Z) s : sched P := fold_left (fun s sp => snd (run_schedule' sp s)) sps s.

Lemma slot_after_diff i a b : (a <= b)%nat -> slot_after (slot_after i a) (b - a) = slot_after i b.
Proof. intros. unfold slot_after. rewrite Nat.Div0.add_mod_idemp_l. f_equal. lia. Qed.

(** Distances below four name different slots. *)
Lemma slot_after_inj i d d0 : (d0 < d < MAX_TASKS)%nat -> slot_after i d <> slot_after i d0.
Proof.
  unfold slot_after, MAX_TASKS. intros Hd Em.
  pose proof (Nat.div_mod_eq (i + d) 4). pose proof (Nat.div_mod_eq (i + d0) 4). lia.
Qed.

(** Each tick brings a ready task closer to its turn. *)
Lemma fair_step n j d s sps :
  (j < MAX_TASKS)%nat -> (1 <= d <= n)%nat -> sched_ok s -> TASK_INITIALIZED s = true ->
  state (task s j) = Ready -> j <> CURRENT_TASK s -> Forall (fun sp => sp <> 0) sps -> (d <= length sps)%nat ->
  slot_after (CURRENT_TASK s) d = j -> (d < MAX_TASKS)%nat ->
  exists k, (1 <= k <= d)%nat /\ CURRENT_TASK (ticks (take k sps) s) = j /\
            state (task (ticks (take k sps) s) j) = Running.
Proof.
  intros Hj. revert d s sps.
  induction n as [|n IH]; intros d s sps Hd1 Hs Hi Hr Hne Hsps Hlen Ed Hd4; [lia|].
  destruct sps as [|sp sps]; simpl in Hlen; [lia|]. apply Forall_cons in Hsps as [Hsp Hsps].
  destruct (run_schedule' sp s) as [r s'] eqn:E.
  pose proof (run_schedule_ok sp s Hsp Hs) as Hs'. rewrite E in Hs'. simpl in Hs'.
  assert (state (task (save_current sp s) j) = Ready) as Hr1 by (by rewrite save_current_other).
  destruct (save_current_same sp s) as (Hc & Hi1 & _ & Hl & _).
  destruct (run_schedule_cases sp s r s' Hs Hi E) as [(d0 & Hd0 & Hrd & Hbefore & Hsw)|(Hnone & _)].
  2:{ by specialize (Hnone j Hj). }
  assert (d0 <= d)%nat as Hle.
  { destruct (decide (d0 <= d)%nat); [done|]. exfalso. apply (Hbefore d); [lia|]. by rewrite Ed. }
  pose proof (slot_after_lt (CURRENT_TASK s) d0) as Hlt.
  destruct (switch_to_spec (CURRENT_TASK s) _ _ r s' (so_len _ (save_current_ok sp s Hs Hi)) (so_cur _ Hs) Hlt Hrd Hsw)
    as (_ & E2 & E3 & E4 & E5 & _ & _).
  destruct (decide (d0 = d)) as [->|Hnd].
  - exists 1%nat. split; [lia|]. unfold ticks. cbn [take fold_left]. rewrite take_0. cbn [fold_left].
    rewrite E. cbn [snd]. rewrite Ed in E2, E5. split; [done|]. by rewrite E5, decide_True.
  - assert (j <> slot_after (CURRENT_TASK s) d0) as Hj0 by (rewrite <- Ed; apply slot_after_inj; lia).
    destruct (IH (d - d0)%nat s' sps) as (k & Hk & H1 & H2); try done; try lia.
    + by rewrite E3, Hi1.
    + by rewrite E5, decide_False, decide_False by done.
    + by rewrite E2, slot_after_diff by done.
    + exists (S k). split; [lia|]. unfold ticks in *. cbn [take fold_left]. rewrite E. done.
Qed.

(** C26: round-robin scheduling does not starve anyone: a task that is ready is running after
    at most three timer ticks, whatever the other tasks are. *)
Theorem scheduler_fair s j sps
  (Hs : sched_ok s) (Hi : TASK_INITIALIZED s = true) (Hj : (j < MAX_TASKS)%nat)
  (Hready : state (task s j) = Ready) (Hne : j <> CURRENT_TASK s)
  (Hsps : Forall (fun sp => sp <> 0) sps) (Hlen : (3 <= length sps)%nat) :
  exists k, (1 <= k <= 3)%nat /\
    CURRENT_TASK (ticks (take k sps) s) = j /\ state (task (ticks (take k sps) s) j) = Running.
Proof.
  destruct (slot_after_all (CURRENT_TASK s) j (so_cur _ Hs) Hj) as (d & Hd & Ed).
  pose proof (so_cur _ Hs) as Hc. unfold MAX_TASKS in Hc, Hd.
  assert (d <> 4)%nat as Hd4.
  { intros ->. apply Hne. rewrite <- Ed. unfold slot_after, MAX_TASKS.
    replace (CURRENT_TASK s + 4)%nat with (CURRENT_TASK s + 1 * 4)%nat by lia.
    rewrite Nat.Div0.mod_add. by apply Nat.mod_small. }
  destruct (fair_step d j d s sps) as (k & Hk & H); try done; try (unfold MAX_TASKS; lia); try lia.
  exists k. split; [lia|done].
Qed.

(** Teardown reads memory only, whatever the root register holds. *)
Lemma free_with_root (A : PageArch) root r (m : machine P) :
  pmm (free_process_page_table root (with_root r m)) = pmm (free_process_page_table root m) /\
  root_reg (free_process_page_table root m) = root_reg m.
Proof.
  split; [|reflexivity]. unfold free_process_page_table, for_present, present_entry.
  cbn [pmm with_pmm mem hhdm with_root]. reflexivity.
Qed.


(** a message sent to a live task with an empty mailbox is delivered exactly once and
    unchanged: after `send_message` a blocked receiver is ready again, no other
    task is touched, a second message is refused until the first is taken, and when the
    receiver runs, `receive_message` returns the message with its sender and empties
    the mailbox. *)
Theorem message_delivery s dest msg
  (Hs : sched_ok s) (Hd : (dest < MAX_TASKS)%nat) (Hlive : state (task s dest) <> Terminated)
  (Hempty : mailbox (task s dest) = None) :
  exists s', send_message (Z.of_nat dest) msg s = (Ok tt, s') /\
  let m := {| sender_id := current_task_id s; data := msg |} in
  mailbox (task s' dest) = Some m /\ state (task s' dest) <> Blocked /\
  (forall j, j <> dest -> task s' j = task s j) /\
  (forall msg', fst (send_message (Z.of_nat dest) msg' s') = Err "Destination mailbox is full"%string) /\
  (forall s'', TASKS s'' = TASKS s' -> CURRENT_TASK s'' = dest ->
     exists s3, receive_message s'' = (Some m, false, s3) /\ mailbox (task s3 dest) = None).
Proof.
  set (m := {| sender_id := current_task_id s; data := msg |}).
  set (t := with_mailbox (Some m) (task s dest)).
  set (t' := if bool_decide (state t = Blocked) then with_state Ready t else t).
  assert (dest < length (TASKS s))%nat as Hlt by (by rewrite (so_len _ Hs)).
  assert (send_message (Z.of_nat dest) msg s = (Ok tt, set_task dest t' s)) as Hsend.
  { unfold send_message. rewrite (find_dest s dest Hs Hd Hlive), Hempty. done. }
  assert (mailbox t' = Some m /\ state t' <> Blocked /\ state t' <> Terminated /\ id t' = Z.of_nat dest) as (F1 & F2 & F3 & F4).
  { pose proof (so_id _ Hs dest Hlive). unfold t'.
    destruct (bool_decide_reflect (state t = Blocked)); split_and!; done. }
  pose proof (task_set_eq s dest t' Hlt) as Et.
  assert (forall j, (j < dest)%nat -> id (task (set_task dest t' s) j) <> Z.of_nat dest) as Hbefore.
  { intros j Hj. rewrite task_set_ne by lia. destruct (so_id0 _ Hs j) as [->| ->]; lia. }
  exists (set_task dest t' s). split; [exact Hsend|]. split_and!.
  - by rewrite Et.
  - by rewrite Et.
  - intros j Hj. by rewrite task_set_ne.
  - intros msg'. unfold send_message.
    rewrite (find_task_hit (set_task dest t' s) _ dest); [by rewrite Et, F1|by rewrite length_set_task| |].
    + rewrite Et, F4, Z.eqb_refl, bool_decide_eq_false_2 by done. done.
    + intros j Hj. by rewrite (proj2 (Z.eqb_neq _ _) (Hbefore j Hj)).
  - intros s'' HT HC. assert (forall j, task s'' j = task (set_task dest t' s) j) as Hts by (intros j; unfold task; by rewrite HT).
    unfold receive_message, current_task_id. rewrite HC.
    rewrite (find_task_hit s'' _ dest).
    + rewrite Hts, Et, F1. eexists. split; [done|]. rewrite task_set_eq; [done|]. rewrite HT, length_set_task. done.
    + by rewrite HT, length_set_task.
    + by rewrite Hts, Et, F4, Z.eqb_refl.
    + intros j Hj. rewrite Hts. by apply Z.eqb_neq, Hbefore.
Qed.

(** when all task slots are taken, spawning an isolated process leaks its page table: `spawn`
    has already created the table, reports failure, and neither releases it nor records it in
    any task. *)
Theorem spawn_full_leaks entry ust s r m'
  (Hfull : Forall (fun t => state t <> Terminated) (TASKS s))
  (Hcreate : create_process_page_table kernel_root (vm s) = (Some r, m')) :
  exists s', spawn' entry IsolatedProcess ust s = (false, s') /\ TASKS s' = TASKS s /\ vm s' = m'.
Proof.
  unfold spawn, allocate_isolated_page_table. rewrite Hcreate. unfold register.
  change (TASKS (with_vm m' s)) with (TASKS s). rewrite (proj2 (find_slot_none (TASKS s) 0) Hfull). by eexists.
Qed.

(** the entry point of the first task ever spawned is never reached: `spawn` marks slot 0
    as running although the boot code is what is executing, so the first timer tick saves
    the boot code's stack pointer over the one that leads to the entry frame. *)
Theorem first_spawn_entry_lost entry m sp
  (Hsp : sp <> 0) (Hframe : sp <> frame_ptr stack_base 0) (Hnz : frame_ptr stack_base 0 <> 0) :
  let s1 := snd (spawn' entry SharedThread 0 (boot_sched m)) in
  let '(r, s2) := run_schedule' sp s1 in
  Task.sp (task s1 0) = frame_ptr stack_base 0 /\
  r = sp /\ forall i, Task.sp (task s2 i) <> frame_ptr stack_base 0.
Proof.
  cbn zeta. set (s1 := snd (spawn' entry SharedThread 0 (boot_sched m))).
  assert (sched_ok s1) as Hs1 by (apply register_ok, boot_ok).
  assert (task s1 0 = with_state Running (fresh_task Task_empty 0 SharedThread (root_reg m) false 0)) as E0 by done.
  assert (forall i, i <> 0%nat -> task s1 i = Task_empty) as Ei by (by intros [|[|[|[|[]]]]]).
  assert (run_schedule' sp s1 = (sp, snd (run_schedule' sp s1)) /\
    forall i, task (snd (run_schedule' sp s1)) i =
      if decide (i = 0%nat) then with_sp sp (task s1 0) else Task_empty) as [E1 E2].
  { destruct (run_schedule' sp s1) as [r s2] eqn:E.
    destruct (save_current_same sp s1) as (Hc & _ & _ & _ & _).
    assert (task (save_current sp s1) 0 = with_state Ready (with_sp sp (task s1 0))) as Es.
    { pose proof (save_current_cur sp s1 Hs1) as H. cbn zeta in H. change (CURRENT_TASK s1) with 0%nat in H.
      rewrite E0 in H. by rewrite (proj2 (Z.eqb_neq _ _) Hsp), bool_decide_eq_true_2 in H. }
    assert (forall i, i <> 0%nat -> task (save_current sp s1) i = Task_empty) as Eso.
    { intros i Hi. rewrite save_current_other by done. by apply Ei. }
    destruct (run_schedule_cases sp s1 r s2 Hs1 eq_refl E) as [(d & Hd & Hr & _ & Hsw)|(Hn & _)].
    2:{ exfalso. apply (Hn 0%nat); [unfold MAX_TASKS; lia|]. by rewrite Es. }
    change (CURRENT_TASK s1) with 0%nat in *.
    assert (slot_after 0 d = 0%nat) as Ez.
    { destruct (decide (slot_after 0 d = 0%nat)); [done|]. by rewrite Eso in Hr. }
    rewrite Ez in *.
    destruct (switch_to_spec 0 0 _ r s2 (so_len _ (save_current_ok sp s1 Hs1 eq_refl)) ltac:(unfold MAX_TASKS; lia)
      ltac:(unfold MAX_TASKS; lia) Hr Hsw) as (-> & _ & _ & _ & F & _ & _).
    split; [by rewrite Es|]. intros i. simpl. rewrite F. destruct (decide (i = 0%nat)) as [->|Hi]; [by rewrite Es, E0|].
    by apply Eso. }
  rewrite E1. split; [by rewrite E0|]. split; [done|]. intros i. rewrite E2. destruct (decide _); [by apply Hframe|].
  intros E. apply Hnz. by rewrite <- E.
Qed.
End correct.

(** ** Concrete runs *)
Definition demo_sb (i : nat) : Z := 0x100000 + 0x4000 * Z.of_nat i.
Definition demo_ksb (i : nat) : Z := 0x102000 + 0x4000 * Z.of_nat i.

(** Two kernel threads spawned at boot; the boot code runs in slot 0. *)
Definition demo_sched : sched bitmap :=
  snd (spawn demo_sb 0 0x5000 SharedThread 0 (snd (spawn demo_sb 0 0x4000 SharedThread 0 (boot_sched demo_machine)))).

Lemma demo_sched_run : rtc (sched_step demo_sb demo_ksb 0) (boot_sched demo_machine) demo_sched.
Proof.
  eapply rtc_l; [apply (st_spawn demo_sb demo_ksb 0 0x4000 SharedThread 0); by left|].
  eapply rtc_l; [apply (st_spawn demo_sb demo_ksb 0 0x5000 SharedThread 0); by right|]. apply rtc_refl.
Qed.

Lemma demo_sched_ok : sched_ok demo_sched.
Proof.
  apply (sched_step_ok demo_sb demo_ksb 0 (snd (spawn demo_sb 0 0x4000 SharedThread 0 (boot_sched demo_machine)))).
  - apply (st_spawn demo_sb demo_ksb 0 0x5000 SharedThread 0). by right.
  - apply (sched_step_ok demo_sb demo_ksb 0 (boot_sched demo_machine)); [|apply boot_ok].
    apply (st_spawn demo_sb demo_ksb 0 0x4000 SharedThread 0). by left.
Qed.

Lemma scheduler_invariant_witness : (CURRENT_TASK demo_sched < MAX_TASKS)%nat.
Proof. exact (proj1 (scheduler_invariant demo_sb demo_ksb 0 demo_machine demo_sched demo_sched_run)). Defined.

Lemma scheduler_fair_witness :
  exists k, (1 <= k <= 3)%nat /\ CURRENT_TASK (ticks demo_ksb (take k [0x9000; 0x9100; 0x9200]) demo_sched) = 1%nat.
Proof.
  destruct (scheduler_fair demo_ksb demo_sched 1 [0x9000; 0x9100; 0x9200] demo_sched_ok) as (k & Hk & H & _);
    [reflexivity|unfold MAX_TASKS; lia|reflexivity|done|repeat constructor; done|simpl; lia|].
  exists k. split; [exact Hk|exact H].
Defined.


Lemma message_delivery_witness :
  exists s', send_message 1 [1; 2; 3] demo_sched = (Ok tt, s') /\
    mailbox (task s' 1) = Some {| sender_id := 0; data := [1; 2; 3] |}.
Proof.
  destruct (message_delivery demo_sched 1 [1; 2; 3] demo_sched_ok ltac:(unfold MAX_TASKS; lia) ltac:(done) eq_refl)
    as (s' & E & H & _).
  exists s'. split; [exact E|exact H].
Defined.

(** All four slots taken. *)
Definition full_sched : sched bitmap :=
  snd (spawn demo_sb 0 0x7000 SharedThread 0 (snd (spawn demo_sb 0 0x6000 SharedThread 0 demo_sched))).

Lemma spawn_full_leaks_witness :
  exists s', spawn demo_sb 0 0x8000 IsolatedProcess 0 full_sched = (false, s') /\ TASKS s' = TASKS full_sched /\
    used (pmm (vm full_sched)) 8 = false /\ used (pmm (vm s')) 8 = true.
Proof.
  assert (fst (create_process_page_table (KernelArch := kernel_x86_64) 0 (vm full_sched)) = Some 0x8000) as E
    by (vm_compute; reflexivity).
  destruct (spawn_full_leaks (KA := kernel_x86_64) demo_sb demo_ksb 0 0x8000 0 full_sched 0x8000
    (snd (create_process_page_table (KernelArch := kernel_x86_64) 0 (vm full_sched)))) as (s' & E1 & E2 & E3).
  - repeat constructor; discriminate.
  - exact (split_call _ _ E).
  - exists s'. split; [exact E1|]. split; [exact E2|]. rewrite E3. vm_compute. done.
Defined.

Lemma first_spawn_entry_lost_witness :
  let s1 := snd (spawn demo_sb 0 0x4000 SharedThread 0 (boot_sched demo_machine)) in
  fst (run_schedule demo_ksb 0x9000 s1) = 0x9000.
Proof.
  intros s1.
  pose proof (first_spawn_entry_lost demo_sb demo_ksb 0 0x4000 demo_machine 0x9000
    ltac:(done) ltac:(vm_compute; done) ltac:(vm_compute; done)) as H.
  cbv zeta in H. fold s1 in H. destruct (run_schedule demo_ksb 0x9000 s1) as [r s2]. exact (proj1 (proj2 H)).
Defined.
