(* ===== verification/Syscall.v ===== *)
(** System calls (src/src/syscall.rs) and the `uname` record (src/src/version.rs). *)
From S2P Require Import Prelude Pmm Vmm Ring Uart Fd Task.

Definition SYS_READ : Z := 0.
Definition SYS_WRITE : Z := 1.
Definition SYS_MUNMAP : Z := 11.
Definition SYS_EXIT : Z := 60.
Definition SYS_UNAME : Z := 63.

(** ** `version::UtsName` *)

Definition OS_NAME : list Z := bytes_of "mitosOS".
Definition OS_NODENAME : list Z := bytes_of "mitos".

(** `copy_str`: the bytes of [dst] after the call. *)
Definition copy_str (dst src : list Z) : list Z :=
  let len := Nat.min (length src) (length dst - 1) in
  <[len := 0]> (take len src ++ drop len dst).

Record UtsName := {
  sysname : list Z; nodename : list Z; release : list Z;
  version : list Z; machine_ : list Z; domainname : list Z
}.

Definition UtsName_new : UtsName :=
  let z := replicate 65 0 in
  {| sysname := z; nodename := z; release := z; version := z; machine_ := z; domainname := z |}.

(** [OS_VERSION] is `env!("CARGO_PKG_VERSION")`, [OS_ARCH] depends on the target. *)
Definition populate (OS_VERSION OS_ARCH : list Z) (u : UtsName) : UtsName :=
  {| sysname := copy_str (sysname u) OS_NAME; nodename := copy_str (nodename u) OS_NODENAME;
     release := copy_str (release u) OS_VERSION; version := copy_str (version u) OS_VERSION;
     machine_ := copy_str (machine_ u) OS_ARCH; domainname := copy_str (domainname u) (bytes_of "(none)") |}.

Definition uts_bytes (u : UtsName) : list Z :=
  sysname u ++ nodename u ++ release u ++ version u ++ machine_ u ++ domainname u.
Definition uts_of (b : list Z) : UtsName :=
  {| sysname := sub_slice b 0 65; nodename := sub_slice b 65 130; release := sub_slice b 130 195;
     version := sub_slice b 195 260; machine_ := sub_slice b 260 325; domainname := sub_slice b 325 390 |}.
Definition UTS_SIZE : Z := 390.
Definition UTS_ALIGN : Z := 1.

(** ** The kernel as a system call sees it *)
Record kernel (P : Type) := Kernel { ks : sched P; input : ring; console : list Z }.
Arguments Kernel {P}. Arguments ks {P}. Arguments input {P}. Arguments console {P}.

(** How a system call ends: a return value, the end of the calling task, or a fault on a
    pointer that does not translate. *)
Inductive sysres := SysRet (v : Z) | SysExit | SysFault.

Section syscalls.
Context {P : Type} `{FA : FrameAllocator P} `{KA : !KernelArch P}.
Context (OS_VERSION OS_ARCH : list Z).
Implicit Types k : kernel P.

Definition with_ks (s : sched P) k : kernel P := Kernel s (input k) (console k).
Definition with_kmem (f : mem_t) k : kernel P := with_ks (with_vm (with_mem f (vm (ks k))) (ks k)) k.

(** Memory as the running code sees it, through the live page table. *)
Definition vread (m : machine P) (v : Z) : option Z :=
  match translate_addr (root_reg m) v m with
  | Some pa => Some (mem m (p2v (hhdm m) pa))
  | None => None
  end.

Fixpoint vread_bytes (m : machine P) (v : Z) (n : nat) : option (list Z) :=
  match n with
  | O => Some []
  | S n' => match vread m v, vread_bytes m (v + 1) n' with
            | Some b, Some bs => Some (b :: bs)
            | _, _ => None
            end
  end.

Definition vwrite (m : machine P) (v b : Z) : option (machine P) :=
  match translate_addr (root_reg m) v m with
  | Some pa => Some (with_mem (write_u8 (mem m) (p2v (hhdm m) pa) b) m)
  | None => None
  end.

Fixpoint vwrite_bytes (m : machine P) (v : Z) (bs : list Z) : option (machine P) :=
  match bs with
  | [] => Some m
  | b :: bs' => match vwrite m v b with Some m => vwrite_bytes m (v + 1) bs' | None => None end
  end.

Definition validate_user_ptr (ptr len : Z) (need_write : bool) k : bool :=
  let '(root, ring3) := current_task_access_info (ks k) in
  if negb ring3 then true else validate_user_range root ptr len need_write (vm (ks k)).

Definition sys_write (fd ptr len : Z) k : sysres * kernel P :=
  if (negb (fd =? 1) && negb (fd =? 2)) || (ptr =? 0) || (len =? 0) then (SysRet usize_MAX, k)
  else if negb (validate_user_ptr ptr len false k) then (SysRet usize_MAX, k)
  else match vread_bytes (vm (ks k)) ptr (Z.to_nat len) with
  | None => (SysFault, k)
  | Some bs =>
      if from_utf8_ok bs then (SysRet len, Kernel (ks k) (input k) (write_str bs (console k)))
      else (SysRet usize_MAX, k)
  end.

Definition sys_read (fd ptr len : Z) k : sysres * kernel P :=
  if negb (fd =? 0) || (ptr =? 0) || (len =? 0) then (SysRet usize_MAX, k)
  else if negb (validate_user_ptr ptr len true k) then (SysRet usize_MAX, k)
  else
    let '(bs, r) := drain (Z.to_nat len) (input k) in
    match vwrite_bytes (vm (ks k)) ptr bs with
    | None => (SysFault, k)
    | Some m => (SysRet (Z.of_nat (length bs)), Kernel (with_vm m (ks k)) r (console k))
    end.

Definition sys_uname (ptr : Z) k : sysres * kernel P :=
  if ptr =? 0 then (SysRet usize_MAX, k)
  else if negb (validate_user_ptr ptr UTS_SIZE true k) then (SysRet usize_MAX, k)
  else if negb (ptr mod UTS_ALIGN =? 0) then (SysRet usize_MAX, k)
  else match vread_bytes (vm (ks k)) ptr (Z.to_nat UTS_SIZE) with
  | None => (SysFault, k)
  | Some old =>
      match vwrite_bytes (vm (ks k)) ptr (uts_bytes (populate OS_VERSION OS_ARCH (uts_of old))) with
      | None => (SysFault, k)
      | Some m => (SysRet 0, with_ks (with_vm m (ks k)) k)
      end
  end.

(** The page loop of `sys_munmap`. *)
Fixpoint munmap_pages (n : nat) (root addr stop : Z) (m : machine P) : machine P :=
  match n with
  | O => m
  | S n' =>
      if negb (addr <? stop) then m
      else
        let m := match translate_addr root addr m with
                 | Some phys =>
                     match unmap_page root addr m with
                     | (Ok _, m) => with_pmm (fa_free (pmm m) phys) m
                     | (Err _, m) => m
                     end
                 | None => m
                 end in
        munmap_pages n' root (add64 addr 0x1000) stop m
  end.

Definition sys_munmap (ptr len : Z) k : sysres * kernel P :=
  if negb (Z.land ptr 0xFFF =? 0) || (len =? 0) || negb (Z.land len 0xFFF =? 0) then (SysRet usize_MAX, k)
  else
    let '(root, ring3) := current_task_access_info (ks k) in
    if negb ring3 || negb (validate_user_range root ptr len false (vm (ks k))) then (SysRet usize_MAX, k)
    else
      let stop := add64 ptr len in
      (SysRet 0, with_ks (with_vm (munmap_pages (Z.to_nat (len / 4096) + 1) root ptr stop (vm (ks k))) (ks k)) k).

Definition sys_exit (exit_code : Z) k : sysres * kernel P := (SysExit, with_ks (exit (ks k)) k).

(** The console line of `sys_unknown`; the number is printed in decimal by [show]. *)
Context (show : Z -> list Z).
Definition sys_unknown (sys_num : Z) k : sysres * kernel P :=
  (SysRet usize_MAX,
   Kernel (ks k) (input k)
     (write_str (bytes_of "mitosOS: Unknown syscall number: " ++ show sys_num ++ [10]) (console k))).

Definition syscall_handler (sys_num arg1 arg2 arg3 : Z) k : sysres * kernel P :=
  if sys_num =? SYS_WRITE then sys_write arg1 arg2 arg3 k
  else if sys_num =? SYS_READ then sys_read arg1 arg2 arg3 k
  else if sys_num =? SYS_MUNMAP then sys_munmap arg1 arg2 k
  else if sys_num =? SYS_EXIT then sys_exit arg1 k
  else if sys_num =? SYS_UNAME then sys_uname arg1 k
  else sys_unknown sys_num k.
End syscalls.
