(* ===== verification/SyscallCorrect.v ===== *)
(** What the system calls of [Syscall] may do on behalf of a ring-3 process. *)
From S2P Require Import Prelude Pmm Vmm VmmTheory VmmCorrect VmmUser Ring Uart Fd Elf ElfCorrect Task Syscall.

(** ** Draining the input ring *)
Lemma drain_spec n r :
  ring_ok r -> let '(bs, r') := drain n r in
  bs = take n (contents r) /\ contents r' = drop n (contents r) /\ ring_ok r'.
Proof.
  revert r; induction n as [|n IH]; intros r Hok; simpl; [by rewrite take_0, drop_0|].
  unfold dequeue_byte. pose proof (empty_iff r Hok) as He. pose proof (length_contents r) as Hl.
  destruct (Z.eqb_spec (HEAD r) (TAIL r)) as [E|E].
  - apply He in E. rewrite E in Hl. by destruct (contents r).
  - assert (count r <> 0%nat) as Hc by (intros H0; by apply E, He).
    specialize (IH _ (ring_ok_set_head r Hok)). destruct (drain n _) as [bs r']. destruct IH as (-> & -> & Hok').
    rewrite (contents_consume r Hok Hc). done.
Qed.

(** ** Pages the permission walk accepts translate *)
Section user.
Context `{A : PageArch} `{!PageArchLaws A} {P : Type} `{FA : FrameAllocator P}.
Implicit Types (m : machine P) (U : Z -> bool).

Lemma user_page_unmaps root v w m :
  v mod 4096 = 0 -> page_is_user_accessible root v w m = true -> exists m', unmap_page root v m = (Ok tt, m').
Proof.
  intros Hv. unfold page_is_user_accessible, present_child, unmap_page. rewrite misaligned_spec, Hv. cbn [Z.eqb negb].
  repeat (destruct (is_present (read_u64 _ _)); [|done]; cbn [negb andb]). by eauto.
Qed.

Lemma user_page_translates U root v w m :
  pt_inv U root m -> U (table_idx v 39) = true -> v mod 4096 = 0 -> page_is_user_accessible root v w m = true ->
  exists f, page f /\ forall off, 0 <= off < 4096 -> translate_addr root (v + off) m = Some (f + off).
Proof.
  intros I Hu Hv Hp. destruct (user_page_unmaps root v w m Hv Hp) as [m' Eu].
  destruct (unmap_page_inv U root v m I Hu Hv) as [(t & W & Hpr & _)|[_ E]]; [|congruence].
  destruct (pa_page (entry m t (table_idx v 12))) as [Hp1 Hp2].
  exists (physical_address (entry m t (table_idx v 12))). split.
  - split; [done|split; [lia|change (2 ^ 64) with (2 ^ 52 * 2 ^ 12); lia]].
  - intros off Ho. destruct (page_idx_offset v off Hv Ho) as [E1 E2].
    rewrite translate_tr, E1, vpath_tpath, (tr_leaf _ _ _ _ _ t W), Hpr, E2. f_equal.
    apply u64_small. split; [lia|]. change (2 ^ 64) with (2 ^ 52 * 2 ^ 12). lia.
Qed.
(** The translation of an aligned address whose leaf entry is present. *)
Lemma leaf_translation root v t m :
  v mod 4096 = 0 -> walk m root 0 (tpath v) = Some t -> is_present (entry m t (table_idx v 12)) = true ->
  translate_addr root v m = Some (physical_address (entry m t (table_idx v 12))).
Proof.
  intros Hv W Hpr. rewrite translate_tr, vpath_tpath, (tr_leaf _ _ _ _ _ t W), Hpr. f_equal.
  destruct (page_idx_offset v 0 Hv ltac:(lia)) as [_ E2]. rewrite Z.add_0_r in E2. rewrite E2.
  destruct (pa_page (entry m t (table_idx v 12))) as [_ H].
  unfold add64. rewrite Z.add_0_r. apply u64_small. unfold fits. change (2 ^ 64) with (2 ^ 52 * 2 ^ 12). lia.
Qed.

(** An aligned user address translates to an aligned physical address. *)
Lemma user_translation_aligned U root v pa m :
  pt_inv U root m -> U (table_idx v 39) = true -> v mod 4096 = 0 ->
  translate_addr root v m = Some pa -> pa mod 4096 = 0.
Proof.
  intros I Hu Hv Ht. destruct (unmap_page_inv U root v m I Hu Hv) as [(t & W & Hpr & _)|[Hn _]]; [|congruence].
  rewrite (leaf_translation root v t m) in Ht by done. injection Ht as <-. apply pa_page.
Qed.

(** ** Releasing pages *)

(** [a] holds no table of the tree below [root]. *)
Definition not_table root m (a : Z) : Prop := forall q, valid_path q -> walk m root 0 q <> Some a.

Lemma walk_pmm p m q t lvl : walk (with_pmm p m) t lvl q = walk m t lvl q.
Proof.
  revert t lvl; induction q as [|i q IH]; intros t lvl; [done|]. cbn [walk]. unfold entry. cbn [mem hhdm with_pmm].
  destruct (child _ _); [apply IH|done].
Qed.

(** Whether an address translates is decided by its path. *)
Lemma tr_defined m t lvl q v v' : tr m t lvl q v = None -> tr m t lvl q v' = None.
Proof.
  revert t lvl; induction q as [|i q IH]; intros t lvl; [done|]. cbn [tr].
  destruct (is_present _); [|done]. cbn [negb]. destruct q; [done|]. destruct (_ && _); [done|apply IH].
Qed.

Lemma pool_change_inv U root m p :
  pt_inv U root m -> fa_ok p ->
  (forall a, page a -> fa_used (pmm m) a = true -> ~ not_table root m a -> fa_used p a = true) ->
  pt_inv U root (with_pmm p m).
Proof.
  intros [I1 I2 I3 I4 Hused I6 I7 I8] Hok Hk.
  split; try done; intros q *; rewrite ?walk_pmm; [|by eauto..].
  intros Hq Hw. apply Hk; [by eapply walk_page|by eapply Hused|].
  intros Hn. by eapply Hn.
Qed.

(** What one turn of the loop of `sys_munmap` does to the page at [addr]. *)
Definition munmap_one root addr m : machine P :=
  match translate_addr root addr m with
  | Some phys =>
      match unmap_page root addr m with
      | (Ok _, m) => with_pmm (fa_free (pmm m) phys) m
      | (Err _, m) => m
      end
  | None => m
  end.

Record released U root (gone : Z -> Prop) (freed : Z -> Prop) m m' : Prop := {
  rel_inv : pt_inv U root m';
  rel_hhdm : hhdm m' = hhdm m;
  rel_root : root_reg m' = root_reg m;
  rel_gone : forall v, gone (vpn v) -> translate_addr root v m' = None;
  rel_kept : forall v, ~ gone (vpn v) -> translate_addr root v m' = translate_addr root v m;
  rel_table : forall a, not_table root m a -> not_table root m' a;
  rel_used : forall b, page b ->
    fa_used (pmm m') b = true <-> fa_used (pmm m) b = true /\ ~ (freed b /\ fa_freeable (pmm m) b = true);
  rel_freeable : forall b, fa_freeable (pmm m') b = fa_freeable (pmm m) b
}.

Lemma munmap_one_released U root addr m :
  pt_inv U root m -> U (table_idx addr 39) = true -> addr mod 4096 = 0 ->
  (forall f, translate_addr root addr m = Some f -> not_table root m f) ->
  released U root (fun n => n = vpn addr) (fun b => translate_addr root addr m = Some b) m (munmap_one root addr m).
Proof.
  intros I Hu Hv Hnt. unfold munmap_one.
  destruct (unmap_page_inv U root addr m I Hu Hv) as [(t & W & Hpr & ->)|[Hn _]].
  - set (e := entry m t (table_idx addr 12)) in *. set (m1 := set_entry m t (table_idx addr 12) 0).
    assert (fits 64 0) as H0 by done. destruct (pa_page e) as [Hf1 Hf2].
    assert (translate_addr root addr m = Some (physical_address e)) as Et.
    { by apply leaf_translation. }
    rewrite Et in *. specialize (Hnt _ eq_refl). set (f := physical_address e) in *.
    assert (forall q, valid_path q -> walk m1 root 0 q = walk m root 0 q) as Hwk.
    { intros q. apply (leaf_walk U root m (tpath addr)); try done; try apply tpath_valid; apply idx12. }
    destruct (fa_free_spec (pmm m) f (inv_pmm _ _ _ I) Hf1 ltac:(lia)) as (Hok & Hus & Hfr).
    pose proof (set_entry_inv U root m addr t 0 I Hu W H0) as I1. fold m1 in I1.
    split; try done.
    + apply pool_change_inv; [done|done|]. intros a Ha Hau Hta. change (pmm m1) with (pmm m) in *.
      rewrite Hus, Hau by apply Ha. destruct (Z.eqb_spec a f) as [->|]; [|done]. destruct Hta. intros q Hq. rewrite Hwk by done. by apply Hnt.
    + intros v Hg. change (translate_addr root v m1 = None). unfold m1.
      by rewrite (set_entry_tr U root m addr t), decide_True, present_zero.
    + intros v Hne. change (translate_addr root v m1 = translate_addr root v m). unfold m1.
      by rewrite (set_entry_tr U root m addr t), decide_False.
    + intros a Ha q Hq. rewrite walk_pmm, Hwk by done. by apply Ha.
    + intros b Hb. cbn [pmm with_pmm]. change (pmm m1) with (pmm m). rewrite Hus by apply Hb.
      destruct (Z.eqb_spec b f) as [->|Hne]; [destruct (fa_freeable _ f)|];
        rewrite ?andb_true_r; cbn [andb negb]; rewrite ?andb_true_r, ?andb_false_r; naive_solver.
  - rewrite Hn. split; try done.
    + intros v Hg%vpath_vpn. rewrite translate_tr in *. rewrite Hg. by eapply tr_defined.
    + intros b Hb. naive_solver.
Qed.

Lemma released_refl U root m :
  pt_inv U root m -> released U root (fun _ => False) (fun _ => False) m m.
Proof. intros I. split; try done. naive_solver. Qed.

Lemma released_trans U root (g1 g2 f1 f2 : Z -> Prop) m m1 m2 :
  (forall n, Decision (g2 n)) ->
  released U root g1 f1 m m1 -> released U root g2 f2 m1 m2 ->
  released U root (fun n => g1 n \/ g2 n) (fun b => f1 b \/ f2 b) m m2.
Proof.
  intros Hd [I1 H1 R1 G1 K1 T1 U1 F1] [I2 H2 R2 G2 K2 T2 U2 F2]. split; try done; try congruence; try by auto.
  - intros v Hg. destruct (decide (g2 (vpn v))) as [Hv|Hv]; [by apply G2|]. rewrite K2 by done. apply G1. tauto.
  - intros v Hg. rewrite K2, K1; tauto.
  - intros b Hb. rewrite U2, U1, F1 by done. naive_solver.
Qed.

Lemma released_ext U root (g g' f f' : Z -> Prop) m m' :
  (forall n, g n <-> g' n) -> (forall b, page b -> f b <-> f' b) ->
  released U root g f m m' -> released U root g' f' m m'.
Proof.
  intros Hg Hf [I1 H1 R1 G1 K1 T1 U1 F1]. split; try done.
  - intros v Hv. by apply G1, Hg.
  - intros v Hv. apply K1. by rewrite Hg.
  - intros b Hb. by rewrite U1, Hf by done.
Qed.
End user.

Section calls.
Context {P : Type} `{FA : FrameAllocator P} `{KA : !KernelArch P} `{!PageArchLaws ka_page}.
Implicit Types (k : kernel P) (m : machine P).

(** A process whose page table is live, whose tables are private and whose user pages are
    frames of its own. *)
Record user_context k : Prop := {
  uc_ring3 : snd (current_task_access_info (ks k)) = true;
  uc_live : fst (current_task_access_info (ks k)) = root_reg (vm (ks k));
  uc_inv : pt_inv user_half (root_reg (vm (ks k))) (vm (ks k));
  uc_private : forall v pa, USER_SPACE_BASE <= v < 2 ^ 47 ->
    translate_addr (root_reg (vm (ks k))) v (vm (ks k)) = Some pa ->
    foreign (root_reg (vm (ks k))) (vm (ks k)) (pa - pa mod 4096)
}.

(** The byte-wise facts that stores through the user's table preserve. *)
Record store_ok (root : Z) m m' : Prop := {
  sto_inv : pt_inv user_half root m';
  sto_hhdm : hhdm m' = hhdm m;
  sto_root : root_reg m' = root_reg m;
  sto_pmm : pmm m' = pmm m;
  sto_tr : forall v, translate_addr root v m' = translate_addr root v m;
  sto_foreign : forall a, foreign root m a -> foreign root m' a
}.

Lemma vwrite_ok root m v b pa :
  root_reg m = root -> pt_inv user_half root m -> fits 8 b -> translate_addr root v m = Some pa -> 0 <= pa < 2 ^ 64 ->
  foreign root m (pa - pa mod 4096) ->
  exists m', vwrite m v b = Some m' /\ store_ok root m m' /\
    forall x, x <> p2v (hhdm m) pa -> mem m' x = mem m x.
Proof.
  intros Hr I Hb Ht Hpa Hf. unfold vwrite. rewrite Hr, Ht.
  set (m' := with_mem (write_u8 (mem m) (p2v (hhdm m) pa) b) m). exists m'. split; [done|].
  set (f := pa - pa mod 4096) in *. destruct Hf as (Hfp & Hfu & Hnf).
  assert (p2v (hhdm m) pa = p2v (hhdm m) f + pa mod 4096) as Ep.
  { replace pa with (f + pa mod 4096) at 1 by (unfold f; lia). apply p2v_offset; [apply I|done|dlia]. }
  destruct (off_tree user_half root m m' f I) as (I' & _ & Htr & Hfor); try done.
  - intros x. simpl. unfold write_u8. destruct (_ =? _); [done|apply I].
  - apply I.
  - intros a Ha Hne x Hx. unfold m'. cbn [mem with_mem]. unfold write_u8. rewrite Ep.
    destruct (p2v_sep (hhdm m) a f (inv_hhdm _ _ _ I) Ha Hfp Hne); zcases; try done; dlia.
  - split; [by split|]. intros x Hx. unfold m'. cbn [mem with_mem]. unfold write_u8. zcases; done.
Qed.

Lemma store_ok_trans root m1 m2 m3 : store_ok root m1 m2 -> store_ok root m2 m3 -> store_ok root m1 m3.
Proof.
  intros [I1 H1 R1 P1 T1 F1] [I2 H2 R2 P2 T2 F2]. split; [done|congruence|congruence|congruence| |by auto].
  intros v. by rewrite T2.
Qed.

(** A run of stores to translating, private addresses does not fault. *)
Lemma vwrite_bytes_ok root m v bs (ok : Z -> Prop) :
  root_reg m = root -> pt_inv user_half root m -> bytes_ok bs ->
  (forall u, v <= u < v + Z.of_nat (length bs) -> ok u /\ exists pa, translate_addr root u m = Some pa /\
     0 <= pa < 2 ^ 64 /\ foreign root m (pa - pa mod 4096)) ->
  exists m', vwrite_bytes m v bs = Some m' /\ store_ok root m m' /\
    forall x, mem m' x <> mem m x -> exists u pa, ok u /\ v <= u < v + Z.of_nat (length bs) /\
      translate_addr root u m = Some pa /\ x = p2v (hhdm m) pa.
Proof.
  revert m v; induction bs as [|b bs IH]; intros m v Hr I Hbs Hok; simpl.
  { exists m. split; [done|]. split; [by split|done]. }
  apply Forall_cons in Hbs as [Hb Hbs]. simpl in Hok.
  destruct (Hok v ltac:(lia)) as (Hv & pa & Ht & Hpa & Hf).
  destruct (vwrite_ok root m v b pa Hr I Hb Ht Hpa Hf) as (m1 & -> & S1 & M1).
  destruct (IH m1 (v + 1)) as (m' & -> & S2 & M2).
  - by rewrite (sto_root _ _ _ S1).
  - apply S1.
  - done.
  - intros u Hu. destruct (Hok u ltac:(lia)) as (Hu' & pa' & Ht' & Hpa' & Hf').
    split; [done|]. exists pa'. rewrite (sto_tr _ _ _ S1). split_and!; try done; try lia. by apply (sto_foreign _ _ _ S1).
  - exists m'. split; [done|]. split; [by eapply store_ok_trans|]. intros x Hx.
    destruct (decide (x = p2v (hhdm m) pa)) as [->|Hne].
    + exists v, pa. split_and!; try done; lia.
    + rewrite <- M1 in Hx by done. destruct (M2 x Hx) as (u & pa' & Hu & Hr' & Ht' & ->).
      exists u, pa'. rewrite (sto_tr _ _ _ S1) in Ht'. rewrite (sto_hhdm _ _ _ S1). split_and!; try done; lia.
Qed.

(** A buffer the kernel accepts on behalf of a ring-3 process: every address of it lies on a
    page of the asked kind and translates to a byte of a frame of the process. *)
Lemma user_range_backed ptr len w k :
  user_context k -> fits 64 ptr -> fits 64 len -> ptr + len <= 2 ^ 47 -> validate_user_ptr ptr len w k = true ->
  forall u, ptr <= u < ptr + len ->
    page_is_user_accessible (root_reg (vm (ks k))) (u - u mod 4096) w (vm (ks k)) = true /\
    exists pa, translate_addr (root_reg (vm (ks k))) u (vm (ks k)) = Some pa /\ 0 <= pa < 2 ^ 64 /\
      pa mod 4096 = u mod 4096 /\ foreign (root_reg (vm (ks k))) (vm (ks k)) (pa - pa mod 4096).
Proof.
  intros [Hr3 Hlive I Hpriv] Hp Hl Hcanon Hv u Hu. unfold validate_user_ptr in Hv.
  destruct (current_task_access_info (ks k)) as [root ring3]. simpl in Hr3, Hlive. subst ring3 root. cbn [negb] in Hv.
  set (root := root_reg (vm (ks k))) in *. set (m := vm (ks k)) in *.
  apply validate_user_range_spec in Hv as [?|(_ & Hbase & Hpages)]; [lia| |done..]. split; [by apply Hpages|].
  destruct (user_page_translates user_half root (u - u mod 4096) w m I) as (f & Hfp & Htr).
  - apply user_index. assert (USER_SPACE_BASE mod 4096 = 0) by done. dlia.
  - dlia.
  - by apply Hpages.
  - specialize (Htr (u mod 4096) ltac:(dlia)). replace (u - u mod 4096 + u mod 4096) with u in Htr by lia.
    exists (f + u mod 4096). split; [done|]. destruct Hfp as [Hf1 [Hf2 Hf3]].
    split; [split; [dlia|]; change (2 ^ 64) with (4096 * 2 ^ 52) in *; dlia|]. split; [dlia|].
    apply (Hpriv u); [lia|done].
Qed.


(** A run of loads from translating addresses does not fault, and yields the bytes behind
    them. *)
Lemma vread_bytes_ok m n : forall v,
  (forall u, v <= u < v + Z.of_nat n -> exists pa, translate_addr (root_reg m) u m = Some pa) ->
  exists bs, vread_bytes m v n = Some bs /\ length bs = n /\
    forall i, (i < n)%nat -> exists pa, translate_addr (root_reg m) (v + Z.of_nat i) m = Some pa /\ bs !! i = Some (mem m (p2v (hhdm m) pa)).
Proof.
  induction n as [|n IH]; intros v Hv; simpl; [exists []; split_and!; [done|done|lia]|].
  destruct (Hv v ltac:(lia)) as [pa Hpa]. unfold vread. rewrite Hpa.
  destruct (IH (v + 1)) as (bs & -> & Hl & Hbs); [intros u Hu; apply Hv; lia|].
  eexists. split; [reflexivity|]. split; [simpl; lia|]. intros [|i] Hi.
  - exists pa. by rewrite Z.add_0_r.
  - destruct (Hbs i ltac:(lia)) as (pa' & Ht & E). exists pa'. split; [|exact E]. rewrite <- Ht. f_equal. lia.
Qed.

(** `sys_write` on behalf of a ring-3 process leaks nothing of the kernel and never faults:
    it returns -1 and changes nothing, or it sends to the console exactly the bytes of the
    caller's buffer, all of them valid UTF-8 and behind user pages of the caller's own
    page table, and returns their number; nothing but the console changes. *)
Theorem sys_write_confined fd ptr len k
  (Huc : user_context k) (Hp : fits 64 ptr) (Hl : fits 64 len) (Hcanon : ptr + len <= 2 ^ 47) :
  exists r k', sys_write fd ptr len k = (SysRet r, k') /\ ks k' = ks k /\ input k' = input k /\
  ((r = usize_MAX /\ k' = k) \/
   ((fd = 1 \/ fd = 2) /\ r = len /\ exists bs, from_utf8_ok bs = true /\ length bs = Z.to_nat len /\
    console k' = write_str bs (console k) /\
    forall i, (i < length bs)%nat -> exists pa,
      page_is_user_accessible (root_reg (vm (ks k))) (ptr + Z.of_nat i - (ptr + Z.of_nat i) mod 4096) false (vm (ks k)) = true /\
      translate_addr (root_reg (vm (ks k))) (ptr + Z.of_nat i) (vm (ks k)) = Some pa /\
      bs !! i = Some (mem (vm (ks k)) (p2v (hhdm (vm (ks k))) pa)))).
Proof.
  unfold sys_write. destruct (_ || (len =? 0)) eqn:Eg; [by eexists _, _; eauto 6|].
  assert (fd = 1 \/ fd = 2) as Hfd by (rewrite !orb_false_iff, andb_false_iff, !negb_false_iff, !Z.eqb_eq in Eg; tauto).
  destruct (validate_user_ptr ptr len false k) eqn:Ev; cbn [negb]; [|by eexists _, _; eauto 6].
  pose proof (user_range_backed ptr len false k Huc Hp Hl Hcanon Ev) as Hback.
  destruct (vread_bytes_ok (vm (ks k)) (Z.to_nat len) ptr) as (bs & -> & Hlen & Hbs).
  { intros u Hu. destruct (Hback u ltac:(lia)) as (_ & pa & Ht & _). by eauto. }
  destruct (from_utf8_ok bs) eqn:Eu; [|by eexists _, _; eauto 6]. eexists _, _. split; [reflexivity|].
  split_and!; [done|done|]. right. split_and!; [done|done|]. exists bs. split_and!; [done|done|done|]. intros i Hi.
  destruct (Hbs i ltac:(lia)) as (pa & Ht & E). exists pa. split_and!; [|done|done]. apply Hback. lia.
Qed.

(** Bytes at different offsets in their pages are different bytes of memory. *)
Lemma p2v_offsets_apart h a a' :
  page h -> page (a - a mod 4096) -> page (a' - a' mod 4096) -> a mod 4096 <> a' mod 4096 -> p2v h a <> p2v h a'.
Proof.
  intros Hh Ha Ha' Hne. rewrite <- (Z.sub_add (a mod 4096) a) at 1. rewrite <- (Z.sub_add (a' mod 4096) a') at 1.
  rewrite !p2v_offset by (done || dlia). destruct (decide (a - a mod 4096 = a' - a' mod 4096)) as [E|E]; [rewrite E; lia|].
  destruct (p2v_sep h _ _ Hh Ha Ha' E); dlia.
Qed.

(** What is stored through the table within one page's length is read back through it. *)
Lemma vwrite_bytes_reads root bs : forall m m' v,
  root_reg m = root -> pt_inv user_half root m -> bytes_ok bs -> (length bs <= 4096)%nat ->
  (forall u, v <= u < v + Z.of_nat (length bs) -> exists pa, translate_addr root u m = Some pa /\
     0 <= pa < 2 ^ 64 /\ pa mod 4096 = u mod 4096 /\ foreign root m (pa - pa mod 4096)) ->
  vwrite_bytes m v bs = Some m' -> vread_bytes m' v (length bs) = Some bs.
Proof.
  induction bs as [|b bs IH]; intros m m' v Hr I Hbs Hlen Hok Ew; [done|].
  apply Forall_cons in Hbs as [Hb Hbs]. simpl in Hlen, Hok. destruct (Hok v ltac:(lia)) as (pa & Ht & Hpa & Hmod & Hf).
  destruct (vwrite_ok root m v b pa Hr I Hb Ht Hpa Hf) as (m1 & E1 & S1 & _). cbn [vwrite_bytes] in Ew. rewrite E1 in Ew.
  assert (mem m1 (p2v (hhdm m) pa) = b) as Hm1.
  { unfold vwrite in E1. rewrite Hr, Ht in E1. injection E1 as <-. cbn [mem with_mem]. unfold write_u8. by rewrite Z.eqb_refl. }
  assert (forall u, v + 1 <= u < v + 1 + Z.of_nat (length bs) -> exists pa, translate_addr root u m1 = Some pa /\
     0 <= pa < 2 ^ 64 /\ pa mod 4096 = u mod 4096 /\ foreign root m1 (pa - pa mod 4096)) as Hok1.
  { intros u Hu. destruct (Hok u ltac:(lia)) as (pa' & Ht' & Hpa' & Hmod' & Hf'). exists pa'.
    rewrite (sto_tr _ _ _ S1). split_and!; try done; try lia. by apply (sto_foreign _ _ _ S1). }
  assert (root_reg m1 = root) as Hr1 by (by rewrite (sto_root _ _ _ S1)).
  destruct (vwrite_bytes_ok root m1 (v + 1) bs (fun u => v + 1 <= u < v + 1 + Z.of_nat (length bs)) Hr1 (sto_inv _ _ _ S1) Hbs) as (m2 & E2 & S2 & M2).
  { intros u Hu. destruct (Hok1 u Hu) as (pa' & ? & ? & _ & ?). by eauto. }
  assert (m2 = m') as -> by congruence. cbn [vread_bytes length]. unfold vread.
  rewrite (sto_root _ _ _ S2), Hr1, (sto_tr _ _ _ S2), (sto_tr _ _ _ S1), Ht, (sto_hhdm _ _ _ S2), (sto_hhdm _ _ _ S1).
  rewrite (IH m1 m' (v + 1)) by (done || apply S1 || lia). do 2 f_equal.
  destruct (decide (mem m' (p2v (hhdm m) pa) = mem m1 (p2v (hhdm m) pa))) as [->|Hne]; [done|].
  destruct (M2 _ Hne) as (u & pa' & Hu & _ & Ht' & Ex). destruct (Hok1 u Hu) as (pa'' & Ht'' & _ & Hmod' & Hf').
  rewrite Ht' in Ht''. injection Ht'' as <-. rewrite (sto_hhdm _ _ _ S1) in Ex.
  destruct (p2v_offsets_apart (hhdm m) pa pa'); [apply I|apply Hf|apply Hf'|dlia|done].
Qed.

(** *** The `uname` record *)

(** The string a C program sees in a field. *)
Fixpoint cstr (l : list Z) : list Z := match l with [] => [] | b :: l' => if b =? 0 then [] else b :: cstr l' end.
Definition fields (u : UtsName) : list (list Z) := [sysname u; nodename u; release u; version u; machine_ u; domainname u].

Lemma cstr_app s l : Forall (fun b => b <> 0) s -> cstr (s ++ 0 :: l) = s.
Proof. induction 1 as [|b s Hb _ IH]; [done|]. simpl. apply Z.eqb_neq in Hb. by rewrite Hb, IH. Qed.

Lemma copy_str_shape dst src : dst <> [] ->
  exists tl, copy_str dst src = take (length dst - 1) src ++ 0 :: tl /\ length (copy_str dst src) = length dst /\ (bytes_ok dst -> bytes_ok tl).
Proof.
  intros Hd. unfold copy_str. set (n := Nat.min (length src) (length dst - 1)).
  assert (0 < length dst)%nat by (destruct dst; simpl; [done|lia]).
  destruct (drop n dst) as [|x tl] eqn:Ed; [apply (f_equal length) in Ed; rewrite length_drop in Ed; simpl in Ed; lia|].
  assert (take n src = take (length dst - 1) src) as Et.
  { unfold n. destruct (Nat.le_gt_cases (length src) (length dst - 1)); [rewrite Nat.min_l, !take_ge by lia; done|by rewrite Nat.min_r by lia]. }
  assert (length (take n src) = n) as Ln by (rewrite length_take; lia).
  exists tl. rewrite <- Et. split_and!.
  - rewrite insert_app_r_alt by lia. by rewrite Ln, Nat.sub_diag.
  - rewrite length_insert, length_app, Ln, <- Ed, length_drop. lia.
  - intros Hb. apply (Forall_drop _ n) in Hb. rewrite Ed in Hb. by apply Forall_cons in Hb as [_ Hb].
Qed.

Lemma uts_of_bytes u : Forall (fun f => length f = 65%nat) (fields u) -> uts_of (uts_bytes u) = u.
Proof.
  destruct u as [a b c d e f]. unfold fields. rewrite !Forall_cons. intros (Ha & Hb & Hc & Hd & He & Hf & _). cbn in Ha, Hb, Hc, Hd, He, Hf.
  unfold uts_of, uts_bytes, sub_slice. cbn [sysname nodename release version machine_ domainname].
  f_equal; [apply (sub_slice_mid _ [] a (b ++ c ++ d ++ e ++ f))|apply (sub_slice_mid _ a b (c ++ d ++ e ++ f))
    |apply (sub_slice_mid _ (a ++ b) c (d ++ e ++ f))|apply (sub_slice_mid _ (a ++ b ++ c) d (e ++ f))
    |apply (sub_slice_mid _ (a ++ b ++ c ++ d) e f)|apply (sub_slice_mid _ (a ++ b ++ c ++ d ++ e) f [])];
    rewrite ?length_app, ?Ha, ?Hb, ?Hc, ?Hd, ?He, ?Hf; try done; by rewrite ?app_nil_r, <- ?app_assoc.
Qed.

(** The strings of the record after `populate`, each cut to 64 bytes. *)
Lemma populate_fields OS_VERSION OS_ARCH u :
  Forall (fun b => b <> 0) OS_VERSION -> Forall (fun b => b <> 0) OS_ARCH ->
  Forall (fun f => length f = 65%nat) (fields u) ->
  let u' := populate OS_VERSION OS_ARCH u in
  Forall (fun f => length f = 65%nat) (fields u') /\
  map cstr (fields u') = map (take 64) [OS_NAME; OS_NODENAME; OS_VERSION; OS_VERSION; OS_ARCH; bytes_of "(none)"].
Proof.
  intros Hv Ha Hu. assert (forall dst src, length dst = 65%nat -> Forall (fun b => b <> 0) src ->
    length (copy_str dst src) = 65%nat /\ cstr (copy_str dst src) = take 64 src) as Hcopy.
  { intros dst src Hl Hs. destruct (copy_str_shape dst src) as (tl & E & Hlen & _); [by intros ->|].
    rewrite Hlen, Hl. split; [done|]. rewrite E, Hl. by apply cstr_app, Forall_take. }
  unfold fields in *. rewrite !Forall_cons in Hu. destruct Hu as (H1 & H2 & H3 & H4 & H5 & H6 & _).
  destruct (Hcopy _ OS_NAME H1 ltac:(by repeat constructor)) as [L1 E1]. destruct (Hcopy _ OS_NODENAME H2 ltac:(by repeat constructor)) as [L2 E2].
  destruct (Hcopy _ OS_VERSION H3 Hv) as [L3 E3]. destruct (Hcopy _ OS_VERSION H4 Hv) as [L4 E4].
  destruct (Hcopy _ OS_ARCH H5 Ha) as [L5 E5]. destruct (Hcopy _ (bytes_of "(none)") H6 ltac:(by repeat constructor)) as [L6 E6].
  cbn [populate sysname nodename release version machine_ domainname map]. rewrite E1, E2, E3, E4, E5, E6. split; [by repeat constructor|done].
Qed.

Lemma populate_bytes OS_VERSION OS_ARCH u :
  bytes_ok OS_VERSION -> bytes_ok OS_ARCH -> Forall (fun f => length f = 65%nat /\ bytes_ok f) (fields u) ->
  bytes_ok (uts_bytes (populate OS_VERSION OS_ARCH u)).
Proof.
  intros Hv Ha Hu. assert (forall dst src, length dst = 65%nat /\ bytes_ok dst -> bytes_ok src -> bytes_ok (copy_str dst src)) as Hcopy.
  { intros dst src [Hl Hd] Hs. destruct (copy_str_shape dst src) as (tl & -> & _ & Htl); [by intros ->|].
    apply Forall_app. split; [by apply Forall_take|]. constructor; [done|by apply Htl]. }
  unfold fields in Hu. rewrite !Forall_cons in Hu. destruct Hu as (H1 & H2 & H3 & H4 & H5 & H6 & _).
  unfold uts_bytes, bytes_ok. rewrite !Forall_app. split_and!; apply Hcopy; try done; by apply bytes_ok_dec.
Qed.

Lemma uts_of_fields bs : length bs = 390%nat -> bytes_ok bs -> Forall (fun f => length f = 65%nat /\ bytes_ok f) (fields (uts_of bs)).
Proof.
  intros Hl Hb. unfold fields, uts_of. cbn [sysname nodename release version machine_ domainname].
  rewrite !Forall_cons. split_and!; try (by apply bytes_ok_sub_slice); try (apply Nat2Z.inj; rewrite length_sub_slice; lia). by constructor.
Qed.

(** `sys_uname` on behalf of a ring-3 process: it never faults; it returns -1 and changes
    nothing, or it returns 0, the buffer then holds, as C strings cut to 64 bytes, the six
    names, and the only memory that changed lies behind user-writable pages of the 390
    bytes at the pointer. *)
Theorem sys_uname_fills OS_VERSION OS_ARCH ptr k
  (Huc : user_context k) (Hp : fits 64 ptr) (Hcanon : ptr + UTS_SIZE <= 2 ^ 47)
  (Hv : bytes_ok OS_VERSION /\ Forall (fun b => b <> 0) OS_VERSION) (Ha : bytes_ok OS_ARCH /\ Forall (fun b => b <> 0) OS_ARCH) :
  exists r k', sys_uname OS_VERSION OS_ARCH ptr k = (SysRet r, k') /\ input k' = input k /\ console k' = console k /\
  ((r = usize_MAX /\ k' = k) \/
   (r = 0 /\
    (exists bs, vread_bytes (vm (ks k')) ptr (Z.to_nat UTS_SIZE) = Some bs /\
      map cstr (fields (uts_of bs)) = map (take 64) [OS_NAME; OS_NODENAME; OS_VERSION; OS_VERSION; OS_ARCH; bytes_of "(none)"]) /\
    forall x, mem (vm (ks k')) x <> mem (vm (ks k)) x ->
      exists v pa, ptr <= v < ptr + UTS_SIZE /\
        page_is_user_accessible (root_reg (vm (ks k))) (v - v mod 4096) true (vm (ks k)) = true /\
        translate_addr (root_reg (vm (ks k))) v (vm (ks k)) = Some pa /\ x = p2v (hhdm (vm (ks k))) pa)).
Proof.
  unfold sys_uname. destruct (ptr =? 0); [by eexists _, _; eauto 6|].
  destruct (validate_user_ptr ptr UTS_SIZE true k) eqn:Ev; cbn [negb]; [|by eexists _, _; eauto 6].
  assert ((ptr mod UTS_ALIGN =? 0) = true) as -> by (apply Z.eqb_eq, Z.mod_1_r). cbn [negb].
  pose proof (user_range_backed ptr UTS_SIZE true k Huc Hp ltac:(done) Hcanon Ev) as Hback. change UTS_SIZE with 390 in Hback, Hcanon |- *.
  change (Z.to_nat 390) with 390%nat. set (m := vm (ks k)) in *.
  destruct (vread_bytes_ok m 390 ptr) as (old & -> & Hlen & Hold).
  { intros u Hu. destruct (Hback u ltac:(lia)) as (_ & pa & Ht & _). by eauto. }
  assert (bytes_ok old) as Hob.
  { apply Forall_lookup. intros i b Hb. pose proof (lookup_lt_Some _ _ _ Hb). destruct (Hold i ltac:(lia)) as (pa & _ & E).
    rewrite E in Hb. injection Hb as <-. apply (uc_inv _ Huc). }
  pose proof (uts_of_fields old Hlen Hob) as Hf. assert (Forall (fun f => length f = 65%nat) (fields (uts_of old))) as Hf' by (by eapply Forall_impl; [exact Hf|intros ? []]).
  destruct (populate_fields OS_VERSION OS_ARCH (uts_of old)) as [Hpl Hpf]; [apply Hv|apply Ha|done|].
  pose proof (populate_bytes OS_VERSION OS_ARCH (uts_of old) (proj1 Hv) (proj1 Ha) Hf) as Hpb.
  set (u' := populate OS_VERSION OS_ARCH (uts_of old)) in *.
  assert (length (uts_bytes u') = 390%nat) as Hl'.
  { unfold fields in Hpl. rewrite !Forall_cons in Hpl. destruct Hpl as (L1 & L2 & L3 & L4 & L5 & L6 & _).
    unfold uts_bytes. rewrite !length_app, L1, L2, L3, L4, L5, L6. done. }
  destruct (vwrite_bytes_ok (root_reg m) m ptr (uts_bytes u') (fun v => page_is_user_accessible (root_reg m) (v - v mod 4096) true m = true))
    as (m' & E & S & M); [done|apply Huc|done| |].
  { intros u Hu. rewrite Hl' in Hu. destruct (Hback u ltac:(lia)) as (? & pa & ? & ? & _ & ?). by eauto 6. }
  pose proof (vwrite_bytes_reads (root_reg m) (uts_bytes u') m m' ptr eq_refl (uc_inv _ Huc) Hpb ltac:(lia)) as Hread.
  rewrite E. eexists _, _. split; [reflexivity|]. split_and!; [done|done|]. right. split; [done|]. split.
  - exists (uts_bytes u'). rewrite uts_of_bytes by done. split; [|done]. rewrite Hl' in Hread. apply Hread; [|done].
    intros u Hu. by destruct (Hback u ltac:(lia)) as (_ & ?).
  - intros x Hx. destruct (M x Hx) as (u & pa & Hu & Hr & Ht & ->). exists u, pa. rewrite Hl' in Hr. split_and!; try done; lia.
Qed.

(** ** The page loop of `sys_munmap` *)
Lemma range_search (f : Z -> bool) lo n :
  (forall a, lo <= a < lo + Z.of_nat n -> f a = true) \/ (exists a, lo <= a < lo + Z.of_nat n /\ f a = false).
Proof.
  induction n as [|n [IH|(a & Ha & E)]]; [left; lia| |right; exists a; split; [lia|done]].
  destruct (f (lo + Z.of_nat n)) eqn:E; [left|right; exists (lo + Z.of_nat n); split; [lia|done]].
  intros a Ha. destruct (decide (a = lo + Z.of_nat n)) as [->|]; [done|]. apply IH. lia.
Qed.

Lemma vpn_low v : 0 <= v < 2 ^ 48 -> vpn v = v / 4096.
Proof. intros Hv. unfold vpn. apply Z.mod_small. change (2 ^ 48) with (2 ^ 36 * 4096) in Hv. dlia. Qed.

Lemma munmap_pages_released n root addr m :
  addr mod 4096 = 0 -> USER_SPACE_BASE <= addr -> addr + 4096 * Z.of_nat n <= 2 ^ 47 -> pt_inv user_half root m ->
  (forall v pa, addr <= v < addr + 4096 * Z.of_nat n -> v mod 4096 = 0 ->
     translate_addr root v m = Some pa -> not_table root m pa) ->
  released user_half root (fun p => addr / 4096 <= p < addr / 4096 + Z.of_nat n)
    (fun b => exists v, addr <= v < addr + 4096 * Z.of_nat n /\ v mod 4096 = 0 /\ translate_addr root v m = Some b)
    m (munmap_pages (n + 1) root addr (addr + 4096 * Z.of_nat n) m).
Proof.
  revert addr m; induction n as [|n IH]; intros addr m Hal Hb Hend I Hnt.
  { cbn [Nat.add munmap_pages]. change (4096 * Z.of_nat 0) with 0 in *. rewrite Z.add_0_r in *.
    rewrite (proj2 (Z.ltb_ge addr (addr + 0))) by lia. cbn [negb]. eapply released_ext; [| |by apply released_refl].
    - intros p. cbn beta. lia.
    - intros b Hbp. split; [done|]. intros (v & ? & _). lia. }
  cbn [Nat.add munmap_pages]. fold (munmap_one root addr m).
  rewrite (proj2 (Z.ltb_lt addr _)) by lia. cbn [negb].
  assert (add64 addr 4096 = addr + 4096) as ->.
  { apply u64_small. unfold fits. change USER_SPACE_BASE with (2 ^ 39) in Hb. lia. }
  assert (user_half (table_idx addr 39) = true) as Hu by (apply user_index; lia).
  pose proof (munmap_one_released user_half root addr m I Hu Hal
    (fun f => Hnt addr f ltac:(lia) Hal)) as R1.
  assert (forall v, addr + 4096 <= v < addr + 4096 * Z.of_nat (S n) -> v mod 4096 = 0 ->
    translate_addr root v (munmap_one root addr m) = translate_addr root v m) as Hk.
  { intros v Hv Hvm. apply (rel_kept _ _ _ _ _ _ R1). change USER_SPACE_BASE with (2 ^ 39) in Hb.
    rewrite !vpn_low by lia. dlia. }
  replace (addr + 4096 * Z.of_nat (S n)) with (addr + 4096 + 4096 * Z.of_nat n) in * by lia.
  eapply released_ext; [| |eapply (released_trans _ _ _ _ _ _ _ _ _ _ R1), IH].
  - intros p. cbn beta. change USER_SPACE_BASE with (2 ^ 39) in Hb. rewrite vpn_low by lia. dlia.
  - intros b Hbp. cbn beta. split.
    + intros [Ht|(v & Hv & Hvm & Ht)]; [by exists addr; split; [lia|]|].
      exists v. split; [lia|]. split; [done|]. by rewrite <- Hk.
    + intros (v & Hv & Hvm & Ht). destruct (decide (v = addr)) as [->|Hne]; [by left|right].
      exists v. rewrite Hk by dlia. split; [dlia|done].
  - dlia.
  - lia.
  - lia.
  - apply R1.
  - intros v pa Hv Hvm Ht. rewrite Hk in Ht by done. apply (rel_table _ _ _ _ _ _ R1).
    eapply Hnt; [|done|done]. lia.
Unshelve.
  intros p. apply _.
Qed.

End calls.

(** ** Concrete instances *)

(** A ring-3 task on the table of [demo_mapped], and a ring that holds three key presses. *)
Definition demo_user_task : Task :=
  {| id := 0; parent_id := 0; sp := 0; memory_root := 4096; owns_memory_root := true;
     is_ring3 := true; state := Running; mailbox := None; fd_table := None |}.
Definition demo_user_kernel : kernel bitmap :=
  Kernel (Sched (demo_user_task :: replicate 3 Task_empty) 0 true (demo_mapped x86_64) 0 (fun _ => None))
    (enqueue_byte 99 (enqueue_byte 98 (enqueue_byte 97 ring_new))) [].

Lemma demo_foreign : foreign (A := x86_64) 4096 demo_machine 0x7000.
Proof.
  split; [by split|]. split; [reflexivity|]. intros [|i q] _; [done|]. simpl.
  by change (entry (A := x86_64) demo_machine 4096 i) with 0.
Qed.

Lemma demo_mapped_user :
  mapped (A := x86_64) user_half 4096 0x8000001000 0x7000 demo_flags demo_machine (demo_mapped x86_64).
Proof.
  assert (fst (map_page (A := x86_64) 4096 0x8000001000 0x7000 demo_flags demo_machine) = Ok tt) as E
    by (vm_compute; reflexivity).
  exact (map_page_mapped (A := x86_64) user_half 4096 0x8000001000 0x7000 demo_flags demo_machine _
    demo_user_inv eq_refl ltac:(lia) (split_call _ _ E)).
Qed.

Lemma demo_root : root_reg (demo_mapped x86_64) = 4096.
Proof. vm_compute. reflexivity. Qed.

Lemma demo_user_context : user_context demo_user_kernel.
Proof.
  destruct demo_mapped_user as [I _ Htr _ Hother Hfor].
  generalize demo_root. unfold demo_user_kernel. revert I Htr Hother Hfor. generalize (demo_mapped x86_64).
  intros m I Htr Hother Hfor Hroot. split; cbn [ks vm]; rewrite ?Hroot; [reflexivity|reflexivity|exact I|].
  intros v pa Hr Hv. change (translate_addr (A := x86_64) 4096 v m = Some pa) in Hv.
  destruct (decide (vpn v = vpn 0x8000001000)) as [Ev|Ev].
  - assert (v / 4096 = 0x8000001) as Ed.
    { unfold vpn in Ev. change (0x8000001000 / 4096) with 0x8000001 in Ev.
      change (USER_SPACE_BASE) with 0x8000000000 in Hr. rewrite !Z.mod_small in Ev; [done|done|]. split; dlia. }
    pose proof (Htr (v mod 4096) ltac:(dlia)) as H1.
    replace (0x8000001000 + v mod 4096) with v in H1 by dlia. rewrite H1 in Hv. injection Hv as <-.
    replace (0x7000 + v mod 4096 - (0x7000 + v mod 4096) mod 4096) with 0x7000 by dlia.
    by apply Hfor, demo_foreign.
  - rewrite Hother in Hv by done. unfold translate_addr in Hv. done.
Qed.



Lemma sys_write_confined_witness :
  exists r k', sys_write 1 0x8000001800 4 demo_user_kernel = (SysRet r, k') /\ r = 4 /\ console k' = [0; 0; 0; 0].
Proof.
  destruct (sys_write_confined 1 0x8000001800 4 demo_user_kernel demo_user_context) as (r & k' & E & _ & _ & H).
  - done.
  - done.
  - done.
  - assert (fst (sys_write 1 0x8000001800 4 demo_user_kernel) = SysRet 4) as E4 by (vm_compute; reflexivity).
    assert (console (snd (sys_write 1 0x8000001800 4 demo_user_kernel)) = [0; 0; 0; 0]) as Ec by (vm_compute; reflexivity).
    exists r, k'. split; [exact E|]. rewrite E in E4, Ec. cbn [fst snd] in E4, Ec. injection E4 as ->. split; [reflexivity|exact Ec].
Defined.

Lemma sys_uname_fills_witness :
  exists r k', sys_uname (bytes_of "0.1.0") (bytes_of "x86_64") 0x8000001800 demo_user_kernel = (SysRet r, k') /\ r = 0.
Proof.
  destruct (sys_uname_fills (bytes_of "0.1.0") (bytes_of "x86_64") 0x8000001800 demo_user_kernel demo_user_context) as (r & k' & E & _ & _ & H).
  - done.
  - done.
  - split; [by apply bytes_ok_dec|by repeat constructor].
  - split; [by apply bytes_ok_dec|by repeat constructor].
  - assert (fst (sys_uname (bytes_of "0.1.0") (bytes_of "x86_64") 0x8000001800 demo_user_kernel) = SysRet 0) as E0 by (vm_compute; reflexivity).
    exists r, k'. split; [exact E|]. rewrite E in E0. cbn [fst] in E0. injection E0 as ->. reflexivity.
Defined.
