(* ===== verification/Block.v ===== *)
(** Block devices (src/src/block.rs): the monad the storage stack runs in, the
    [BlockDevice] interface with its laws, and its two implementations. *)
From S2P Require Import Prelude.

(** ** Computations over a device

    A storage routine reads and updates a device, ends with a value, an `Err`, a panic, or
    (for a loop whose bound is [fuel]) before the loop is over. *)
Inductive res (A : Type) := Val (a : A) | Fail (e : string) | Panicked | NoFuel.
Arguments Val {A}. Arguments Fail {A}. Arguments Panicked {A}. Arguments NoFuel {A}.

Definition io (D A : Type) : Type := D -> res A * D.

Definition ret {D A} (a : A) : io D A := fun d => (Val a, d).
Definition fail {D A} (e : string) : io D A := fun d => (Fail e, d).
Definition panic {D A} : io D A := fun d => (Panicked, d).
Definition no_fuel {D A} : io D A := fun d => (NoFuel, d).

Definition bind {D A B} (c : io D A) (k : A -> io D B) : io D B := fun d =>
  match c d with
  | (Val a, d') => k a d'
  | (Fail e, d') => (Fail e, d')
  | (Panicked, d') => (Panicked, d')
  | (NoFuel, d') => (NoFuel, d')
  end.

Notation "x '<~' c ';' k" := (bind c (fun x => k)) (at level 90, c at level 80, k at level 200, right associativity) : kernel_scope.

Definition of_outcome {D A} (o : outcome A) : io D A :=
  match o with Returns a => ret a | Panics => panic end.

Definition SECTOR_SIZE : Z := 512.

(** ** `BlockDevice`

    `read_sector` fills a 512-byte buffer; its result is that buffer. *)
Class BlockDevice (D : Type) := {
  read_sector : Z -> io D (list Z);
  write_sector : Z -> list Z -> io D unit
}.

(** What a client may rely on: [bd_view] is the disk as an array of 512-byte sectors; a
    read returns the sector and keeps the disk, and fails outside of it.  Sector numbers are
    in range of the device's address arithmetic when they are below [bd_limit]. *)
Class BlockDeviceLaws (D : Type) `{BlockDevice D} := {
  bd_limit : Z;
  bd_ok : D -> Prop;
  bd_view : D -> Z -> option (list Z);
  bd_sector : forall d i b, bd_ok d -> bd_view d i = Some b -> length b = 512%nat /\ bytes_ok b;
  bd_range : forall d i b, bd_ok d -> bd_view d i = Some b -> i < 2 ^ 63;
  bd_read : forall d i b, bd_ok d -> 0 <= i -> bd_view d i = Some b ->
    exists d', read_sector i d = (Val b, d') /\ bd_ok d' /\ forall j, bd_view d' j = bd_view d j;
  bd_read_out : forall d i, bd_ok d -> 0 <= i < bd_limit -> bd_view d i = None ->
    exists e d', read_sector i d = (Fail e, d') /\ bd_ok d' /\ forall j, bd_view d' j = bd_view d j;
  bd_write : forall d i b, bd_ok d -> 0 <= i -> length b = 512%nat -> bytes_ok b -> bd_view d i <> None ->
    exists d', write_sector i b d = (Val tt, d') /\ bd_ok d' /\
      forall j, bd_view d' j = if decide (j = i) then Some b else bd_view d j;
  bd_write_out : forall d i b, bd_ok d -> 0 <= i < bd_limit -> length b = 512%nat -> bd_view d i = None ->
    exists e, write_sector i b d = (Fail e, d)
}.

(** ** `RamBlockDevice` *)
Record RamBlockDevice := { rb_data : list Z }.

Definition RamBlockDevice_new (size_in_sectors : Z) : RamBlockDevice :=
  {| rb_data := replicate (Z.to_nat (mul64 size_in_sectors SECTOR_SIZE)) 0 |}.

Definition ram_read_sector (sector_id : Z) : io RamBlockDevice (list Z) := fun d =>
  let start := mul64 sector_id SECTOR_SIZE in
  let stop := add64 start SECTOR_SIZE in
  if Z.of_nat (length (rb_data d)) <? stop then (Fail "Block read out of bounds", d)
  else of_outcome (slice (rb_data d) start stop) d.

(** The list [l] with the bytes from [i] on replaced by [b]. *)
Definition splice (l : list Z) (i : Z) (b : list Z) : list Z :=
  take (Z.to_nat i) l ++ b ++ drop (Z.to_nat i + length b) l.

Definition ram_write_sector (sector_id : Z) (buf : list Z) : io RamBlockDevice unit := fun d =>
  let start := mul64 sector_id SECTOR_SIZE in
  let stop := add64 start SECTOR_SIZE in
  if Z.of_nat (length (rb_data d)) <? stop then (Fail "Block write out of bounds", d)
  else match slice (rb_data d) start stop with
  | Panics => (Panicked, d)
  | Returns _ => (Val tt, {| rb_data := splice (rb_data d) start buf |})
  end.

#[export] Instance ram_block : BlockDevice RamBlockDevice :=
  {| read_sector := ram_read_sector; write_sector := ram_write_sector |}.

(** ** `PartitionBlockDevice` *)
Record PartitionBlockDevice (D : Type) := Partition { inner : D; lba_offset : Z }.
Arguments Partition {D}. Arguments inner {D}. Arguments lba_offset {D}.

Section partition.
Context {D : Type} `{BD : BlockDevice D}.

(** Run an operation of the inner device. *)
Definition on_inner {A} (c : io D A) : io (PartitionBlockDevice D) A := fun p =>
  let '(r, d) := c (inner p) in (r, Partition d (lba_offset p)).

Definition part_read_sector (sector_id : Z) : io (PartitionBlockDevice D) (list Z) := fun p =>
  on_inner (read_sector (add64 sector_id (lba_offset p))) p.
Definition part_write_sector (sector_id : Z) (buf : list Z) : io (PartitionBlockDevice D) unit := fun p =>
  on_inner (write_sector (add64 sector_id (lba_offset p)) buf) p.

#[export] Instance partition_block : BlockDevice (PartitionBlockDevice D) :=
  {| read_sector := part_read_sector; write_sector := part_write_sector |}.
End partition.

(** ** The implementations meet the interface *)
Definition ram_view (d : RamBlockDevice) (i : Z) : option (list Z) :=
  if (0 <=? i) && ((i + 1) * 512 <=? Z.of_nat (length (rb_data d)))
  then Some (sub_slice (rb_data d) (i * 512) (i * 512 + 512)) else None.

Lemma ram_view_Some d i b :
  ram_view d i = Some b <->
  0 <= i /\ (i + 1) * 512 <= Z.of_nat (length (rb_data d)) /\ b = sub_slice (rb_data d) (i * 512) (i * 512 + 512).
Proof.
  unfold ram_view. zcases; split; try done; try lia.
  - by intros [= <-].
  - by intros (_ & _ & ->).
Qed.

Lemma ram_view_None d i : 0 <= i -> ram_view d i = None <-> Z.of_nat (length (rb_data d)) < (i + 1) * 512.
Proof. intros Hi. unfold ram_view. zcases; split; try done; lia. Qed.

Lemma sector_bounds i : 0 <= i < 2 ^ 55 - 1 ->
  mul64 i SECTOR_SIZE = i * 512 /\ add64 (i * 512) SECTOR_SIZE = i * 512 + 512.
Proof. intros Hi. unfold mul64, add64, SECTOR_SIZE. rewrite !u64_small; unfold fits; lia. Qed.

Lemma length_splice l i b : 0 <= i -> i + Z.of_nat (length b) <= Z.of_nat (length l) -> length (splice l i b) = length l.
Proof. intros Hi Hl. unfold splice. rewrite !length_app, length_take, length_drop. lia. Qed.

(** Reading back what was spliced in, and around it. *)
Lemma sub_splice_eq l i b : 0 <= i -> i + Z.of_nat (length b) <= Z.of_nat (length l) ->
  sub_slice (splice l i b) i (i + Z.of_nat (length b)) = b.
Proof.
  intros Hi Hl. unfold sub_slice, splice. rewrite drop_app_length' by (rewrite length_take; lia).
  replace (Z.to_nat _) with (length b) by lia. by rewrite take_app_length.
Qed.

Lemma splice_lookup l i b k : 0 <= i -> i + Z.of_nat (length b) <= Z.of_nat (length l) ->
  (Z.of_nat k < i \/ i + Z.of_nat (length b) <= Z.of_nat k) -> splice l i b !! k = l !! k.
Proof.
  intros Hi Hl [Hk|Hk]; unfold splice.
  - rewrite lookup_app_l by (rewrite length_take; lia). by rewrite lookup_take_lt by lia.
  - rewrite lookup_app_r by (rewrite length_take; lia). rewrite length_take, Nat.min_l by lia.
    rewrite lookup_app_r by lia. rewrite lookup_drop. f_equal. lia.
Qed.

Lemma sub_slice_lookup {A} (l : list A) a b k : 0 <= a -> (k < Z.to_nat (b - a))%nat ->
  sub_slice l a b !! k = l !! (Z.to_nat a + k)%nat.
Proof. intros. unfold sub_slice. by rewrite lookup_take_lt, lookup_drop. Qed.

Lemma sub_slice_lookup_ge {A} (l : list A) a b k : (Z.to_nat (b - a) <= k)%nat -> sub_slice l a b !! k = None.
Proof. intros. unfold sub_slice. by apply lookup_take_ge. Qed.

Lemma sub_splice_ne l i b c : 0 <= i -> i + Z.of_nat (length b) <= Z.of_nat (length l) ->
  0 <= c -> c + 512 <= i \/ i + Z.of_nat (length b) <= c ->
  sub_slice (splice l i b) c (c + 512) = sub_slice l c (c + 512).
Proof.
  intros Hi Hl Hc Hd. apply list_eq. intros k. destruct (decide (k < 512)%nat).
  - rewrite !sub_slice_lookup by lia. apply splice_lookup; lia.
  - by rewrite !sub_slice_lookup_ge by lia.
Qed.

Lemma bytes_ok_splice l i b : bytes_ok l -> bytes_ok b -> bytes_ok (splice l i b).
Proof. intros. by repeat apply Forall_app_2; try apply Forall_take; try apply Forall_drop. Qed.

Lemma ram_read_in d i : 0 <= i < 2 ^ 55 - 1 -> (i + 1) * 512 <= Z.of_nat (length (rb_data d)) ->
  ram_read_sector i d = (Val (sub_slice (rb_data d) (i * 512) (i * 512 + 512)), d).
Proof.
  intros Hi Hl. unfold ram_read_sector. destruct (sector_bounds i Hi) as [-> ->].
  rewrite (proj2 (Z.ltb_ge _ _)) by lia. by rewrite slice_in by lia.
Qed.

#[export] Instance ram_block_laws : BlockDeviceLaws RamBlockDevice.
Proof.
  refine {| bd_limit := 2 ^ 55 - 1; bd_ok := fun d => bytes_ok (rb_data d) /\ Z.of_nat (length (rb_data d)) <= 2 ^ 63; bd_view := ram_view |}.
  - intros d i b [Hok _] (Hi & Hl & ->)%ram_view_Some. split; [|by apply bytes_ok_sub_slice].
    pose proof (length_sub_slice (rb_data d) (i * 512) (i * 512 + 512)). lia.
  - intros d i b [_ Hm] (Hi & Hl & _)%ram_view_Some. lia.
  - intros d i b [Hok Hm] Hi (_ & Hl & ->)%ram_view_Some. exists d. split; [apply ram_read_in; lia|done].
  - intros d i Hok Hi Hn%ram_view_None; [|lia]. exists "Block read out of bounds"%string, d. split; [|done].
    cbn [read_sector ram_block]. unfold ram_read_sector. destruct (sector_bounds i Hi) as [-> ->].
    by rewrite (proj2 (Z.ltb_lt _ _)) by lia.
  - intros d i b [Hok Hm] Hi Hb Hbb Hn. destruct (ram_view d i) as [b0|] eqn:E; [|done].
    apply ram_view_Some in E as (_ & Hl & _). assert (0 <= i < 2 ^ 55 - 1) as Hi' by lia.
    exists {| rb_data := splice (rb_data d) (i * 512) b |}. split; [|split; [split; [by apply bytes_ok_splice|cbn [rb_data]; rewrite length_splice; lia]|]].
    + cbn [write_sector ram_block]. unfold ram_write_sector. destruct (sector_bounds i Hi') as [-> ->].
      rewrite (proj2 (Z.ltb_ge _ _)) by lia. by rewrite slice_in by lia.
    + intros j. unfold ram_view. cbn [rb_data]. rewrite length_splice by lia.
      destruct (decide (j = i)) as [->|Hne].
      * zcases. f_equal. rewrite <- (sub_splice_eq (rb_data d) (i * 512) b) at 2 by lia. by rewrite Hb.
      * zcases; try done. f_equal. apply sub_splice_ne; lia.
  - intros d i b Hok Hi Hb Hn%ram_view_None; [|lia]. exists "Block write out of bounds"%string.
    cbn [write_sector ram_block]. unfold ram_write_sector. destruct (sector_bounds i Hi) as [-> ->].
    by rewrite (proj2 (Z.ltb_lt _ _)) by lia.
Defined.

Section partition_laws.
Context {D : Type} `{BL : BlockDeviceLaws D}.

Lemma part_offset (off i : Z) : fits 32 off -> 0 <= i < Z.min bd_limit (2 ^ 63) - 2 ^ 32 ->
  add64 i off = i + off /\ 0 <= i + off < bd_limit.
Proof. intros Ho Hi. unfold fits in Ho. split; [apply u64_small; unfold fits; lia|lia]. Qed.

Lemma part_offset_in d (off i : Z) b : bd_ok d -> fits 32 off -> 0 <= i -> bd_view d (i + off) = Some b -> add64 i off = i + off /\ 0 <= i + off.
Proof. intros Hok Ho Hi Hv. pose proof (bd_range d _ b Hok Hv). unfold fits in Ho. split; [apply u64_small; unfold fits; lia|lia]. Qed.

(** A partition that starts at [lba]; its operations keep the start. *)
Definition partition_laws (lba : Z) (Hlba : fits 32 lba) : BlockDeviceLaws (PartitionBlockDevice D).
Proof.
  refine {| bd_limit := Z.min bd_limit (2 ^ 63) - 2 ^ 32;
            bd_ok := fun p => bd_ok (inner p) /\ lba_offset p = lba;
            bd_view := fun p i => bd_view (inner p) (i + lba_offset p) |}.
  - intros [d off] i b [Hok _]. by apply bd_sector.
  - intros [d off] i b [Hok Ho] Hv. cbn [inner lba_offset] in *. subst lba. pose proof (bd_range d _ b Hok Hv). unfold fits in Hlba. lia.
  - intros [d off] i b [Hok Ho] Hi Hv. cbn [inner lba_offset] in *. subst lba. destruct (part_offset_in d off i b Hok Hlba Hi Hv) as [Ea Hr].
    destruct (bd_read d (i + off) b Hok Hr Hv) as (d' & E & Hok' & Hk).
    exists (Partition d' off). cbn [read_sector partition_block inner lba_offset].
    unfold part_read_sector, on_inner. cbn [inner lba_offset]. by rewrite Ea, E.
  - intros [d off] i [Hok Ho] Hi Hv. cbn [inner lba_offset] in *. subst lba. destruct (part_offset off i Hlba Hi) as [Ea Hr].
    destruct (bd_read_out d (i + off) Hok Hr Hv) as (e & d' & E & Hok' & Hk).
    exists e, (Partition d' off). cbn [read_sector partition_block inner lba_offset].
    unfold part_read_sector, on_inner. cbn [inner lba_offset]. by rewrite Ea, E.
  - intros [d off] i b [Hok Ho] Hi Hb Hbb Hv. cbn [inner lba_offset] in *. subst lba.
    assert (add64 i off = i + off /\ 0 <= i + off) as [Ea Hr].
    { destruct (bd_view d (i + off)) as [b0|] eqn:E; [|done]. by apply (part_offset_in d off i b0). }
    destruct (bd_write d (i + off) b Hok Hr Hb Hbb Hv) as (d' & E & Hok' & Hk).
    exists (Partition d' off). cbn [write_sector partition_block inner lba_offset].
    unfold part_write_sector, on_inner. cbn [inner lba_offset]. rewrite Ea, E. split; [done|]. split; [done|].
    intros j. rewrite Hk. destruct (decide (j = i)), (decide (j + off = i + off)); try done; lia.
  - intros [d off] i b [Hok Ho] Hi Hb Hv. cbn [inner lba_offset] in *. subst lba. destruct (part_offset off i Hlba Hi) as [Ea Hr].
    destruct (bd_write_out d (i + off) b Hok Hr Hb Hv) as (e & E). exists e.
    cbn [write_sector partition_block]. unfold part_write_sector, on_inner. cbn [inner lba_offset]. by rewrite Ea, E.
Defined.
End partition_laws.
