(* ===== verification/Fat32.v ===== *)
(** The MBR reader (src/src/fs/mbr.rs) and the FAT32 driver (src/src/fs/fat32.rs). *)
From S2P Require Import Prelude Block.

(** A byte of a fixed-size buffer. *)
Definition byte (b : list Z) (i : nat) : Z := nth i b 0.

(** ** `fs::mbr` *)
Definition PARTITION_TABLE_OFFSET : Z := 446.
Definition PARTITION_ENTRY_SIZE : Z := 16.
Definition PARTITION_ENTRY_COUNT : nat := 4.
Definition TYPE_EMPTY : Z := 0.

Definition boot_signature (b : list Z) : bool := (byte b 510 =? 0x55) && (byte b 511 =? 0xAA).

Fixpoint scan_partitions (n : nat) (i : Z) (sector0 : list Z) : option Z :=
  match n with
  | O => None
  | S n' =>
      let entry_start := PARTITION_TABLE_OFFSET + i * PARTITION_ENTRY_SIZE in
      let entry := sub_slice sector0 entry_start (entry_start + PARTITION_ENTRY_SIZE) in
      if byte entry 4 =? TYPE_EMPTY then scan_partitions n' (i + 1) sector0
      else
        let lba_start := le_bytes (sub_slice entry 8 12) in
        if lba_start =? 0 then scan_partitions n' (i + 1) sector0 else Some lba_start
  end.

Definition find_first_partition_lba {D} `{BlockDevice D} : io D (option Z) :=
  sector0 <~ read_sector 0;
  if negb (boot_signature sector0) then ret None
  else ret (scan_partitions PARTITION_ENTRY_COUNT 0 sector0).

(** ** `fs::fat32` *)
Definition ATTR_READ_ONLY : Z := 0x01.
Definition ATTR_HIDDEN : Z := 0x02.
Definition ATTR_SYSTEM : Z := 0x04.
Definition ATTR_VOLUME_ID : Z := 0x08.
Definition ATTR_DIRECTORY : Z := 0x10.
Definition ATTR_LONG_NAME : Z := Z.lor (Z.lor (Z.lor ATTR_READ_ONLY ATTR_HIDDEN) ATTR_SYSTEM) ATTR_VOLUME_ID.

Record Fat32Geometry := {
  bytes_per_sector : Z; sectors_per_cluster : Z; reserved_sector_count : Z; num_fats : Z;
  sectors_per_fat : Z; root_cluster : Z; first_fat_sector : Z; first_data_sector : Z
}.

(** The packed 32-byte entry, field by field. *)
Record FatDirectoryEntry := {
  name : list Z; attr : Z; reserved : Z; creation_time_tenth : Z; creation_time : Z; creation_date : Z;
  last_access_date : Z; first_cluster_high : Z; write_time : Z; write_date : Z; first_cluster_low : Z; file_size : Z
}.

Definition entry_of (b : list Z) : FatDirectoryEntry :=
  {| name := sub_slice b 0 11; attr := byte b 11; reserved := byte b 12; creation_time_tenth := byte b 13;
     creation_time := le_bytes (sub_slice b 14 16); creation_date := le_bytes (sub_slice b 16 18);
     last_access_date := le_bytes (sub_slice b 18 20); first_cluster_high := le_bytes (sub_slice b 20 22);
     write_time := le_bytes (sub_slice b 22 24); write_date := le_bytes (sub_slice b 24 26);
     first_cluster_low := le_bytes (sub_slice b 26 28); file_size := le_bytes (sub_slice b 28 32) |}.

Definition starting_cluster (e : FatDirectoryEntry) : Z :=
  Z.lor (u32 (Z.shiftl (first_cluster_high e) 16)) (first_cluster_low e).
Definition is_free (e : FatDirectoryEntry) : bool := (byte (name e) 0 =? 0) || (byte (name e) 0 =? 0xE5).
Definition is_end (e : FatDirectoryEntry) : bool := byte (name e) 0 =? 0.
Definition is_lfn (e : FatDirectoryEntry) : bool := Z.land (attr e) ATTR_LONG_NAME =? ATTR_LONG_NAME.

(** The bytes before the first space. *)
Fixpoint until_space (l : list Z) : list Z :=
  match l with
  | [] => []
  | b :: l' => if b =? 32 then [] else b :: until_space l'
  end.

(** `str::trim_start_matches('/')`. *)
Fixpoint trim_slashes (l : list Z) : list Z :=
  match l with
  | b :: l' => if b =? 47 then trim_slashes l' else l
  | [] => []
  end.

(** `str::split('/')`: at least one part; adjacent slashes give empty parts. *)
Fixpoint split_slashes (l : list Z) : list (list Z) :=
  match l with
  | [] => [[]]
  | b :: l' =>
      if b =? 47 then [] :: split_slashes l'
      else match split_slashes l' with
      | p :: ps => (b :: p) :: ps
      | [] => [[b]]
      end
  end.

(** Where a directory scan of one cluster stops, and with what. *)
Inductive scan := Found (e : FatDirectoryEntry) | Exhausted.

Section fat32.
Context {D : Type} `{BD : BlockDevice D}.
(** `String::from_utf8_lossy` and `str::to_lowercase`, on the UTF-8 bytes of a string. *)
Context (from_utf8_lossy to_lowercase : list Z -> list Z).

Definition get_name (e : FatDirectoryEntry) : list Z :=
  let name_part := until_space (sub_slice (name e) 0 8) in
  let ext_part := until_space (sub_slice (name e) 8 11) in
  let formatted := from_utf8_lossy name_part in
  to_lowercase
    (match ext_part with [] => formatted | _ => formatted ++ [46] ++ from_utf8_lossy ext_part end).

(** `Fat32FileSystem::mount`; the device stays the state, so the result is the geometry. *)
Definition mount : io D Fat32Geometry :=
  sector_buf <~ read_sector 0;
  if negb (boot_signature sector_buf) then fail "Invalid boot sector signature: missing 0x55AA" else
  let bps := le_bytes (sub_slice sector_buf 11 13) in
  if negb (bps =? SECTOR_SIZE)
  then fail "Unsupported sector size: FAT32 sector size must match system sector size" else
  let reserved := le_bytes (sub_slice sector_buf 14 16) in
  let nf := byte sector_buf 16 in
  let spf := le_bytes (sub_slice sector_buf 36 40) in
  let root := le_bytes (sub_slice sector_buf 44 48) in
  if spf =? 0 then fail "Invalid FAT32 volume: sectors_per_fat cannot be zero" else
  ret {| bytes_per_sector := bps; sectors_per_cluster := byte sector_buf 13; reserved_sector_count := reserved;
         num_fats := nf; sectors_per_fat := spf; root_cluster := root; first_fat_sector := reserved;
         first_data_sector := add64 reserved (mul64 nf spf) |}.

Context (g : Fat32Geometry).

Definition volume_info : Z * Z * Z * Z :=
  (bytes_per_sector g, num_fats g, reserved_sector_count g, sectors_per_fat g).

Definition cluster_to_sector (cluster : Z) : Z :=
  add64 (first_data_sector g) (mul64 (sub64 cluster 2) (sectors_per_cluster g)).

Definition next_cluster (cluster : Z) : io D Z :=
  let fat_offset := mul32 cluster 4 in
  let fat_sector := add64 (first_fat_sector g) (fat_offset / SECTOR_SIZE) in
  let ent_offset := fat_offset mod SECTOR_SIZE in
  sector_buf <~ read_sector fat_sector;
  e <~ of_outcome (slice sector_buf ent_offset (ent_offset + 4));
  ret (Z.land (le_bytes e) 0x0FFFFFFF).

Definition cluster_size : Z := sectors_per_cluster g * SECTOR_SIZE.

Fixpoint read_sectors (n : nat) (i start_sector : Z) (buf : list Z) : io D (list Z) :=
  match n with
  | O => ret buf
  | S n' =>
      sector_buf <~ read_sector (add64 start_sector i);
      read_sectors n' (i + 1) start_sector (splice buf (i * SECTOR_SIZE) sector_buf)
  end.

(** `read_cluster`: the contents of [buf] afterwards. *)
Definition read_cluster (cluster : Z) (buf : list Z) : io D (list Z) :=
  if Z.of_nat (length buf) <? cluster_size then fail "Provided buffer is too small for cluster data"
  else read_sectors (Z.to_nat (sectors_per_cluster g)) 0 (cluster_to_sector cluster) buf.

Definition is_data_cluster (c : Z) : bool := (c <? 0x0FFFFFF8) && (2 <=? c).

(** The loop of `read_file_content`. *)
Fixpoint read_content (fuel : nat) (current_cluster bytes_remaining : Z) (cluster_buf content : list Z) : io D (list Z) :=
  match fuel with
  | O => no_fuel
  | S f =>
      if negb (is_data_cluster current_cluster) then ret content else
      cluster_buf <~ read_cluster current_cluster cluster_buf;
      let bytes_to_copy := Z.min bytes_remaining cluster_size in
      part <~ of_outcome (slice cluster_buf 0 bytes_to_copy);
      let content := content ++ part in
      if bytes_remaining <=? cluster_size then ret content else
      next <~ next_cluster current_cluster;
      read_content f next (bytes_remaining - cluster_size) cluster_buf content
  end.

Definition read_file_content (fuel : nat) (start_cluster size : Z) : io D (list Z) :=
  read_content fuel start_cluster size (replicate (Z.to_nat cluster_size) 0) [].

(** The entry loop of `find_in_directory` over one cluster. *)
Fixpoint scan_entries (n : nat) (i : Z) (target_lower cluster_buf : list Z) : scan :=
  match n with
  | O => Exhausted
  | S n' =>
      let e := entry_of (sub_slice cluster_buf (i * 32) (i * 32 + 32)) in
      if is_end e then Exhausted
      else if is_free e || is_lfn e then scan_entries n' (i + 1) target_lower cluster_buf
      else if decide (get_name e = target_lower) then Found e
      else scan_entries n' (i + 1) target_lower cluster_buf
  end.

Fixpoint find_from (fuel : nat) (current_cluster : Z) (target_lower cluster_buf : list Z) : io D FatDirectoryEntry :=
  match fuel with
  | O => no_fuel
  | S f =>
      if negb (is_data_cluster current_cluster) then fail "File or directory not found" else
      cluster_buf <~ read_cluster current_cluster cluster_buf;
      match scan_entries (Z.to_nat (cluster_size / 32)) 0 target_lower cluster_buf with
      | Found e => ret e
      | Exhausted =>
          next <~ next_cluster current_cluster;
          find_from f next target_lower cluster_buf
      end
  end.

Definition find_in_directory (fuel : nat) (dir_cluster : Z) (target_name : list Z) : io D FatDirectoryEntry :=
  find_from fuel dir_cluster (to_lowercase target_name) (replicate (Z.to_nat cluster_size) 0).

(** The component loop of `resolve_path`; [parts] is what is left of the path. *)
Fixpoint resolve_parts (fuel : nat) (current_cluster : Z) (parts : list (list Z)) : io D FatDirectoryEntry :=
  match parts with
  | [] => fail "Path resolution failed"
  | part :: rest =>
      e <~ find_in_directory fuel current_cluster part;
      match rest with
      | [] => ret e
      | _ =>
          if Z.land (attr e) ATTR_DIRECTORY =? 0 then fail "Parent path component is not a directory"
          else resolve_parts fuel (starting_cluster e) rest
      end
  end.

Definition resolve_path (fuel : nat) (path : list Z) : io D FatDirectoryEntry :=
  match trim_slashes path with
  | [] => fail "Root has no directory entry of its own"
  | trimmed_path => resolve_parts fuel (root_cluster g) (split_slashes trimmed_path)
  end.

Definition read_file_by_path (fuel : nat) (path : list Z) : io D (list Z) :=
  e <~ resolve_path fuel path;
  if negb (Z.land (attr e) ATTR_DIRECTORY =? 0) then fail "Target path is a directory, not a file"
  else read_file_content fuel (starting_cluster e) (file_size e).
End fat32.
