(* ===== verification/FatCorrect.v ===== *)
(** The FAT32 driver against the volume it reads: the file allocation table as a chain of
    clusters, directories as the entries visible in a chain, files as the bytes of one. *)
From S2P Require Import Prelude Block Fat32.

(** ** The volume *)

(** What `mount` establishes of the geometry. *)
Record geometry_ok (g : Fat32Geometry) : Prop := {
  go_spc : fits 8 (sectors_per_cluster g);
  go_fat : fits 16 (first_fat_sector g);
  go_data : 0 <= first_data_sector g < 2 ^ 41
}.

Section volume.
Context (g : Fat32Geometry) (v : Z -> option (list Z)).

(** The FAT entry of a cluster, and the bytes of a cluster. *)
Definition fat_entry (c : Z) : option Z :=
  match v (first_fat_sector g + c * 4 / 512) with
  | Some b => Some (Z.land (le_bytes (sub_slice b (c * 4 mod 512) (c * 4 mod 512 + 4))) 0x0FFFFFFF)
  | None => None
  end.

Fixpoint gather (n : nat) (s : Z) : option (list Z) :=
  match n with
  | O => Some []
  | S n' => match v s, gather n' (s + 1) with
            | Some b, Some r => Some (b ++ r)
            | _, _ => None
            end
  end.

Definition cluster_bytes (c : Z) : option (list Z) :=
  gather (Z.to_nat (sectors_per_cluster g)) (first_data_sector g + (c - 2) * sectors_per_cluster g).

(** [chain c ds]: following the table from [c] visits clusters whose contents are [ds]. *)
Inductive chain : Z -> list (list Z) -> Prop :=
| chain_end c : is_data_cluster c = false -> chain c []
| chain_step c n d ds :
    is_data_cluster c = true -> fat_entry c = Some n -> cluster_bytes c = Some d -> chain n ds -> chain c (d :: ds).
End volume.

(** The entries of a directory cluster that a scan considers: those before the end marker
    that are neither free nor part of a long name. *)
Fixpoint before_end (l : list FatDirectoryEntry) : list FatDirectoryEntry :=
  match l with
  | [] => []
  | e :: l' => if is_end e then [] else e :: before_end l'
  end.
Definition entries (n : nat) (d : list Z) : list FatDirectoryEntry :=
  map (fun i => entry_of (sub_slice d (Z.of_nat i * 32) (Z.of_nat i * 32 + 32))) (seq 0 n).
Definition visible (n : nat) (d : list Z) : list FatDirectoryEntry :=
  List.filter (fun e => negb (is_free e || is_lfn e)) (before_end (entries n d)).

(** ** Running the driver on a device that holds the volume [v] *)
Section driver.
Context {D : Type} `{BL : BlockDeviceLaws D} (Hlim : 2 ^ 42 <= bd_limit).
Context (g : Fat32Geometry) (Hg : geometry_ok g).
Implicit Types (d : D) (v : Z -> option (list Z)).

Definition holds_volume v d : Prop := bd_ok d /\ forall j, bd_view d j = v j.

(** The computation [c] returns [a] and leaves the volume as it is. *)
Definition yields {A} v (c : io D A) (a : A) : Prop :=
  forall d, holds_volume v d -> exists d', c d = (Val a, d') /\ holds_volume v d'.
(** The computation [c] ends, with a value that satisfies [Q] or an `Err`. *)
Definition ends {A} v (c : io D A) (Q : A -> Prop) : Prop :=
  forall d, holds_volume v d -> exists r d', c d = (r, d') /\ holds_volume v d' /\
    match r with Val a => Q a | Fail _ => True | _ => False end.

Lemma yields_ret {A} v (a : A) : yields v (ret a) a.
Proof. intros d Hd. by exists d. Qed.
Lemma yields_bind {A B} v (c : io D A) (k : A -> io D B) a b :
  yields v c a -> yields v (k a) b -> yields v (bind c k) b.
Proof.
  intros Hc Hk d Hd. destruct (Hc d Hd) as (d1 & E1 & Hd1). unfold bind. rewrite E1. by apply Hk.
Qed.
Lemma ends_ret {A} v (a : A) (Q : A -> Prop) : Q a -> ends v (ret a) Q.
Proof. intros Ha d Hd. by exists (Val a), d. Qed.
Lemma ends_fail {A} v e (Q : A -> Prop) : ends v (fail e) Q.
Proof. intros d Hd. by exists (Fail e), d. Qed.
Lemma ends_bind {A B} v (c : io D A) (k : A -> io D B) (Q : A -> Prop) (R : B -> Prop) :
  ends v c Q -> (forall a, Q a -> ends v (k a) R) -> ends v (bind c k) R.
Proof.
  intros Hc Hk d Hd. destruct (Hc d Hd) as (r & d1 & E1 & Hd1 & Hr). unfold bind. rewrite E1.
  destruct r; try done; [by apply Hk|by exists (Fail e), d1].
Qed.

Lemma read_sector_yields v i b : 0 <= i -> v i = Some b -> yields v (read_sector i) b.
Proof.
  intros Hi Hv d [Hok Hd]. rewrite <- Hd in Hv. destruct (bd_read d i b Hok ltac:(lia) Hv) as (d' & E & Hok' & Hk).
  exists d'. split; [done|]. split; [done|]. intros j. by rewrite Hk.
Qed.

Lemma read_sector_ends v i : 0 <= i < 2 ^ 42 -> ends v (read_sector i) (fun b => length b = 512%nat).
Proof.
  intros Hi d [Hok Hd]. destruct (bd_view d i) as [b|] eqn:Hv.
  - destruct (bd_read d i b Hok ltac:(lia) Hv) as (d' & E & Hok' & Hk). exists (Val b), d'.
    split; [done|]. split; [split; [done|]; intros j; by rewrite Hk|]. by destruct (bd_sector d i b Hok Hv).
  - destruct (bd_read_out d i Hok ltac:(lia) Hv) as (e & d' & E & Hok' & Hk). exists (Fail e), d'.
    split; [done|]. split; [split; [done|]; intros j; by rewrite Hk|done].
Qed.

Lemma volume_sector v d i b : holds_volume v d -> v i = Some b -> length b = 512%nat.
Proof. intros [Hok Hd] Hv. rewrite <- Hd in Hv. by destruct (bd_sector d i b Hok Hv). Qed.

Lemma data_cluster_range c : is_data_cluster c = true <-> 2 <= c < 0x0FFFFFF8.
Proof. unfold is_data_cluster. rewrite andb_true_iff, Z.ltb_lt, Z.leb_le. lia. Qed.

(** *** The table *)
Lemma fat_address c : 2 <= c < 0x0FFFFFF8 ->
  mul32 c 4 = c * 4 /\ add64 (first_fat_sector g) (c * 4 / SECTOR_SIZE) = first_fat_sector g + c * 4 / 512 /\
  0 <= first_fat_sector g + c * 4 / 512 < 2 ^ 42.
Proof.
  intros Hc. destruct Hg as [_ Hf _]. unfold fits, SECTOR_SIZE in *. assert (0 <= c * 4 / 512 < 2 ^ 22) by dlia.
  split; [|split; [|lia]].
  - unfold mul32, u32, wrap. apply Z.mod_small. lia.
  - apply u64_small. unfold fits. lia.
Qed.

Lemma slice_entry (b : list Z) c : length b = 512%nat ->
  slice b (c * 4 mod SECTOR_SIZE) (c * 4 mod SECTOR_SIZE + 4) =
  Returns (sub_slice b (c * 4 mod 512) (c * 4 mod 512 + 4)).
Proof. intros Hb. unfold SECTOR_SIZE. apply slice_in; rewrite ?Hb; dlia. Qed.

Lemma next_cluster_yields v c n : 2 <= c < 0x0FFFFFF8 -> fat_entry g v c = Some n -> yields v (next_cluster g c) n.
Proof.
  intros Hc Hn. destruct (fat_address c Hc) as (E1 & E2 & Hr). unfold fat_entry in Hn.
  destruct (v _) as [b|] eqn:Hv; [|done]. injection Hn as <-. unfold next_cluster. rewrite E1, E2.
  intros d Hd. eapply yields_bind; [apply read_sector_yields; [lia|done]| |done].
  rewrite (slice_entry b c) by (by eapply volume_sector). apply (yields_bind _ _ _ _ _ (yields_ret _ _)), yields_ret.
Qed.

Lemma next_cluster_ends v c : 2 <= c < 0x0FFFFFF8 -> ends v (next_cluster g c) (fun n => fits 28 n).
Proof.
  intros Hc. destruct (fat_address c Hc) as (E1 & E2 & Hr). unfold next_cluster. rewrite E1, E2.
  eapply ends_bind; [by apply read_sector_ends|]. intros b Hb. rewrite (slice_entry b c Hb).
  apply (ends_bind _ _ _ (fun _ => True)); [by apply ends_ret|]. intros e _. apply ends_ret.
  change 0x0FFFFFFF with (Z.ones 28). rewrite Z.land_ones by lia. apply Z.mod_pos_bound. lia.
Qed.

(** *** Clusters *)
Lemma volume_ok_of v d : holds_volume v d -> forall j b, v j = Some b -> length b = 512%nat.
Proof. intros Hd j b. by apply (volume_sector v d). Qed.

Lemma splice_splice (l : list Z) i b r : 0 <= i -> i + Z.of_nat (length b) + Z.of_nat (length r) <= Z.of_nat (length l) ->
  splice (splice l i b) (i + Z.of_nat (length b)) r = splice l i (b ++ r).
Proof.
  intros Hi Hl. unfold splice. set (h := take (Z.to_nat i) l).
  assert (length h = Z.to_nat i) as Hh by (unfold h; rewrite length_take; lia).
  rewrite (app_assoc h b). rewrite take_app_length' by (rewrite length_app; lia).
  rewrite drop_app_ge by (rewrite length_app; lia). rewrite drop_drop, !length_app, <- !app_assoc, Hh.
  do 4 f_equal. lia.
Qed.

Lemma splice_all (l b : list Z) : length b = length l -> splice l 0 b = b.
Proof. intros Hb. unfold splice. simpl. rewrite Hb, drop_all. apply app_nil_r. Qed.

Lemma gather_length v n s r : (forall j b, v j = Some b -> length b = 512%nat) ->
  gather v n s = Some r -> length r = (n * 512)%nat.
Proof.
  intros Hv. revert s r; induction n as [|n IH]; intros s r; simpl; [by intros [= <-]|].
  destruct (v s) as [b|] eqn:Hb; [|done]. destruct (gather v n (s + 1)) as [r'|] eqn:Hr; [|done].
  intros [= <-]. rewrite length_app, (Hv _ _ Hb), (IH _ _ Hr). lia.
Qed.

Lemma read_sectors_yields v n i start buf r :
  0 <= i -> 0 <= start -> start + i + Z.of_nat n <= 2 ^ 42 -> (i + Z.of_nat n) * 512 <= Z.of_nat (length buf) ->
  gather v n (start + i) = Some r -> yields v (read_sectors n i start buf) (splice buf (i * 512) r).
Proof.
  revert i buf r; induction n as [|n IH]; intros i buf r Hi Hs Hb Hl Hg' d Hd; pose proof (volume_ok_of v d Hd) as Hv.
  { simpl in *. injection Hg' as <-. exists d. split; [|done]. unfold ret, splice. simpl. by rewrite Nat.add_0_r, take_drop. }
  cbn [gather] in Hg'. destruct (v (start + i)) as [b|] eqn:Eb; [|done].
  destruct (gather v n (start + i + 1)) as [r'|] eqn:Er; [|done]. injection Hg' as <-.
  pose proof (Hv _ _ Eb) as Lb. pose proof (gather_length _ _ _ _ Hv Er) as Lr.
  assert (splice buf (i * 512) (b ++ r') = splice (splice buf (i * SECTOR_SIZE) b) ((i + 1) * 512) r') as ->.
  { unfold SECTOR_SIZE. rewrite <- splice_splice by lia. f_equal. lia. }
  cbn [read_sectors]. eapply yields_bind; [|apply (IH (i + 1) _ r')|done]; try lia.
  - replace (add64 start i) with (start + i) by (symmetry; apply u64_small; unfold fits; lia).
    apply read_sector_yields; [lia|done].
  - unfold SECTOR_SIZE. rewrite length_splice by lia. lia.
  - by replace (start + (i + 1)) with (start + i + 1) by lia.
Qed.

Lemma read_sectors_ends v n i start buf :
  0 <= i -> 0 <= start -> start + i + Z.of_nat n <= 2 ^ 42 -> (i + Z.of_nat n) * 512 <= Z.of_nat (length buf) ->
  ends v (read_sectors n i start buf) (fun b => length b = length buf).
Proof.
  revert i buf; induction n as [|n IH]; intros i buf Hi Hs Hb Hl; cbn [read_sectors]; [by apply ends_ret|].
  replace (add64 start i) with (start + i) by (symmetry; apply u64_small; unfold fits; lia).
  eapply ends_bind; [apply read_sector_ends; lia|]. intros b Lb. cbn beta in Lb.
  assert (length (splice buf (i * SECTOR_SIZE) b) = length buf) as Ls by (unfold SECTOR_SIZE; apply length_splice; lia).
  rewrite <- Ls. apply IH; try lia.
Qed.

Lemma cluster_address c : 2 <= c < 0x0FFFFFF8 ->
  cluster_to_sector g c = first_data_sector g + (c - 2) * sectors_per_cluster g /\
  0 <= first_data_sector g + (c - 2) * sectors_per_cluster g /\
  first_data_sector g + (c - 2) * sectors_per_cluster g + sectors_per_cluster g <= 2 ^ 42.
Proof.
  intros Hc. destruct Hg as [Hs _ Hd]. unfold fits in *. unfold cluster_to_sector, add64, mul64, sub64.
  rewrite (u64_small (c - 2)) by (unfold fits; lia).
  assert (0 <= (c - 2) * sectors_per_cluster g <= 2 ^ 28 * 2 ^ 8) by nia.
  rewrite (u64_small ((c - 2) * _)) by (unfold fits; lia). rewrite u64_small by (unfold fits; lia). lia.
Qed.

Abbreviation csize := (Z.to_nat (cluster_size g)).

Lemma csize_sectors : csize = (Z.to_nat (sectors_per_cluster g) * 512)%nat.
Proof. destruct Hg as [Hs _ _]. unfold cluster_size, SECTOR_SIZE, fits in *. lia. Qed.

Lemma read_cluster_yields v c bs buf :
  2 <= c < 0x0FFFFFF8 -> cluster_bytes g v c = Some bs -> length buf = csize -> yields v (read_cluster g c buf) bs.
Proof.
  intros Hc Hd Hb dev Hdev. destruct (cluster_address c Hc) as (E & Hlo & Hhi). unfold read_cluster.
  pose proof csize_sectors as Hcs. pose proof (go_spc g Hg) as Hs. unfold fits in Hs.
  rewrite (proj2 (Z.ltb_ge _ _)) by (unfold cluster_size, SECTOR_SIZE in *; lia). rewrite E.
  assert (splice buf (0 * 512) bs = bs) as <-.
  { apply splice_all. rewrite Hb, Hcs. eapply gather_length; [by eapply volume_ok_of|done]. }
  apply read_sectors_yields; try lia; [|done]. rewrite Z.add_0_r. done.
Qed.

Lemma read_cluster_ends v c buf :
  2 <= c < 0x0FFFFFF8 -> length buf = csize -> ends v (read_cluster g c buf) (fun b => length b = csize).
Proof.
  intros Hc Hb. destruct (cluster_address c Hc) as (E & Hlo & Hhi). unfold read_cluster.
  pose proof csize_sectors as Hcs. pose proof (go_spc g Hg) as Hs. unfold fits in Hs.
  rewrite (proj2 (Z.ltb_ge _ _)) by (unfold cluster_size, SECTOR_SIZE in *; lia). rewrite E, <- Hb.
  apply read_sectors_ends; lia.
Qed.

Lemma cluster_bytes_length v c bs dev : holds_volume v dev -> cluster_bytes g v c = Some bs -> length bs = csize.
Proof. intros Hd Hc. rewrite csize_sectors. eapply gather_length; [by eapply volume_ok_of|done]. Qed.

(** *** File contents *)
Lemma slice_prefix (d : list Z) n : 0 <= n <= Z.of_nat (length d) -> slice d 0 n = Returns (take (Z.to_nat n) d).
Proof. intros Hn. rewrite slice_in by lia. unfold sub_slice. by rewrite Z.sub_0_r, drop_0. Qed.

Lemma read_content_yields v fuel c ds size buf acc :
  chain g v c ds -> (length ds < fuel)%nat -> 0 <= size -> length buf = csize ->
  yields v (read_content g fuel c size buf acc) (acc ++ take (Z.to_nat size) (concat ds)).
Proof.
  intros Hch. revert fuel size buf acc.
  induction Hch as [c Hc|c n bs ds Hc Hn Hbs Hch IH]; intros [|fuel] size buf acc Hf Hs Hb dev Hdev; try (simpl in Hf; lia);
    cbn [read_content]; rewrite Hc; cbn [negb].
  { cbn [concat]. rewrite take_nil, app_nil_r. by apply yields_ret. }
  apply data_cluster_range in Hc. pose proof (cluster_bytes_length v c bs dev Hdev Hbs) as Lb.
  pose proof (go_spc g Hg) as Hspc. unfold fits in Hspc.
  assert (0 <= cluster_size g) as Hcs by (unfold cluster_size, SECTOR_SIZE; lia).
  eapply yields_bind; [by apply read_cluster_yields| |done].
  rewrite slice_prefix by lia. eapply yields_bind; [apply yields_ret|]. cbn [concat].
  destruct (Z.leb_spec size (cluster_size g)) as [Hle|Hgt].
  - rewrite Z.min_l by lia. rewrite take_app_le by lia. apply yields_ret.
  - rewrite Z.min_r by lia. eapply yields_bind; [by apply next_cluster_yields|].
    rewrite take_ge by lia. rewrite take_app_ge by lia. rewrite app_assoc.
    replace (Z.to_nat size - length bs)%nat with (Z.to_nat (size - cluster_size g)) by lia.
    apply IH; [simpl in Hf; lia|lia|done].
Qed.

Lemma read_content_ends v fuel c size buf acc :
  0 < sectors_per_cluster g -> 0 <= size -> size / cluster_size g < Z.of_nat fuel -> length buf = csize ->
  ends v (read_content g fuel c size buf acc) (fun _ => True).
Proof.
  intros Hspc. revert c size buf acc. assert (0 < cluster_size g) as Hcs by (unfold cluster_size, SECTOR_SIZE; lia).
  induction fuel as [|fuel IH]; intros c size buf acc Hs Hf Hb.
  { pose proof (Z.div_pos size (cluster_size g) Hs Hcs). lia. }
  cbn [read_content]. destruct (is_data_cluster c) eqn:Hc; cbn [negb]; [|by apply ends_ret].
  apply data_cluster_range in Hc. eapply ends_bind; [by apply read_cluster_ends|]. intros bs Lb. cbn beta in Lb.
  rewrite slice_prefix by lia. apply (ends_bind _ _ _ (fun _ => True)); [by apply ends_ret|]. intros part _.
  destruct (Z.leb_spec size (cluster_size g)) as [Hle|Hgt]; [by apply ends_ret|].
  eapply ends_bind; [by apply next_cluster_ends|]. intros n _. apply IH; [lia| |done].
  replace size with ((size - cluster_size g) + 1 * cluster_size g) in Hf by lia. rewrite Z.div_add in Hf by lia. lia.
Qed.

Lemma read_file_content_yields v fuel c ds size :
  chain g v c ds -> (length ds < fuel)%nat -> 0 <= size ->
  yields v (read_file_content g fuel c size) (take (Z.to_nat size) (concat ds)).
Proof. intros Hch Hf Hs. apply (read_content_yields v fuel c ds size _ []); try done. by rewrite length_replicate. Qed.


(** *** Directories *)

(** `String::from_utf8_lossy` and `str::to_lowercase`, whatever they do. *)
Context (from_utf8_lossy to_lowercase : list Z -> list Z).

Definition named (target : list Z) (e : FatDirectoryEntry) : bool :=
  bool_decide (get_name from_utf8_lossy to_lowercase e = to_lowercase target).

(** The first visible entry of a directory with the given name. *)
Definition lookup_entry (target : list Z) (ds : list (list Z)) : option FatDirectoryEntry :=
  List.find (named target) (concat (map (visible (Z.to_nat (cluster_size g / 32))) ds)).

Lemma find_app {A} (f : A -> bool) l1 l2 :
  List.find f (l1 ++ l2) = match List.find f l1 with Some x => Some x | None => List.find f l2 end.
Proof. induction l1 as [|x l1 IH]; [done|]. simpl. by destruct (f x). Qed.

Lemma scan_entries_spec n i target (d : list Z) :
  scan_entries from_utf8_lossy to_lowercase n (Z.of_nat i) (to_lowercase target) d =
  match List.find (named target) (List.filter (fun e => negb (is_free e || is_lfn e))
    (before_end (map (fun i => entry_of (sub_slice d (Z.of_nat i * 32) (Z.of_nat i * 32 + 32))) (seq i n)))) with
  | Some e => Found e
  | None => Exhausted
  end.
Proof.
  revert i; induction n as [|n IH]; intros i; [done|]. cbn [scan_entries seq map before_end].
  set (e := entry_of _). replace (Z.of_nat i + 1) with (Z.of_nat (S i)) by lia.
  destruct (is_end e); [done|]. cbn [List.filter]. destruct (is_free e || is_lfn e); cbn [negb]; [apply IH|].
  cbn [List.find]. unfold named at 1. case_bool_decide as Hn.
  - by rewrite decide_True.
  - rewrite decide_False by done. apply IH.
Qed.

Lemma find_from_spec v fuel c ds target buf :
  chain g v c ds -> (length ds < fuel)%nat -> length buf = csize ->
  match lookup_entry target ds with
  | Some e => yields v (find_from from_utf8_lossy to_lowercase g fuel c (to_lowercase target) buf) e
  | None => forall d, holds_volume v d -> exists d',
      find_from from_utf8_lossy to_lowercase g fuel c (to_lowercase target) buf d = (Fail "File or directory not found", d')
      /\ holds_volume v d'
  end.
Proof.
  intros Hch. revert fuel buf. induction Hch as [c Hc|c n bs ds Hc Hn Hbs Hch IH]; intros [|fuel] buf Hf Hb; try (simpl in Hf; lia).
  { simpl. rewrite Hc. cbn [negb]. intros d Hd. by exists d. }
  cbn [find_from]. rewrite Hc. cbn [negb]. apply data_cluster_range in Hc.
  unfold lookup_entry. cbn [map concat]. rewrite find_app. unfold visible at 1, entries.
  pose proof (scan_entries_spec (Z.to_nat (cluster_size g / 32)) 0 target bs) as Hscan. change (Z.of_nat 0) with 0 in Hscan.
  pose proof (read_cluster_yields v c bs buf Hc Hbs Hb) as Hrd.
  destruct (List.find (named target) _) as [e|].
  - eapply yields_bind; [exact Hrd|]. rewrite Hscan. apply yields_ret.
  - specialize (IH fuel bs ltac:(simpl in Hf; lia)). fold (lookup_entry target ds).
    destruct (lookup_entry target ds) as [e|].
    + intros d Hd. eapply yields_bind; [exact Hrd| |done]. rewrite Hscan.
      eapply yields_bind; [by apply next_cluster_yields|]. apply IH. by eapply cluster_bytes_length.
    + intros d Hd. destruct (Hrd d Hd) as (d1 & E1 & Hd1). unfold bind at 1. rewrite E1, Hscan.
      destruct (next_cluster_yields v c n Hc Hn d1 Hd1) as (d2 & E2 & Hd2). unfold bind. rewrite E2.
      apply IH; [by eapply cluster_bytes_length|done].
Qed.

(** *** Paths *)

(** [path_entry n c parts e]: looking the components [parts] up one after the other, from
    the directory at [c], ends at the entry [e]; every directory has fewer than [n] clusters. *)
Inductive path_entry v (n : nat) : Z -> list (list Z) -> FatDirectoryEntry -> Prop :=
| pe_last c p ds e :
    chain g v c ds -> (length ds < n)%nat -> lookup_entry p ds = Some e -> path_entry v n c [p] e
| pe_dir c p q rest ds e e' :
    chain g v c ds -> (length ds < n)%nat -> lookup_entry p ds = Some e -> Z.land (attr e) ATTR_DIRECTORY <> 0 ->
    path_entry v n (starting_cluster e) (q :: rest) e' -> path_entry v n c (p :: q :: rest) e'.

Lemma find_in_directory_yields v fuel c ds target e :
  chain g v c ds -> (length ds < fuel)%nat -> lookup_entry target ds = Some e ->
  yields v (find_in_directory from_utf8_lossy to_lowercase g fuel c target) e.
Proof.
  intros Hch Hf He. pose proof (find_from_spec v fuel c ds target (replicate csize 0) Hch Hf) as H1.
  rewrite He in H1. apply H1. by rewrite length_replicate.
Qed.

Lemma resolve_parts_yields v fuel c parts e :
  path_entry v fuel c parts e -> yields v (resolve_parts from_utf8_lossy to_lowercase g fuel c parts) e.
Proof.
  induction 1 as [c p ds e Hch Hl He|c p q rest ds e e' Hch Hl He Hdir Hpe IH]; cbn [resolve_parts].
  - eapply yields_bind; [by eapply find_in_directory_yields|apply yields_ret].
  - eapply yields_bind; [by eapply find_in_directory_yields|]. cbn beta. by rewrite (proj2 (Z.eqb_neq _ _) Hdir).
Qed.

Lemma read_file_by_path_yields v fuel path e ds :
  path_entry v fuel (root_cluster g) (split_slashes (trim_slashes path)) e ->
  trim_slashes path <> [] -> Z.land (attr e) ATTR_DIRECTORY = 0 ->
  chain g v (starting_cluster e) ds -> (length ds < fuel)%nat -> 0 <= file_size e ->
  yields v (read_file_by_path from_utf8_lossy to_lowercase g fuel path) (take (Z.to_nat (file_size e)) (concat ds)).
Proof.
  intros Hpath Hne Hfile Hch Hlen Hsz. apply (yields_bind v _ _ e).
  - unfold resolve_path. destruct (trim_slashes path); [done|]. by apply resolve_parts_yields.
  - rewrite Hfile. cbn [Z.eqb negb]. by apply read_file_content_yields.
Qed.

(** C22: Reading a file by path: on any device that meets the block-device interface, if the
    path's components lead through directories to a file entry (the first visible entry of
    that name in each, compared in lower case) and the file's cluster chain ends, then
    `read_file_by_path` terminates, returns exactly the first `file_size` bytes of the
    chain's clusters, and leaves the volume as it was. *)
Theorem read_file_by_path_correct v fuel path e ds
  (Hpath : path_entry v fuel (root_cluster g) (split_slashes (trim_slashes path)) e)
  (Hne : trim_slashes path <> []) (Hfile : Z.land (attr e) ATTR_DIRECTORY = 0)
  (Hch : chain g v (starting_cluster e) ds) (Hlen : (length ds < fuel)%nat) (Hsz : 0 <= file_size e) :
  forall d, holds_volume v d -> exists d',
    read_file_by_path from_utf8_lossy to_lowercase g fuel path d =
      (Val (take (Z.to_nat (file_size e)) (concat ds)), d') /\ holds_volume v d'.
Proof. intros d Hd. by apply (read_file_by_path_yields v fuel path e ds). Qed.

(** `find_in_directory` is exact on a directory whose chain ends: it returns the first
    visible entry with the name, or "File or directory not found" when there is none. *)
Theorem find_in_directory_exact v fuel c ds target
  (Hch : chain g v c ds) (Hf : (length ds < fuel)%nat) :
  forall d, holds_volume v d -> exists d',
    find_in_directory from_utf8_lossy to_lowercase g fuel c target d =
      (match lookup_entry target ds with
       | Some e => Val e
       | None => Fail "File or directory not found"
       end, d') /\ holds_volume v d'.
Proof.
  pose proof (find_from_spec v fuel c ds target (replicate csize 0) Hch Hf ltac:(by rewrite length_replicate)) as H1.
  destruct (lookup_entry target ds); exact H1.
Qed.

Lemma find_from_cycle v fuel c bs target buf :
  2 <= c < 0x0FFFFFF8 -> fat_entry g v c = Some c -> cluster_bytes g v c = Some bs ->
  List.find (named target) (visible (Z.to_nat (cluster_size g / 32)) bs) = None -> length buf = csize ->
  forall d, holds_volume v d ->
    fst (find_from from_utf8_lossy to_lowercase g fuel c (to_lowercase target) buf d) = NoFuel.
Proof.
  intros Hc Hn Hbs Hnone. revert buf. induction fuel as [|fuel IH]; intros buf Hb d Hd; [done|].
  cbn [find_from]. rewrite (proj2 (data_cluster_range c) Hc). cbn [negb].
  destruct (read_cluster_yields v c bs buf Hc Hbs Hb d Hd) as (d1 & E1 & Hd1). unfold bind at 1. rewrite E1.
  pose proof (scan_entries_spec (Z.to_nat (cluster_size g / 32)) 0 target bs) as Hscan. change (Z.of_nat 0) with 0 in Hscan.
  unfold visible, entries in Hnone. rewrite Hnone in Hscan. rewrite Hscan.
  destruct (next_cluster_yields v c c Hc Hn d1 Hd1) as (d2 & E2 & Hd2). unfold bind. rewrite E2.
  apply IH; [by eapply cluster_bytes_length|done].
Qed.

(** On a directory whose allocation-table entry points back at itself, looking up a name
    that is not in it never returns: no number of loop turns is enough. *)
Theorem find_in_directory_cycle_diverges v c bs target
  (Hc : 2 <= c < 0x0FFFFFF8) (Hn : fat_entry g v c = Some c) (Hbs : cluster_bytes g v c = Some bs)
  (Hnone : List.find (named target) (visible (Z.to_nat (cluster_size g / 32)) bs) = None) :
  forall fuel d, holds_volume v d ->
    fst (find_in_directory from_utf8_lossy to_lowercase g fuel c target d) = NoFuel.
Proof. intros fuel. apply (find_from_cycle v fuel c bs); try done. by rewrite length_replicate. Qed.

(** ** `mount` and the MBR *)
Lemma byte_fits (l : list Z) i : bytes_ok l -> fits 8 (byte l i).
Proof.
  intros Hl. unfold byte. destruct (nth_in_or_default i l 0) as [Hin| ->]; [|by split].
  by apply list_elem_of_In, (proj1 (Forall_forall _ _) Hl) in Hin.
Qed.

Lemma disk_field_fits (l : list Z) a n : bytes_ok l -> 0 <= a -> 0 <= n -> 0 <= le_bytes (sub_slice l a (a + n)) < 2 ^ (8 * n).
Proof.
  intros Hl Ha Hn. pose proof (le_bytes_fits _ (bytes_ok_sub_slice l a (a + n) Hl)) as Hf. unfold fits in Hf.
  assert (Z.of_nat (length (sub_slice l a (a + n))) <= n).
  { unfold sub_slice. rewrite length_take. lia. }
  assert (2 ^ (8 * Z.of_nat (length (sub_slice l a (a + n)))) <= 2 ^ (8 * n)) by (apply Z.pow_le_mono_r; lia). lia.
Qed.

Lemma mount_geometry_ok d g' d' : bd_ok d -> bd_view d 0 <> None -> mount d = (Val g', d') -> geometry_ok g'.
Proof.
  intros Hok Hv. destruct (bd_view d 0) as [b|] eqn:Eb; [clear Hv|done]. unfold mount, bind.
  destruct (bd_read d 0 b Hok ltac:(lia) Eb) as (d1 & -> & _). destruct (bd_sector d 0 b Hok Eb) as [Lb Hb].
  destruct (negb (boot_signature b)); [done|]. destruct (negb _); [done|]. destruct (_ =? 0); [done|].
  intros [= <- _]. pose proof (disk_field_fits b 14 2 Hb ltac:(lia) ltac:(lia)) as H1.
  pose proof (disk_field_fits b 36 4 Hb ltac:(lia) ltac:(lia)) as H2. pose proof (byte_fits b 16 Hb) as H3.
  change (14 + 2) with 16 in H1. change (36 + 4) with 40 in H2. unfold fits in H3. split; cbn [sectors_per_cluster first_fat_sector first_data_sector].
  - by apply byte_fits.
  - exact H1.
  - unfold add64, mul64. rewrite (u64_small (_ * _)) by (unfold fits; nia). rewrite u64_small; unfold fits; nia.
Qed.

(** The geometry a boot sector describes, and when `mount` takes it. *)
Definition geometry_of (b : list Z) : Fat32Geometry :=
  let nf := byte b 16 in let spf := le_bytes (sub_slice b 36 40) in let rsv := le_bytes (sub_slice b 14 16) in
  {| bytes_per_sector := 512; sectors_per_cluster := byte b 13; reserved_sector_count := rsv; num_fats := nf;
     sectors_per_fat := spf; root_cluster := le_bytes (sub_slice b 44 48); first_fat_sector := rsv;
     first_data_sector := rsv + nf * spf |}.
Definition fat_boot_sector (b : list Z) : Prop :=
  boot_signature b = true /\ le_bytes (sub_slice b 11 13) = 512 /\ le_bytes (sub_slice b 36 40) <> 0.

Lemma geometry_of_ok b : bytes_ok b -> geometry_ok (geometry_of b).
Proof.
  intros Hb. clear Hlim. pose proof (disk_field_fits b 14 2 Hb ltac:(lia) ltac:(lia)) as H1.
  pose proof (disk_field_fits b 36 4 Hb ltac:(lia) ltac:(lia)) as H2. pose proof (byte_fits b 16 Hb) as H3.
  change (14 + 2) with 16 in H1. change (36 + 4) with 40 in H2. unfold fits in H3.
  split; cbn [geometry_of sectors_per_cluster first_fat_sector first_data_sector]; [by apply byte_fits|exact H1|nia].
Qed.

Lemma mount_yields v b : v 0 = Some b -> bytes_ok b -> fat_boot_sector b -> yields v mount (geometry_of b).
Proof.
  intros Hv Hb (Hs & H5 & Hspf). clear Hlim. eapply yields_bind; [apply (read_sector_yields v 0 b); [lia|done]|].
  cbv zeta. rewrite Hs, H5, (proj2 (Z.eqb_neq _ _) Hspf). change (512 =? SECTOR_SIZE) with true. cbn [negb].
  pose proof (disk_field_fits b 14 2 Hb ltac:(lia) ltac:(lia)) as H1.
  pose proof (disk_field_fits b 36 4 Hb ltac:(lia) ltac:(lia)) as H2. pose proof (byte_fits b 16 Hb) as H3.
  change (14 + 2) with 16 in H1. change (36 + 4) with 40 in H2. unfold fits in H3.
  assert (add64 (le_bytes (sub_slice b 14 16)) (mul64 (byte b 16) (le_bytes (sub_slice b 36 40))) =
    first_data_sector (geometry_of b)) as ->.
  { unfold add64, mul64. rewrite (u64_small (_ * _)) by (unfold fits; nia). rewrite u64_small; [done|unfold fits; nia]. }
  apply yields_ret.
Qed.

(** Type byte and start of the [i]-th entry of the partition table. *)
Definition part_type (b : list Z) (i : Z) : Z := byte (sub_slice b (446 + i * 16) (446 + i * 16 + 16)) 4.
Definition part_lba (b : list Z) (i : Z) : Z :=
  le_bytes (sub_slice (sub_slice b (446 + i * 16) (446 + i * 16 + 16)) 8 12).
Definition part_blank (b : list Z) (i : Z) : Prop := part_type b i = 0 \/ part_lba b i = 0.

Lemma scan_partitions_spec n i b :
  match scan_partitions n i b with
  | Some lba => exists j, i <= j < i + Z.of_nat n /\ lba = part_lba b j /\ ~ part_blank b j /\
                forall k, i <= k < j -> part_blank b k
  | None => forall k, i <= k < i + Z.of_nat n -> part_blank b k
  end.
Proof.
  revert i; induction n as [|n IH]; intros i; [simpl; lia|]. cbn [scan_partitions].
  unfold PARTITION_TABLE_OFFSET, PARTITION_ENTRY_SIZE, TYPE_EMPTY. fold (part_type b i) (part_lba b i).
  assert (part_blank b i -> match scan_partitions n (i + 1) b with
    | Some lba => exists j, i <= j < i + Z.of_nat (S n) /\ lba = part_lba b j /\ ~ part_blank b j /\
                  forall k, i <= k < j -> part_blank b k
    | None => forall k, i <= k < i + Z.of_nat (S n) -> part_blank b k end) as Hskip.
  { intros Hb. specialize (IH (i + 1)). destruct (scan_partitions n (i + 1) b) as [lba|].
    - destruct IH as (j & Hj & -> & Hnb & Hk). exists j. split; [lia|]. split; [done|]. split; [done|].
      intros k Hki. destruct (decide (k = i)) as [->|]; [done|]. apply Hk. lia.
    - intros k Hki. destruct (decide (k = i)) as [->|]; [done|]. apply IH. lia. }
  destruct (Z.eqb_spec (part_type b i) 0) as [E|E]; [apply Hskip; by left|].
  destruct (Z.eqb_spec (part_lba b i) 0) as [E'|E']; [apply Hskip; by right|].
  exists i. split; [lia|]. split; [done|]. split; [by intros [?|?]|]. intros k. lia.
Qed.

(** `find_first_partition_lba` on a disk whose first sector is [b]: it returns the start
    of the first of the four entries whose type and start are both non-zero, and `None`
    exactly when the boot signature is missing or there is no such entry. *)
Theorem find_first_partition_exact v b (Hb : v 0 = Some b) :
  exists r, (forall d, holds_volume v d -> exists d', find_first_partition_lba d = (Val r, d') /\ holds_volume v d') /\
  match r with
  | Some lba => boot_signature b = true /\ exists j, 0 <= j < 4 /\ lba = part_lba b j /\ ~ part_blank b j /\
                forall k, 0 <= k < j -> part_blank b k
  | None => boot_signature b = false \/ forall k, 0 <= k < 4 -> part_blank b k
  end.
Proof.
  exists (if boot_signature b then scan_partitions 4 0 b else None). split.
  - apply (yields_bind v _ _ b); [by apply read_sector_yields|]. destruct (boot_signature b); apply yields_ret.
  - pose proof (scan_partitions_spec 4 0 b) as Hs. destruct (boot_signature b); [|by left].
    destruct (scan_partitions 4 0 b); [done|by right].
Qed.

(** A write through a partition changes exactly one sector of the disk below it, the
    one at `lba_offset + sector_id`, and reading that sector back through the partition
    returns the bytes written. *)
Theorem partition_write_read (p : PartitionBlockDevice D) i b
  (Hok : bd_ok (inner p)) (Ho : fits 32 (lba_offset p)) (Hi : 0 <= i < 2 ^ 63)
  (Hb : length b = 512%nat) (Hbb : bytes_ok b) (Hin : bd_view (inner p) (i + lba_offset p) <> None) :
  exists p', write_sector i b p = (Val tt, p') /\
    (forall j, bd_view (inner p') j = if decide (j = i + lba_offset p) then Some b else bd_view (inner p) j) /\
    exists p'', read_sector i p' = (Val b, p'').
Proof.
  destruct p as [d off]. cbn [inner lba_offset] in *. unfold fits in Ho.
  assert (0 <= i + off) as Hr by lia.
  assert (add64 i off = i + off) as Ea by (apply u64_small; unfold fits; lia).
  destruct (bd_write d (i + off) b Hok Hr Hb Hbb Hin) as (d' & E & Hok' & Hk).
  exists (Partition d' off). cbn [write_sector read_sector partition_block inner].
  unfold part_write_sector, part_read_sector, on_inner. cbn [inner lba_offset]. rewrite Ea, E.
  split; [done|]. split; [done|].
  destruct (bd_read d' (i + off) b Hok' Hr ltac:(by rewrite Hk, decide_True)) as (d'' & E2 & _).
  exists (Partition d'' off). by rewrite E2.
Qed.
End driver.

(** ** A four-sector volume

    Sector 0 is the boot sector, sector 1 the table, sector 2 the root directory (cluster 2)
    with one file "A.TXT" of three bytes, sector 3 its contents (cluster 3). *)
Definition put_bytes (ps : list (Z * list Z)) : list Z :=
  fold_left (fun l p => splice l (fst p) (snd p)) ps (replicate 2048 0).

Definition demo_volume : RamBlockDevice := {| rb_data := put_bytes
  [(11, [0; 2]); (13, [1]); (14, [1; 0]); (16, [1]); (36, [1; 0; 0; 0]); (44, [2; 0; 0; 0]);
   (446 + 4, [12]); (446 + 8, [63; 0; 0; 0]); (510, [0x55; 0xAA]);
   (512 + 8, [0xFF; 0xFF; 0xFF; 0x0F]); (512 + 12, [0xF8; 0xFF; 0xFF; 0x0F]);
   (1024, bytes_of "A       TXT"); (1024 + 26, [3; 0; 3; 0; 0; 0]);
   (1536, bytes_of "hey")] |}.

(** The same volume with the table entry of the root directory pointing at itself. *)
Definition cyclic_volume : RamBlockDevice := {| rb_data := splice (rb_data demo_volume) (512 + 8) [2; 0; 0; 0] |}.

Definition demo_geometry : Fat32Geometry :=
  {| bytes_per_sector := 512; sectors_per_cluster := 1; reserved_sector_count := 1; num_fats := 1;
     sectors_per_fat := 1; root_cluster := 2; first_fat_sector := 1; first_data_sector := 2 |}.

Definition ascii_lower (l : list Z) : list Z := map (fun b => if (65 <=? b) && (b <=? 90) then b + 32 else b) l.

Lemma demo_mounts : fst (mount demo_volume) = Val demo_geometry.
Proof. vm_compute. reflexivity. Qed.

Lemma demo_limit : 2 ^ 42 <= bd_limit (D := RamBlockDevice).
Proof. done. Qed.

Lemma demo_geometry_ok : geometry_ok demo_geometry.
Proof. by split. Qed.

Lemma demo_holds (d : RamBlockDevice) :
  forallb (fitsb 8) (rb_data d) && (Z.of_nat (length (rb_data d)) <=? 2 ^ 63) = true -> holds_volume (bd_view d) d.
Proof.
  intros [H Hl%Z.leb_le]%andb_true_iff. split; [|done]. split; [by apply bytes_ok_dec|done].
Qed.

Definition demo_sector (i : Z) : list Z := default [] (bd_view demo_volume i).

Lemma demo_boot : bd_view demo_volume 0 = Some (demo_sector 0).
Proof. vm_compute. reflexivity. Qed.

Lemma demo_root_chain : chain demo_geometry (bd_view demo_volume) 2 [demo_sector 2].
Proof.
  apply (chain_step _ _ 2 0x0FFFFFFF); [reflexivity|vm_compute; reflexivity|vm_compute; reflexivity|].
  by apply chain_end.
Qed.
Lemma demo_file : chain demo_geometry (bd_view demo_volume) 3 [demo_sector 3].
Proof.
  apply (chain_step _ _ 3 0x0FFFFFF8); [reflexivity|vm_compute; reflexivity|vm_compute; reflexivity|].
  by apply chain_end.
Qed.

Lemma read_file_by_path_correct_witness :
  exists d', read_file_by_path (fun l => l) ascii_lower demo_geometry 3 (bytes_of "/a.txt") demo_volume =
    (Val (bytes_of "hey"), d').
Proof.
  set (e := entry_of (sub_slice (demo_sector 2) 0 32)).
  destruct (read_file_by_path_correct (D := RamBlockDevice) demo_geometry demo_geometry_ok
    (fun l => l) ascii_lower (bd_view demo_volume) 3 (bytes_of "/a.txt") e [demo_sector 3]) with (d := demo_volume) as (d' & E & _).
  - apply (pe_last _ _ _ _ _ _ _ [demo_sector 2]); [apply demo_root_chain|simpl; lia|vm_compute; reflexivity].
  - done.
  - vm_compute; reflexivity.
  - replace (starting_cluster e) with 3 by (vm_compute; reflexivity). apply demo_file.
  - simpl; lia.
  - vm_compute; discriminate.
  - apply demo_holds. vm_compute. reflexivity.
  - exists d'. rewrite E. by f_equal.
Defined.


Lemma find_in_directory_exact_witness :
  fst (find_in_directory (fun l => l) ascii_lower demo_geometry 3 2 (bytes_of "b.txt") demo_volume) =
  Fail "File or directory not found".
Proof.
  destruct (find_in_directory_exact (D := RamBlockDevice) demo_geometry demo_geometry_ok
    (fun l => l) ascii_lower (bd_view demo_volume) 3 2 [demo_sector 2] (bytes_of "b.txt") demo_root_chain) with (d := demo_volume)
    as (d' & E & _).
  - simpl; lia.
  - apply demo_holds. vm_compute. reflexivity.
  - rewrite E. vm_compute. reflexivity.
Defined.

Lemma find_in_directory_cycle_diverges_witness :
  fst (find_in_directory (fun l => l) ascii_lower demo_geometry 100 2 (bytes_of "b.txt") cyclic_volume) = NoFuel.
Proof.
  apply (find_in_directory_cycle_diverges (D := RamBlockDevice) demo_geometry demo_geometry_ok
    (fun l => l) ascii_lower (bd_view cyclic_volume) 2 (demo_sector 2)).
  - lia.
  - vm_compute. reflexivity.
  - vm_compute. reflexivity.
  - vm_compute. reflexivity.
  - apply demo_holds. vm_compute. reflexivity.
Defined.

Lemma find_first_partition_exact_witness :
  exists r, fst (find_first_partition_lba demo_volume) = Val r /\ r = Some 63.
Proof.
  destruct (find_first_partition_exact (D := RamBlockDevice) (bd_view demo_volume) (demo_sector 0) demo_boot)
    as (r & H & _).
  destruct (H demo_volume) as (d' & E & _).
  - apply demo_holds. vm_compute. reflexivity.
  - exists r. rewrite E. split; [done|].
    assert (fst (find_first_partition_lba demo_volume) = Val (Some 63)) as E' by (vm_compute; reflexivity).
    rewrite E in E'. by injection E'.
Defined.

Lemma partition_write_read_witness :
  exists p', write_sector 0 (replicate 512 7) (Partition demo_volume 3) = (Val tt, p') /\
  bd_view (inner p') 2 = bd_view demo_volume 2.
Proof.
  destruct (partition_write_read (D := RamBlockDevice) (Partition demo_volume 3) 0 (replicate 512 7)) as (p' & E & H & _).
  - apply (demo_holds demo_volume). vm_compute. reflexivity.
  - done.
  - lia.
  - done.
  - apply Forall_replicate. done.
  - vm_compute. discriminate.
  - exists p'. split; [exact E|]. rewrite H. reflexivity.
Defined.
