(* ===== verification/Vfs.v ===== *)
(** The virtual file system: the node and file-system traits (src/src/fs/mod.rs), the tar
    ramdisk (src/src/ramdisk.rs), the two adapters (src/src/fs/tar_adapter.rs,
    src/src/fs/fat32_adapter.rs) and mount-point routing (src/src/fs/vfs.rs). *)
From S2P Require Import Prelude Block Fat32.

(** ** `fs::mod`

    Nodes and file systems act on a state [W], the devices behind them. *)
Inductive NodeType := File | Directory.
Record Metadata := { md_name : list Z; md_size : Z; md_type : NodeType }.

(** `FileNode`: [node_read offset n] reads into a buffer of [n] bytes; its result is the
    bytes stored at the buffer's start, whose number is the `Ok` value. *)
Record FileNode (W : Type) := { metadata : Metadata; node_read : Z -> Z -> io W (list Z) }.
Arguments metadata {W}. Arguments node_read {W}.

Record FileSystem (W : Type) := { fs_root : FileNode W; fs_lookup : list Z -> io W (option (FileNode W)) }.
Arguments fs_root {W}. Arguments fs_lookup {W}.

(** ** `ramdisk`: headers *)

(** A header is the 512 bytes of its block. *)
Abbreviation UstarHeader := (list Z) (only parsing).
Definition hdr_name (h : UstarHeader) : list Z := sub_slice h 0 100.
Definition hdr_size (h : UstarHeader) : list Z := sub_slice h 124 136.
Definition hdr_typeflag (h : UstarHeader) : Z := byte h 156.
Definition hdr_magic (h : UstarHeader) : list Z := sub_slice h 257 263.

Fixpoint parse_octal (l : list Z) (size : Z) : Z :=
  match l with
  | [] => size
  | b :: l' =>
      if (b =? 0) || (b =? 32) then size
      else if (48 <=? b) && (b <=? 55) then parse_octal l' (Z.lor (shl64 size 3) (b - 48))
      else parse_octal l' size
  end.
Definition header_file_size (h : UstarHeader) : Z := parse_octal (hdr_size h) 0.

(** The bytes before the first NUL. *)
Fixpoint until_nul (l : list Z) : list Z :=
  match l with
  | [] => []
  | b :: l' => if b =? 0 then [] else b :: until_nul l'
  end.
Definition filename (h : UstarHeader) : list Z :=
  let n := until_nul (hdr_name h) in
  if from_utf8_ok n then n else bytes_of "<invalid utf8>".

Definition USTAR_NUL : list Z := bytes_of "ustar" ++ [0].
Definition USTAR_SPACE : list Z := bytes_of "ustar ".
Definition is_valid (h : UstarHeader) : bool :=
  bool_decide (hdr_magic h = USTAR_NUL) || bool_decide (hdr_magic h = USTAR_SPACE).

(** ** `ramdisk`: entries and the iterator *)
Record FileEntry := { fe_name : list Z; fe_size : Z; fe_data : list Z; fe_typeflag : Z }.
Definition is_file (e : FileEntry) : bool := (fe_typeflag e =? 0) || (fe_typeflag e =? 48).
Definition is_dir (e : FileEntry) : bool := fe_typeflag e =? 53.
Definition as_text (e : FileEntry) : option (list Z) := if from_utf8_ok (fe_data e) then Some (fe_data e) else None.

Record TarFileSystem := { tar_data : list Z }.

(** `TarFileSystem::new` on the bytes of the given range. *)
Definition TarFileSystem_new (data : list Z) : option TarFileSystem :=
  if Z.of_nat (length data) <? 512 then None
  else if negb (is_valid (take 512 data)) then None
  else Some {| tar_data := data |}.

Record TarIterator := { ti_data : list Z; ti_offset : Z }.
Definition files (t : TarFileSystem) : TarIterator := {| ti_data := tar_data t; ti_offset := 0 |}.

Definition tar_next (it : TarIterator) : option FileEntry * TarIterator :=
  let data := ti_data it in let len := Z.of_nat (length data) in
  if negb (add64 (ti_offset it) 512 <=? len) then (None, it) else
  let h := sub_slice data (ti_offset it) (ti_offset it + 512) in
  if byte h 0 =? 0 then (None, it) else
  if negb (is_valid h) then (None, it) else
  let fsize := header_file_size h in
  let data_start := add64 (ti_offset it) 512 in
  let padded_size := Z.land (add64 fsize 511) (not64 511) in
  let it' := {| ti_data := data; ti_offset := add64 data_start padded_size |} in
  let safe_data_slice :=
    if add64 data_start fsize <=? len then sub_slice data data_start (add64 data_start fsize) else [] in
  (Some {| fe_name := filename h; fe_size := fsize; fe_data := safe_data_slice; fe_typeflag := hdr_typeflag h |}, it').

(** `files().find(..)` and the list `files().collect()` would build; [None]: out of fuel. *)
Fixpoint collect (fuel : nat) (it : TarIterator) : option (list FileEntry) :=
  match fuel with
  | O => None
  | S f => match tar_next it with
           | (None, _) => Some []
           | (Some e, it') => match collect f it' with Some l => Some (e :: l) | None => None end
           end
  end.

Fixpoint find_entry (fuel : nat) (p : FileEntry -> bool) (it : TarIterator) : option FileEntry :=
  match fuel with
  | O => None
  | S f => match tar_next it with
           | (None, _) => None
           | (Some e, it') => if p e then Some e else find_entry f p it'
           end
  end.

(** Every step moves at least one block on, so this many are enough. *)
Definition tar_fuel (t : TarFileSystem) : nat := S (length (tar_data t) / 512).
Definition tar_find (t : TarFileSystem) (target_name : list Z) : option FileEntry :=
  find_entry (tar_fuel t) (fun e => bool_decide (fe_name e = target_name)) (files t).

(** ** `fs::tar_adapter` *)
Section tar_adapter.
Context {W : Type}.

Definition TarDirectoryNode : FileNode W :=
  {| metadata := {| md_name := [47]; md_size := 0; md_type := Directory |};
     node_read _ _ := fail "Cannot read root directory as a file" |}.

Definition tar_node_read (e : FileEntry) (offset buf_len : Z) : io W (list Z) :=
  if is_dir e then fail "Cannot read directory as a file" else
  let len := Z.of_nat (length (fe_data e)) in
  if len <=? offset then ret [] else
  let copy_len := Z.min buf_len (len - offset) in
  of_outcome (slice (fe_data e) offset (offset + copy_len)).

Definition TarFileNode (e : FileEntry) : FileNode W :=
  {| metadata := {| md_name := fe_name e; md_size := fe_size e; md_type := if is_dir e then Directory else File |};
     node_read := tar_node_read e |}.

Definition tar_lookup (t : TarFileSystem) (path : list Z) : io W (option (FileNode W)) :=
  match trim_slashes path with
  | [] => ret (Some TarDirectoryNode)
  | clean_path => ret (match tar_find t clean_path with Some e => Some (TarFileNode e) | None => None end)
  end.

Definition TarFsAdapter (t : TarFileSystem) : FileSystem W :=
  {| fs_root := TarDirectoryNode; fs_lookup := tar_lookup t |}.
End tar_adapter.

(** ** `fs::fat32_adapter`

    The volume behind the `Arc<Spinlock<..>>` is the device state. *)
Section fat32_adapter.
Context {D : Type} `{BD : BlockDevice D} (from_utf8_lossy to_lowercase : list Z -> list Z) (g : Fat32Geometry).
Context (fuel : nat).

Definition Fat32DirectoryNode : FileNode D :=
  {| metadata := {| md_name := [47]; md_size := 0; md_type := Directory |};
     node_read _ _ := fail "Cannot read a directory as a file" |}.

Definition fat_node_read (e : FatDirectoryEntry) (offset buf_len : Z) : io D (list Z) :=
  if file_size e <=? offset then ret [] else
  content <~ read_file_content g fuel (starting_cluster e) (file_size e);
  let copy_len := Z.min buf_len (sub64 (Z.of_nat (length content)) offset) in
  of_outcome (slice content offset (add64 offset copy_len)).

Definition Fat32FileNode (e : FatDirectoryEntry) : FileNode D :=
  {| metadata := {| md_name := get_name from_utf8_lossy to_lowercase e; md_size := file_size e; md_type := File |};
     node_read := fat_node_read e |}.

Definition fat_lookup (path : list Z) : io D (option (FileNode D)) :=
  match trim_slashes path with
  | [] => ret (Some Fat32DirectoryNode)
  | clean_path => fun d =>
      match resolve_path from_utf8_lossy to_lowercase g fuel clean_path d with
      | (Val e, d) =>
          (Val (Some (if negb (Z.land (attr e) ATTR_DIRECTORY =? 0) then Fat32DirectoryNode else Fat32FileNode e)), d)
      | (Fail _, d) => (Val None, d)
      | (Panicked, d) => (Panicked, d)
      | (NoFuel, d) => (NoFuel, d)
      end
  end.

Definition Fat32Adapter : FileSystem D := {| fs_root := Fat32DirectoryNode; fs_lookup := fat_lookup |}.
End fat32_adapter.

(** ** `fs::vfs` *)
Section vfs.
Context {W : Type}.

Record MountPoint := { mp_path : list Z; mp_fs : FileSystem W }.
Record VirtualFileSystem := { mounts : list MountPoint }.

Definition VirtualFileSystem_new : VirtualFileSystem := {| mounts := [] |}.
Definition vfs_mount (path : list Z) (fs : FileSystem W) (v : VirtualFileSystem) : VirtualFileSystem :=
  {| mounts := mounts v ++ [{| mp_path := path; mp_fs := fs |}] |}.

(** `str::starts_with`. *)
Definition starts_with (path prefix : list Z) : bool := bool_decide (take (length prefix) path = prefix).

Fixpoint open_from (ms : list MountPoint) (path : list Z) : io W (option (FileNode W)) :=
  match ms with
  | [] => ret None
  | mnt :: ms' =>
      if starts_with path (mp_path mnt) then
        let relative_path := drop (length (mp_path mnt)) path in
        let lookup_path := match relative_path with [] => [47] | _ => relative_path end in
        fs_lookup (mp_fs mnt) lookup_path
      else open_from ms' path
  end.
Definition vfs_open (v : VirtualFileSystem) (path : list Z) : io W (option (FileNode W)) := open_from (mounts v) path.
End vfs.
