(* ===== verification/VfsCorrect.v ===== *)
(** Theorems about the ramdisk, the adapters and the mount table. *)
From S2P Require Import Prelude Block Fat32 FatCorrect Vfs.

(** ** Slices of concatenations *)
Lemma sub_slice_app_r {A} (a b : list A) i j : Z.of_nat (length a) <= i ->
  sub_slice (a ++ b) i j = sub_slice b (i - Z.of_nat (length a)) (j - Z.of_nat (length a)).
Proof.
  intros Hi. unfold sub_slice. rewrite drop_app_ge by lia. f_equal; [lia|]. f_equal. lia.
Qed.
Lemma sub_slice_app_l {A} (a b : list A) i j : 0 <= i -> j <= Z.of_nat (length a) ->
  sub_slice (a ++ b) i j = sub_slice a i j.
Proof.
  intros Hi Hj. unfold sub_slice. destruct (decide (j <= i)).
  - replace (Z.to_nat (j - i)) with 0%nat by lia. done.
  - rewrite drop_app_le by lia. apply take_app_le. rewrite length_drop. lia.
Qed.
Lemma sub_slice_all {A} (l : list A) : sub_slice l 0 (Z.of_nat (length l)) = l.
Proof. unfold sub_slice. rewrite drop_0. apply take_ge. lia. Qed.

(** ** Octal sizes *)
Lemma lor_shift3 a d : 0 <= a < 2 ^ 61 -> 0 <= d < 8 -> Z.lor (shl64 a 3) d = a * 8 + d.
Proof.
  intros Ha Hd. unfold shl64. rewrite Z.shiftl_mul_pow2 by lia. rewrite u64_small by (unfold fits; lia).
  assert (Z.land (a * 2 ^ 3) d = 0) as Hland.
  { apply Z.bits_inj'. intros i Hi. rewrite Z.land_spec, Z.testbit_0_l. destruct (decide (i < 3)).
    - by rewrite Z.mul_pow2_bits_low.
    - rewrite (testbit_above d 3) by (unfold fits; lia). apply andb_false_r. }
  pose proof (Z.add_lor_land (a * 2 ^ 3) d) as Hs. lia.
Qed.

Definition octal_value (l : list Z) (a : Z) : Z := fold_left (fun a b => a * 8 + (b - 48)) l a.

Lemma parse_octal_digits l r a :
  Forall (fun b => 48 <= b <= 55) l -> 0 <= a -> (a + 1) * 8 ^ Z.of_nat (length l) <= 2 ^ 61 ->
  parse_octal (l ++ r) a = parse_octal r (octal_value l a).
Proof.
  intros Hl. revert a. induction Hl as [|b l Hb _ IH]; intros a Ha Hbd; [done|]. cbn [app parse_octal].
  cbn [length] in Hbd. rewrite Nat2Z.inj_succ, Z.pow_succ_r in Hbd by lia.
  assert (1 <= 8 ^ Z.of_nat (length l)) by (pose proof (Z.pow_pos_nonneg 8 (Z.of_nat (length l)) ltac:(lia) ltac:(lia)); lia).
  destruct (Z.eqb_spec b 0); [lia|]. destruct (Z.eqb_spec b 32); [lia|]. cbn [orb].
  rewrite (proj2 (Z.leb_le 48 b)), (proj2 (Z.leb_le b 55)) by lia. cbn [andb].
  rewrite lor_shift3 by nia. rewrite IH by nia. done.
Qed.

Lemma parse_octal_bound l a : 0 <= a -> (a + 1) * 8 ^ Z.of_nat (length l) <= 2 ^ 61 ->
  0 <= parse_octal l a < (a + 1) * 8 ^ Z.of_nat (length l).
Proof.
  revert a. induction l as [|b l IH]; intros a Ha Hbd; [simpl in *; lia|]. cbn [parse_octal].
  cbn [length] in *. rewrite Nat2Z.inj_succ, Z.pow_succ_r in * by lia.
  assert (1 <= 8 ^ Z.of_nat (length l)) by (pose proof (Z.pow_pos_nonneg 8 (Z.of_nat (length l)) ltac:(lia) ltac:(lia)); lia).
  destruct (_ || _); [nia|]. destruct (Z.leb_spec 48 b); [destruct (Z.leb_spec b 55)|]; cbn [andb].
  - rewrite lor_shift3 by nia. specialize (IH (a * 8 + (b - 48))). nia.
  - specialize (IH a). nia.
  - specialize (IH a). nia.
Qed.

(** The [k]-digit octal numeral a tar writer stores. *)
Fixpoint octal (k : nat) (n : Z) : list Z :=
  match k with
  | O => []
  | S k' => octal k' (n / 8) ++ [48 + n mod 8]
  end.
Lemma length_octal k n : length (octal k n) = k.
Proof. revert n; induction k as [|k IH]; intros n; [done|]. simpl. rewrite length_app, IH. simpl. lia. Qed.
Lemma octal_digits k n : Forall (fun b => 48 <= b <= 55) (octal k n).
Proof.
  revert n; induction k as [|k IH]; intros n; [constructor|]. simpl. apply Forall_app. split; [apply IH|].
  apply Forall_singleton. dlia.
Qed.
Lemma octal_value_octal k n : 0 <= n < 8 ^ Z.of_nat k -> octal_value (octal k n) 0 = n.
Proof.
  revert n; induction k as [|k IH]; intros n Hn; [simpl in *; lia|]. cbn [octal]. unfold octal_value in *.
  rewrite fold_left_app. rewrite Nat2Z.inj_succ, Z.pow_succ_r in Hn by lia. rewrite IH by dlia. simpl. dlia.
Qed.

Lemma octal_roundtrip n r : 0 <= n < 8 ^ 11 -> parse_octal (octal 11 n ++ 0 :: r) 0 = n.
Proof.
  intros Hn. rewrite parse_octal_digits; [|apply octal_digits|lia|rewrite length_octal; done].
  rewrite octal_value_octal by done. done.
Qed.

(** ** Archives

    What a tar writer produces for a list of files: per file a header block and the
    contents padded to whole blocks, then two zero blocks. *)
Record tar_file := { tf_name : list Z; tf_data : list Z; tf_type : Z }.

Definition tar_header (f : tar_file) : list Z :=
  (tf_name f ++ replicate (100 - length (tf_name f)) 0) ++ replicate 24 0 ++
  (octal 11 (Z.of_nat (length (tf_data f))) ++ [0]) ++ replicate 20 0 ++ [tf_type f] ++ replicate 100 0 ++
  USTAR_NUL ++ replicate 249 0.

Definition pad_len (n : nat) : nat := Z.to_nat ((512 - Z.of_nat n mod 512) mod 512).
Definition tar_block (f : tar_file) : list Z :=
  tar_header f ++ tf_data f ++ replicate (pad_len (length (tf_data f))) 0.
Definition tar_archive (fs : list tar_file) : list Z := concat (map tar_block fs) ++ replicate 1024 0.

(** A name fits the header, has no NUL and is UTF-8; the size fits eleven octal digits. *)
Record tar_file_ok (f : tar_file) : Prop := {
  tfo_name : tf_name f <> [];
  tfo_short : (length (tf_name f) <= 100)%nat;
  tfo_nul : Forall (fun b => b <> 0) (tf_name f);
  tfo_utf8 : from_utf8_ok (tf_name f) = true;
  tfo_size : Z.of_nat (length (tf_data f)) < 8 ^ 11
}.

Definition tar_entry (f : tar_file) : FileEntry :=
  {| fe_name := tf_name f; fe_size := Z.of_nat (length (tf_data f)); fe_data := tf_data f; fe_typeflag := tf_type f |}.

Lemma length_header f : tar_file_ok f -> length (tar_header f) = 512%nat.
Proof.
  intros H. pose proof (tfo_short f H). unfold tar_header.
  repeat rewrite length_app. rewrite !length_replicate, length_octal. cbn [length USTAR_NUL bytes_of app]. lia.
Qed.

Lemma until_nul_pad l n : Forall (fun b => b <> 0) l -> until_nul (l ++ replicate n 0) = l.
Proof.
  induction 1 as [|b l Hb _ IH]; [by destruct n|]. simpl. rewrite IH. by rewrite (proj2 (Z.eqb_neq _ _) Hb).
Qed.


Section header.
Context (f : tar_file) (Hf : tar_file_ok f).

Lemma name_field : length (tf_name f ++ replicate (100 - length (tf_name f)) 0) = 100%nat.
Proof. pose proof (tfo_short f Hf). rewrite length_app, length_replicate. lia. Qed.
Lemma size_field : length (octal 11 (Z.of_nat (length (tf_data f))) ++ [0]) = 12%nat.
Proof. by rewrite length_app, length_octal. Qed.

(** Skip to, and cut at, a field of the header. *)
Lemma header_name : hdr_name (tar_header f) = tf_name f ++ replicate (100 - length (tf_name f)) 0.
Proof.
  unfold hdr_name, tar_header. rewrite sub_slice_app_l by (rewrite ?name_field; lia).
  rewrite <- (sub_slice_all (tf_name f ++ _)) at 2. by rewrite name_field.
Qed.
Lemma header_size : hdr_size (tar_header f) = octal 11 (Z.of_nat (length (tf_data f))) ++ [0].
Proof.
  unfold hdr_size, tar_header. rewrite sub_slice_app_r by (rewrite name_field; lia). rewrite name_field.
  rewrite sub_slice_app_r by (rewrite length_replicate; lia). rewrite length_replicate.
  rewrite sub_slice_app_l by (rewrite ?size_field; lia). rewrite <- (sub_slice_all (octal _ _ ++ [0])) at 2.
  by rewrite size_field.
Qed.
Lemma header_magic : hdr_magic (tar_header f) = USTAR_NUL.
Proof.
  unfold hdr_magic, tar_header. rewrite sub_slice_app_r by (rewrite name_field; lia). rewrite name_field.
  rewrite sub_slice_app_r by (rewrite length_replicate; lia). rewrite length_replicate.
  rewrite sub_slice_app_r by (rewrite size_field; lia). rewrite size_field.
  rewrite sub_slice_app_r by (rewrite length_replicate; lia). rewrite length_replicate.
  rewrite sub_slice_app_r by (cbn [length]; lia). cbn [length].
  rewrite sub_slice_app_r by (rewrite length_replicate; lia). rewrite length_replicate. reflexivity.
Qed.
Lemma header_typeflag : hdr_typeflag (tar_header f) = tf_type f.
Proof.
  unfold hdr_typeflag, byte, tar_header. rewrite app_nth2 by (rewrite name_field; lia). rewrite name_field.
  rewrite app_nth2 by (rewrite length_replicate; lia). rewrite length_replicate.
  rewrite app_nth2 by (rewrite size_field; lia). rewrite size_field.
  rewrite app_nth2 by (rewrite length_replicate; lia). rewrite length_replicate. reflexivity.
Qed.

Lemma header_first : byte (tar_header f) 0 <> 0.
Proof.
  pose proof (tfo_name f Hf) as Hn. pose proof (tfo_nul f Hf) as Hz. unfold byte, tar_header.
  destruct (tf_name f) as [|b l]; [done|]. by apply Forall_cons in Hz as [Hb _].
Qed.
Lemma header_valid : is_valid (tar_header f) = true.
Proof. unfold is_valid. rewrite header_magic. reflexivity. Qed.
Lemma header_filename : filename (tar_header f) = tf_name f.
Proof. unfold filename. rewrite header_name, until_nul_pad by apply Hf. by rewrite (tfo_utf8 f Hf). Qed.
Lemma header_fsize : header_file_size (tar_header f) = Z.of_nat (length (tf_data f)).
Proof. unfold header_file_size. rewrite header_size. apply octal_roundtrip. pose proof (tfo_size f Hf). lia. Qed.

Lemma length_block : Z.of_nat (length (tar_block f)) =
  512 + (Z.of_nat (length (tf_data f)) + 511 - (Z.of_nat (length (tf_data f)) + 511) mod 512).
Proof.
  unfold tar_block. rewrite !length_app, length_replicate, length_header by done. unfold pad_len. dlia.
Qed.

Lemma padded n : 0 <= n < 2 ^ 62 -> Z.land (add64 n 511) (not64 511) = n + 511 - (n + 511) mod 512.
Proof.
  intros Hn. unfold add64. rewrite u64_small by (unfold fits; lia).
  apply (mask_down_spec (n + 511) 9); [unfold fits; lia|lia].
Qed.

(** One step of the iterator at a file's block. *)
Lemma tar_next_block pre rest :
  Z.of_nat (length (pre ++ tar_block f ++ rest)) < 2 ^ 61 ->
  tar_next {| ti_data := pre ++ tar_block f ++ rest; ti_offset := Z.of_nat (length pre) |} =
  (Some (tar_entry f), {| ti_data := pre ++ tar_block f ++ rest; ti_offset := Z.of_nat (length (pre ++ tar_block f)) |}).
Proof.
  intros Hlen. pose proof length_block as Hb. pose proof (length_header f Hf) as Hh. pose proof (tfo_size f Hf) as Hs.
  set (n := Z.of_nat (length (tf_data f))) in *.
  set (data := pre ++ tar_block f ++ rest) in *. unfold tar_next. cbn [ti_data ti_offset].
  assert (Z.of_nat (length data) = Z.of_nat (length pre) + Z.of_nat (length (tar_block f)) + Z.of_nat (length rest)) as Hd.
  { unfold data. rewrite !length_app. lia. }
  assert (0 <= n <= Z.of_nat (length (tar_block f)) - 512) as Hn by dlia.
  assert (add64 (Z.of_nat (length pre)) 512 = Z.of_nat (length pre) + 512) as ->.
  { apply u64_small. unfold fits. lia. }
  rewrite (proj2 (Z.leb_le _ _)) by lia. cbn [negb].
  assert (sub_slice data (Z.of_nat (length pre)) (Z.of_nat (length pre) + 512) = tar_header f) as ->.
  { unfold data. rewrite sub_slice_app_r by lia. unfold tar_block. rewrite <- app_assoc.
    rewrite sub_slice_app_l by lia. rewrite <- (sub_slice_all (tar_header f)) at 2. f_equal; lia. }
  rewrite (proj2 (Z.eqb_neq _ _) header_first), header_valid, header_fsize, header_filename, header_typeflag. cbn [negb].
  fold n. rewrite padded by lia.
  assert (add64 (Z.of_nat (length pre) + 512) n = Z.of_nat (length pre) + 512 + n) as ->.
  { apply u64_small. unfold fits. lia. }
  rewrite (proj2 (Z.leb_le _ _)) by lia.
  assert (sub_slice data (Z.of_nat (length pre) + 512) (Z.of_nat (length pre) + 512 + n) = tf_data f) as ->.
  { unfold data. rewrite sub_slice_app_r by lia. unfold tar_block. rewrite <- app_assoc.
    rewrite sub_slice_app_r by lia. rewrite <- app_assoc, sub_slice_app_l by lia.
    rewrite <- (sub_slice_all (tf_data f)) at 2. f_equal; lia. }
  unfold tar_entry. fold n. do 2 f_equal. rewrite length_app. unfold add64. rewrite u64_small; [lia|unfold fits; lia].
Qed.
End header.

Lemma collect_archive fs pre :
  Forall tar_file_ok fs -> Z.of_nat (length (pre ++ tar_archive fs)) < 2 ^ 61 ->
  forall fuel, (length fs < fuel)%nat ->
  collect fuel {| ti_data := pre ++ tar_archive fs; ti_offset := Z.of_nat (length pre) |} = Some (map tar_entry fs).
Proof.
  intros Hfs. revert pre. induction Hfs as [|f fs Hf _ IH]; intros pre Hlen [|fuel] Hfu; try (simpl in Hfu; lia).
  - cbn [collect]. unfold tar_next. cbn [ti_data ti_offset]. unfold tar_archive in *. cbn [map concat app] in *.
    rewrite length_app, length_replicate in Hlen. destruct (negb _); [done|].
    rewrite sub_slice_app_r, Z.sub_diag, Z.add_simpl_l by lia. reflexivity.
  - unfold tar_archive in *. cbn [map concat] in *. rewrite <- app_assoc in *.
    cbn [collect]. rewrite (tar_next_block f Hf pre _ Hlen). rewrite (app_assoc pre (tar_block f)) in *.
    by rewrite (IH (pre ++ tar_block f) Hlen fuel) by (simpl in Hfu; lia).
Qed.

Lemma find_collect fuel p it l : collect fuel it = Some l -> find_entry fuel p it = List.find p l.
Proof.
  revert it l; induction fuel as [|fuel IH]; intros it l; [done|]. cbn [collect find_entry].
  destruct (tar_next it) as [[e|] it']; [|by intros [= <-]].
  destruct (collect fuel it') as [l'|] eqn:E; [|done]. intros [= <-]. simpl. destruct (p e); [done|]. by apply IH.
Qed.

Lemma blocks_long fs : Forall tar_file_ok fs -> Z.of_nat (length fs) * 512 <= Z.of_nat (length (concat (map tar_block fs))).
Proof.
  induction 1 as [|f fs Hf _ IH]; [done|]. cbn [map concat length]. rewrite length_app.
  pose proof (length_block f Hf). dlia.
Qed.

Lemma archive_recognised fs : Forall tar_file_ok fs -> fs <> [] ->
  TarFileSystem_new (tar_archive fs) = Some {| tar_data := tar_archive fs |}.
Proof.
  intros Hfs Hne. unfold TarFileSystem_new. destruct fs as [|f fs]; [done|]. apply Forall_cons in Hfs as [Hf Hfs].
  unfold tar_archive. cbn [map concat]. unfold tar_block. rewrite <- !app_assoc.
  rewrite (take_app_length' (tar_header f)) by (by rewrite length_header).
  rewrite header_valid by done. rewrite length_app, length_header by done. cbn [negb]. zcases. done.
Qed.

(** C38: Tar round trip: an archive written from a list of files with valid names is
    recognised, the iterator yields exactly those files (name, size, contents, type) in
    order, and `find` returns the first one with the given name. *)
Theorem tar_roundtrip fs (Hfs : Forall tar_file_ok fs) (Hne : fs <> [])
  (Hlen : Z.of_nat (length (tar_archive fs)) < 2 ^ 61) :
  exists t, TarFileSystem_new (tar_archive fs) = Some t /\
  collect (tar_fuel t) (files t) = Some (map tar_entry fs) /\
  forall target, tar_find t target =
    List.find (fun e => bool_decide (fe_name e = target)) (map tar_entry fs).
Proof.
  exists {| tar_data := tar_archive fs |}.
  assert (collect (tar_fuel {| tar_data := tar_archive fs |}) (files {| tar_data := tar_archive fs |}) = Some (map tar_entry fs)) as Hc.
  { apply (collect_archive fs [] Hfs); [done|]. unfold tar_fuel. cbn [tar_data]. unfold tar_archive.
    rewrite length_app, length_replicate. pose proof (blocks_long fs Hfs).
    apply Nat.lt_succ_r. apply Nat.div_le_lower_bound; [lia|]. lia. }
  split; [|split; [done|]].
  - by apply archive_recognised.
  - intros target. unfold tar_find. by apply find_collect.
Qed.

Lemma tar_next_progress it e it' :
  Z.of_nat (length (ti_data it)) < 2 ^ 61 -> 0 <= ti_offset it < 2 ^ 62 -> tar_next it = (Some e, it') ->
  ti_data it' = ti_data it /\ ti_offset it + 512 <= Z.of_nat (length (ti_data it)) /\
  ti_offset it + 512 <= ti_offset it' < 2 ^ 62 /\
  exists a b, fe_data e = sub_slice (ti_data it) a b.
Proof.
  intros Hl Ho. unfold tar_next.
  assert (add64 (ti_offset it) 512 = ti_offset it + 512) as -> by (apply u64_small; unfold fits; lia).
  destruct (Z.leb_spec (ti_offset it + 512) (Z.of_nat (length (ti_data it)))) as [Hle|]; cbn [negb]; [|done].
  set (h := sub_slice _ _ _). destruct (byte h 0 =? 0); [done|]. destruct (negb (is_valid h)); [done|].
  assert (0 <= header_file_size h < 2 ^ 36) as Hfs.
  { unfold header_file_size. assert (length (hdr_size h) <= 12)%nat as Hh by (unfold hdr_size, sub_slice; rewrite length_take; lia).
    assert (8 ^ Z.of_nat (length (hdr_size h)) <= 8 ^ 12) by (apply Z.pow_le_mono_r; lia).
    pose proof (parse_octal_bound (hdr_size h) 0 ltac:(lia) ltac:(lia)). lia. }
  rewrite padded by lia. intros [= <- <-]. cbn [ti_data ti_offset fe_data]. split; [done|]. split; [done|]. split.
  - unfold add64. rewrite u64_small by (unfold fits; dlia). dlia.
  - destruct (_ <=? _); [by eexists _, _|]. exists 0, 0. done.
Qed.

(** The ramdisk iterator is total on arbitrary bytes: whatever the archive holds, at
    most length / 512 + 1 calls reach its end, and the contents of every entry it yields are
    a piece of the archive (empty when the recorded size runs past the end). *)
Theorem tar_iterator_total data (Hlen : Z.of_nat (length data) < 2 ^ 61) :
  exists l, collect (tar_fuel {| tar_data := data |}) (files {| tar_data := data |}) = Some l /\
  (length l <= length data / 512)%nat /\
  Forall (fun e => exists a b, fe_data e = sub_slice data a b) l.
Proof.
  assert (forall fuel off, 0 <= off < 2 ^ 62 -> Z.of_nat (length data) - off < 512 * Z.of_nat (S fuel) ->
    exists l, collect (S fuel) {| ti_data := data; ti_offset := off |} = Some l /\
      Z.of_nat (length l) * 512 <= Z.max 0 (Z.of_nat (length data) - off) /\
      Forall (fun e => exists a b, fe_data e = sub_slice data a b) l) as H.
  { induction fuel as [|fuel IH]; intros off Ho Hf; cbn [collect];
      (destruct (tar_next _) as [[e|] it'] eqn:E; [|exists []; split; [done|]; split; [simpl; lia|by apply Forall_nil]]);
      destruct (tar_next_progress (Build_TarIterator data off) _ _ Hlen Ho E) as (Hd & Hle & Hp & He); cbn [ti_data ti_offset] in *; [lia|].
    destruct it' as [d' off']. cbn [ti_data ti_offset] in *. subst d'.
    destruct (IH off' ltac:(lia) ltac:(lia)) as (l & El & Hl & Hfa). cbn [collect] in El. rewrite El.
    exists (e :: l). split; [done|]. split; [cbn [length]; lia|by constructor]. }
  destruct (H (length data / 512)%nat 0 ltac:(lia)) as (l & El & Hl & Hfa).
  { pose proof (Nat.div_mod_eq (length data) 512). pose proof (Nat.mod_upper_bound (length data) 512 ltac:(lia)). lia. }
  exists l. split; [done|]. split; [|done]. apply Nat.div_le_lower_bound; lia.
Qed.

(** ** The mount table *)

(** With the mounts the kernel makes, the initrd at "/" and then the FAT volume at
    "/disk", every absolute path is looked up in the initrd; the volume is never consulted,
    also not for paths below "/disk". *)
Theorem vfs_root_mount_shadows {W} (initrd disk : FileSystem W) (rest : list Z) :
  vfs_open (vfs_mount (bytes_of "/disk") disk (vfs_mount (bytes_of "/") initrd VirtualFileSystem_new)) (47 :: rest) =
  fs_lookup initrd (match rest with [] => [47] | _ => rest end).
Proof. reflexivity. Qed.

Lemma open_first {W} (ms1 ms2 : list (@MountPoint W)) mnt path :
  Forall (fun m' => starts_with path (mp_path m') = false) ms1 -> starts_with path (mp_path mnt) = true ->
  open_from (ms1 ++ mnt :: ms2) path =
  fs_lookup (mp_fs mnt) (match drop (length (mp_path mnt)) path with [] => [47] | r => r end).
Proof.
  intros Hms Hm. induction Hms as [|m' ms1 Hm' _ IH]; cbn [app open_from]; [rewrite Hm; by destruct (drop _ path)|]. by rewrite Hm'.
Qed.

Lemma find_tar_entry target fs :
  List.find (fun e => bool_decide (fe_name e = target)) (map tar_entry fs) =
  option_map tar_entry (List.find (fun g => bool_decide (tf_name g = target)) fs).
Proof.
  induction fs as [|h fs IH]; [done|]. cbn [map List.find]. change (fe_name (tar_entry h)) with (tf_name h).
  by destruct (bool_decide (tf_name h = target)).
Qed.

(** Routing and the ramdisk together: in a table of mounts where the first prefix match
    is the initrd, opening a path and reading the node from an offset returns the bytes of
    the archived file at that offset, cut to the buffer. *)
Theorem vfs_read_initrd {W} (ms1 ms2 : list (@MountPoint W)) prefix name fs f offset n (w : W)
  (Hms : Forall (fun m' => starts_with (prefix ++ name) (mp_path m') = false) ms1)
  (Hfs : Forall tar_file_ok fs) (Hlen : Z.of_nat (length (tar_archive fs)) < 2 ^ 61)
  (Hname : trim_slashes name = tf_name f)
  (Hin : List.find (fun g => bool_decide (tf_name g = tf_name f)) fs = Some f)
  (Htype : tf_type f <> 53) (Hoff : 0 <= offset) (Hn : 0 <= n) :
  exists node, vfs_open {| mounts := ms1 ++ {| mp_path := prefix;
      mp_fs := TarFsAdapter {| tar_data := tar_archive fs |} |} :: ms2 |} (prefix ++ name) w = (Val (Some node), w) /\
  metadata node = {| md_name := tf_name f; md_size := Z.of_nat (length (tf_data f)); md_type := File |} /\
  node_read node offset n w = (Val (take (Z.to_nat n) (drop (Z.to_nat offset) (tf_data f))), w).
Proof.
  assert (Forall (fun b => b <> 0) (tf_name f) /\ tar_file_ok f) as [Hnul Hok].
  { apply List.find_some in Hin as [Hin _]. apply list_elem_of_In in Hin.
    pose proof (proj1 (Forall_forall _ _) Hfs f Hin) as Hok. split; [apply Hok|done]. }
  assert (tf_name f <> []) as Hne by apply Hok.
  exists (TarFileNode (tar_entry f)). split; [|split].
  - unfold vfs_open. cbn [mounts]. rewrite open_first; cbn [mp_path mp_fs TarFsAdapter fs_lookup].
    + rewrite drop_app_length. assert (name <> []) as Hn0 by (intros ->; by rewrite <- Hname in Hne).
      replace (match name with [] => [47] | z :: l => z :: l end) with name by (by destruct name).
      unfold tar_lookup. rewrite Hname. destruct (tf_name f) as [|b l] eqn:En; [done|]. rewrite <- En in *.
      assert (tar_find {| tar_data := tar_archive fs |} (tf_name f) = Some (tar_entry f)) as ->; [|done].
      unfold tar_find. assert (fs <> []) as Hfn by (by destruct fs).
      erewrite find_collect; [|apply (collect_archive fs [] Hfs); [done|]].
      * by rewrite find_tar_entry, Hin.
      * unfold tar_fuel. cbn [tar_data]. unfold tar_archive. rewrite length_app, length_replicate.
        pose proof (blocks_long fs Hfs). apply Nat.lt_succ_r, Nat.div_le_lower_bound; lia.
    + done.
    + unfold starts_with. apply bool_decide_eq_true. by rewrite take_app_length.
  - cbn [metadata TarFileNode tar_entry fe_name fe_size]. unfold is_dir, tar_entry. cbn [fe_typeflag].
    by rewrite (proj2 (Z.eqb_neq _ _) Htype).
  - cbn [node_read TarFileNode]. unfold tar_node_read, is_dir, tar_entry. cbn [fe_typeflag fe_data].
    rewrite (proj2 (Z.eqb_neq _ _) Htype). destruct (Z.leb_spec (Z.of_nat (length (tf_data f))) offset).
    + rewrite drop_ge by lia. by rewrite take_nil.
    + rewrite slice_in by lia. unfold of_outcome, ret, sub_slice. do 2 f_equal.
      rewrite Z.add_simpl_l. destruct (Z.min_spec n (Z.of_nat (length (tf_data f)) - offset)) as [[_ ->]|[? ->]]; [done|].
      rewrite !take_ge; [done|rewrite length_drop; lia..].
Qed.

(** ** Reading a node of the FAT volume *)
Section fat_node.
Context {D : Type} `{BL : BlockDeviceLaws D}.
Context (g : Fat32Geometry) (Hg : geometry_ok g).

(** Reading a file node of the FAT volume at an offset: at or past the recorded size the
    result is end-of-file; inside the bytes its cluster chain really holds it is those bytes
    from the offset, cut to the buffer; but when the chain is shorter than the recorded size
    and the offset lies past its end, the length computation wraps around and the read
    panics. *)
Theorem fat_node_read_exact v fuel e ds offset n (d : D)
  (Hd : holds_volume v d) (Hch : chain g v (starting_cluster e) ds) (Hfuel : (length ds < fuel)%nat)
  (Hsz : 0 <= file_size e < 2 ^ 32) (Hoff : 0 <= offset) (Hn : 0 <= n < 2 ^ 62) :
  let content := take (Z.to_nat (file_size e)) (concat ds) in
  exists d', fat_node_read g fuel e offset n d =
    (if file_size e <=? offset then Val []
     else if offset <=? Z.of_nat (length content) then Val (take (Z.to_nat n) (drop (Z.to_nat offset) content))
     else Panicked, d') /\ holds_volume v d'.
Proof.
  intros content. unfold fat_node_read. destruct (Z.leb_spec (file_size e) offset) as [Hle|Hgt]; [by exists d|].
  destruct (read_file_content_yields g Hg v fuel _ ds (file_size e) Hch Hfuel ltac:(lia) d Hd) as (d' & E & Hd').
  exists d'. split; [|done]. unfold bind. rewrite E. fold content.
  assert (Z.of_nat (length content) <= file_size e) as Hc by (unfold content; rewrite length_take; lia).
  destruct (Z.leb_spec offset (Z.of_nat (length content))) as [Hin|Hout].
  - assert (sub64 (Z.of_nat (length content)) offset = Z.of_nat (length content) - offset) as -> by (apply u64_small; unfold fits; lia).
    assert (add64 offset (Z.min n (Z.of_nat (length content) - offset)) = offset + Z.min n (Z.of_nat (length content) - offset)) as ->
      by (apply u64_small; unfold fits; lia).
    rewrite slice_in by lia. unfold of_outcome, ret, sub_slice. do 2 f_equal.
    rewrite Z.add_simpl_l. destruct (Z.min_spec n (Z.of_nat (length content) - offset)) as [[_ ->]|[? ->]]; [done|].
    rewrite !take_ge; [done|rewrite length_drop; lia..].
  - assert (sub64 (Z.of_nat (length content)) offset = 2 ^ 64 + (Z.of_nat (length content) - offset)) as ->.
    { unfold sub64, u64, wrap. rewrite <- (Z.mod_add _ 1) by lia. rewrite Z.mod_small; lia. }
    rewrite Z.min_l by lia. unfold add64. rewrite (u64_small (offset + n)) by (unfold fits; lia).
    unfold slice. zcases; done.
Qed.
End fat_node.

(** ** Concrete instances *)
Definition demo_files : list tar_file :=
  [{| tf_name := bytes_of "bin/init"; tf_data := [1; 2; 3]; tf_type := 48 |};
   {| tf_name := bytes_of "etc"; tf_data := []; tf_type := 53 |};
   {| tf_name := bytes_of "motd"; tf_data := bytes_of "hello"; tf_type := 48 |}].

Lemma demo_files_ok : Forall tar_file_ok demo_files.
Proof. repeat constructor; vm_compute; done. Qed.

Lemma tar_roundtrip_witness :
  exists t, TarFileSystem_new (tar_archive demo_files) = Some t /\
  tar_find t (bytes_of "motd") = Some (tar_entry {| tf_name := bytes_of "motd"; tf_data := bytes_of "hello"; tf_type := 48 |}).
Proof.
  destruct (tar_roundtrip demo_files demo_files_ok ltac:(discriminate) ltac:(vm_compute; reflexivity)) as (t & E & _ & H).
  exists t. split; [exact E|]. rewrite H. vm_compute. reflexivity.
Defined.

Lemma tar_iterator_total_witness :
  exists l, collect 5 (files {| tar_data := replicate 2048 117 |}) = Some l.
Proof.
  destruct (tar_iterator_total (replicate 2048 117) ltac:(vm_compute; reflexivity)) as (l & E & _).
  exists l. exact E.
Defined.

Lemma vfs_read_initrd_witness :
  exists node, vfs_open {| mounts := [{| mp_path := bytes_of "/";
    mp_fs := TarFsAdapter (W := unit) {| tar_data := tar_archive demo_files |} |}] |} (bytes_of "/" ++ bytes_of "motd") tt
    = (Val (Some node), tt) /\ node_read node 1 3 tt = (Val (bytes_of "ell"), tt).
Proof.
  destruct (vfs_read_initrd (W := unit) [] [] (bytes_of "/") (bytes_of "motd") demo_files
    {| tf_name := bytes_of "motd"; tf_data := bytes_of "hello"; tf_type := 48 |} 1 3 tt (Forall_nil_2 _) demo_files_ok)
    as (node & E & _ & R); [vm_compute; reflexivity|reflexivity|vm_compute; reflexivity|discriminate|lia|lia|].
  exists node. split; [exact E|]. exact R.
Defined.

(** A file entry that claims 1000 bytes over a one-cluster chain. *)
Lemma fat_node_read_exact_witness :
  let e := {| name := []; attr := 0; reserved := 0; creation_time_tenth := 0; creation_time := 0; creation_date := 0;
    last_access_date := 0; first_cluster_high := 0; write_time := 0; write_date := 0; first_cluster_low := 3; file_size := 1000 |} in
  exists d', fat_node_read demo_geometry 3 e 600 10 demo_volume = (Panicked, d').
Proof.
  intros e. destruct (fat_node_read_exact (D := RamBlockDevice) demo_geometry demo_geometry_ok (bd_view demo_volume) 3
    e [demo_sector 3] 600 10 demo_volume) as (d' & E & _).
  - apply demo_holds. vm_compute. reflexivity.
  - apply demo_file.
  - simpl; lia.
  - simpl; lia.
  - lia.
  - lia.
  - exists d'. rewrite E. f_equal.
Defined.
