(* ===== verification/Acpi.v ===== *)
(** ACPI discovery (src/src/hal/acpi.rs), the MADT walk (src/src/hal/madt.rs) and the
    redirection entries of the I/O APIC (src/src/hal/ioapic.rs).

    The tables are read through [mem], indexed by the address the code dereferences. *)
From S2P Require Import Prelude.

(** ** `hal::madt`: data *)
Definition MAX_CPUS : nat := 64.
Definition MAX_IOAPICS : nat := 8.
Definition MAX_ISOS : nat := 24.

Inductive Polarity := PolConformsToBus | ActiveHigh | ActiveLow.
Inductive TriggerMode := TrigConformsToBus | Edge | Level.

Definition decode_mps_flags (flags : Z) : Polarity * TriggerMode :=
  (match Z.land flags 0x3 with 1 => ActiveHigh | 3 => ActiveLow | _ => PolConformsToBus end,
   match Z.land (shr flags 2) 0x3 with 1 => Edge | 3 => Level | _ => TrigConformsToBus end).

Record ProcessorLocalApic := { acpi_processor_id : Z; apic_id : Z; enabled : bool; online_capable : bool }.
Record IoApicInfo := { io_id : Z; io_address : Z; gsi_base : Z }.
Record InterruptSourceOverride := { bus : Z; source_irq : Z; gsi : Z; polarity : Polarity; trigger : TriggerMode }.

Record MadtData := {
  found : bool; local_apic_address : Z; legacy_pic_present : bool;
  cpus : list ProcessorLocalApic; cpu_count : nat;
  ioapics : list IoApicInfo; ioapic_count : nat;
  isos : list InterruptSourceOverride; iso_count : nat
}.

Definition EMPTY_CPU : ProcessorLocalApic :=
  {| acpi_processor_id := 0; apic_id := 0; enabled := false; online_capable := false |}.
Definition EMPTY_IOAPIC : IoApicInfo := {| io_id := 0; io_address := 0; gsi_base := 0 |}.
Definition EMPTY_ISO : InterruptSourceOverride :=
  {| bus := 0; source_irq := 0; gsi := 0; polarity := PolConformsToBus; trigger := TrigConformsToBus |}.

Definition MadtData_empty : MadtData :=
  {| found := false; local_apic_address := 0; legacy_pic_present := false;
     cpus := replicate MAX_CPUS EMPTY_CPU; cpu_count := 0;
     ioapics := replicate MAX_IOAPICS EMPTY_IOAPIC; ioapic_count := 0;
     isos := replicate MAX_ISOS EMPTY_ISO; iso_count := 0 |}.

Definition iso_for_irq (d : MadtData) (irq : Z) : option InterruptSourceOverride :=
  List.find (fun i => (bus i =? 0) && (source_irq i =? irq)) (take (iso_count d) (isos d)).

Definition with_header (address flags : Z) (d : MadtData) : MadtData :=
  {| found := true; local_apic_address := address; legacy_pic_present := negb (Z.land flags 1 =? 0);
     cpus := cpus d; cpu_count := cpu_count d; ioapics := ioapics d; ioapic_count := ioapic_count d;
     isos := isos d; iso_count := iso_count d |}.
Definition with_address (address : Z) (d : MadtData) : MadtData :=
  {| found := found d; local_apic_address := address; legacy_pic_present := legacy_pic_present d;
     cpus := cpus d; cpu_count := cpu_count d; ioapics := ioapics d; ioapic_count := ioapic_count d;
     isos := isos d; iso_count := iso_count d |}.

Definition push_cpu (pid aid : Z) (en oc : bool) (d : MadtData) : MadtData :=
  if negb en && negb oc then d
  else if (MAX_CPUS <=? cpu_count d)%nat then d
  else {| found := found d; local_apic_address := local_apic_address d; legacy_pic_present := legacy_pic_present d;
          cpus := <[cpu_count d := {| acpi_processor_id := pid; apic_id := aid; enabled := en; online_capable := oc |}]> (cpus d);
          cpu_count := S (cpu_count d); ioapics := ioapics d; ioapic_count := ioapic_count d;
          isos := isos d; iso_count := iso_count d |}.
Definition push_ioapic (x : IoApicInfo) (d : MadtData) : MadtData :=
  if (ioapic_count d <? MAX_IOAPICS)%nat then
    {| found := found d; local_apic_address := local_apic_address d; legacy_pic_present := legacy_pic_present d;
       cpus := cpus d; cpu_count := cpu_count d;
       ioapics := <[ioapic_count d := x]> (ioapics d); ioapic_count := S (ioapic_count d);
       isos := isos d; iso_count := iso_count d |}
  else d.
Definition push_iso (x : InterruptSourceOverride) (d : MadtData) : MadtData :=
  if (iso_count d <? MAX_ISOS)%nat then
    {| found := found d; local_apic_address := local_apic_address d; legacy_pic_present := legacy_pic_present d;
       cpus := cpus d; cpu_count := cpu_count d; ioapics := ioapics d; ioapic_count := ioapic_count d;
       isos := <[iso_count d := x]> (isos d); iso_count := S (iso_count d) |}
  else d.

(** ** `hal::madt::parse` *)
Definition MADT_SIZE : Z := 44.

Section acpi.
Context (mem : mem_t).

(** The arm of the entry loop for an entry at [cursor]. *)
Definition parse_entry (entry_type entry_length cursor : Z) (d : MadtData) : MadtData :=
  if entry_type =? 0 then
    if 8 <=? entry_length then
      let pflags := read_u32 mem (add64 cursor 4) in
      push_cpu (mem (add64 cursor 2)) (mem (add64 cursor 3)) (negb (Z.land pflags 1 =? 0)) (negb (Z.land pflags 2 =? 0)) d
    else d
  else if entry_type =? 1 then
    if 12 <=? entry_length then
      push_ioapic {| io_id := mem (add64 cursor 2); io_address := read_u32 mem (add64 cursor 4);
                     gsi_base := read_u32 mem (add64 cursor 8) |} d
    else d
  else if entry_type =? 2 then
    if 10 <=? entry_length then
      let '(pol, trig) := decode_mps_flags (read_u16 mem (add64 cursor 8)) in
      push_iso {| bus := mem (add64 cursor 2); source_irq := mem (add64 cursor 3);
                  gsi := read_u32 mem (add64 cursor 4); polarity := pol; trigger := trig |} d
    else d
  else if entry_type =? 5 then
    if 12 <=? entry_length then with_address (read_u64 mem (add64 cursor 4)) d else d
  else if entry_type =? 9 then
    if 16 <=? entry_length then
      let pflags := read_u32 mem (add64 cursor 8) in
      push_cpu (u8 (read_u32 mem (add64 cursor 12))) (read_u32 mem (add64 cursor 4))
        (negb (Z.land pflags 1 =? 0)) (negb (Z.land pflags 2 =? 0)) d
    else d
  else d.

(** The entry loop; [None]: more turns were needed than [fuel]. *)
Fixpoint parse_entries (fuel : nat) (cursor entries_end : Z) (d : MadtData) : option MadtData :=
  if negb (add64 cursor 2 <=? entries_end) then Some d else
  match fuel with
  | O => None
  | S f =>
      let entry_type := mem cursor in
      let entry_length := mem (add64 cursor 1) in
      if (entry_length <? 2) || (entries_end <? add64 cursor entry_length) then Some d
      else parse_entries f (add64 cursor entry_length) entries_end (parse_entry entry_type entry_length cursor d)
  end.

(** Each entry is at least two bytes long. *)
Definition madt_fuel (length : Z) : nat := Z.to_nat (length / 2).

(** `parse`: the new contents of the `MADT` static, given the old. *)
Definition madt_parse (table_virt length : Z) (old : MadtData) : option MadtData :=
  if length <? MADT_SIZE then Some old
  else
    let d := with_header (read_u32 mem (add64 table_virt 36)) (read_u32 mem (add64 table_virt 40)) MadtData_empty in
    parse_entries (madt_fuel length) (add64 table_virt MADT_SIZE) (add64 table_virt length) d.

(** ** `hal::acpi` *)
Inductive RootTable := Rsdt (addr : Z) | Xsdt (addr : Z).

(** `wrapping_add` over [n] bytes. *)
Fixpoint checksum (n : nat) (a : Z) (sum : Z) : Z :=
  match n with
  | O => sum
  | S n' => checksum n' (a + 1) (u8 (sum + mem a))
  end.

Definition RSD_PTR : list Z := bytes_of "RSD PTR ".
Definition signature_is (n : nat) (a : Z) (sig : list Z) : bool := bool_decide (read_n n mem a = sig).

Definition rsdp_is_valid (a : Z) : bool := (checksum 20 a 0 =? 0) && signature_is 8 a RSD_PTR.

Definition rsdp_is_valid_extended (a : Z) : bool :=
  if negb (rsdp_is_valid a) then false else
  let length := read_u32 mem (a + 20) in
  if length <? 36 then false else checksum (Z.to_nat length) a 0 =? 0.

Definition parse_rsdp (a : Z) : Result RootTable string :=
  if negb (signature_is 8 a RSD_PTR) then Err "Invalid RSDP signature"%string else
  if 2 <=? mem (a + 15) then
    if negb (rsdp_is_valid_extended a) then Err "Invalid ACPI 2.0+ checksum"%string else
    let xsdt_address := read_u64 mem (a + 24) in
    let rsdt_address := read_u32 mem (a + 16) in
    if negb (xsdt_address =? 0) then Ok (Xsdt xsdt_address)
    else if negb (rsdt_address =? 0) then Ok (Rsdt rsdt_address)
    else Err "ACPI 2.0+ RSDP contains no RSDT or XSDT"%string
  else
    if negb (rsdp_is_valid a) then Err "Invalid ACPI 1.0 checksum"%string else
    let rsdt_address := read_u32 mem (a + 16) in
    if rsdt_address =? 0 then Err "ACPI 1.0 RSDP contains no RSDT"%string else Ok (Rsdt rsdt_address).

Definition SDT_SIZE : Z := 36.
Definition sdt_length (a : Z) : Z := read_u32 mem (a + 4).
Definition sdt_is_valid (a : Z) : bool :=
  if sdt_length a <? SDT_SIZE then false else checksum (Z.to_nat (sdt_length a)) a 0 =? 0.

(** `parse_acpi_table`: what it does to the `MADT` static. *)
Definition parse_acpi_table (a : Z) (d : MadtData) : option MadtData :=
  if negb (sdt_is_valid a) then Some d
  else if signature_is 4 a (bytes_of "APIC") then madt_parse a (sdt_length a) d
  else Some d.

(** `phys_to_virt`, and the table loops of `parse_xsdt` and `parse_rsdt`. *)
Context (phys_to_virt : Z -> Z).

Fixpoint parse_tables (n : nat) (read : Z -> Z) (entry_ptr step : Z) (d : MadtData) : option MadtData :=
  match n with
  | O => Some d
  | S n' => match parse_acpi_table (phys_to_virt (read entry_ptr)) d with
            | Some d' => parse_tables n' read (entry_ptr + step) step d'
            | None => None
            end
  end.

Definition parse_xsdt (xsdt_addr : Z) (d : MadtData) : option MadtData :=
  let xsdt := phys_to_virt xsdt_addr in
  if negb (signature_is 4 xsdt (bytes_of "XSDT")) then Some d
  else if negb (sdt_is_valid xsdt) then Some d
  else parse_tables (Z.to_nat ((sdt_length xsdt - SDT_SIZE) / 8)) (read_u64 mem) (xsdt + SDT_SIZE) 8 d.

Definition parse_rsdt (rsdt_addr : Z) (d : MadtData) : option MadtData :=
  let rsdt := phys_to_virt rsdt_addr in
  if negb (signature_is 4 rsdt (bytes_of "RSDT")) then Some d
  else if negb (sdt_is_valid rsdt) then Some d
  else parse_tables (Z.to_nat ((sdt_length rsdt - SDT_SIZE) / 4)) (read_u32 mem) (rsdt + SDT_SIZE) 4 d.

(** `scan_range`: the physical addresses from [phys] on, 16 apart. *)
Fixpoint scan_range (n : nat) (phys end_phys : Z) : option Z :=
  match n with
  | O => None
  | S n' =>
      if negb (phys + 16 <=? end_phys) then None else
      let virt := phys_to_virt phys in
      if signature_is 8 virt RSD_PTR && is_ok (parse_rsdp virt) then Some virt
      else scan_range n' (phys + 16) end_phys
  end.

Definition scan_bios_for_rsdp : option Z :=
  let ebda_base := Z.shiftl (read_u16 mem (phys_to_virt 0x40E)) 4 in
  let main := scan_range (Z.to_nat 8192) 0xE0000 0x100000 in
  if negb (ebda_base =? 0) then
    match scan_range 64 ebda_base (ebda_base + 1024) with
    | Some found => Some found
    | None => main
    end
  else main.

(** `init`: [rsdp] is Limine's answer, [revision] the base revision it loaded with. *)
Definition acpi_init (rsdp : option Z) (revision : Z) (d : MadtData) : option MadtData :=
  let from_limine :=
    match rsdp with
    | None => None
    | Some rsdp_addr =>
        let primary := if revision =? 3 then phys_to_virt rsdp_addr else rsdp_addr in
        let secondary := if revision =? 3 then rsdp_addr else phys_to_virt rsdp_addr in
        match parse_rsdp primary with
        | Ok root => Some root
        | Err _ => match parse_rsdp secondary with Ok root => Some root | Err _ => None end
        end
    end in
  let root_table :=
    match from_limine with
    | Some root => Some root
    | None =>
        match scan_bios_for_rsdp with
        | Some found_virt => match parse_rsdp found_virt with Ok root => Some root | Err _ => None end
        | None => None
        end
    end in
  match root_table with
  | None => Some d
  | Some (Xsdt addr) => parse_xsdt addr d
  | Some (Rsdt addr) => parse_rsdt addr d
  end.
End acpi.

(** ** `hal::ioapic` *)
Record RedirectionEntry := {
  vector : Z; delivery_mode : Z; logical_dest : bool; polarity_low : bool; trigger_level : bool; masked : bool; dest : Z
}.

Definition set_if (b : bool) (k x : Z) : Z := if b then Z.lor x (Z.shiftl 1 k) else x.

Definition to_bits (e : RedirectionEntry) : Z :=
  let low := Z.lor (vector e) (Z.shiftl (Z.land (delivery_mode e) 0x7) 8) in
  let low := set_if (masked e) 16 (set_if (trigger_level e) 15 (set_if (polarity_low e) 13 (set_if (logical_dest e) 11 low))) in
  let high := u32 (Z.shiftl (dest e) 24) in
  Z.lor (shl64 high 32) low.

(** An I/O APIC is its two-register window: writing the select register, then reading or
    writing the data window.  [io] maps (base, register) to the register's value. *)
Definition io_regs : Type := Z -> Z -> Z.
Definition IOAPICVER : Z := 0x01.
Definition io_write (io : io_regs) (base reg value : Z) : io_regs :=
  fun b r => if (b =? base) && (r =? reg) then value else io b r.

Fixpoint set_entry_from (l : list IoApicInfo) (g : Z) (e : RedirectionEntry) (io : io_regs) : Result unit string * io_regs :=
  match l with
  | [] => (Err "GSI not covered by any discovered IO-APIC"%string, io)
  | ioapic :: l' =>
      let ver := io (io_address ioapic) IOAPICVER in
      let max_entries := Z.land (shr ver 16) 0xFF + 1 in
      if (gsi_base ioapic <=? g) && (g <? add32 (gsi_base ioapic) max_entries) then
        let index := g - gsi_base ioapic in
        let bits := to_bits e in
        let io := io_write io (io_address ioapic) (0x10 + index * 2) (u32 (Z.land bits 0xFFFFFFFF)) in
        let io := io_write io (io_address ioapic) (0x11 + index * 2) (u32 (shr bits 32)) in
        (Ok tt, io)
      else set_entry_from l' g e io
  end.

Definition set_redirection_entry (d : MadtData) (g : Z) (e : RedirectionEntry) (io : io_regs) : Result unit string * io_regs :=
  set_entry_from (take (ioapic_count d) (ioapics d)) g e io.
