(* ===== verification/AcpiCorrect.v ===== *)
(** The MADT walk is total and confined to its table, and recovers what firmware wrote;
    redirection entries land in the registers of the right I/O APIC. *)
From S2P Require Import Prelude Acpi.

(** ** Invariant of the collected data *)
Record madt_ok (d : MadtData) : Prop := {
  mo_cpus : length (cpus d) = MAX_CPUS /\ (cpu_count d <= MAX_CPUS)%nat;
  mo_ioapics : length (ioapics d) = MAX_IOAPICS /\ (ioapic_count d <= MAX_IOAPICS)%nat;
  mo_isos : length (isos d) = MAX_ISOS /\ (iso_count d <= MAX_ISOS)%nat
}.

(** The part of each array in use. *)
Definition known_cpus (d : MadtData) : list ProcessorLocalApic := take (cpu_count d) (cpus d).
Definition known_ioapics (d : MadtData) : list IoApicInfo := take (ioapic_count d) (ioapics d).
Definition known_isos (d : MadtData) : list InterruptSourceOverride := take (iso_count d) (isos d).

Lemma empty_ok a f : madt_ok (with_header a f MadtData_empty).
Proof. split; split; cbn; unfold MAX_CPUS, MAX_IOAPICS, MAX_ISOS; lia. Qed.

(** Storing at the count and counting up appends, up to the capacity. *)
Lemma take_push {A} (l : list A) n m x : length l = m -> (n < m)%nat -> take (S n) (<[n := x]> l) = take n l ++ [x].
Proof.
  intros Hl Hn. rewrite (take_S_r _ n x) by (rewrite list_lookup_insert_eq by lia; done).
  by rewrite take_insert_ge by lia.
Qed.

Definition usable_cpu (en oc : bool) (c : ProcessorLocalApic) : list ProcessorLocalApic :=
  if negb en && negb oc then [] else [c].

Lemma take_full {A} (l r : list A) n : length l = n -> take n (l ++ r) = l.
Proof. intros <-. apply take_app_length. Qed.

Lemma push_cpu_known pid aid en oc d : madt_ok d ->
  let c := {| acpi_processor_id := pid; apic_id := aid; enabled := en; online_capable := oc |} in
  let d' := push_cpu pid aid en oc d in
  madt_ok d' /\ known_cpus d' = take MAX_CPUS (known_cpus d ++ usable_cpu en oc c) /\
  known_ioapics d' = known_ioapics d /\ known_isos d' = known_isos d /\ local_apic_address d' = local_apic_address d.
Proof.
  intros [[Hl Hc] Hi Hs] c d'. unfold d', push_cpu, usable_cpu.
  assert (length (known_cpus d) = cpu_count d) as Hk by (unfold known_cpus; rewrite length_take; lia).
  destruct (negb en && negb oc).
  { split; [by split|]. rewrite app_nil_r, take_ge by lia. done. }
  destruct (Nat.leb_spec MAX_CPUS (cpu_count d)).
  { split; [by split|]. rewrite take_full by lia. done. }
  split; [split; try done; cbn; rewrite length_insert; split; [done|lia]|]. split; [|done].
  rewrite take_ge by (rewrite length_app, Hk; cbn [length]; lia). by apply (take_push _ _ MAX_CPUS).
Qed.

Lemma push_ioapic_known x d : madt_ok d ->
  let d' := push_ioapic x d in
  madt_ok d' /\ known_cpus d' = known_cpus d /\ known_ioapics d' = take MAX_IOAPICS (known_ioapics d ++ [x]) /\
  known_isos d' = known_isos d /\ local_apic_address d' = local_apic_address d.
Proof.
  intros [Hp [Hl Hc] Hs] d'. unfold d', push_ioapic.
  assert (length (known_ioapics d) = ioapic_count d) as Hk by (unfold known_ioapics; rewrite length_take; lia).
  destruct (Nat.ltb_spec (ioapic_count d) MAX_IOAPICS).
  - split; [split; try done; cbn; rewrite length_insert; split; [done|lia]|]. split; [done|]. split; [|done].
    rewrite take_ge by (rewrite length_app, Hk; cbn [length]; lia). by apply (take_push _ _ MAX_IOAPICS).
  - split; [by split|]. rewrite take_full by lia. done.
Qed.

Lemma push_iso_known x d : madt_ok d ->
  let d' := push_iso x d in
  madt_ok d' /\ known_cpus d' = known_cpus d /\ known_ioapics d' = known_ioapics d /\
  known_isos d' = take MAX_ISOS (known_isos d ++ [x]) /\ local_apic_address d' = local_apic_address d.
Proof.
  intros [Hp Hi [Hl Hc]] d'. unfold d', push_iso.
  assert (length (known_isos d) = iso_count d) as Hk by (unfold known_isos; rewrite length_take; lia).
  destruct (Nat.ltb_spec (iso_count d) MAX_ISOS).
  - split; [split; try done; cbn; rewrite length_insert; split; [done|lia]|]. split; [done|]. split; [done|]. split; [|done].
    rewrite take_ge by (rewrite length_app, Hk; cbn [length]; lia). by apply (take_push _ _ MAX_ISOS).
  - split; [by split|]. rewrite take_full by lia. done.
Qed.

Lemma parse_entry_ok mem ty len cursor d : madt_ok d -> madt_ok (parse_entry mem ty len cursor d).
Proof.
  intros Hd. unfold parse_entry. destruct (decode_mps_flags _) as [pol trig].
  repeat match goal with |- madt_ok (if ?b then _ else _) => destruct b end; try done.
  - by apply push_cpu_known.
  - by apply push_ioapic_known.
  - by apply push_iso_known.
  - destruct Hd. by split.
  - by apply push_cpu_known.
Qed.

(** ** Totality and confinement *)
Definition agree (m1 m2 : mem_t) (a b : Z) : Prop := forall x, a <= x < b -> m1 x = m2 x.

Lemma read_n_agree n m1 m2 a b x : agree m1 m2 a b -> a <= x -> x + Z.of_nat n <= b -> read_n n m1 x = read_n n m2 x.
Proof. intros Hag Ha Hb. apply read_n_ext. intros k Hk. apply Hag. lia. Qed.

Lemma parse_entry_agree m1 m2 ty len cursor stop d :
  agree m1 m2 cursor stop -> 0 <= cursor -> stop < 2 ^ 64 -> cursor + len <= stop ->
  parse_entry m1 ty len cursor d = parse_entry m2 ty len cursor d.
Proof.
  intros Hag Hc Hs Hl. unfold parse_entry, read_u32, read_u16, read_u64.
  assert (forall k, 0 <= k -> k < len -> add64 cursor k = cursor + k) as Ha by (intros; apply u64_small; unfold fits; lia).
  repeat match goal with |- context [if ?b then _ else _] => destruct b eqn:?; try done end;
    rewrite !Ha by lia; rewrite ?(Hag (cursor + 2)), ?(Hag (cursor + 3)) by lia;
    rewrite ?(read_n_agree _ m1 m2 cursor stop) by (done || lia); done.
Qed.

Lemma parse_entries_total m1 m2 fuel cursor stop d :
  agree m1 m2 cursor stop -> mem_ok m1 -> 0 <= cursor <= stop -> stop < 2 ^ 64 - 256 ->
  stop - cursor < 2 * Z.of_nat fuel + 2 -> madt_ok d ->
  exists d', parse_entries m1 fuel cursor stop d = Some d' /\ parse_entries m2 fuel cursor stop d = Some d' /\ madt_ok d'.
Proof.
  revert cursor d. induction fuel as [|fuel IH]; intros cursor d Hag Hm Hc Hs Hf Hd; cbn [parse_entries];
    (assert (add64 cursor 2 = cursor + 2) as -> by (apply u64_small; unfold fits; lia));
    (destruct (Z.leb_spec (cursor + 2) stop) as [Hle|Hgt]; cbn [negb]; [|by exists d]); [lia|].
  assert (add64 cursor 1 = cursor + 1) as -> by (apply u64_small; unfold fits; lia).
  rewrite <- (Hag cursor), <- (Hag (cursor + 1)) by lia. pose proof (Hm (cursor + 1)) as Hb. unfold fits in Hb.
  set (len := m1 (cursor + 1)) in *.
  assert (add64 cursor len = cursor + len) as -> by (apply u64_small; unfold fits; lia).
  destruct (Z.ltb_spec len 2) as [|Hl]; cbn [orb]; [by exists d|].
  destruct (Z.ltb_spec stop (cursor + len)) as [|Hin]; [by exists d|].
  rewrite <- (parse_entry_agree m1 m2 _ len cursor stop d) by (done || lia).
  apply IH; try done; try lia; [|by apply parse_entry_ok]. intros x Hx. apply Hag. lia.
Qed.

(** The MADT walk on arbitrary table bytes: it always comes to an end (length / 2 turns
    are enough), it keeps within the table (tables that agree on their `length` bytes give
    the same result), and the fixed arrays are never overrun. *)
Theorem madt_parse_total m1 m2 table_virt length old
  (Hag : agree m1 m2 table_virt (table_virt + length)) (Hm : mem_ok m1)
  (Hl : 0 <= length) (Ht : 0 <= table_virt) (Hend : table_virt + length < 2 ^ 64 - 256) (Hold : madt_ok old) :
  exists d, madt_parse m1 table_virt length old = Some d /\ madt_parse m2 table_virt length old = Some d /\ madt_ok d.
Proof.
  unfold madt_parse, MADT_SIZE, madt_fuel. destruct (Z.ltb_spec length 44) as [|Hlen]; [by exists old|].
  assert (forall k, 0 <= k <= length -> add64 table_virt k = table_virt + k) as Ha by (intros; apply u64_small; unfold fits; lia).
  rewrite !Ha by lia. unfold read_u32.
  rewrite !(read_n_agree 4 m1 m2 table_virt (table_virt + length)) by (done || lia).
  apply parse_entries_total; try done; try lia; [|dlia|apply empty_ok]. intros x Hx. apply Hag. lia.
Qed.

(** ** What firmware writes *)
Inductive madt_entry :=
| LocalApic (pid aid flags : Z)
| IoApic (ioid addr base : Z)
| SourceOverride (b src g flags : Z)
| AddressOverride (addr : Z)
| LocalX2Apic (xid flags uid : Z)
| OtherEntry (ty : Z) (payload : list Z).

Definition encode (e : madt_entry) : list Z :=
  match e with
  | LocalApic pid aid flags => [0; 8; pid; aid] ++ to_le 4 flags
  | IoApic ioid addr base => [1; 12; ioid; 0] ++ to_le 4 addr ++ to_le 4 base
  | SourceOverride b src g flags => [2; 10; b; src] ++ to_le 4 g ++ to_le 2 flags
  | AddressOverride addr => [5; 12; 0; 0] ++ to_le 8 addr
  | LocalX2Apic xid flags uid => [9; 16; 0; 0] ++ to_le 4 xid ++ to_le 4 flags ++ to_le 4 uid
  | OtherEntry ty payload => [ty; 2 + Z.of_nat (length payload)] ++ payload
  end.

Definition entry_ok (e : madt_entry) : Prop :=
  match e with
  | LocalApic pid aid flags => fits 8 pid /\ fits 8 aid /\ fits 32 flags
  | IoApic ioid addr base => fits 8 ioid /\ fits 32 addr /\ fits 32 base
  | SourceOverride b src g flags => fits 8 b /\ fits 8 src /\ fits 32 g /\ fits 16 flags
  | AddressOverride addr => fits 64 addr
  | LocalX2Apic xid flags uid => fits 32 xid /\ fits 32 flags /\ fits 32 uid
  | OtherEntry ty payload => fits 8 ty /\ ~ (ty ∈ [0; 1; 2; 5; 9]) /\ (length payload <= 253)%nat
  end.

Definition flag (x k : Z) : bool := negb (Z.land x k =? 0).

(** The processors, I/O APICs and overrides an entry contributes, and the address it sets. *)
Definition entry_cpus (e : madt_entry) : list ProcessorLocalApic :=
  match e with
  | LocalApic pid aid f => usable_cpu (flag f 1) (flag f 2)
      {| acpi_processor_id := pid; apic_id := aid; enabled := flag f 1; online_capable := flag f 2 |}
  | LocalX2Apic xid f uid => usable_cpu (flag f 1) (flag f 2)
      {| acpi_processor_id := uid mod 256; apic_id := xid; enabled := flag f 1; online_capable := flag f 2 |}
  | _ => []
  end.
Definition entry_ioapics (e : madt_entry) : list IoApicInfo :=
  match e with IoApic ioid addr base => [{| io_id := ioid; io_address := addr; gsi_base := base |}] | _ => [] end.
Definition entry_isos (e : madt_entry) : list InterruptSourceOverride :=
  match e with
  | SourceOverride b src g f =>
      [{| bus := b; source_irq := src; gsi := g; polarity := fst (decode_mps_flags f); trigger := snd (decode_mps_flags f) |}]
  | _ => []
  end.
Definition entry_address (e : madt_entry) (a : Z) : Z := match e with AddressOverride addr => addr | _ => a end.

Lemma length_encode e : entry_ok e -> 2 <= Z.of_nat (length (encode e)) < 256 /\ nth 1 (encode e) 0 = Z.of_nat (length (encode e)).
Proof. destruct e; cbn -[Z.of_nat Z.add]; try lia. Qed.

Record entry_added (e : madt_entry) (d d' : MadtData) : Prop := {
  ea_ok : madt_ok d';
  ea_cpus : known_cpus d' = take MAX_CPUS (known_cpus d ++ entry_cpus e);
  ea_ioapics : known_ioapics d' = take MAX_IOAPICS (known_ioapics d ++ entry_ioapics e);
  ea_isos : known_isos d' = take MAX_ISOS (known_isos d ++ entry_isos e);
  ea_address : local_apic_address d' = entry_address e (local_apic_address d)
}.

Lemma known_lengths d : madt_ok d ->
  (length (known_cpus d) <= MAX_CPUS)%nat /\ (length (known_ioapics d) <= MAX_IOAPICS)%nat /\ (length (known_isos d) <= MAX_ISOS)%nat.
Proof. intros [[? ?] [? ?] [? ?]]. unfold known_cpus, known_ioapics, known_isos. rewrite !length_take. lia. Qed.

Lemma stored_header mem a b0 b1 b2 b3 l : stored mem a (b0 :: b1 :: b2 :: b3 :: l) ->
  mem a = b0 /\ mem (a + 1) = b1 /\ mem (a + 2) = b2 /\ mem (a + 3) = b3 /\ stored mem (a + 4) l.
Proof.
  intros [E0 [E1 [E2 [E3 H]%stored_cons]%stored_cons]%stored_cons]%stored_cons.
  replace (a + 1 + 1) with (a + 2) in * by lia. replace (a + 2 + 1) with (a + 3) in * by lia.
  replace (a + 3 + 1) with (a + 4) in * by lia. done.
Qed.

(** An entry that adds nothing to an array leaves its known part. *)
Lemma entry_added_none e d d' : madt_ok d -> madt_ok d' ->
  known_cpus d' = known_cpus d -> known_ioapics d' = known_ioapics d -> known_isos d' = known_isos d ->
  local_apic_address d' = entry_address e (local_apic_address d) ->
  entry_cpus e = [] -> entry_ioapics e = [] -> entry_isos e = [] -> entry_added e d d'.
Proof.
  intros Hd Hd' H1 H2 H3 H4 E1 E2 E3. destruct (known_lengths d Hd) as (K1 & K2 & K3).
  split; rewrite ?E1, ?E2, ?E3, ?app_nil_r; rewrite ?take_ge by lia; done.
Qed.

(** Closes [entry_added] from the facts of the push that ran; the other arrays are as before. *)
Ltac added_by :=
  split; cbn [entry_cpus entry_ioapics entry_isos entry_address]; rewrite ?app_nil_r;
  try match goal with H : decode_mps_flags _ = _ |- _ => rewrite H end;
  rewrite ?take_ge by lia; done.

Lemma parse_entry_added mem cursor e l d :
  entry_ok e -> madt_ok d -> 0 <= cursor < 2 ^ 64 - 256 -> stored mem cursor (encode e ++ l) ->
  entry_added e d (parse_entry mem (mem cursor) (Z.of_nat (length (encode e))) cursor d).
Proof.
  intros He Hd Hc Hst. destruct (known_lengths d Hd) as (K1 & K2 & K3).
  assert (forall k, 0 <= k < 256 -> add64 cursor k = cursor + k) as Ha by (intros; apply u64_small; unfold fits; lia).
  destruct e as [pid aid f|ioid addr base|b src g f|addr|xid f uid|ty pl]; cbn [entry_ok] in He.
  - cbn [encode app] in Hst. apply stored_header in Hst as (-> & _ & E2 & E3 & Hst).
    destruct (stored_le _ _ 4 _ _ Hst ltac:(apply He)) as [E4 _].
    cbn -[add64 push_cpu read_u32 Z.add]. unfold read_u32. rewrite !Ha, E2, E3, E4 by lia.
    destruct (push_cpu_known pid aid (flag f 1) (flag f 2) d Hd) as (H1 & H2 & H3 & H4 & H5).
    added_by.
  - cbn [encode app] in Hst. apply stored_header in Hst as (-> & _ & E2 & E3 & Hst). rewrite <- app_assoc in Hst.
    destruct (stored_le _ _ 4 _ _ Hst ltac:(apply He)) as [E4 Hst2].
    replace (cursor + 4 + Z.of_nat 4) with (cursor + 8) in Hst2 by lia.
    destruct (stored_le _ _ 4 _ _ Hst2 ltac:(apply He)) as [E5 _].
    cbn -[add64 push_ioapic read_u32 Z.add]. unfold read_u32. rewrite !Ha, E2, E4, E5 by lia.
    destruct (push_ioapic_known {| io_id := ioid; io_address := addr; gsi_base := base |} d Hd) as (H1 & H2 & H3 & H4 & H5).
    added_by.
  - cbn [encode app] in Hst. apply stored_header in Hst as (-> & _ & E2 & E3 & Hst). rewrite <- app_assoc in Hst.
    destruct (stored_le _ _ 4 _ _ Hst ltac:(apply He)) as [E4 Hst2].
    replace (cursor + 4 + Z.of_nat 4) with (cursor + 8) in Hst2 by lia.
    destruct (stored_le _ _ 2 _ _ Hst2 ltac:(apply He)) as [E5 _].
    cbn -[add64 push_iso decode_mps_flags read_u32 read_u16 Z.add]. unfold read_u32, read_u16. rewrite !Ha, E2, E3, E4, E5 by lia.
    destruct (decode_mps_flags f) as [pol trig] eqn:Ef.
    destruct (push_iso_known {| bus := b; source_irq := src; gsi := g; polarity := pol; trigger := trig |} d Hd) as (H1 & H2 & H3 & H4 & H5).
    added_by.
  - cbn [encode app] in Hst. apply stored_header in Hst as (-> & _ & _ & _ & Hst).
    destruct (stored_le _ _ 8 _ _ Hst ltac:(apply He)) as [E4 _].
    cbn -[add64 read_u64 Z.add]. unfold read_u64. rewrite !Ha, E4 by lia. apply entry_added_none; try done. destruct Hd. by split.
  - cbn [encode app] in Hst. apply stored_header in Hst as (-> & _ & _ & _ & Hst). rewrite <- !app_assoc in Hst.
    destruct (stored_le _ _ 4 _ _ Hst ltac:(apply He)) as [E4 Hst2].
    replace (cursor + 4 + Z.of_nat 4) with (cursor + 8) in Hst2 by lia.
    destruct (stored_le _ _ 4 _ _ Hst2 ltac:(apply He)) as [E5 Hst3].
    replace (cursor + 8 + Z.of_nat 4) with (cursor + 12) in Hst3 by lia.
    destruct (stored_le _ _ 4 _ _ Hst3 ltac:(apply He)) as [E6 _].
    cbn -[add64 push_cpu read_u32 Z.add]. unfold read_u32. rewrite !Ha, E4, E5, E6 by lia.
    destruct (push_cpu_known (u8 uid) xid (flag f 1) (flag f 2) d Hd) as (H1 & H2 & H3 & H4 & H5).
    added_by.
  - destruct He as (_ & Hty & _). cbn [encode app] in Hst. apply stored_cons in Hst as [-> _].
    assert (parse_entry mem ty (Z.of_nat (length (encode (OtherEntry ty pl)))) cursor d = d) as ->.
    { unfold parse_entry. rewrite !not_elem_of_cons in Hty. destruct Hty as (? & ? & ? & ? & ? & _). by zcases. }
    by apply entry_added_none.
Qed.

Lemma take_take_app {A} n (a b c : list A) : take n (take n (a ++ b) ++ c) = take n (a ++ b ++ c).
Proof.
  rewrite app_assoc. destruct (decide (length (a ++ b) <= n)%nat).
  - by rewrite (take_ge (a ++ b)) by lia.
  - rewrite take_app_le by (rewrite length_take; lia). rewrite (take_app_le (a ++ b)) by lia. rewrite take_take. f_equal. lia.
Qed.

(** [collected es d d']: [d'] is [d] with everything the entries [es] contribute. *)
Record collected (es : list madt_entry) (d d' : MadtData) : Prop := {
  co_ok : madt_ok d';
  co_cpus : known_cpus d' = take MAX_CPUS (known_cpus d ++ concat (map entry_cpus es));
  co_ioapics : known_ioapics d' = take MAX_IOAPICS (known_ioapics d ++ concat (map entry_ioapics es));
  co_isos : known_isos d' = take MAX_ISOS (known_isos d ++ concat (map entry_isos es));
  co_address : local_apic_address d' = fold_left (fun a e => entry_address e a) es (local_apic_address d);
  co_found : found d' = found d;
  co_legacy : legacy_pic_present d' = legacy_pic_present d
}.

Lemma parse_entry_flags mem ty len cursor d :
  found (parse_entry mem ty len cursor d) = found d /\
  legacy_pic_present (parse_entry mem ty len cursor d) = legacy_pic_present d.
Proof.
  unfold parse_entry, push_cpu, push_ioapic, push_iso. destruct (decode_mps_flags _).
  repeat match goal with |- context [if ?b then _ else _] => destruct b; try done end.
Qed.

Lemma parse_entries_collected mem es cursor d fuel :
  Forall entry_ok es -> madt_ok d -> stored mem cursor (concat (map encode es)) -> 0 <= cursor ->
  cursor + Z.of_nat (length (concat (map encode es))) < 2 ^ 64 - 256 -> (length es <= fuel)%nat ->
  exists d', parse_entries mem fuel cursor (cursor + Z.of_nat (length (concat (map encode es)))) d = Some d' /\ collected es d d'.
Proof.
  intros Hes. revert cursor d fuel. induction Hes as [|e es He _ IH]; intros cursor d fuel Hd Hst Hc Hend Hf.
  - exists d. cbn [map concat length] in *. split.
    + destruct fuel; cbn [parse_entries]; (rewrite (proj2 (Z.leb_gt _ _)); [done|]);
        unfold add64; rewrite u64_small; unfold fits; lia.
    + destruct (known_lengths d Hd) as (K1 & K2 & K3). split; cbn [map concat]; rewrite ?app_nil_r, ?take_ge by lia; done.
  - cbn [map concat] in *. rewrite length_app in *. destruct (length_encode e He) as [Hl Hnth].
    destruct fuel as [|fuel]; [simpl in Hf; lia|]. cbn [parse_entries].
    set (n := Z.of_nat (length (encode e))) in *. set (rest := concat (map encode es)) in *.
    assert (forall k, 0 <= k <= n -> add64 cursor k = cursor + k) as Ha by (intros; apply u64_small; unfold fits; lia).
    assert (mem (cursor + 1) = n) as El.
    { destruct (stored_app _ _ _ _ Hst) as [H1 _]. specialize (H1 1%nat ltac:(lia)).
      rewrite <- Hnth. symmetry. apply nth_lookup_Some. by rewrite <- H1. }
    rewrite !Ha, El by lia. rewrite (proj2 (Z.leb_le _ _)) by lia. cbn [negb].
    rewrite (proj2 (Z.ltb_ge n 2)), (proj2 (Z.ltb_ge _ (cursor + n))) by lia. cbn [orb].
    pose proof (parse_entry_added mem cursor e rest d He Hd ltac:(lia) Hst) as [A1 A2 A3 A4 A5]. fold n in A1, A2, A3, A4, A5.
    destruct (parse_entry_flags mem (mem cursor) n cursor d) as [F1 F2].
    apply stored_app in Hst as [_ Hst]. fold n in Hst.
    destruct (IH (cursor + n) _ fuel A1 Hst ltac:(lia) ltac:(lia) ltac:(simpl in Hf; lia)) as (d' & E & [C1 C2 C3 C4 C5 C6 C7]).
    exists d'. split; [rewrite <- E; f_equal; lia|].
    split; cbn [map concat fold_left]; [done| | | | |congruence|congruence].
    + by rewrite C2, A2, take_take_app.
    + by rewrite C3, A3, take_take_app.
    + by rewrite C4, A4, take_take_app.
    + by rewrite C5, A5.
Qed.


(** ** Redirection entries *)
Definition of_bits (x : Z) : RedirectionEntry :=
  {| vector := Z.land x 0xFF; delivery_mode := Z.land (shr x 8) 0x7; logical_dest := Z.testbit x 11;
     polarity_low := Z.testbit x 13; trigger_level := Z.testbit x 15; masked := Z.testbit x 16; dest := shr x 56 |}.

Definition redirection_ok (e : RedirectionEntry) : Prop := fits 8 (vector e) /\ fits 3 (delivery_mode e) /\ fits 8 (dest e).

Lemma testbit_set_if b k x i : 0 <= k -> 0 <= i -> Z.testbit (set_if b k x) i = Z.testbit x i || (b && (i =? k)).
Proof.
  intros Hk Hi. unfold set_if. destruct b; cbn [andb]; [|by rewrite orb_false_r].
  rewrite Z.lor_spec, Z.shiftl_spec, testbit_one by done. f_equal. zcases; done.
Qed.

Lemma testbit_to_bits e i : redirection_ok e -> 0 <= i ->
  Z.testbit (to_bits e) i =
  if i <? 8 then Z.testbit (vector e) i
  else if i <? 11 then Z.testbit (delivery_mode e) (i - 8)
  else if i =? 11 then logical_dest e else if i =? 13 then polarity_low e
  else if i =? 15 then trigger_level e else if i =? 16 then masked e
  else if i <? 56 then false else Z.testbit (dest e) (i - 56).
Proof.
  intros (Hv & Hm & Hd) Hi. unfold to_bits, shl64, u64, u32, wrap.
  rewrite Z.lor_spec, !testbit_set_if, Z.lor_spec by lia. autorewrite with kbits.
  assert (forall j, 8 <= j -> Z.testbit (vector e) j = false) as Bv by (intros; apply (testbit_above _ 8); [done|lia]).
  assert (forall j, 3 <= j -> Z.testbit (delivery_mode e) j = false) as Bm by (intros; apply (testbit_above _ 3); [done|lia]).
  assert (forall j, 8 <= j -> Z.testbit (dest e) j = false) as Bd by (intros; apply (testbit_above _ 8); [done|lia]).
  assert (forall j, j < 0 -> Z.testbit (dest e) j = false) as Nd by (intros; by apply Z.testbit_neg_r).
  assert (forall j, j < 0 -> Z.testbit (delivery_mode e) j = false) as Nm by (intros; by apply Z.testbit_neg_r).
  change 7 with (Z.ones 3). rewrite testbit_ones' by lia.
  replace (i - 32 - 24) with (i - 56) by lia.
  zcases; rewrite ?(Bv i), ?(Bm (i - 8)), ?(Bd (i - 56)), ?(Nd (i - 56)), ?(Nm (i - 8)) by lia; try (subst i); cbn; btauto.
Qed.

Lemma of_bits_to_bits e : redirection_ok e -> of_bits (to_bits e) = e.
Proof.
  intros He. pose proof (fun i => testbit_to_bits e i He) as Hb'. destruct He as (Hv & Hm & Hd).
  unfold of_bits, shr. rewrite !Hb' by lia. destruct e as [ve dm ld pl tl mk de]. cbn [vector delivery_mode logical_dest polarity_low trigger_level masked dest] in *.
  f_equal.
  - apply Z.bits_inj'. intros i Hi. rewrite Z.land_spec, Hb' by done. change 255 with (Z.ones 8). rewrite testbit_ones' by lia.
    zcases; rewrite ?andb_true_r, ?andb_false_r; try done; (symmetry; apply (testbit_above _ 8); [done|lia]).
  - apply Z.bits_inj'. intros i Hi. rewrite Z.land_spec, Z.shiftr_spec, Hb' by lia. change 7 with (Z.ones 3). rewrite testbit_ones' by lia.
    zcases; rewrite ?andb_true_r, ?andb_false_r; try (symmetry; apply (testbit_above _ 3); [done|lia]). f_equal. lia.
  - apply Z.bits_inj'. intros i Hi. rewrite Z.shiftr_spec, Hb' by lia. zcases. f_equal. lia.
Qed.

Lemma to_bits_fits e : redirection_ok e -> fits 64 (to_bits e).
Proof.
  intros He. assert (0 <= to_bits e) as H0.
  { unfold to_bits, set_if. destruct He as (Hv & Hm & Hd). unfold fits in *.
    repeat match goal with |- context [if ?b then _ else _] => destruct b end;
      rewrite !Z.lor_nonneg, ?Z.shiftl_nonneg, ?Z.land_nonneg;
      pose proof (u64_fits (Z.shiftl (u32 (Z.shiftl (dest e) 24)) 32)) as [? _]; unfold shl64; intuition lia. }
  apply fits_bits; [lia|done|]. intros i Hi. rewrite testbit_to_bits by (done || lia). zcases.
  apply (testbit_above _ 8); [apply He|lia].
Qed.

Definition covers_gsi (io : io_regs) (g : Z) (a : IoApicInfo) : bool :=
  (gsi_base a <=? g) && (g <? add32 (gsi_base a) (Z.land (shr (io (io_address a) IOAPICVER) 16) 0xFF + 1)).

Lemma set_entry_from_spec l g e io : redirection_ok e ->
  match List.find (covers_gsi io g) l with
  | None => set_entry_from l g e io = (Err "GSI not covered by any discovered IO-APIC"%string, io)
  | Some a =>
      exists io', set_entry_from l g e io = (Ok tt, io') /\
      of_bits (Z.lor (Z.shiftl (io' (io_address a) (0x11 + (g - gsi_base a) * 2)) 32)
                     (io' (io_address a) (0x10 + (g - gsi_base a) * 2))) = e /\
      forall b r, ~ (b = io_address a /\ (r = 0x10 + (g - gsi_base a) * 2 \/ r = 0x11 + (g - gsi_base a) * 2)) -> io' b r = io b r
  end.
Proof.
  intros He. induction l as [|a l IH]; [done|]. cbn [List.find set_entry_from]. fold (covers_gsi io g a).
  destruct (covers_gsi io g a); [|done]. eexists. split; [reflexivity|]. unfold io_write. split.
  - rewrite !Z.eqb_refl. cbn [andb]. rewrite (proj2 (Z.eqb_neq (0x10 + (g - gsi_base a) * 2) (0x11 + (g - gsi_base a) * 2))) by lia.
    rewrite <- (of_bits_to_bits e He) at 3. f_equal. pose proof (to_bits_fits e He) as Hf.
    unfold shr, u32, wrap. change 0xFFFFFFFF with (Z.ones 32). apply Z.bits_inj'. intros i Hi.
    assert (64 <= i -> Z.testbit (to_bits e) i = false) as Habove by (intros; apply (testbit_above _ 64); [done|lia]).
    autorewrite with kbits. zcases; rewrite ?andb_true_r, ?orb_false_r; cbn [orb]; try done.
    all: try (replace (i - 32 + 32) with i by lia; done). all: try (by rewrite Habove by lia).
  - intros b r Hne. destruct (Z.eqb_spec b (io_address a)) as [->|]; [|done]. cbn [andb].
    destruct (Z.eqb_spec r (0x11 + (g - gsi_base a) * 2)) as [->|]; [destruct Hne; auto|].
    destruct (Z.eqb_spec r (0x10 + (g - gsi_base a) * 2)) as [->|]; [destruct Hne; auto|done].
Qed.

(** Programming a redirection entry: the entry lands in the two registers of the first
    discovered I/O APIC whose range covers the interrupt, decoding those registers gives the
    entry back field by field, no other register of any I/O APIC changes, and without such
    an I/O APIC the call fails and changes nothing. *)
Theorem set_redirection_entry_exact d g e io (He : redirection_ok e) :
  match List.find (covers_gsi io g) (known_ioapics d) with
  | None => set_redirection_entry d g e io = (Err "GSI not covered by any discovered IO-APIC"%string, io)
  | Some a =>
      exists io', set_redirection_entry d g e io = (Ok tt, io') /\
      of_bits (Z.lor (Z.shiftl (io' (io_address a) (0x11 + (g - gsi_base a) * 2)) 32)
                     (io' (io_address a) (0x10 + (g - gsi_base a) * 2))) = e /\
      forall b r, ~ (b = io_address a /\ (r = 0x10 + (g - gsi_base a) * 2 \/ r = 0x11 + (g - gsi_base a) * 2)) -> io' b r = io b r
  end.
Proof. by apply set_entry_from_spec. Qed.

(** ** Concrete instances *)
Definition demo_entries : list madt_entry :=
  [LocalApic 0 0 1; LocalApic 1 1 0; OtherEntry 4 [0xFF; 5; 0; 1]; LocalX2Apic 300 2 7;
   IoApic 2 0xFEC00000 0; SourceOverride 0 0 2 0; AddressOverride 0xFEE00000].
Definition demo_table : list Z :=
  replicate 36 0 ++ to_le 4 0xFEE01000 ++ to_le 4 1 ++ concat (map encode demo_entries).
Definition demo_mem : mem_t := copy_to (fun _ => 0) 0x7000 demo_table.

Lemma demo_entries_ok : Forall entry_ok demo_entries.
Proof.
  repeat constructor; try done; cbn; try lia. rewrite !not_elem_of_cons. repeat split; try lia. apply not_elem_of_nil.
Qed.


Lemma madt_parse_total_witness :
  exists d, madt_parse (fun _ => 2) 0x7000 1000 MadtData_empty = Some d /\ madt_ok d.
Proof.
  destruct (madt_parse_total (fun _ => 2) (fun _ => 2) 0x7000 1000 MadtData_empty) as (d & E & _ & H).
  - intros x Hx. done.
  - intros x. by split.
  - lia.
  - lia.
  - lia.
  - by destruct (empty_ok 0 0); split.
  - exists d. split; [exact E|exact H].
Defined.

Lemma set_redirection_entry_exact_witness :
  let d := push_ioapic {| io_id := 2; io_address := 0xFEC00000; gsi_base := 0 |} MadtData_empty in
  let e := {| vector := 0x21; delivery_mode := 0; logical_dest := false; polarity_low := true; trigger_level := false; masked := false; dest := 1 |} in
  exists io', set_redirection_entry d 1 e (fun _ _ => Z.shiftl 23 16) = (Ok tt, io') /\ io' 0xFEC00000 0x14 = Z.shiftl 23 16.
Proof.
  intros d e. assert (redirection_ok e) as He by (by repeat split).
  pose proof (set_redirection_entry_exact d 1 e (fun _ _ => Z.shiftl 23 16) He) as H.
  vm_compute List.find in H. destruct H as (io' & E & _ & H). exists io'. split; [exact E|].
  rewrite H; [reflexivity|]. cbn. lia.
Defined.
