(* ===== verification/Ports.v ===== *)
(** * Device access: the monad of code that drives hardware

    The x86 port space, the `in`/`out` instructions the drivers wrap
    (src/src/fs/ata.rs `outb`, `inb`, `outw`, `inw`; src/src/pci.rs `outl`, `inl`;
    the PIC and PIT code of src/src/interrupts.rs), as an interface: a driver is a
    computation over any state that answers port accesses.  What the device behind
    the ports does is stated by the laws each driver needs, in the driver's file. *)
From S2P Require Import Prelude.

(** A computation that talks to a device of state [P]. *)
Definition act (P A : Type) : Type := P -> A * P.

Definition done {P A} (a : A) : act P A := fun p => (a, p).
Definition act_bind {P A B} (c : act P A) (k : A -> act P B) : act P B :=
  fun p => let '(a, p') := c p in k a p'.
(** An access whose value is ignored. *)
Definition effect {P} (f : P -> P) : act P unit := fun p => (tt, f p).

Notation "'let*' x ':=' c 'in' k" :=
  (act_bind c (fun x => k))
  (at level 10, x name, c at level 100, k at level 200) : kernel_scope.
Notation "c '>>>' k" := (act_bind c (fun _ => k)) (at level 62, right associativity) : kernel_scope.

(** `c?`: return early with the error. *)
Definition act_try {P A B E} (c : act P (Result A E)) (k : A -> act P (Result B E)) : act P (Result B E) :=
  let* r := c in match r with Ok a => k a | Err e => done (Err e) end.

Notation "'let*?' x ':=' c 'in' k" :=
  (act_try c (fun x => k))
  (at level 10, x name, c at level 100, k at level 200) : kernel_scope.

Class PortIO (P : Type) := {
  inb : Z -> act P Z;
  outb : Z -> Z -> P -> P;
  inw : Z -> act P Z;
  outw : Z -> Z -> P -> P;
  inl : Z -> act P Z;
  outl : Z -> Z -> P -> P
}.

(** A port space that records every write and reads zero: what a piece of code
    writes, in order. *)
Record port_log := mkLog { writes : list (Z * Z) }.

Definition log_write (port v : Z) (l : port_log) : port_log := mkLog (writes l ++ [(port, v)]).

#[export] Instance log_ports : PortIO port_log := {|
  inb := fun _ => done 0; outb := log_write;
  inw := fun _ => done 0; outw := log_write;
  inl := fun _ => done 0; outl := log_write
|}.

(** Memory-mapped device registers, 32 bits wide: `read_volatile` and `write_volatile`
    through a pointer to a device. *)
Class Mmio (M : Type) := {
  mmio_read : Z -> act M Z;
  mmio_write : Z -> Z -> M -> M
}.

(** Taking bytes from a receive FIFO until its status says it is empty; [fuel] bounds the
    number of bytes. *)
Fixpoint drain_fifo {P S} (available : act P bool) (get : act P Z) (store : Z -> S -> S) (fuel : nat) (s : S)
    : act P (option S) :=
  match fuel with
  | O => done None
  | S f =>
      let* more := available in
      if more then let* byte := get in drain_fifo available get store f (store byte s) else done (Some s)
  end.

(** What such a FIFO does: [fifo] are the bytes waiting. *)
Record fifo_laws {P} (fifo : P -> list Z) (available : act P bool) (get : act P Z) : Prop := {
  fifo_available : forall p, (available p).1 = negb (bool_decide (fifo p = [])) /\ fifo (available p).2 = fifo p;
  fifo_get : forall p b q, fifo p = b :: q -> (get p).1 = b /\ fifo (get p).2 = q
}.

Lemma drain_fifo_all {P S} (fifo : P -> list Z) available get (store : Z -> S -> S) fuel (s : S) p :
  fifo_laws fifo available get -> (length (fifo p) < fuel)%nat ->
  exists p', drain_fifo available get store fuel s p = (Some (foldl (fun s b => store b s) s (fifo p)), p') /\
    fifo p' = [].
Proof.
  intros L. revert s p. induction fuel as [|fuel IH]; intros s p Hf; [lia|].
  cbn [drain_fifo]. unfold act_bind. destruct (fifo_available _ _ _ L p) as [Ea Ek].
  destruct (available p) as [more p1]. cbn [fst snd] in *. subst more.
  destruct (fifo p) as [|b q] eqn:Eq.
  - rewrite bool_decide_true by done. cbn [negb]. by exists p1.
  - rewrite bool_decide_false by done. cbn [negb].
    destruct (fifo_get _ _ _ L p1 b q) as [Eb Eq']; [congruence|]. destruct (get p1) as [v p2]. cbn [fst snd] in *. subst v.
    destruct (IH (store b s) p2) as (p' & E & Hp'); [rewrite Eq'; cbn in Hf; lia|].
    exists p'. by rewrite E, Eq'.
Qed.
