(* ===== verification/UartCorrect.v ===== *)
(** The serial drivers are correct: what a line of characters looks like through the
    operations of [Serial], and the two chips behind the drivers. *)
From S2P Require Import Prelude Ports Uart UartDev.
#[local] Open Scope kernel_scope.

(** ** What a driver promises

    [ser_sent] are the characters that have gone out on the line, [ser_line] those that
    will come in: after how many polls, and the byte unless the line corrupts it. *)
Abbreviation ATTEMPTS := (Z.to_nat POLL_ATTEMPTS).

Definition received (x : option Z) : Result Z UartError := match x with Some b => Ok b | None => Err LineError end.

(** One `try_read_byte` with at most [n] polls: what it returns and what is left of the line. *)
Definition attempt_read (n : nat) (line : list (nat * option Z)) : Result Z UartError * list (nat * option Z) :=
  match line with
  | [] => (Err Timeout, [])
  | (k, x) :: q => if (k <? n)%nat then (received x, q) else (Err Timeout, (k - n, x)%nat :: q)
  end.

Class SerialLaws (P : Type) `{!Serial P} := {
  ser_wired : P -> Prop;
  ser_ok : P -> Prop;
  ser_sent : P -> list Z;
  ser_line : P -> list (nat * option Z);
  ser_patience : nat;
  ser_init_ok p : ser_wired p ->
    ser_ok (ser_init p).2 /\ ser_sent (ser_init p).2 = ser_sent p;
  ser_enable_ok p : ser_ok p ->
    ser_ok (ser_enable_interrupts p).2 /\ ser_sent (ser_enable_interrupts p).2 = ser_sent p /\
    ser_line (ser_enable_interrupts p).2 = ser_line p;
  ser_write_ok p b fuel : ser_ok p -> fits 8 b -> (ser_patience < fuel)%nat ->
    exists p', ser_write_byte fuel b p = (Some tt, p') /\ ser_ok p' /\ ser_sent p' = ser_sent p ++ [b] /\
      map snd (ser_line p') = map snd (ser_line p);
  ser_read_ok p : ser_ok p ->
    exists p', ser_try_read_byte p = ((attempt_read ATTEMPTS (ser_line p)).1, p') /\ ser_ok p' /\ ser_sent p' = ser_sent p /\
      ser_line p' = (attempt_read ATTEMPTS (ser_line p)).2
}.

Section serial.
Context {P : Type} `{SL : SerialLaws P}.

(** `write_str` puts exactly the translated bytes on the line. *)
Lemma ser_write_str_sends s fuel p : ser_ok p -> bytes_ok s -> (ser_patience < fuel)%nat ->
  exists p', ser_write_str fuel s p = (Some tt, p') /\ ser_ok p' /\ ser_sent p' = Uart.write_str s (ser_sent p) /\
    map snd (ser_line p') = map snd (ser_line p).
Proof.
  intros Hok Hs Hf. revert p Hok. induction Hs as [|b s Hb _ IH]; intros p Hok; [by exists p|].
  cbn [ser_write_str Uart.write_str]. unfold and_then, act_bind.
  destruct (b =? 10).
  - destruct (ser_write_ok p 13 fuel Hok ltac:(done) Hf) as (p1 & -> & H1 & S1 & L1).
    destruct (ser_write_ok p1 b fuel H1 Hb Hf) as (p2 & -> & H2 & S2 & L2).
    destruct (IH p2 H2) as (p' & -> & H' & S' & L'). exists p'. split_and!; [done|done| |congruence].
    by rewrite S', S2, S1, <- app_assoc.
  - unfold done. destruct (ser_write_ok p b fuel Hok Hb Hf) as (p2 & -> & H2 & S2 & L2).
    destruct (IH p2 H2) as (p' & -> & H' & S' & L'). exists p'. split_and!; [done|done| |congruence]. by rewrite S', S2.
Qed.

(** Attempts it takes to get past the idle time before the next character. *)
Definition tries (k : nat) : nat := S (k / ATTEMPTS).

Lemma ser_read_idle k : forall p x q, ser_ok p -> ser_line p = (k, x) :: q ->
  exists p1, (forall f, ser_read_byte (tries k + f) p = match x with Some b => (Some b, p1) | None => ser_read_byte f p1 end) /\
    ser_ok p1 /\ ser_sent p1 = ser_sent p /\ ser_line p1 = q.
Proof.
  assert (0 < ATTEMPTS)%nat as Ha by (unfold POLL_ATTEMPTS; lia).
  induction k as [k IH] using lt_wf_ind. intros p x q Hok Hl.
  destruct (ser_read_ok p Hok) as (p1 & E1 & H1 & S1 & L1). rewrite Hl in *. cbn [attempt_read] in *.
  destruct (Nat.ltb_spec k ATTEMPTS) as [Hk|Hk]; cbn [fst snd] in *.
  - exists p1. split; [|done]. intros f. unfold tries. rewrite Nat.div_small by done. cbn [Nat.add ser_read_byte].
    unfold act_bind. rewrite E1. by destruct x.
  - destruct (IH (k - ATTEMPTS)%nat ltac:(lia) p1 x q H1 L1) as (p2 & E & H2 & S2 & L2).
    exists p2. split_and!; [|done|congruence|done]. intros f. rewrite <- E. unfold tries.
    replace k with (k - ATTEMPTS + 1 * ATTEMPTS)%nat at 1 by lia. rewrite Nat.div_add by lia.
    replace (S ((k - ATTEMPTS) / ATTEMPTS + 1) + f)%nat with (S (S ((k - ATTEMPTS) / ATTEMPTS) + f)) by lia.
    cbn [ser_read_byte]. unfold act_bind at 1. by rewrite E1.
Qed.

(** `read_byte` returns the first good byte that comes in, past any corrupted ones. *)
Lemma ser_read_first_good bad b rest : forall p, ser_ok p -> map snd (ser_line p) = replicate bad None ++ Some b :: rest ->
  exists n p', (forall f, ser_read_byte (n + f) p = (Some b, p')) /\ ser_ok p' /\ ser_sent p' = ser_sent p /\
    map snd (ser_line p') = rest.
Proof.
  induction bad as [|bad IH]; intros p Hok Hl; destruct (ser_line p) as [|[k x] q] eqn:El; try done; cbn in Hl; injection Hl as -> Hq;
    destruct (ser_read_idle k p _ q Hok El) as (p1 & E & H1 & S1 & L1).
  - exists (tries k), p1. by rewrite L1.
  - destruct (IH p1 H1) as (n & p' & E' & H' & S' & L'); [by rewrite L1|].
    exists (tries k + n)%nat, p'. split_and!; [|done|congruence|done]. intros f. by rewrite <- Nat.add_assoc, E.
Qed.

(** C24: The serial console of either board, from reset: after `init` and `enable_interrupts`,
    `write_str` returns and puts on the line exactly the bytes of the text with a carriage
    return before every line feed, after what was sent before; and `read_byte` returns the
    first byte that comes in uncorrupted, however long the line is idle before it and
    however many corrupted ones come first, and leaves the rest of the line. *)
Theorem serial_console (p : P) s fuel bad b rest :
  ser_wired p -> bytes_ok s -> (ser_patience < fuel)%nat ->
  let p0 := (ser_enable_interrupts (ser_init p).2).2 in
  map snd (ser_line p0) = replicate bad None ++ Some b :: rest ->
  exists p1, ser_write_str fuel s p0 = (Some tt, p1) /\ ser_sent p1 = Uart.write_str s (ser_sent p) /\
    exists n p2, (forall f, ser_read_byte (n + f) p1 = (Some b, p2)) /\ ser_sent p2 = ser_sent p1 /\ map snd (ser_line p2) = rest.
Proof.
  intros Hw Hs Hf p0 Hl. destruct (ser_init_ok p Hw) as [H S]. destruct (ser_enable_ok _ H) as (H0 & S0 & _). fold p0 in H0, S0.
  destruct (ser_write_str_sends s fuel p0 H0 Hs Hf) as (p1 & E1 & H1 & S1 & L1). exists p1.
  split_and!; [done|by rewrite S1, S0, S|].
  destruct (ser_read_first_good bad b rest p1 H1) as (n & p2 & E2 & _ & S2 & L2); [by rewrite L1|]. by exists n, p2.
Qed.
End serial.

(** ** The 16550

    Time advances with every read of the line status register: a character of [rx] comes
    in after the given number of polls, with its error bits; the transmitter takes a new
    byte only when its holding register is empty, [gap n] polls after the [n]-th byte, and
    loses one written before that. *)
Record Chip16550 := mkChip {
  ier : Z; lcr : Z; dll : Z; dlm : Z; fcr : Z; mcr : Z;
  tx_sent : list Z; tx_busy : nat; rx : list (nat * (Z * Z))
}.

(** The time between characters. *)
Definition advance (rx : list (nat * (Z * Z))) : list (nat * (Z * Z)) :=
  match rx with (S k, c) :: q => (k, c) :: q | _ => rx end.
Fixpoint drop_arrived (rx : list (nat * (Z * Z))) : list (nat * (Z * Z)) :=
  match rx with (O, _) :: q => drop_arrived q | _ => rx end.
Definition line_of (rx : list (nat * (Z * Z))) : list (nat * option Z) :=
  map (fun '(k, (b, e)) => (k, if e =? 0 then Some b else None)) rx.

Lemma line_advance rx : map snd (line_of (advance rx)) = map snd (line_of rx).
Proof. by destruct rx as [|[[|k] [b e]] q]. Qed.

Section chip16550.
Context (gap : nat -> nat) (patience : nat) (Hgap : forall n, (gap n <= patience)%nat).
Abbreviation COM1 := Com1.COM1.

Definition dlab (c : Chip16550) : bool := Z.testbit (lcr c) 7.

Definition chip_outb (port v : Z) (c : Chip16550) : Chip16550 :=
  if port =? COM1 then
    if dlab c then mkChip (ier c) (lcr c) v (dlm c) (fcr c) (mcr c) (tx_sent c) (tx_busy c) (rx c)
    else match tx_busy c with
         | O => mkChip (ier c) (lcr c) (dll c) (dlm c) (fcr c) (mcr c) (tx_sent c ++ [v]) (gap (length (tx_sent c))) (rx c)
         | S _ => c
         end
  else if port =? COM1 + 1 then
    if dlab c then mkChip (ier c) (lcr c) (dll c) v (fcr c) (mcr c) (tx_sent c) (tx_busy c) (rx c)
    else mkChip v (lcr c) (dll c) (dlm c) (fcr c) (mcr c) (tx_sent c) (tx_busy c) (rx c)
  else if port =? COM1 + 2 then
    mkChip (ier c) (lcr c) (dll c) (dlm c) v (mcr c) (tx_sent c) (tx_busy c) (if Z.testbit v 1 then drop_arrived (rx c) else rx c)
  else if port =? COM1 + 3 then mkChip (ier c) v (dll c) (dlm c) (fcr c) (mcr c) (tx_sent c) (tx_busy c) (rx c)
  else if port =? COM1 + 4 then mkChip (ier c) (lcr c) (dll c) (dlm c) (fcr c) v (tx_sent c) (tx_busy c) (rx c)
  else c.

Definition line_status (c : Chip16550) : Z :=
  Z.lor (if (tx_busy c =? 0)%nat then 0x60 else 0) (match rx c with (O, (_, e)) :: _ => Z.lor 1 e | _ => 0 end).

Definition chip_inb (port : Z) : act Chip16550 Z := fun c =>
  if port =? COM1 + 5 then
    (line_status c, mkChip (ier c) (lcr c) (dll c) (dlm c) (fcr c) (mcr c) (tx_sent c) (tx_busy c - 1) (advance (rx c)))
  else if port =? COM1 then
    if dlab c then (dll c, c)
    else match rx c with
         | (O, (b, _)) :: q => (b, mkChip (ier c) (lcr c) (dll c) (dlm c) (fcr c) (mcr c) (tx_sent c) (tx_busy c) q)
         | _ => (0, c)
         end
  else if port =? COM1 + 1 then (if dlab c then dlm c else ier c, c)
  else (0, c).

#[local] Instance chip_ports : PortIO Chip16550 := {|
  inb := chip_inb; outb := chip_outb;
  inw := fun _ => done 0; outw := fun _ _ c => c; inl := fun _ => done 0; outl := fun _ _ c => c
|}.

(** What the wire delivers: bytes, with error bits where the line status has them. *)
Definition chars_ok (rx : list (nat * (Z * Z))) : Prop :=
  Forall (fun '(_, (b, e)) => fits 8 b /\ exists m, fits 4 m /\ e = 2 * m) rx.
Definition chip_wired (c : Chip16550) : Prop := (tx_busy c <= patience)%nat /\ chars_ok (rx c).
Definition chip_ok (c : Chip16550) : Prop := chip_wired c /\ dlab c = false.

Lemma chars_ok_advance l : chars_ok l -> chars_ok (advance l).
Proof. destruct l as [|[[|k] [b e]] q]; try done. intros [H Hq]%Forall_cons. by constructor. Qed.
Lemma chars_ok_drop l : chars_ok l -> chars_ok (drop_arrived l).
Proof. induction 1 as [|[[|k] [b e]] q H Hq IH]; [constructor|done|by constructor]. Qed.

(** The bits of the line status the driver looks at. *)
Lemma status_bits c : chars_ok (rx c) ->
  (Z.land (line_status c) Com1.LSR_THR_EMPTY =? 0) = negb (tx_busy c =? 0)%nat /\
  (Z.land (line_status c) LSR_DATA_READY =? 0) = match rx c with (O, _) :: _ => false | _ => true end /\
  (Z.land (line_status c) LSR_ANY_ERROR =? 0) = match rx c with (O, (_, e)) :: _ => e =? 0 | _ => true end.
Proof.
  intros H. unfold line_status. destruct (rx c) as [|[[|k] [b e]] q]; [by destruct (_ =? _)%nat| |by destruct (_ =? _)%nat].
  apply Forall_cons in H as [(_ & m & Hm & ->) _].
  revert m Hm. apply range_forall. destruct (tx_busy c =? 0)%nat; repeat (constructor; [done|]); constructor.
Qed.

Lemma com1_write_loop b fuel c : chip_ok c -> (tx_busy c < fuel)%nat ->
  exists c', Com1.write_byte fuel b c = (Some tt, c') /\ chip_ok c' /\ tx_sent c' = tx_sent c ++ [b] /\
    map snd (line_of (rx c')) = map snd (line_of (rx c)).
Proof.
  revert c. induction fuel as [|fuel IH]; intros c [[Hb Hr] Hd] Hf; [lia|]. cbn [Com1.write_byte]. unfold act_bind at 1.
  cbn [inb chip_ports]. unfold chip_inb at 1. rewrite Z.eqb_refl. destruct (status_bits c Hr) as (-> & _ & _).
  destruct (tx_busy c) as [|n] eqn:Eb; cbn [Nat.eqb negb Nat.sub].
  - eexists. split; [reflexivity|]. cbn [outb chip_ports]. unfold chip_outb. rewrite Z.eqb_refl. unfold dlab in *. cbn [lcr tx_busy]. rewrite Hd.
    cbn [tx_sent rx]. split_and!; [|done|apply line_advance]. split; [|done]. split; [apply Hgap|by apply chars_ok_advance].
  - destruct (IH (mkChip (ier c) (lcr c) (dll c) (dlm c) (fcr c) (mcr c) (tx_sent c) (n - 0) (advance (rx c)))) as (c' & -> & H' & S' & L').
    + split; [|done]. split; [cbn; lia|by apply chars_ok_advance].
    + cbn. lia.
    + exists c'. split_and!; [done|done|done|]. rewrite L'. apply line_advance.
Qed.

Lemma com1_poll n : forall c, chip_ok c ->
  exists c', Com1.poll n c = ((attempt_read n (line_of (rx c))).1, c') /\ chip_ok c' /\ tx_sent c' = tx_sent c /\
    line_of (rx c') = (attempt_read n (line_of (rx c))).2.
Proof.
  induction n as [|n IH]; intros c Hok.
  { exists c. destruct (rx c) as [|[k [b e]] q] eqn:E; cbn -[Nat.sub]; rewrite ?E, ?Nat.sub_0_r; done. }
  pose proof Hok as [[Hb Hr] Hd]. cbn [Com1.poll]. unfold act_bind at 1. cbn [inb chip_ports]. unfold chip_inb at 1. rewrite Z.eqb_refl.
  destruct (status_bits c Hr) as (_ & -> & ->).
  set (c1 := mkChip (ier c) (lcr c) (dll c) (dlm c) (fcr c) (mcr c) (tx_sent c) (tx_busy c - 1) (advance (rx c))).
  assert (chip_ok c1) as Hok1 by (split; [split; [cbn; lia|by apply chars_ok_advance]|done]).
  destruct (rx c) as [|[[|k] [b e]] q] eqn:E.
  - destruct (IH c1 Hok1) as (c' & -> & H' & S' & L'). exists c'. split_and!; done.
  - set (c2 := mkChip (ier c) (lcr c) (dll c) (dlm c) (fcr c) (mcr c) (tx_sent c) (tx_busy c - 1) q).
    assert (chip_inb COM1 c1 = (b, c2)) as Et.
    { unfold chip_inb. change (COM1 =? COM1 + 5) with false. rewrite Z.eqb_refl. change (dlab c1) with (dlab c). by rewrite Hd. }
    exists c2. unfold act_bind. cbn [inb chip_ports line_of map attempt_read Nat.ltb Nat.leb]. split_and!; [|split; [|done]|done|done].
    + destruct (e =? 0); cbn [negb]; by rewrite Et.
    + split; [cbn; lia|]. by apply Forall_cons in Hr as [_ ?].
  - destruct (IH c1 Hok1) as (c' & -> & H' & S' & L'). exists c'.
    assert (attempt_read n (line_of (rx c1)) = attempt_read (S n) (line_of ((S k, (b, e)) :: q))) as <- by done.
    split_and!; done.
Qed.

Lemma com1_init_chip c : (Com1.init c).2 =
  mkChip (if dlab c then ier c else 0) 3 3 0 0xC7 0x0B (tx_sent c) (tx_busy c) (drop_arrived (rx c)).
Proof.
  unfold Com1.init, act_bind, effect. cbn [outb chip_ports snd fst].
  assert (chip_outb (COM1 + 1) 0 c = if dlab c then mkChip (ier c) (lcr c) (dll c) 0 (fcr c) (mcr c) (tx_sent c) (tx_busy c) (rx c)
    else mkChip 0 (lcr c) (dll c) (dlm c) (fcr c) (mcr c) (tx_sent c) (tx_busy c) (rx c)) as -> by reflexivity.
  by destruct (dlab c).
Qed.

(** The driver on the chip. *)
#[export] Instance com1_laws : SerialLaws Chip16550 (Serial0 := Com1.com1_serial).
Proof.
  refine {| ser_wired := chip_wired; ser_ok := chip_ok; ser_sent := tx_sent; ser_line c := line_of (rx c); ser_patience := patience |}.
  - intros c [Hb Hr]. cbn [ser_init Com1.com1_serial]. rewrite com1_init_chip. split; [|done]. split; [|done]. split; [exact Hb|].
    by apply chars_ok_drop.
  - intros c [[Hb Hr] Hd]. cbn [ser_enable_interrupts Com1.com1_serial]. unfold Com1.enable_interrupts, act_bind, effect.
    cbn [inb outb chip_ports]. unfold chip_inb, chip_outb.
    change (COM1 + 1 =? COM1 + 5) with false. change (COM1 + 1 =? COM1) with false. rewrite Z.eqb_refl. cbn iota. by rewrite Hd.
  - intros c b fuel Hok _ Hf. apply com1_write_loop; [done|]. destruct Hok as [[? _] _]. lia.
  - intros c Hok. by apply com1_poll.
Defined.

(** The line `init` sets up: 38400 baud (a divisor of 3), eight data bits, no parity, one
    stop bit, FIFOs on, the modem lines raised, interrupts off.  The characters that have
    already arrived are lost, as the comment on `shared` warns. *)
Lemma com1_init_line c : dlab c = false -> let c' := (Com1.init c).2 in
  dll c' + 256 * dlm c' = 3 /\ Z.land (lcr c') 0x7F = 3 /\ Z.testbit (fcr c') 0 = true /\ mcr c' = 0x0B /\ ier c' = 0 /\
  rx c' = drop_arrived (rx c).
Proof. intros Hd c'. unfold c'. rewrite com1_init_chip, Hd. done. Qed.
(** `enable_interrupts` adds the receive interrupt to those enabled. *)
Lemma com1_enable_line c : dlab c = false -> ier (Com1.enable_interrupts c).2 = Z.lor (ier c) 1.
Proof.
  intros Hd. unfold Com1.enable_interrupts, act_bind, effect. cbn [inb outb chip_ports]. unfold chip_inb, chip_outb.
  change (COM1 + 1 =? COM1 + 5) with false. change (COM1 + 1 =? COM1) with false. rewrite Z.eqb_refl. cbn iota. by rewrite Hd.
Qed.
End chip16550.

(** ** The PL011

    Time advances with every read of the flag register; the transmitter sends only while
    it is enabled, and loses a byte written while it is full.  Reading the data register
    takes the next character and moves its error bits to the receive status register. *)
Record ChipPl011 := mkPl {
  cr : Z; ibrd : Z; fbrd : Z; lcrh : Z; imsc : Z; rsr : Z; gpfsel1 : Z;
  pl_sent : list Z; pl_busy : nat; pl_rx : list (nat * (Z * Z))
}.

Section chip_pl011.
Context (gap : nat -> nat) (patience : nat) (Hgap : forall n, (gap n <= patience)%nat).

Definition flags (c : ChipPl011) : Z :=
  Z.lor (if (pl_busy c =? 0)%nat then 0 else Z.shiftl 1 5) (match pl_rx c with (O, _) :: _ => 0 | _ => Z.shiftl 1 4 end).

(** The registers, by the way the driver names them. *)
Definition pl_read (a : Z) : act ChipPl011 Z := fun c =>
  if a =? Pl011.UART0_FR then
    (flags c, mkPl (cr c) (ibrd c) (fbrd c) (lcrh c) (imsc c) (rsr c) (gpfsel1 c) (pl_sent c) (pl_busy c - 1) (advance (pl_rx c)))
  else if a =? Pl011.UART0_DR then
    match pl_rx c with
    | (O, (b, e)) :: q =>
        (Z.lor b (Z.shiftl e 8), mkPl (cr c) (ibrd c) (fbrd c) (lcrh c) (imsc c) e (gpfsel1 c) (pl_sent c) (pl_busy c) q)
    | _ => (0, c)
    end
  else if a =? Pl011.UART0_RSRECR then (rsr c, c)
  else if a =? Pl011.GPFSEL1 then (gpfsel1 c, c)
  else if a =? Pl011.UART0_IMSC then (imsc c, c)
  else (0, c).

Definition pl_write (a v : Z) (c : ChipPl011) : ChipPl011 :=
  if a =? Pl011.UART0_DR then
    if (Z.land (cr c) 0x101 =? 0x101) && (pl_busy c =? 0)%nat
    then mkPl (cr c) (ibrd c) (fbrd c) (lcrh c) (imsc c) (rsr c) (gpfsel1 c) (pl_sent c ++ [v]) (gap (length (pl_sent c))) (pl_rx c)
    else c
  else if a =? Pl011.UART0_RSRECR then mkPl (cr c) (ibrd c) (fbrd c) (lcrh c) (imsc c) 0 (gpfsel1 c) (pl_sent c) (pl_busy c) (pl_rx c)
  else if a =? Pl011.UART0_IBRD then mkPl (cr c) v (fbrd c) (lcrh c) (imsc c) (rsr c) (gpfsel1 c) (pl_sent c) (pl_busy c) (pl_rx c)
  else if a =? Pl011.UART0_FBRD then mkPl (cr c) (ibrd c) v (lcrh c) (imsc c) (rsr c) (gpfsel1 c) (pl_sent c) (pl_busy c) (pl_rx c)
  else if a =? Pl011.UART0_LCRH then mkPl (cr c) (ibrd c) (fbrd c) v (imsc c) (rsr c) (gpfsel1 c) (pl_sent c) (pl_busy c) (pl_rx c)
  else if a =? Pl011.UART0_CR then mkPl v (ibrd c) (fbrd c) (lcrh c) (imsc c) (rsr c) (gpfsel1 c) (pl_sent c) (pl_busy c) (pl_rx c)
  else if a =? Pl011.UART0_IMSC then mkPl (cr c) (ibrd c) (fbrd c) (lcrh c) v (rsr c) (gpfsel1 c) (pl_sent c) (pl_busy c) (pl_rx c)
  else if a =? Pl011.GPFSEL1 then mkPl (cr c) (ibrd c) (fbrd c) (lcrh c) (imsc c) (rsr c) v (pl_sent c) (pl_busy c) (pl_rx c)
  else c.

#[local] Instance pl_mmio : Mmio ChipPl011 := {| mmio_read := pl_read; mmio_write := pl_write |}.

Definition pl_chars_ok (l : list (nat * (Z * Z))) : Prop := Forall (fun '(_, (b, e)) => fits 8 b /\ fits 4 e) l.
Definition pl_wired (c : ChipPl011) : Prop := (pl_busy c <= patience)%nat /\ pl_chars_ok (pl_rx c).
Definition pl_ok (c : ChipPl011) : Prop := pl_wired c /\ cr c = 0x301.

Lemma pl_chars_ok_advance l : pl_chars_ok l -> pl_chars_ok (advance l).
Proof. destruct l as [|[[|k] [b e]] q]; try done. intros [H Hq]%Forall_cons. by constructor. Qed.

Lemma flag_bits c :
  (Z.land (flags c) Pl011.FR_TXFF =? 0) = (pl_busy c =? 0)%nat /\
  (Z.land (flags c) FR_RXFE =? 0) = match pl_rx c with (O, _) :: _ => true | _ => false end.
Proof. unfold flags. by destruct (pl_busy c =? 0)%nat, (pl_rx c) as [|[[|k] [b e]] q]. Qed.

Definition ticked (c : ChipPl011) : ChipPl011 :=
  mkPl (cr c) (ibrd c) (fbrd c) (lcrh c) (imsc c) (rsr c) (gpfsel1 c) (pl_sent c) (pl_busy c - 1) (advance (pl_rx c)).
Lemma ticked_ok c : pl_ok c -> pl_ok (ticked c).
Proof. intros [[Hb Hr] Hc]. split; [|done]. split; [cbn; lia|by apply pl_chars_ok_advance]. Qed.
Lemma read_flags c : Pl011.read_reg Pl011.UART0_FR c = (flags c, ticked c).
Proof. done. Qed.

Lemma pl011_write_loop b fuel c : pl_ok c -> (pl_busy c < fuel)%nat ->
  exists c', Pl011.write_byte fuel b c = (Some tt, c') /\ pl_ok c' /\ pl_sent c' = pl_sent c ++ [b] /\
    map snd (line_of (pl_rx c')) = map snd (line_of (pl_rx c)).
Proof.
  revert c. induction fuel as [|fuel IH]; intros c Hok Hf; [lia|]. cbn [Pl011.write_byte]. unfold act_bind at 1.
  rewrite read_flags. destruct (flag_bits c) as (-> & _). pose proof (ticked_ok c Hok) as Hok1.
  destruct (pl_busy c) as [|n] eqn:Eb; cbn [Nat.eqb negb].
  - eexists. split; [reflexivity|]. cbn [mmio_write pl_mmio]. unfold pl_write. rewrite Z.eqb_refl. destruct Hok1 as [[Hb Hr] Hc].
    rewrite Hc. cbn [ticked pl_busy]. rewrite Eb. cbn [pl_rx pl_sent Nat.sub Nat.eqb andb]. change (_ && true) with true. cbn iota.
    split_and!; [|done|apply line_advance]. split; [|done]. split; [apply Hgap|exact Hr].
  - destruct (IH (ticked c) Hok1) as (c' & -> & H' & S' & L'); [cbn; lia|].
    exists c'. split_and!; [done|done|done|]. rewrite L'. apply line_advance.
Qed.

Lemma char_of b e : fits 8 b -> fits 4 e -> u8 (Z.lor b (Z.shiftl e 8)) = b.
Proof.
  intros Hb He. unfold u8, wrap. rewrite <- Z.land_ones by done. rewrite Z.land_lor_distr_l.
  rewrite !Z.land_ones by done. rewrite (Z.mod_small b) by (unfold fits in Hb; lia). rewrite Z.shiftl_mul_pow2, Z.mod_mul by done. apply Z.lor_0_r.
Qed.

Lemma rsr_bits e : fits 4 e -> Z.land e RSRECR_ANY_ERROR = e.
Proof. intros He. change RSRECR_ANY_ERROR with (Z.ones 4). rewrite Z.land_ones by done. apply Z.mod_small, He. Qed.

Lemma pl011_poll n : forall c, pl_ok c ->
  exists c', Pl011.poll n c = ((attempt_read n (line_of (pl_rx c))).1, c') /\ pl_ok c' /\ pl_sent c' = pl_sent c /\
    line_of (pl_rx c') = (attempt_read n (line_of (pl_rx c))).2.
Proof.
  induction n as [|n IH]; intros c Hok.
  { exists c. destruct (pl_rx c) as [|[k [b e]] q] eqn:E; cbn -[Nat.sub]; rewrite ?E, ?Nat.sub_0_r; done. }
  pose proof (ticked_ok c Hok) as Hok1. cbn [Pl011.poll]. unfold act_bind at 1. rewrite read_flags. destruct (flag_bits c) as (_ & ->).
  destruct (pl_rx c) as [|[[|k] [b e]] q] eqn:E; cbn [negb].
  - assert (pl_rx (ticked c) = []) as Et by (unfold ticked; by rewrite E).
    destruct (IH (ticked c) Hok1) as (c' & -> & H' & S' & L'). rewrite Et in *. by exists c'.
  - destruct Hok as [[Hb Hr] Hc]. rewrite E in Hr. apply Forall_cons in Hr as [[Hbb He] Hq].
    set (c2 := mkPl (cr c) (ibrd c) (fbrd c) (lcrh c) (imsc c) e (gpfsel1 c) (pl_sent c) (pl_busy c - 1) q).
    assert (Pl011.read_reg Pl011.UART0_DR (ticked c) = (Z.lor b (Z.shiftl e 8), c2)) as Ed.
    { unfold Pl011.read_reg. cbn [mmio_read pl_mmio]. unfold pl_read. cbn -[Z.lor Z.shiftl]. by rewrite E. }
    unfold act_bind at 1. rewrite Ed. unfold act_bind at 1.
    change (Pl011.read_reg Pl011.UART0_RSRECR c2) with (e, c2). cbn iota beta. rewrite rsr_bits by done.
    cbn [line_of map attempt_read Nat.ltb Nat.leb]. destruct (e =? 0); cbn [negb]; eexists;
      (split; [unfold Ports.done; cbn [fst received]; rewrite ?char_of by done; reflexivity|]); (split_and!; [|done|done]); (split; [|done]); (split; [change (pl_busy c - 1 <= patience)%nat; lia|done]).
  - assert (pl_rx (ticked c) = (k, (b, e)) :: q) as Et by (unfold ticked; by rewrite E).
    destruct (IH (ticked c) Hok1) as (c' & -> & H' & S' & L'). rewrite Et in *.
    assert (attempt_read n (line_of ((k, (b, e)) :: q)) = attempt_read (S n) (line_of ((S k, (b, e)) :: q))) as <- by done.
    by exists c'.
Qed.

Lemma pl011_init_chip c : (Pl011.init c).2 =
  mkPl 0x301 1 40 0x70 (imsc c) (rsr c)
    (Z.lor (Z.land (gpfsel1 c) (not32 (Z.lor (Z.shiftl 7 12) (Z.shiftl 7 15)))) (Z.lor (Z.shiftl 4 12) (Z.shiftl 4 15)))
    (pl_sent c) (pl_busy c) (pl_rx c).
Proof. reflexivity. Qed.

#[export] Instance pl011_laws : SerialLaws ChipPl011 (Serial0 := Pl011.pl011_serial).
Proof.
  refine {| ser_wired := pl_wired; ser_ok := pl_ok; ser_sent := pl_sent; ser_line c := line_of (pl_rx c); ser_patience := patience |}.
  - intros c Hw. cbn [ser_init Pl011.pl011_serial]. by rewrite pl011_init_chip.
  - intros c Hok. done.
  - intros c b fuel Hok _ Hf. apply pl011_write_loop; [done|]. destruct Hok as [[? _] _]. lia.
  - intros c Hok. by apply pl011_poll.
Defined.

(** The line `init` sets up: UART, transmitter and receiver on, a divisor of 1 + 40/64,
    eight data bits, FIFOs on; pins 14 and 15 get their serial function and the other
    pins of the select register keep theirs. *)
Lemma pl011_init_line c : fits 32 (gpfsel1 c) -> let c' := (Pl011.init c).2 in
  cr c' = 0x301 /\ ibrd c' * 64 + fbrd c' = 104 /\ lcrh c' = 0x70 /\ imsc c' = imsc c /\
  Z.land (shr (gpfsel1 c') 12) 7 = 4 /\ Z.land (shr (gpfsel1 c') 15) 7 = 4 /\
  forall k, 0 <= k < 32 -> ~ (12 <= k < 18) -> Z.testbit (gpfsel1 c') k = Z.testbit (gpfsel1 c) k.
Proof.
  intros Hg c'. unfold c'. rewrite pl011_init_chip. cbn [cr ibrd fbrd lcrh imsc gpfsel1].
  set (x := gpfsel1 c) in *. set (y := Z.lor _ _).
  assert (forall k, 0 <= k < 32 -> Z.testbit y k = if (12 <=? k) && (k <? 18) then (k =? 14) || (k =? 17) else Z.testbit x k) as Hy.
  { intros k Hk. unfold y. rewrite Z.lor_spec, Z.land_spec. revert k Hk.
    refine (range_forall (fun k => _ = _) 32 _). repeat (constructor; [cbn; by destruct (Z.testbit x _)|]). constructor. }
  assert (forall j, 0 <= j < 29 -> Z.land (shr y j) 7 = Z.b2z (Z.testbit y j) + 2 * Z.b2z (Z.testbit y (j + 1)) + 4 * Z.b2z (Z.testbit y (j + 2))) as Hf.
  { intros j Hj. unfold shr. change 7 with (Z.ones 3). rewrite Z.land_ones by lia. rewrite !Z.testbit_spec' by lia.
    rewrite Z.shiftr_div_pow2 by lia. rewrite !Z.pow_add_r by lia. rewrite <- !Z.div_div by lia.
    change (2 ^ 1) with 2. change (2 ^ 2) with 4. change (2 ^ 3) with 8. generalize (y / 2 ^ j). clear. intros z. Z.to_euclidean_division_equations. lia. }
  split_and!; [done|done|done|done|rewrite Hf, !Hy by lia; done..|].
  intros k Hk Hn. rewrite Hy by done. rewrite (proj2 (andb_false_iff _ _)); [done|]. zcases; tauto.
Qed.
End chip_pl011.

(** ** A line with a stale character before `init`, then noise, then an `A` after two
    million polls. *)
Definition demo_chip : Chip16550 :=
  mkChip 7 0 0 0 0 0 [] 0 [(0%nat, (88, 0)); (3%nat, (0, 8)); (Z.to_nat 2000000, (65, 0)); (0%nat, (66, 0))].

Lemma serial_console_witness :
  exists p1, @ser_write_str _ (@Com1.com1_serial _ (chip_ports (fun _ => 40%nat))) 50 (bytes_of "hi" ++ [10])
      (Com1.enable_interrupts (PortIO0 := chip_ports (fun _ => 40%nat)) (Com1.init (PortIO0 := chip_ports (fun _ => 40%nat)) demo_chip).2).2 = (Some tt, p1) /\
    tx_sent p1 = bytes_of "hi" ++ [13; 10].
Proof.
  destruct (@serial_console _ _ (com1_laws (fun _ => 40%nat) 40 (fun _ => le_n 40)) demo_chip (bytes_of "hi" ++ [10]) 50 1 65 [Some 66])
    as (p1 & E & S & _).
  - split; [cbn; lia|]. repeat constructor; cbn; try (unfold fits; lia);
      [exists 0|exists 4|exists 0|exists 0]; split; (unfold fits; lia).
  - repeat constructor; unfold fits; lia.
  - cbn; lia.
  - reflexivity.
  - exists p1. split; [exact E|]. exact S.
Defined.
