(* ===== verification/Graphics.v ===== *)
(** * Framebuffer graphics and the text terminal (src/src/graphics.rs)

    Colours, the pixel operations of [Framebuffer] on the memory it points to,
    the 8x8 font renderer, and the scrolling [Terminal] behind `print!`.  The
    frame buffer is plain memory: an operation takes a [mem_t] and returns it
    changed; `FONT_8X8[ascii]` panics outside the table, so what draws text
    returns an [outcome].  The second half relates the code to a screen of
    pixels and to a text console that knows only lines and columns. *)
From S2P Require Import Prelude.

(** ** Colours *)
Record Color := mkColor { r : Z; g : Z; b : Z }.

Definition BLACK : Color := mkColor 0 0 0.
Definition WHITE : Color := mkColor 255 255 255.
Definition RED : Color := mkColor 255 0 0.
Definition GREEN : Color := mkColor 0 255 0.
Definition BLUE : Color := mkColor 0 0 255.
Definition CYAN : Color := mkColor 0 255 255.
Definition YELLOW : Color := mkColor 255 255 0.
Definition MAGENTA : Color := mkColor 255 0 255.

(** `((r as u32) << 16) | ((g as u32) << 8) | (b as u32)`. *)
Definition to_u32 (c : Color) : Z :=
  Z.lor (Z.lor (u32 (Z.shiftl c.(r) 16)) (u32 (Z.shiftl c.(g) 8))) c.(b).

Definition color_ok (c : Color) : Prop := fits 8 c.(r) /\ fits 8 c.(g) /\ fits 8 c.(b).

(** ** The frame buffer *)
Record Framebuffer := mkFramebuffer {
  address : Z;
  width : Z;
  height : Z;
  pitch : Z;
}.

Definition FONT_8X8 : list (list Z) := [
  replicate 8 0; replicate 8 0; replicate 8 0; replicate 8 0;
  replicate 8 0; replicate 8 0; replicate 8 0; replicate 8 0;
  replicate 8 0; replicate 8 0; replicate 8 0; replicate 8 0;
  replicate 8 0; replicate 8 0; replicate 8 0; replicate 8 0;
  replicate 8 0; replicate 8 0; replicate 8 0; replicate 8 0;
  replicate 8 0; replicate 8 0; replicate 8 0; replicate 8 0;
  replicate 8 0; replicate 8 0; replicate 8 0; replicate 8 0;
  replicate 8 0; replicate 8 0; replicate 8 0; replicate 8 0;
  [0x00; 0x00; 0x00; 0x00; 0x00; 0x00; 0x00; 0x00];
  [0x18; 0x18; 0x18; 0x18; 0x18; 0x00; 0x18; 0x00];
  [0x66; 0x66; 0x22; 0x00; 0x00; 0x00; 0x00; 0x00];
  [0x24; 0x7E; 0x24; 0x24; 0x7E; 0x24; 0x00; 0x00];
  [0x10; 0x3C; 0x50; 0x38; 0x14; 0x78; 0x10; 0x00];
  [0x63; 0x33; 0x18; 0x0C; 0x66; 0x63; 0x00; 0x00];
  [0x30; 0x48; 0x30; 0x5A; 0x44; 0x3A; 0x00; 0x00];
  [0x18; 0x18; 0x08; 0x00; 0x00; 0x00; 0x00; 0x00];
  [0x0C; 0x18; 0x30; 0x30; 0x30; 0x18; 0x0C; 0x00];
  [0x30; 0x18; 0x0C; 0x0C; 0x0C; 0x18; 0x30; 0x00];
  [0x00; 0x24; 0x18; 0x7E; 0x18; 0x24; 0x00; 0x00];
  [0x00; 0x08; 0x08; 0x3E; 0x08; 0x08; 0x00; 0x00];
  [0x00; 0x00; 0x00; 0x00; 0x18; 0x18; 0x08; 0x00];
  [0x00; 0x00; 0x00; 0x3E; 0x00; 0x00; 0x00; 0x00];
  [0x00; 0x00; 0x00; 0x00; 0x18; 0x18; 0x00; 0x00];
  [0x02; 0x04; 0x08; 0x10; 0x20; 0x40; 0x80; 0x00];
  [0x3C; 0x66; 0x66; 0x66; 0x66; 0x66; 0x3C; 0x00];
  [0x18; 0x38; 0x18; 0x18; 0x18; 0x18; 0x7E; 0x00];
  [0x3C; 0x66; 0x06; 0x1C; 0x30; 0x60; 0x7E; 0x00];
  [0x3C; 0x66; 0x06; 0x1C; 0x06; 0x66; 0x3C; 0x00];
  [0x0C; 0x1C; 0x3C; 0x6C; 0x7E; 0x0C; 0x0C; 0x00];
  [0x7E; 0x60; 0x7C; 0x06; 0x06; 0x66; 0x3C; 0x00];
  [0x3C; 0x60; 0x7C; 0x66; 0x66; 0x66; 0x3C; 0x00];
  [0x7E; 0x06; 0x0C; 0x18; 0x30; 0x30; 0x30; 0x00];
  [0x3C; 0x66; 0x66; 0x3C; 0x66; 0x66; 0x3C; 0x00];
  [0x3C; 0x66; 0x66; 0x3E; 0x06; 0x0C; 0x38; 0x00];
  [0x00; 0x18; 0x18; 0x00; 0x18; 0x18; 0x00; 0x00];
  [0x00; 0x18; 0x18; 0x00; 0x18; 0x18; 0x08; 0x00];
  [0x06; 0x0C; 0x18; 0x30; 0x18; 0x0C; 0x06; 0x00];
  [0x00; 0x00; 0x3E; 0x00; 0x3E; 0x00; 0x00; 0x00];
  [0x30; 0x18; 0x0C; 0x06; 0x0C; 0x18; 0x30; 0x00];
  [0x3C; 0x66; 0x06; 0x1C; 0x18; 0x00; 0x18; 0x00];
  [0x3C; 0x66; 0x6E; 0x6A; 0x6E; 0x60; 0x3C; 0x00];
  [0x18; 0x3C; 0x66; 0x66; 0x7E; 0x66; 0x66; 0x00];
  [0x7C; 0x66; 0x66; 0x7C; 0x66; 0x66; 0x7C; 0x00];
  [0x3C; 0x66; 0x60; 0x60; 0x60; 0x66; 0x3C; 0x00];
  [0x78; 0x6C; 0x66; 0x66; 0x66; 0x6C; 0x78; 0x00];
  [0x7E; 0x60; 0x60; 0x7C; 0x60; 0x60; 0x7E; 0x00];
  [0x7E; 0x60; 0x60; 0x7C; 0x60; 0x60; 0x60; 0x00];
  [0x3C; 0x66; 0x60; 0x6E; 0x66; 0x66; 0x3C; 0x00];
  [0x66; 0x66; 0x66; 0x7E; 0x66; 0x66; 0x66; 0x00];
  [0x3C; 0x18; 0x18; 0x18; 0x18; 0x18; 0x3C; 0x00];
  [0x1E; 0x0C; 0x0C; 0x0C; 0x0C; 0x6C; 0x38; 0x00];
  [0x66; 0x6C; 0x78; 0x70; 0x78; 0x6C; 0x66; 0x00];
  [0x60; 0x60; 0x60; 0x60; 0x60; 0x60; 0x7E; 0x00];
  [0x63; 0x77; 0x7F; 0x6B; 0x63; 0x63; 0x63; 0x00];
  [0x66; 0x76; 0x7E; 0x6E; 0x66; 0x66; 0x66; 0x00];
  [0x3C; 0x66; 0x66; 0x66; 0x66; 0x66; 0x3C; 0x00];
  [0x7C; 0x66; 0x66; 0x7C; 0x60; 0x60; 0x60; 0x00];
  [0x3C; 0x66; 0x66; 0x66; 0x6A; 0x3C; 0x0A; 0x00];
  [0x7C; 0x66; 0x66; 0x7C; 0x78; 0x6C; 0x66; 0x00];
  [0x3C; 0x66; 0x60; 0x3C; 0x06; 0x66; 0x3C; 0x00];
  [0x7E; 0x18; 0x18; 0x18; 0x18; 0x18; 0x18; 0x00];
  [0x66; 0x66; 0x66; 0x66; 0x66; 0x66; 0x3C; 0x00];
  [0x66; 0x66; 0x66; 0x66; 0x66; 0x3C; 0x18; 0x00];
  [0x63; 0x63; 0x63; 0x6B; 0x7F; 0x77; 0x63; 0x00];
  [0x66; 0x66; 0x3C; 0x18; 0x3C; 0x66; 0x66; 0x00];
  [0x66; 0x66; 0x66; 0x3C; 0x18; 0x18; 0x18; 0x00];
  [0x7E; 0x06; 0x0C; 0x18; 0x30; 0x60; 0x7E; 0x00];
  [0x3C; 0x30; 0x30; 0x30; 0x30; 0x30; 0x3C; 0x00];
  [0x40; 0x20; 0x10; 0x08; 0x04; 0x02; 0x01; 0x00];
  [0x3C; 0x0C; 0x0C; 0x0C; 0x0C; 0x0C; 0x3C; 0x00];
  [0x08; 0x1C; 0x36; 0x63; 0x00; 0x00; 0x00; 0x00];
  [0x00; 0x00; 0x00; 0x00; 0x00; 0x00; 0x00; 0xFF];
  [0x18; 0x18; 0x0C; 0x00; 0x00; 0x00; 0x00; 0x00];
  [0x00; 0x00; 0x3C; 0x06; 0x3E; 0x66; 0x3E; 0x00];
  [0x60; 0x60; 0x7C; 0x66; 0x66; 0x66; 0x7C; 0x00];
  [0x00; 0x00; 0x3C; 0x60; 0x60; 0x60; 0x3C; 0x00];
  [0x06; 0x06; 0x3E; 0x66; 0x66; 0x66; 0x3E; 0x00];
  [0x00; 0x00; 0x3C; 0x66; 0x7E; 0x60; 0x3C; 0x00];
  [0x1C; 0x30; 0x7E; 0x30; 0x30; 0x30; 0x30; 0x00];
  [0x00; 0x00; 0x3E; 0x66; 0x66; 0x3E; 0x06; 0x3C];
  [0x60; 0x60; 0x7C; 0x66; 0x66; 0x66; 0x66; 0x00];
  [0x18; 0x00; 0x38; 0x18; 0x18; 0x18; 0x3C; 0x00];
  [0x06; 0x00; 0x06; 0x06; 0x06; 0x66; 0x3C; 0x00];
  [0x60; 0x60; 0x6C; 0x78; 0x70; 0x6C; 0x66; 0x00];
  [0x38; 0x18; 0x18; 0x18; 0x18; 0x18; 0x3C; 0x00];
  [0x00; 0x00; 0xEC; 0x7F; 0x6B; 0x6B; 0x63; 0x00];
  [0x00; 0x00; 0x7C; 0x66; 0x66; 0x66; 0x66; 0x00];
  [0x00; 0x00; 0x3C; 0x66; 0x66; 0x66; 0x3C; 0x00];
  [0x00; 0x00; 0x7C; 0x66; 0x66; 0x7C; 0x60; 0x60];
  [0x00; 0x00; 0x3E; 0x66; 0x66; 0x3E; 0x06; 0x06];
  [0x00; 0x00; 0x7C; 0x66; 0x60; 0x60; 0x60; 0x00];
  [0x00; 0x00; 0x3C; 0x60; 0x3C; 0x06; 0x3C; 0x00];
  [0x30; 0x30; 0x7E; 0x30; 0x30; 0x30; 0x1C; 0x00];
  [0x00; 0x00; 0x66; 0x66; 0x66; 0x66; 0x3E; 0x00];
  [0x00; 0x00; 0x66; 0x66; 0x66; 0x3C; 0x18; 0x00];
  [0x00; 0x00; 0x63; 0x6B; 0x7F; 0x7F; 0x36; 0x00];
  [0x00; 0x00; 0x66; 0x3C; 0x18; 0x3C; 0x66; 0x00];
  [0x00; 0x00; 0x66; 0x66; 0x66; 0x3E; 0x06; 0x3C];
  [0x00; 0x00; 0x7E; 0x0C; 0x18; 0x30; 0x7E; 0x00];
  [0x0E; 0x18; 0x18; 0x70; 0x18; 0x18; 0x0E; 0x00];
  [0x18; 0x18; 0x18; 0x18; 0x18; 0x18; 0x18; 0x00];
  [0x70; 0x18; 0x18; 0x0E; 0x18; 0x18; 0x70; 0x00];
  [0x76; 0xDC; 0x00; 0x00; 0x00; 0x00; 0x00; 0x00];
  [0x00; 0x10; 0x38; 0x6C; 0xC6; 0xFE; 0x00; 0x00]
].

(** `self.address.add(offset).write_volatile(v)` on a `*mut u32`. *)
Definition store_pixel (fb : Framebuffer) (offset v : Z) (m : mem_t) : mem_t :=
  write_u32 m (add64 fb.(address) (mul64 4 offset)) v.

Definition draw_pixel (fb : Framebuffer) (x y : Z) (color : Color) (m : mem_t) : mem_t :=
  if (fb.(width) <=? x) || (fb.(height) <=? y) then m
  else store_pixel fb (add64 (mul64 y (fb.(pitch) / 4)) x) (to_u32 color) m.

Definition scroll_up (fb : Framebuffer) (m : mem_t) : mem_t :=
  let font_height := 8 in
  let row_bytes := fb.(pitch) in
  let bytes_to_move := mul64 (sub64 fb.(height) font_height) row_bytes in
  let dst := fb.(address) in
  let src := add64 dst (mul64 font_height row_bytes) in
  let m := ptr_copy m src dst bytes_to_move in
  write_bytes m (add64 dst bytes_to_move) 0 (mul64 font_height row_bytes).

Definition clear (fb : Framebuffer) (color : Color) (m : mem_t) : mem_t :=
  let color_val := to_u32 color in
  let row_pixels := fb.(pitch) / 4 in
  for_range 0 fb.(height) (fun y m =>
    let row_offset := mul64 y row_pixels in
    for_range 0 fb.(width) (fun x m => store_pixel fb (add64 row_offset x) color_val m) m) m.

Definition draw_rect (fb : Framebuffer) (x y w h : Z) (color : Color) (m : mem_t) : mem_t :=
  let end_x := Z.min (add64 x w) fb.(width) in
  let end_y := Z.min (add64 y h) fb.(height) in
  let start_x := Z.min x fb.(width) in
  let start_y := Z.min y fb.(height) in
  let color_val := to_u32 color in
  let row_pixels := fb.(pitch) / 4 in
  for_range start_y end_y (fun row m =>
    let row_offset := mul64 row row_pixels in
    for_range start_x end_x (fun col m => store_pixel fb (add64 row_offset col) color_val m) m) m.

Definition draw_boot_splash (fb : Framebuffer) (m : mem_t) : mem_t :=
  let m := draw_rect fb 8 8 204 54 WHITE m in
  draw_rect fb 10 10 200 50 BLUE m.

(** The two nested loops of [draw_char] over the rows and columns of a glyph. *)
Definition draw_glyph (fb : Framebuffer) (x y : Z) (glyph : list Z) (color : Color) (m : mem_t) : mem_t :=
  for_range 0 (Z.of_nat (length glyph)) (fun row_idx m =>
    let row_bits := default 0 (glyph !! Z.to_nat row_idx) in
    for_range 0 8 (fun col_idx m =>
      if bit row_bits (7 - col_idx)
      then draw_pixel fb (add64 x col_idx) (add64 y row_idx) color m else m) m) m.

Definition draw_char (fb : Framebuffer) (x y ascii : Z) (color : Color) (m : mem_t) : outcome mem_t :=
  let! glyph := index FONT_8X8 ascii in
  Returns (draw_glyph fb x y glyph color m).

Definition NL : Z := 10.
Definition CR : Z := 13.

Fixpoint draw_string_from (fb : Framebuffer) (initial_x x y : Z) (text : list Z) (color : Color)
    (m : mem_t) : outcome mem_t :=
  match text with
  | [] => Returns m
  | byte :: text' =>
      if byte =? NL then draw_string_from fb initial_x initial_x (add64 y 8) text' color m
      else if byte =? CR then draw_string_from fb initial_x initial_x y text' color m
      else
        let! m := draw_char fb x y byte color m in
        draw_string_from fb initial_x (add64 x 8) y text' color m
  end.

Definition draw_string (fb : Framebuffer) (x y : Z) (text : list Z) (color : Color) (m : mem_t) : outcome mem_t :=
  draw_string_from fb x x y text color m.

(** ** The terminal *)
Record Terminal := mkTerminal {
  fb : Framebuffer;
  cursor_x : Z;
  cursor_y : Z;
  text_color : Color;
}.

Definition Terminal_new (fb : Framebuffer) : Terminal := mkTerminal fb 0 0 WHITE.

Definition new_line (t : Terminal) (m : mem_t) : Terminal * mem_t :=
  let cursor_y := add64 t.(cursor_y) 8 in
  if t.(fb).(height) <=? cursor_y
  then (mkTerminal t.(fb) 0 (sub64 cursor_y 8) t.(text_color), scroll_up t.(fb) m)
  else (mkTerminal t.(fb) 0 cursor_y t.(text_color), m).

Definition write_byte (t : Terminal) (m : mem_t) (byte : Z) : outcome (Terminal * mem_t) :=
  if byte =? NL then Returns (new_line t m)
  else if byte =? CR then Returns (mkTerminal t.(fb) 0 t.(cursor_y) t.(text_color), m)
  else
    let '(t, m) := if t.(fb).(width) <=? t.(cursor_x) then new_line t m else (t, m) in
    let! m := draw_char t.(fb) t.(cursor_x) t.(cursor_y) byte t.(text_color) m in
    Returns (mkTerminal t.(fb) (add64 t.(cursor_x) 8) t.(cursor_y) t.(text_color), m).

Fixpoint write_str (t : Terminal) (m : mem_t) (s : list Z) : outcome (Terminal * mem_t) :=
  match s with
  | [] => Returns (t, m)
  | byte :: s' => let! tm := write_byte t m byte in write_str tm.1 tm.2 s'
  end.

(** `_print`: the pieces `write_fmt` formats are written one after the other to
    the terminal in [WRITER], if there is one. *)
Fixpoint write_fmt (t : Terminal) (m : mem_t) (pieces : list (list Z)) : outcome (Terminal * mem_t) :=
  match pieces with
  | [] => Returns (t, m)
  | s :: rest => let! tm := write_str t m s in write_fmt tm.1 tm.2 rest
  end.

Definition _print (writer : option Terminal) (m : mem_t) (pieces : list (list Z))
    : outcome (option Terminal * mem_t) :=
  match writer with
  | Some t => let! tm := write_fmt t m pieces in Returns (Some tm.1, tm.2)
  | None => Returns (None, m)
  end.

(** ** What the code must be given

    A frame buffer whose rows hold whole pixels, are at least as wide as the
    visible part, and which lies in the address space; the terminal scrolls by
    one line of text, so the screen has room for one. *)
Definition fb_ok (fb : Framebuffer) : Prop :=
  0 <= fb.(address) /\ 0 < fb.(width) < 2 ^ 63 /\ 4 * fb.(width) <= fb.(pitch) /\ fb.(pitch) mod 4 = 0 /\
  8 <= fb.(height) < 2 ^ 63 /\ fb.(address) + fb.(height) * fb.(pitch) < 2 ^ 64.

Definition on_screen (fb : Framebuffer) (x y : Z) : Prop :=
  0 <= x < fb.(width) /\ 0 <= y < fb.(height).

(** The bytes that do not belong to the frame buffer. *)
Definition outside (fb : Framebuffer) (a : Z) : Prop :=
  a < fb.(address) \/ fb.(address) + fb.(height) * fb.(pitch) <= a.

Definition pixel_addr (fb : Framebuffer) (x y : Z) : Z := fb.(address) + y * fb.(pitch) + 4 * x.
Definition pixel (fb : Framebuffer) (m : mem_t) (x y : Z) : Z := read_u32 m (pixel_addr fb x y).

(** [m'] is [m] with the visible pixels in [P] set to [v], and nothing else of
    the screen or of the rest of memory changed. *)
Definition paints (fb : Framebuffer) (v : Z) (P : Z -> Z -> bool) (m m' : mem_t) : Prop :=
  (forall x y, on_screen fb x y -> pixel fb m' x y = if P x y then v else pixel fb m x y) /\
  (forall a, outside fb a -> m' a = m a).

Lemma to_u32_fits c : color_ok c -> fits 32 (to_u32 c).
Proof.
  intros (Hr & Hg & Hb). unfold to_u32.
  apply fits_lor; [lia| |by apply (fits_mono 8)].
  apply fits_lor; [lia| |]; apply Z.mod_pos_bound; lia.
Qed.

Section Screen.
Context (fb : Framebuffer) (Hfb : fb_ok fb).

Lemma row_in_buffer y : 0 <= y < fb.(height) -> 0 <= y * fb.(pitch) <= fb.(height) * fb.(pitch) - fb.(pitch).
Proof using Hfb. destruct Hfb as (? & ? & ? & ? & ? & ?). nia. Qed.

(** The address the code computes for a visible pixel is the pixel's, without
    wrap-around. *)
Lemma store_pixel_addr v x y m :
  on_screen fb x y ->
  store_pixel fb (add64 (mul64 y (fb.(pitch) / 4)) x) v m = write_u32 m (pixel_addr fb x y) v.
Proof using Hfb.
  intros [Hx Hy]. pose proof (row_in_buffer y Hy) as Hrow.
  destruct Hfb as (? & ? & ? & Hp & ? & ?).
  assert (fb.(pitch) = 4 * (fb.(pitch) / 4)) as Hq by dlia.
  assert (4 * (y * (fb.(pitch) / 4)) = y * fb.(pitch)) as Hyq by (rewrite Hq at 2; lia).
  unfold store_pixel, pixel_addr, mul64, add64.
  rewrite (u64_small (y * _)) by (unfold fits; lia).
  rewrite (u64_small (_ + x)) by (unfold fits; lia).
  rewrite (u64_small (4 * _)) by (unfold fits; lia).
  rewrite u64_small by (unfold fits; lia). f_equal. lia.
Qed.

Lemma pixel_addr_inj x y x' y' :
  on_screen fb x y -> on_screen fb x' y' -> (x, y) <> (x', y') ->
  pixel_addr fb x y + 4 <= pixel_addr fb x' y' \/ pixel_addr fb x' y' + 4 <= pixel_addr fb x y.
Proof using Hfb.
  intros [??] [??] Hne. destruct Hfb as (? & ? & ? & _). unfold pixel_addr.
  assert (y < y' \/ y' < y \/ y = y' /\ x <> x') as [?|[?|[-> ?]]].
  { destruct (Z.lt_trichotomy y y') as [?|[->|?]]; try lia.
    right; right. split; [done|]. congruence. }
  all: nia.
Qed.

Lemma write_pixel_paints v x0 y0 m :
  fits 32 v -> on_screen fb x0 y0 ->
  paints fb v (fun x y => (x =? x0) && (y =? y0)) m (write_u32 m (pixel_addr fb x0 y0) v).
Proof using Hfb.
  intros Hv Hon. split.
  - intros x y Hxy. unfold pixel.
    destruct (Z.eqb_spec x x0) as [->|], (Z.eqb_spec y y0) as [->|]; cbn [andb];
      [by apply read_write_u32|..];
      (apply read_write_u32_other; apply pixel_addr_inj; [done..|congruence]).
  - intros a Ha. destruct Hon as [Hx Hy]. pose proof (row_in_buffer y0 Hy).
    unfold write_u32, copy_to, pixel_addr. rewrite length_to_le.
    destruct Hfb as (? & ? & ? & _). unfold outside in Ha. zcases; done.
Qed.

(** *** Composition *)
Lemma paints_refl v m : paints fb v (fun _ _ => false) m m.
Proof using. done. Qed.

Lemma paints_trans v P Q m m' m'' :
  paints fb v P m m' -> paints fb v Q m' m'' -> paints fb v (fun x y => P x y || Q x y) m m''.
Proof using.
  intros [HP HP'] [HQ HQ']. split.
  - intros x y Hxy. rewrite HQ, HP by done. by destruct (P x y), (Q x y).
  - intros a Ha. by rewrite HQ', HP'.
Qed.

Lemma paints_ext v P Q m m' :
  (forall x y, on_screen fb x y -> P x y = Q x y) -> paints fb v P m m' -> paints fb v Q m m'.
Proof using. intros HPQ [HP HP']. split; [|done]. intros. rewrite <- HPQ by done. by apply HP. Qed.

(** A loop paints what its iterations paint. *)
Lemma for_range_paints v (P : Z -> Z -> Z -> bool) a b f m :
  (forall i m, a <= i < b -> paints fb v (P i) m (f i m)) ->
  paints fb v (fun x y => existsb (fun i => P i x y) (seqZ a (b - a))) m (for_range a b f m).
Proof using.
  intros H. unfold for_range.
  assert (Forall (fun i => a <= i < b) (seqZ a (b - a))) as Hall by (apply Forall_seqZ; lia).
  revert m. induction Hall as [|i l Hi _ IH]; intros m; simpl; [apply paints_refl|].
  eapply paints_ext; [|eapply paints_trans; [by apply H|apply IH]]. done.
Qed.

Lemma existsb_seqZ (P : Z -> bool) a b :
  existsb P (seqZ a (b - a)) = true <-> exists i, a <= i < b /\ P i = true.
Proof using.
  rewrite existsb_exists. split; intros (i & Hi & HP); exists i; (split; [|done]).
  - apply list_elem_of_In, elem_of_seqZ in Hi. lia.
  - apply list_elem_of_In, elem_of_seqZ. lia.
Qed.

(** *** The drawing operations *)
Lemma draw_pixel_paints c x0 y0 m :
  color_ok c -> 0 <= x0 -> 0 <= y0 ->
  paints fb (to_u32 c) (fun x y => (x =? x0) && (y =? y0)) m (draw_pixel fb x0 y0 c m).
Proof using Hfb.
  intros Hc Hx Hy. unfold draw_pixel.
  destruct (Z.leb_spec fb.(width) x0); [|destruct (Z.leb_spec fb.(height) y0)]; cbn [orb].
  - eapply paints_ext; [|apply paints_refl]. intros x y [??]. zcases; done.
  - eapply paints_ext; [|apply paints_refl]. intros x y [??]. zcases; done.
  - rewrite store_pixel_addr by (split; lia).
    apply write_pixel_paints; [by apply to_u32_fits|split; lia].
Qed.

(** The nested loops shared by [clear] and [draw_rect]. *)
Lemma fill_paints c x0 x1 y0 y1 m :
  color_ok c -> 0 <= x0 -> x1 <= fb.(width) -> 0 <= y0 -> y1 <= fb.(height) ->
  paints fb (to_u32 c) (fun x y => (x0 <=? x) && (x <? x1) && (y0 <=? y) && (y <? y1)) m
    (for_range y0 y1 (fun row m =>
       for_range x0 x1 (fun col m =>
         store_pixel fb (add64 (mul64 row (fb.(pitch) / 4)) col) (to_u32 c) m) m) m).
Proof using Hfb.
  intros Hc ????.
  eapply paints_ext; [|apply (for_range_paints _ (fun row x y =>
    existsb (fun col => (x =? col) && (y =? row)) (seqZ x0 (x1 - x0))))].
  - intros x y _. apply eq_bool_prop_intro. rewrite !Is_true_true.
    rewrite existsb_seqZ. setoid_rewrite existsb_seqZ.
    rewrite !andb_true_iff, !Z.leb_le, !Z.ltb_lt.
    split; [intros (row & ? & col & ? & [?%Z.eqb_eq ?%Z.eqb_eq]%andb_true_iff); lia|].
    intros. exists y. split; [lia|]. exists x. split; [lia|]. by rewrite !Z.eqb_refl.
  - intros row m' Hrow. apply (for_range_paints _ (fun col x y => (x =? col) && (y =? row))).
    intros col m'' Hcol. rewrite store_pixel_addr by (split; lia).
    apply write_pixel_paints; [by apply to_u32_fits|split; lia].
Qed.

(** The bit of a glyph at column [dx] of row [dy]. *)
Definition glyph_bit (glyph : list Z) (dx dy : Z) : bool :=
  (0 <=? dx) && (dx <? 8) && (0 <=? dy) && (dy <? Z.of_nat (length glyph)) &&
  bit (default 0 (glyph !! Z.to_nat dy)) (7 - dx).

Lemma draw_glyph_paints c x0 y0 glyph m :
  color_ok c -> 0 <= x0 -> x0 + 8 <= 2 ^ 64 -> 0 <= y0 -> y0 + Z.of_nat (length glyph) <= 2 ^ 64 ->
  paints fb (to_u32 c) (fun x y => glyph_bit glyph (x - x0) (y - y0)) m (draw_glyph fb x0 y0 glyph c m).
Proof using Hfb.
  intros Hc ????. unfold draw_glyph.
  eapply paints_ext; [|apply (for_range_paints _ (fun dy x y => existsb (fun dx =>
    bit (default 0 (glyph !! Z.to_nat dy)) (7 - dx) && ((x =? x0 + dx) && (y =? y0 + dy))) (seqZ 0 (8 - 0))))].
  - intros x y _. apply eq_bool_prop_intro. rewrite !Is_true_true.
    rewrite existsb_seqZ. setoid_rewrite existsb_seqZ. unfold glyph_bit.
    rewrite !andb_true_iff, !Z.leb_le, !Z.ltb_lt. split.
    + intros (dy & ? & dx & ? & [Hbit [?%Z.eqb_eq ?%Z.eqb_eq]%andb_true_iff]%andb_true_iff).
      replace (y - y0) with dy by lia. replace (x - x0) with dx by lia. split_and!; lia || done.
    + intros ((((? & ?) & ?) & ?) & Hbit). exists (y - y0). split; [lia|]. exists (x - x0). split; [lia|].
      rewrite Hbit. apply andb_true_iff. split; [done|]. apply andb_true_iff. split; apply Z.eqb_eq; lia.
  - intros dy m' Hdy. apply for_range_paints. intros dx m'' Hdx.
    destruct (bit _ _); cbn [andb]; [|apply paints_refl].
    unfold add64. rewrite !u64_small by (unfold fits; lia). apply draw_pixel_paints; [done|lia..].
Qed.

(** *** Scrolling *)
Lemma scroll_up_pixels m x y :
  on_screen fb x y ->
  pixel fb (scroll_up fb m) x y = if y + 8 <? fb.(height) then pixel fb m x (y + 8) else 0.
Proof using Hfb.
  intros [Hx Hy]. pose proof (row_in_buffer y Hy). destruct Hfb as (? & ? & ? & ? & ? & ?).
  assert (fb.(pitch) * 8 <= fb.(height) * fb.(pitch)) by nia.
  unfold scroll_up, pixel, pixel_addr, add64, mul64, sub64.
  rewrite (u64_small (fb.(height) - 8)) by (unfold fits; lia).
  rewrite (u64_small ((fb.(height) - 8) * fb.(pitch))) by (unfold fits; lia).
  rewrite (u64_small (8 * _)) by (unfold fits; lia).
  rewrite !u64_small by (unfold fits; lia).
  destruct (Z.ltb_spec (y + 8) fb.(height)).
  - unfold read_u32. f_equal. apply map_ext_in. intros k Hk%in_seq.
    assert (y * fb.(pitch) + fb.(pitch) <= (fb.(height) - 8) * fb.(pitch)) by nia.
    unfold write_bytes, ptr_copy. zcases. f_equal. lia.
  - assert ((fb.(height) - 8) * fb.(pitch) <= y * fb.(pitch)) by nia.
    unfold read_u32. rewrite read_n_write_bytes; [apply le_bytes_zeros|lia..].
Qed.

Lemma scroll_up_outside m a : outside fb a -> scroll_up fb m a = m a.
Proof using Hfb.
  intros Ha. destruct Hfb as (? & ? & ? & ? & ? & ?).
  assert (fb.(pitch) * 8 <= fb.(height) * fb.(pitch)) by nia.
  unfold scroll_up, add64, mul64, sub64.
  rewrite (u64_small (fb.(height) - 8)) by (unfold fits; lia).
  rewrite (u64_small ((fb.(height) - 8) * fb.(pitch))) by (unfold fits; lia).
  rewrite (u64_small (8 * _)) by (unfold fits; lia).
  rewrite !u64_small by (unfold fits; lia).
  unfold outside in Ha. unfold write_bytes, ptr_copy. zcases; done.
Qed.
End Screen.

(** ** Rectangles: the clipped loops against one bounds-checked write per point *)

Definition draw_rect_by_pixels (fb : Framebuffer) (x y w h : Z) (color : Color) (m : mem_t) : mem_t :=
  for_range y (y + h) (fun row m =>
    for_range x (x + w) (fun col m => draw_pixel fb col row color m) m) m.

(** A loop whose iterations past [e] do nothing can stop at [e]. *)
Lemma for_range_clip {S} a b e (f g : Z -> S -> S) s :
  a <= b ->
  (forall i s, a <= i < b -> i < e -> f i s = g i s) ->
  (forall i s, a <= i < b -> e <= i -> f i s = s) ->
  for_range a b f s = for_range (Z.min a e) (Z.min b e) g s.
Proof.
  intros Hab Hin Hout. destruct (Z.le_gt_cases e a).
  - rewrite (Z.min_r a e), (for_range_empty (S := S) e) by lia.
    apply for_range_id. intros. apply Hout; lia.
  - rewrite (for_range_split a (Z.min b e) b) by lia. rewrite (Z.min_l a e) by lia.
    rewrite (for_range_id (Z.min b e) b) by (intros; apply Hout; lia).
    apply for_range_ext. intros. apply Hin; lia.
Qed.

(** C32: [draw_rect] clips the rectangle to the screen once and then writes pixels
    without checking; the memory it leaves is the one a checked [draw_pixel] of
    every point of the rectangle leaves, for every rectangle whose corner does not
    wrap around, on or off the screen. *)
Theorem draw_rect_per_pixel fb x y w h c m :
  0 <= x -> 0 <= y -> 0 <= w -> 0 <= h -> x + w < 2 ^ 64 -> y + h < 2 ^ 64 ->
  draw_rect fb x y w h c m = draw_rect_by_pixels fb x y w h c m.
Proof.
  intros. unfold draw_rect, draw_rect_by_pixels, add64 at 1 2.
  rewrite !(u64_small (_ + _)) by (unfold fits; lia). symmetry.
  apply for_range_clip; [lia| |].
  - intros row m' Hrow Hin. apply for_range_clip; [lia| |].
    + intros col m'' ??. unfold draw_pixel.
      by rewrite (proj2 (Z.leb_gt _ _)), (proj2 (Z.leb_gt _ _)) by lia.
    + intros col m'' ??. unfold draw_pixel. by rewrite (proj2 (Z.leb_le _ _)) by lia.
  - intros row m' Hrow Hout. apply for_range_id. intros col Hcol.
    unfold draw_pixel. rewrite (proj2 (Z.leb_le fb.(height) row)) by lia. by rewrite orb_true_r.
Qed.

Lemma draw_rect_per_pixel_witness :
  draw_rect (mkFramebuffer 0x1000 16 16 64) 10 10 20 20 RED (fun _ => 0) =
  draw_rect_by_pixels (mkFramebuffer 0x1000 16 16 64) 10 10 20 20 RED (fun _ => 0).
Proof. apply draw_rect_per_pixel; lia. Defined.

(** ** The terminal against a text console *)

(** A console knows its screen image, its size, and a cursor in text cells. *)
Record Console := mkConsole {
  image : Z -> Z -> Z;
  line : Z;
  col : Z;
}.

Section Console.
Context (w h ink : Z).

Definition console_new_line (c : Console) : Console :=
  if h <=? 8 * (c.(line) + 1)
  then mkConsole (fun x y => if y + 8 <? h then c.(image) x (y + 8) else 0) c.(line) 0
  else mkConsole c.(image) (c.(line) + 1) 0.

(** The pixel at column [x mod 8], row [y mod 8] of the glyph's cell. *)
Definition cell_bit (glyph : list Z) (x y : Z) : bool :=
  bit (default 0 (glyph !! Z.to_nat (y mod 8))) (7 - x mod 8).

Definition console_put (glyph : list Z) (c : Console) : Console :=
  mkConsole (fun x y => if (x / 8 =? c.(col)) && (y / 8 =? c.(line)) && cell_bit glyph x y
                        then ink else c.(image) x y)
    c.(line) (c.(col) + 1).

Definition console_byte (c : Console) (byte : Z) : Console :=
  if byte =? NL then console_new_line c
  else if byte =? CR then mkConsole c.(image) c.(line) 0
  else console_put (default [] (FONT_8X8 !! Z.to_nat byte))
         (if w <=? 8 * c.(col) then console_new_line c else c).
End Console.

(** The terminal invariant: the cursor is on a cell whose top row is visible and
    at most one cell past the right edge. *)
Definition terminal_ok (t : Terminal) : Prop :=
  fb_ok t.(fb) /\ color_ok t.(text_color) /\
  0 <= t.(cursor_x) < t.(fb).(width) + 8 /\ t.(cursor_x) mod 8 = 0 /\
  0 <= t.(cursor_y) < t.(fb).(height) /\ t.(cursor_y) mod 8 = 0.

(** The screen shows the console. *)
Definition shows (t : Terminal) (m : mem_t) (c : Console) : Prop :=
  t.(cursor_x) = 8 * c.(col) /\ t.(cursor_y) = 8 * c.(line) /\
  (forall x y, on_screen t.(fb) x y -> pixel t.(fb) m x y = c.(image) x y).

(** One step of the terminal: it keeps its frame buffer and colour, and the rest of memory. *)
Definition keeps (t t' : Terminal) (m m' : mem_t) : Prop :=
  t'.(fb) = t.(fb) /\ t'.(text_color) = t.(text_color) /\ (forall a, outside t.(fb) a -> m' a = m a).

Lemma term_keeps_trans t t' t'' m m' m'' : keeps t t' m m' -> keeps t' t'' m' m'' -> keeps t t'' m m''.
Proof.
  intros (Hf & Hc & Hm) (Hf' & Hc' & Hm'). split_and!; [congruence..|].
  intros a Ha. rewrite Hm', Hm; [done..|]. by rewrite Hf.
Qed.

Lemma font_glyph byte :
  0 <= byte < 128 -> exists glyph, index FONT_8X8 byte = Returns glyph /\ length glyph = 8%nat /\
    FONT_8X8 !! Z.to_nat byte = Some glyph.
Proof.
  intros Hb. assert (length FONT_8X8 = 128%nat) as Hl by reflexivity.
  destruct (lookup_lt_is_Some_2 FONT_8X8 (Z.to_nat byte)) as [glyph Hg]; [lia|].
  exists glyph. split_and!; [|..|done].
  - unfold index. rewrite Hl, Hg. zcases. done.
  - assert (Forall (fun g => length g = 8%nat) FONT_8X8) as Hall by (repeat constructor).
    exact (Forall_lookup_1 _ _ _ _ Hall Hg).
Qed.

Lemma new_line_step t m c :
  terminal_ok t -> shows t m c ->
  let '(t', m') := new_line t m in
  terminal_ok t' /\ shows t' m' (console_new_line t.(fb).(height) c) /\ keeps t t' m m' /\ t'.(cursor_x) = 0.
Proof.
  intros (Hfb & Hc & Hx & Hx8 & Hy & Hy8) (Hcol & Hline & Himg).
  pose proof Hfb as (? & ? & ? & ? & ? & ?). unfold new_line, console_new_line, add64, sub64.
  rewrite (u64_small (t.(cursor_y) + 8)) by (unfold fits; lia).
  replace (8 * (c.(line) + 1)) with (t.(cursor_y) + 8) by lia.
  destruct (Z.leb_spec t.(fb).(height) (t.(cursor_y) + 8)).
  - rewrite u64_small by (unfold fits; lia).
    replace (t.(cursor_y) + 8 - 8) with t.(cursor_y) by lia. unfold terminal_ok, shows, keeps; split_and!; cbn [fb cursor_x cursor_y text_color image line col]; try done; try lia.
    + intros x y Hxy. rewrite scroll_up_pixels by done.
      destruct (Z.ltb_spec (y + 8) t.(fb).(height)); [|done].
      apply Himg. destruct Hxy. split; lia.
    + intros a Ha. by apply scroll_up_outside.
  - unfold terminal_ok, shows, keeps; split_and!; cbn [fb cursor_x cursor_y text_color image line col]; try done; try lia. dlia.
Qed.

Lemma put_step t m c byte glyph :
  terminal_ok t -> shows t m c -> t.(cursor_x) < t.(fb).(width) ->
  index FONT_8X8 byte = Returns glyph -> length glyph = 8%nat ->
  exists t' m', (let! m := draw_char t.(fb) t.(cursor_x) t.(cursor_y) byte t.(text_color) m in
                 Returns (mkTerminal t.(fb) (add64 t.(cursor_x) 8) t.(cursor_y) t.(text_color), m))
                = Returns (t', m') /\
    terminal_ok t' /\ shows t' m' (console_put (to_u32 t.(text_color)) glyph c) /\ keeps t t' m m'.
Proof.
  intros (Hfb & Hc & Hx & Hx8 & Hy & Hy8) (Hcol & Hline & Himg) Hlt Hi Hlen.
  pose proof Hfb as (? & ? & ? & ? & ? & ?). unfold draw_char, add64.
  rewrite Hi. cbn [outcome_bind]. rewrite u64_small by (unfold fits; lia).
  destruct (draw_glyph_paints t.(fb) Hfb t.(text_color) t.(cursor_x) t.(cursor_y) glyph m) as [Hpix Hout];
    [done|lia..|].
  do 2 eexists. split; [done|]. unfold terminal_ok, shows, keeps, console_put; split_and!; cbn [fb cursor_x cursor_y text_color image line col]; try done; try lia; try dlia.
  intros x y Hxy. rewrite Hpix by done. rewrite Himg by done.
  replace (glyph_bit glyph (x - t.(cursor_x)) (y - t.(cursor_y)))
    with ((x / 8 =? c.(col)) && (y / 8 =? c.(line)) && cell_bit glyph x y); [done|].
  unfold glyph_bit, cell_bit. rewrite Hlen, Hcol, Hline. destruct Hxy as [??].
  destruct (Z.eqb_spec (x / 8) c.(col)); cbn [andb]; [|zcases; try done; dlia].
  destruct (Z.eqb_spec (y / 8) c.(line)); cbn [andb]; [|zcases; try done; dlia].
  replace (x - 8 * c.(col)) with (x mod 8) by dlia. replace (y - 8 * c.(line)) with (y mod 8) by dlia.
  pose proof (Z.mod_pos_bound x 8 ltac:(lia)). pose proof (Z.mod_pos_bound y 8 ltac:(lia)).
  zcases; done.
Qed.

Lemma write_byte_step t m c byte :
  terminal_ok t -> shows t m c -> 0 <= byte < 128 ->
  exists t' m', write_byte t m byte = Returns (t', m') /\ terminal_ok t' /\
    shows t' m' (console_byte t.(fb).(width) t.(fb).(height) (to_u32 t.(text_color)) c byte) /\ keeps t t' m m'.
Proof.
  intros Ht Hs Hb. unfold write_byte, console_byte.
  pose proof (new_line_step t m c Ht Hs) as Hnl. destruct (new_line t m) as [t1 m1].
  destruct Hnl as (Ht1 & Hs1 & Hk1 & Hx1).
  destruct (byte =? NL); [by exists t1, m1|].
  destruct (byte =? CR).
  { eexists _, m. split; [done|]. destruct Ht as (Hfb & Hc & ? & ? & ? & ?), Hs as (? & ? & ?).
    pose proof Hfb as (? & ? & ? & ? & ? & ?). unfold terminal_ok, shows, keeps. split_and!; cbn [fb cursor_x cursor_y text_color image line col]; try done; lia. }
  destruct (font_glyph byte Hb) as (glyph & Hi & Hlen & Hg). rewrite Hg. cbn [default from_option].
  replace (8 * c.(col)) with t.(cursor_x) by apply Hs.
  destruct (Z.leb_spec t.(fb).(width) t.(cursor_x)) as [Hw|Hw].
  - destruct Hk1 as (Hf & Hc & Hm).
    destruct (put_step t1 m1 _ byte glyph Ht1 Hs1) as (t' & m' & E & Ht' & Hs' & Hk'); [|done..|].
    { rewrite Hx1. destruct Ht1 as ((? & ? & _) & _). lia. }
    rewrite Hc in Hs'. exists t', m'. split_and!; try done.
    by apply (term_keeps_trans _ t1 _ _ m1).
  - destruct (put_step t m c byte glyph) as (t' & m' & E & Ht' & Hs' & Hk'); [done..|].
    by exists t', m'.
Qed.

Lemma write_str_step t m c s :
  terminal_ok t -> shows t m c -> Forall (fun byte => 0 <= byte < 128) s ->
  exists t' m', write_str t m s = Returns (t', m') /\ terminal_ok t' /\
    shows t' m' (foldl (console_byte t.(fb).(width) t.(fb).(height) (to_u32 t.(text_color))) c s) /\
    keeps t t' m m'.
Proof.
  intros Ht Hs Hall. revert t m c Ht Hs. induction Hall as [|byte s Hb _ IH]; intros t m c Ht Hs.
  - by exists t, m.
  - destruct (write_byte_step t m c byte Ht Hs Hb) as (t1 & m1 & E & Ht1 & Hs1 & Hk1).
    destruct (IH t1 m1 _ Ht1 Hs1) as (t' & m' & E' & Ht' & Hs' & Hk').
    exists t', m'. simpl. rewrite E. cbn [outcome_bind fst snd]. split_and!; try done.
    + destruct Hk1 as (Hf & Hc & _). by rewrite Hf, Hc in Hs'.
    + by apply (term_keeps_trans _ t1 _ _ m1).
Qed.

(** What `write_fmt` writes piece by piece is the text of the pieces together. *)
Lemma write_fmt_concat t m pieces : write_fmt t m pieces = write_str t m (concat pieces).
Proof.
  revert t m. induction pieces as [|p ps IH]; intros t m; [done|]. cbn [write_fmt concat].
  transitivity (let! tm := write_str t m p in write_str tm.1 tm.2 (concat ps)).
  - destruct (write_str t m p) as [[t1 m1]|]; [apply IH|done].
  - clear IH. revert t m. induction p as [|b p IH]; intros t m; [done|]. cbn [app write_str].
    destruct (write_byte t m b) as [[t1 m1]|]; [apply IH|done].
Qed.

(** Text drawn at a position stays inside the frame buffer. *)
Lemma draw_string_confined fb text color : forall x0 x y m,
  fb_ok fb -> color_ok color -> Forall (fun byte => 0 <= byte < 128) text ->
  0 <= x0 -> 0 <= x -> 0 <= y -> x0 + 8 * Z.of_nat (length text) < 2 ^ 63 -> x + 8 * Z.of_nat (length text) < 2 ^ 63 ->
  y + 8 * Z.of_nat (length text) < 2 ^ 63 ->
  exists m', draw_string_from fb x0 x y text color m = Returns m' /\ forall a, outside fb a -> m' a = m a.
Proof.
  induction text as [|b text IH]; intros x0 x y m Hfb Hc Ha ? ? ? ? ? ?; [by exists m|].
  apply Forall_cons in Ha as [Hb Ha]. cbn [draw_string_from length] in *.
  destruct (b =? NL). { unfold add64. rewrite u64_small by (unfold fits; lia). apply IH; (done || lia). }
  destruct (b =? CR). { apply IH; (done || lia). }
  destruct (font_glyph b Hb) as (glyph & Hi & Hlen & _). unfold draw_char. rewrite Hi. cbn [outcome_bind].
  destruct (draw_glyph_paints fb Hfb color x y glyph m Hc) as [_ Hout]; [lia..|].
  unfold add64. rewrite u64_small by (unfold fits; lia).
  destruct (IH x0 (x + 8) y (draw_glyph fb x y glyph color m)) as (m' & E & Hm'); [done || lia..|].
  exists m'. split; [done|]. intros a Ho. by rewrite Hm', Hout.
Qed.

(** C15: Writing ASCII text to the terminal is writing it to a text console: from a
    screen that shows the console, the code returns, keeps the cursor invariant,
    leaves a screen that shows the console after the same text (glyphs drawn in
    their cells, lines wrapped at the right edge, everything moved up one line and
    a black line added at the bottom), and touches no memory but the frame buffer's. *)
Theorem terminal_refines_console t m c s :
  terminal_ok t -> shows t m c -> Forall (fun byte => 0 <= byte < 128) s ->
  exists t' m', write_str t m s = Returns (t', m') /\ terminal_ok t' /\
    shows t' m' (foldl (console_byte t.(fb).(width) t.(fb).(height) (to_u32 t.(text_color))) c s) /\
    keeps t t' m m'.
Proof. apply write_str_step. Qed.

Definition demo_fb : Framebuffer := mkFramebuffer 0x1000 16 16 64.
Definition demo_terminal : Terminal := Terminal_new demo_fb.
Definition demo_console : Console := mkConsole (fun _ _ => 0) 0 0.

Lemma demo_terminal_ok : terminal_ok demo_terminal.
Proof. unfold terminal_ok, fb_ok, color_ok, fits. repeat split; vm_compute; congruence. Qed.

Lemma demo_shows : shows demo_terminal (fun _ => 0) demo_console.
Proof. split_and!; [done..|]. intros. reflexivity. Qed.

Lemma terminal_refines_console_witness :
  exists t' m', write_str demo_terminal (fun _ => 0) (bytes_of "ok: wraps") = Returns (t', m') /\ terminal_ok t' /\
    shows t' m' (foldl (console_byte 16 16 0xFFFFFF) demo_console (bytes_of "ok: wraps")) /\
    keeps demo_terminal t' (fun _ => 0) m'.
Proof.
  apply (terminal_refines_console demo_terminal); [apply demo_terminal_ok|apply demo_shows|].
  repeat (constructor; [vm_compute; split; congruence|]). constructor.
Defined.

(** The console that shows what is on the screen. *)
Definition console_of (t : Terminal) (m : mem_t) : Console :=
  mkConsole (pixel t.(fb) m) (t.(cursor_y) / 8) (t.(cursor_x) / 8).

Lemma shows_console_of t m : terminal_ok t -> shows t m (console_of t m).
Proof. intros (_ & _ & ? & ? & ? & ?). unfold shows. split_and!; cbn [col line console_of image]; [dlia..|done]. Qed.

Lemma write_byte_non_ascii t m byte : 128 <= byte -> write_byte t m byte = Panics.
Proof.
  intros. unfold write_byte. rewrite !(proj2 (Z.eqb_neq _ _)) by (unfold NL, CR; lia).
  destruct (if width (fb t) <=? cursor_x t then new_line t m else (t, m)) as [t' m']. unfold draw_char, index.
  change (Z.of_nat (length FONT_8X8)) with 128. by rewrite (proj2 (Z.ltb_ge _ _)), andb_false_r by lia.
Qed.

(** Whatever bytes are printed, the terminal stays inside the frame buffer:
    from a well-formed terminal, text returns exactly when all of it is ASCII, and
    then the cursor invariant holds and no byte outside the frame buffer has
    changed; one byte from 0x80 up indexes the font out of range and panics. *)
Theorem terminal_confined t m s :
  terminal_ok t -> bytes_ok s ->
  match write_str t m s with
  | Returns (t', m') => Forall (fun byte => byte < 128) s /\ terminal_ok t' /\ keeps t t' m m'
  | Panics => Exists (fun byte => 128 <= byte) s
  end.
Proof.
  intros Ht Hs. revert t m Ht. induction Hs as [|byte s [Hb _] _ IH]; intros t m Ht; simpl.
  { split_and!; [done..|]. unfold keeps. done. }
  destruct (Z.le_gt_cases 128 byte) as [Hge|Hlt].
  - rewrite write_byte_non_ascii by done. by left.
  - destruct (write_byte_step t m (console_of t m) byte) as (t1 & m1 & -> & Ht1 & _ & Hk);
      [done|by apply shows_console_of|lia|]. cbn [outcome_bind fst snd].
    specialize (IH t1 m1 Ht1). destruct (write_str t1 m1 s) as [[t' m']|]; [|by right].
    destruct IH as (? & ? & ?). split_and!; [by constructor|done|by apply (term_keeps_trans _ t1 _ _ m1)].
Qed.

Lemma terminal_confined_witness :
  match write_str demo_terminal (fun _ => 0) [65; 200] with
  | Returns (t', m') => Forall (fun byte => byte < 128) [65; 200] /\ terminal_ok t' /\
                        keeps demo_terminal t' (fun _ => 0) m'
  | Panics => Exists (fun byte => 128 <= byte) [65; 200]
  end.
Proof.
  apply terminal_confined; [apply demo_terminal_ok|]. repeat (constructor; [unfold fits; lia|]). constructor.
Defined.
