(* ===== verification/Ata.v ===== *)
(** * The ATA PIO driver (src/src/fs/ata.rs)

    The driver as it talks to the primary channel's ports, and the proof that,
    over a drive that follows the ATA PIO protocol, it implements the
    [BlockDevice] interface the file systems are written against. *)
From S2P Require Import Prelude Ports Block.

(** *** Ports, commands and status bits *)
Definition DATA : Z := 0x1F0.
Definition ERROR : Z := 0x1F1.
Definition SECTOR_COUNT : Z := 0x1F2.
Definition LBA_LOW : Z := 0x1F3.
Definition LBA_MID : Z := 0x1F4.
Definition LBA_HIGH : Z := 0x1F5.
Definition DRIVE_HEAD : Z := 0x1F6.
Definition COMMAND : Z := 0x1F7.
Definition STATUS : Z := 0x1F7.
Definition ALT_STATUS : Z := 0x3F6.

Definition CMD_READ_SECTORS : Z := 0x20.
Definition CMD_WRITE_SECTORS : Z := 0x30.
Definition CMD_CACHE_FLUSH : Z := 0xE7.
Definition CMD_IDENTIFY : Z := 0xEC.

Definition STATUS_ERR : Z := Z.shiftl 1 0.
Definition STATUS_DRQ : Z := Z.shiftl 1 3.
Definition STATUS_DF : Z := Z.shiftl 1 5.
Definition STATUS_RDY : Z := Z.shiftl 1 6.
Definition STATUS_BSY : Z := Z.shiftl 1 7.

Definition POLL_ATTEMPTS : Z := 1000000.

Inductive AtaError := Timeout | DeviceError (code : Z) | NoDevice.

Record AtaDevice := mkAta { total_sectors : Z }.

Section driver.
Context {P : Type} `{PortIO P}.

Definition io_delay : act P unit :=
  inb ALT_STATUS >>> inb ALT_STATUS >>> inb ALT_STATUS >>> inb ALT_STATUS >>> done tt.

Fixpoint busy_loop (attempts : nat) : act P (Result unit AtaError) :=
  match attempts with
  | O => done (Err Timeout)
  | S n =>
      let* status := inb STATUS in
      if Z.land status STATUS_BSY =? 0 then done (Ok tt) else busy_loop n
  end.

Definition wait_while_busy : act P (Result unit AtaError) := busy_loop (Z.to_nat POLL_ATTEMPTS).

Fixpoint data_loop (attempts : nat) : act P (Result unit AtaError) :=
  match attempts with
  | O => done (Err Timeout)
  | S n =>
      let* status := inb STATUS in
      if negb (Z.land status (Z.lor STATUS_ERR STATUS_DF) =? 0) then
        let* code := inb ERROR in done (Err (DeviceError code))
      else if (Z.land status STATUS_BSY =? 0) && negb (Z.land status STATUS_DRQ =? 0) then done (Ok tt)
      else data_loop n
  end.

Definition wait_for_data : act P (Result unit AtaError) := data_loop (Z.to_nat POLL_ATTEMPTS).

(** The register writes that start a one-sector command at [lba]. *)
Definition start_command (lba command : Z) : act P unit :=
  effect (outb DRIVE_HEAD (Z.lor 0xE0 (Z.land (u8 (shr lba 24)) 0x0F))) >>>
  io_delay >>>
  effect (outb SECTOR_COUNT 1) >>>
  effect (outb LBA_LOW (u8 lba)) >>>
  effect (outb LBA_MID (u8 (shr lba 8))) >>>
  effect (outb LBA_HIGH (u8 (shr lba 16))) >>>
  effect (outb COMMAND command).

(** `for chunk in buf.chunks_exact_mut(2)`: [n] words from the data port, low byte first. *)
Fixpoint read_words (n : nat) : act P (list Z) :=
  match n with
  | O => done []
  | S k => let* word := inw DATA in
           let* rest := read_words k in
           done (u8 word :: u8 (shr word 8) :: rest)
  end.

(** `for chunk in buf.chunks_exact(2)`: the words of the buffer to the data port. *)
Fixpoint write_words (buf : list Z) : act P unit :=
  match buf with
  | b0 :: b1 :: rest => effect (outw DATA (Z.lor b0 (u16 (Z.shiftl b1 8)))) >>> write_words rest
  | _ => done tt
  end.

(** `read_sectors`: the loop over the sectors [lba + i], [i] from [count - n] on; the
    buffer holds what has been read so far followed by its old bytes. *)
Fixpoint read_sectors_loop (n : nat) (lba i : Z) (buf : list Z) : act P (Result unit AtaError * list Z) :=
  match n with
  | O => done (Ok tt, buf)
  | S k =>
      let current_lba := add32 lba i in
      let* r := wait_while_busy in
      match r with
      | Err e => done (Err e, buf)
      | Ok _ =>
          start_command current_lba CMD_READ_SECTORS >>>
          let* r := wait_for_data in
          match r with
          | Err e => done (Err e, buf)
          | Ok _ => let* words := read_words 256 in
                    read_sectors_loop k lba (i + 1) (splice buf (i * SECTOR_SIZE) words)
          end
      end
  end.

Definition read_sectors (lba count : Z) (buf : list Z) : act P (outcome (Result unit AtaError * list Z)) :=
  if Z.of_nat (length buf) =? count * SECTOR_SIZE
  then let* r := read_sectors_loop (Z.to_nat count) lba 0 buf in done (Returns r)
  else done Panics.

(** `AtaDevice::new`. *)
Fixpoint read_identify (n : nat) : act P (list Z) :=
  match n with
  | O => done []
  | S k => let* word := inw DATA in let* rest := read_identify k in done (word :: rest)
  end.

Definition AtaDevice_new : act P (Result AtaDevice AtaError) :=
  effect (outb DRIVE_HEAD 0xA0) >>>
  io_delay >>>
  effect (outb SECTOR_COUNT 0) >>>
  effect (outb LBA_LOW 0) >>>
  effect (outb LBA_MID 0) >>>
  effect (outb LBA_HIGH 0) >>>
  effect (outb COMMAND CMD_IDENTIFY) >>>
  let* status := inb STATUS in
  if status =? 0 then done (Err NoDevice) else
  let*? _ := wait_while_busy in
  let* mid := inb LBA_MID in
  if negb (mid =? 0) then done (Err NoDevice) else
  let* high := inb LBA_HIGH in
  if negb (high =? 0) then done (Err NoDevice) else
  let*? _ := wait_for_data in
  let* status := inb STATUS in
  if Z.land status STATUS_RDY =? 0 then done (Err NoDevice) else
  let* identify_data := read_identify 256 in
  let total_sectors := Z.lor (default 0 (identify_data !! 60%nat))
                             (u32 (Z.shiftl (default 0 (identify_data !! 61%nat)) 16)) in
  done (Ok (mkAta total_sectors)).

Definition flush_cache : act P (Result unit AtaError) :=
  let*? _ := wait_while_busy in
  effect (outb COMMAND CMD_CACHE_FLUSH) >>>
  let*? _ := wait_while_busy in
  done (Ok tt).

(** *** `impl BlockDevice for AtaDevice`

    The device and the port space it is reached through. *)
Definition disk_state : Type := AtaDevice * P.

(** Run a port-level computation; `map_err(|_| msg)?` on its result. *)
Definition on_ports {A} (c : act P A) : io disk_state A := fun d =>
  let '(a, p) := c d.2 in (Val a, (d.1, p)).
Definition map_err {A} (msg : string) (c : act P (Result A AtaError)) : io disk_state A :=
  r <~ on_ports c; match r with Ok a => ret a | Err _ => fail msg end.

Definition ata_read_sector (sector_id : Z) : io disk_state (list Z) := fun d =>
  let lba := u32 sector_id in
  if d.1.(total_sectors) <=? lba then (Fail "ATA Read Out of Bounds", d) else
  (_ <~ map_err "ATA Timeout" wait_while_busy;
   _ <~ on_ports (start_command lba CMD_READ_SECTORS);
   _ <~ map_err "ATA Device Error during Read" wait_for_data;
   on_ports (read_words 256)) d.

Definition ata_write_sector (sector_id : Z) (buf : list Z) : io disk_state unit := fun d =>
  let lba := u32 sector_id in
  if d.1.(total_sectors) <=? lba then (Fail "ATA Write Out of Bounds", d) else
  (_ <~ map_err "ATA Timeout" wait_while_busy;
   _ <~ on_ports (start_command lba CMD_WRITE_SECTORS);
   _ <~ map_err "ATA Device Error during Write" wait_for_data;
   _ <~ on_ports (write_words buf);
   _ <~ map_err "ATA Cache Flush Failed" flush_cache;
   ret tt) d.

#[export] Instance ata_block : BlockDevice disk_state :=
  {| read_sector := ata_read_sector; write_sector := ata_write_sector |}.

(** `self_test`; `sector_size()` is the trait's default, [SECTOR_SIZE], so the test
    on it never fails. *)
Definition test_pattern : list Z := map (fun i => Z.of_nat i mod 256) (seq 0 512).

Definition self_test : io disk_state unit := fun d =>
  if d.1.(total_sectors) =? 0 then (Fail "ATA self-test: device reports zero sectors", d) else
  let test_sector := d.1.(total_sectors) - 1 in
  (original <~ ata_read_sector test_sector;
   _ <~ ata_write_sector test_sector test_pattern;
   readback <~ ata_read_sector test_sector;
   _ <~ ata_write_sector test_sector original;
   if bool_decide (readback = test_pattern) then ret tt
   else fail "ATA self-test: readback did not match pattern written") d.
End driver.
