(* ===== verification/AtaCorrect.v ===== *)
(** * The ATA driver over a drive that follows the protocol

    The drive is a parameter: a port space with an abstract [Drive] behind it and
    the transitions the ATA PIO protocol documents, as the laws of a class.  Over
    any such drive the driver implements [BlockDeviceLaws], so what is proved of
    the MBR reader and of FAT32 against that interface holds of a file system on
    an ATA disk. *)
From S2P Require Import Prelude Ports Block Ata.

(** ** The drive as the protocol sees it *)
Inductive Phase :=
| Idle
| Busy (n : nat) (next : Phase)
| DataIn (words : list Z)
| DataOut (lba : Z) (taken : list Z).

Record Drive := mkDrive {
  reg_count : Z; reg_low : Z; reg_mid : Z; reg_high : Z; reg_head : Z;
  phase : Phase;
  disk : Z -> option (list Z);
  identify : list Z;
}.

Definition set_phase (ph : Phase) (d : Drive) : Drive :=
  mkDrive (reg_count d) (reg_low d) (reg_mid d) (reg_high d) (reg_head d) ph (disk d) (identify d).
Definition set_disk (f : Z -> option (list Z)) (d : Drive) : Drive :=
  mkDrive (reg_count d) (reg_low d) (reg_mid d) (reg_high d) (reg_head d) (phase d) f (identify d).

(** A task-file register keeps what was written to it. *)
Definition latch (port v : Z) (d : Drive) : Drive :=
  mkDrive (if port =? SECTOR_COUNT then v else reg_count d)
    (if port =? LBA_LOW then v else reg_low d) (if port =? LBA_MID then v else reg_mid d)
    (if port =? LBA_HIGH then v else reg_high d) (if port =? DRIVE_HEAD then v else reg_head d)
    (phase d) (disk d) (identify d).

(** The 28-bit address in the task file. *)
Definition address (d : Drive) : Z :=
  reg_low d + 2 ^ 8 * reg_mid d + 2 ^ 16 * reg_high d + 2 ^ 24 * (reg_head d mod 16).

(** [n] more polls answer `BSY`, then the drive is in [next]. *)
Definition busy (n : nat) (next : Phase) : Phase := match n with O => next | S k => Busy k next end.

(** The 16-bit words of a sector, low byte first, and back. *)
Fixpoint to_words (bs : list Z) : list Z :=
  match bs with b0 :: b1 :: rest => b0 + 256 * b1 :: to_words rest | _ => [] end.
Fixpoint of_words (ws : list Z) : list Z :=
  match ws with [] => [] | w :: rest => w mod 256 :: w / 256 :: of_words rest end.

Definition data_phase (words : list Z) : Phase := match words with [] => Idle | _ => DataIn words end.

(** The status register while the drive is neither busy nor failing. *)
Definition quiet (v : Z) : Prop := Z.land v STATUS_BSY = 0 /\ Z.land v (Z.lor STATUS_ERR STATUS_DF) = 0.

Class AtaDrive (P : Type) `{PortIO P} := {
  drive : P -> Drive;
  (** how many polls of the status register a command may keep the drive busy *)
  max_busy : nat;
  max_busy_ok : Z.of_nat max_busy < POLL_ATTEMPTS;
  ata_latch : forall p port v,
    port ∈ [SECTOR_COUNT; LBA_LOW; LBA_MID; LBA_HIGH; DRIVE_HEAD] -> phase (drive p) = Idle ->
    drive (outb port v p) = latch port v (drive p);
  ata_alt_status : forall p, drive (inb ALT_STATUS p).2 = drive p;
  ata_register : forall p, (inb LBA_MID p).1 = reg_mid (drive p) /\ drive (inb LBA_MID p).2 = drive p /\
    (inb LBA_HIGH p).1 = reg_high (drive p) /\ drive (inb LBA_HIGH p).2 = drive p;
  ata_status_busy : forall p n next, phase (drive p) = Busy n next ->
    Z.land (inb STATUS p).1 STATUS_BSY <> 0 /\ Z.land (inb STATUS p).1 (Z.lor STATUS_ERR STATUS_DF) = 0 /\
    drive (inb STATUS p).2 = set_phase (busy n next) (drive p);
  ata_status_idle : forall p, phase (drive p) = Idle ->
    quiet (inb STATUS p).1 /\ drive (inb STATUS p).2 = drive p;
  ata_status_data : forall p, (exists ws, phase (drive p) = DataIn ws) \/ (exists l ws, phase (drive p) = DataOut l ws) ->
    quiet (inb STATUS p).1 /\ Z.land (inb STATUS p).1 STATUS_DRQ <> 0 /\ Z.land (inb STATUS p).1 STATUS_RDY <> 0 /\
    drive (inb STATUS p).2 = drive p;
  ata_command_read : forall p b, phase (drive p) = Idle ->
    reg_count (drive p) = 1 -> Z.land (reg_head (drive p)) 0xF0 = 0xE0 -> disk (drive p) (address (drive p)) = Some b ->
    exists n, (n <= max_busy)%nat /\
      drive (outb COMMAND CMD_READ_SECTORS p) = set_phase (busy n (DataIn (to_words b))) (drive p);
  ata_command_write : forall p b, phase (drive p) = Idle ->
    reg_count (drive p) = 1 -> Z.land (reg_head (drive p)) 0xF0 = 0xE0 -> disk (drive p) (address (drive p)) = Some b ->
    exists n, (n <= max_busy)%nat /\
      drive (outb COMMAND CMD_WRITE_SECTORS p) = set_phase (busy n (DataOut (address (drive p)) [])) (drive p);
  ata_command_flush : forall p, phase (drive p) = Idle ->
    exists n, (n <= max_busy)%nat /\ drive (outb COMMAND CMD_CACHE_FLUSH p) = set_phase (busy n Idle) (drive p);
  ata_command_identify : forall p, phase (drive p) = Idle ->
    exists n, (n <= max_busy)%nat /\
      drive (outb COMMAND CMD_IDENTIFY p) = set_phase (busy n (DataIn (identify (drive p)))) (drive p);
  ata_data_in : forall p w ws, phase (drive p) = DataIn (w :: ws) ->
    (inw DATA p).1 = w /\ drive (inw DATA p).2 = set_phase (data_phase ws) (drive p);
  ata_data_out : forall p l ws w, phase (drive p) = DataOut l ws -> (length ws < 255)%nat ->
    drive (outw DATA w p) = set_phase (DataOut l (ws ++ [w])) (drive p);
  ata_data_out_last : forall p l ws w, phase (drive p) = DataOut l ws -> length ws = 255%nat ->
    exists n, (n <= max_busy)%nat /\
      drive (outw DATA w p) = set_phase (busy n Idle)
        (set_disk (fun i => if decide (i = l) then Some (of_words (ws ++ [w])) else disk (drive p) i) (drive p))
}.

(** ** Driving the protocol *)
Definition not_busy (ph : Phase) : Prop := forall n next, ph <> Busy n next.

Lemma set_phase_at d ph : phase d = ph -> set_phase ph d = d.
Proof. by destruct d; intros <-. Qed.

Section protocol.
Context {P : Type} `{HD : AtaDrive P}.

Lemma status_ready p : not_busy (phase (drive p)) ->
  quiet (inb STATUS p).1 /\ drive (inb STATUS p).2 = drive p.
Proof.
  intros Hn. destruct (phase (drive p)) as [|n next|ws|l ws] eqn:E.
  - by apply ata_status_idle.
  - by destruct (Hn n next).
  - destruct (ata_status_data p) as (? & _ & _ & ?); [by left; exists ws|done].
  - destruct (ata_status_data p) as (? & _ & _ & ?); [by right; exists l, ws|done].
Qed.

(** A wait started while the drive is busy for [k] more polls ends in the phase that follows. *)
Lemma busy_loop_ready k n p next :
  (k < n)%nat -> phase (drive p) = busy k next -> not_busy next ->
  exists p', busy_loop n p = (Ok tt, p') /\ drive p' = set_phase next (drive p).
Proof.
  revert k p. induction n as [|n IH]; intros k p Hk Hp Hn; [lia|].
  cbn [busy_loop]. unfold act_bind. destruct k as [|k]; cbn [busy] in Hp.
  - destruct (status_ready p) as [[Hb _] Hd]; [by rewrite Hp|]. destruct (inb STATUS p) as [v p'].
    cbn [fst snd] in *. rewrite Hb. exists p'. split; [done|]. rewrite Hd. by rewrite set_phase_at.
  - destruct (ata_status_busy p k next Hp) as (Hb & _ & Hd). destruct (inb STATUS p) as [v p'].
    cbn [fst snd] in *. rewrite (proj2 (Z.eqb_neq _ _) Hb).
    destruct (IH k p') as (p'' & -> & Hd'); [lia|by rewrite Hd|done|]. exists p''. by rewrite Hd', Hd.
Qed.

Lemma data_loop_ready k n p next :
  (k < n)%nat -> phase (drive p) = busy k next ->
  (exists ws, next = DataIn ws) \/ (exists l ws, next = DataOut l ws) ->
  exists p', data_loop n p = (Ok tt, p') /\ drive p' = set_phase next (drive p).
Proof.
  revert k p. induction n as [|n IH]; intros k p Hk Hp Hn; [lia|].
  cbn [data_loop]. unfold act_bind. destruct k as [|k]; cbn [busy] in Hp.
  - destruct (ata_status_data p) as ([Hb He] & Hdrq & _ & Hd).
    { destruct Hn as [[ws ->]|(l & ws & ->)]; [by left; exists ws|by right; exists l, ws]. }
    destruct (inb STATUS p) as [v p']. cbn [fst snd] in *.
    rewrite He, Hb. cbn [Z.eqb negb]. rewrite (proj2 (Z.eqb_neq _ _) Hdrq). cbn [andb negb].
    exists p'. split; [done|]. rewrite Hd. by rewrite set_phase_at.
  - destruct (ata_status_busy p k next Hp) as (Hb & He & Hd). destruct (inb STATUS p) as [v p'].
    cbn [fst snd] in *. rewrite He. cbn [Z.eqb negb]. rewrite (proj2 (Z.eqb_neq _ _) Hb). cbn [andb].
    destruct (IH k p') as (p'' & -> & Hd'); [lia|by rewrite Hd|done|]. exists p''. by rewrite Hd', Hd.
Qed.

Lemma wait_while_busy_ready k p next :
  (k <= max_busy)%nat -> phase (drive p) = busy k next -> not_busy next ->
  exists p', wait_while_busy p = (Ok tt, p') /\ drive p' = set_phase next (drive p).
Proof. intros. pose proof max_busy_ok. apply (busy_loop_ready k); [lia|done..]. Qed.

Lemma wait_for_data_ready k p next :
  (k <= max_busy)%nat -> phase (drive p) = busy k next ->
  (exists ws, next = DataIn ws) \/ (exists l ws, next = DataOut l ws) ->
  exists p', wait_for_data p = (Ok tt, p') /\ drive p' = set_phase next (drive p).
Proof. intros. pose proof max_busy_ok. apply (data_loop_ready k); [lia|done..]. Qed.

(** An idle drive does not make the driver wait. *)
Lemma wait_while_busy_idle p :
  phase (drive p) = Idle -> exists p', wait_while_busy p = (Ok tt, p') /\ drive p' = drive p.
Proof.
  intros Hp. destruct (wait_while_busy_ready 0 p Idle) as (p' & E & Hd); [lia|done|done|].
  exists p'. split; [done|]. rewrite Hd. by apply set_phase_at.
Qed.

Lemma io_delay_keeps p : exists p', io_delay p = (tt, p') /\ drive p' = drive p.
Proof.
  unfold io_delay, act_bind, done.
  repeat match goal with |- context [inb ALT_STATUS ?q] =>
    let E := fresh in let v := fresh in let q' := fresh "q" in
    pose proof (ata_alt_status q) as E; destruct (inb ALT_STATUS q) as [v q']; cbn [snd] in E end.
  eexists. split; [done|]. congruence.
Qed.

(** The task file after the register writes that precede a command. *)
Record loaded (lba : Z) (d d' : Drive) : Prop := {
  loaded_phase : phase d' = Idle;
  loaded_count : reg_count d' = 1;
  loaded_head : Z.land (reg_head d') 0xF0 = 0xE0;
  loaded_addr : address d' = lba;
  loaded_disk : disk d' = disk d;
  loaded_id : identify d' = identify d;
}.

Lemma head_bits x : 0 <= x < 16 -> Z.land (Z.lor 0xE0 x) 0xF0 = 0xE0 /\ (Z.lor 0xE0 x) mod 16 = x.
Proof.
  revert x. apply range_forall. vm_compute. repeat constructor.
Qed.

Lemma lba_split lba : 0 <= lba < 2 ^ 28 ->
  u8 lba + 2 ^ 8 * u8 (shr lba 8) + 2 ^ 16 * u8 (shr lba 16) + 2 ^ 24 * Z.land (u8 (shr lba 24)) 0x0F = lba /\
  0 <= Z.land (u8 (shr lba 24)) 0x0F < 16.
Proof.
  intros. unfold u8, wrap, shr. rewrite !Z.shiftr_div_pow2 by lia.
  change 0x0F with (Z.ones 4). rewrite Z.land_ones by lia. split; dlia.
Qed.

Lemma start_command_loads lba command p :
  0 <= lba < 2 ^ 28 -> phase (drive p) = Idle ->
  exists p', start_command lba command p = (tt, outb COMMAND command p') /\ loaded lba (drive p) (drive p').
Proof.
  intros Hl Hp. destruct (lba_split lba Hl) as [Hsum Hhi]. destruct (head_bits _ Hhi) as [Hm Hn].
  unfold start_command, act_bind, effect.
  assert (forall q port v, port ∈ [SECTOR_COUNT; LBA_LOW; LBA_MID; LBA_HIGH; DRIVE_HEAD] ->
    phase (drive q) = Idle -> drive (outb port v q) = latch port v (drive q) /\
    phase (drive (outb port v q)) = Idle) as Hlatch.
  { intros q port v Hin Hq. rewrite (ata_latch q port v Hin Hq). done. }
  destruct (Hlatch p DRIVE_HEAD (Z.lor 0xE0 (Z.land (u8 (shr lba 24)) 0x0F))) as [E1 I1]; [set_solver|done|].
  destruct (io_delay_keeps (outb DRIVE_HEAD (Z.lor 0xE0 (Z.land (u8 (shr lba 24)) 0x0F)) p)) as (p1 & -> & D1).
  rewrite <- D1 in E1, I1.
  destruct (Hlatch p1 SECTOR_COUNT 1) as [E2 I2]; [set_solver|done|].
  destruct (Hlatch _ LBA_LOW (u8 lba) ltac:(set_solver) I2) as [E3 I3].
  destruct (Hlatch _ LBA_MID (u8 (shr lba 8)) ltac:(set_solver) I3) as [E4 I4].
  destruct (Hlatch _ LBA_HIGH (u8 (shr lba 16)) ltac:(set_solver) I4) as [E5 I5].
  eexists. split; [done|].
  split; [done|rewrite E5, E4, E3, E2, E1; cbn..]; try done.
  unfold address. cbn. rewrite Hn. done.
Qed.

(** *** Data transfer *)
Lemma of_to_words n bs : length bs = (2 * n)%nat -> bytes_ok bs -> of_words (to_words bs) = bs.
Proof using.
  revert bs. induction n as [|n IH]; intros bs Hl Hb; [by destruct bs|].
  destruct bs as [|b0 [|b1 bs]]; cbn in Hl; try lia. inversion_clear Hb as [|? ? H0 Hb'].
  inversion_clear Hb' as [|? ? H1 Hb]. unfold fits in H0, H1. cbn [to_words of_words].
  rewrite IH by (done || lia). f_equal; [dlia|]. f_equal. dlia.
Qed.

Lemma length_to_words n bs : length bs = (2 * n)%nat -> length (to_words bs) = n.
Proof using.
  revert bs. induction n as [|n IH]; intros bs Hl; [by destruct bs|].
  destruct bs as [|b0 [|b1 bs]]; cbn in Hl; try lia. cbn. f_equal. apply IH. lia.
Qed.

Lemma to_words_fit n bs : length bs = (2 * n)%nat -> bytes_ok bs -> Forall (fits 16) (to_words bs).
Proof using.
  revert bs. induction n as [|n IH]; intros bs Hl Hb; [by destruct bs|].
  destruct bs as [|b0 [|b1 bs]]; cbn in Hl; try lia. inversion_clear Hb as [|? ? H0 Hb'].
  inversion_clear Hb' as [|? ? H1 Hb]. unfold fits in *. cbn. constructor; [lia|]. apply IH; [lia|done].
Qed.

Lemma word_bytes b0 b1 : fits 8 b0 -> fits 8 b1 -> Z.lor b0 (u16 (Z.shiftl b1 8)) = b0 + 256 * b1.
Proof using.
  intros H0 H1. assert (u16 (Z.shiftl b1 8) = 256 * b1) as ->.
  { unfold fits in *. unfold u16, wrap. rewrite Z.shiftl_mul_pow2 by lia. rewrite Z.mod_small; lia. }
  pose proof (Z.add_lor_land b0 (256 * b1)) as E.
  assert (Z.land b0 (256 * b1) = 0) as El; [|lia].
  replace (256 * b1) with (Z.shiftl b1 8) by (rewrite Z.shiftl_mul_pow2 by lia; lia).
  zbits. destruct (Z.lt_ge_cases i 8); [by rewrite (Z.testbit_neg_r b1) by lia; rewrite andb_false_r|].
  by rewrite (testbit_above b0 8) by (done || lia).
Qed.

Lemma read_words_data n p ws :
  length ws = n -> Forall (fits 16) ws -> phase (drive p) = data_phase ws ->
  exists p', read_words n p = (of_words ws, p') /\ drive p' = set_phase Idle (drive p).
Proof.
  revert p n. induction ws as [|w ws IH]; intros p n Hl Hf Hp; cbn in Hl; subst n.
  { exists p. split; [done|]. by rewrite set_phase_at. }
  inversion_clear Hf as [|? ? Hw Hf']. cbn [read_words]. unfold act_bind.
  destruct (ata_data_in p w ws Hp) as [E Hd]. destruct (inw DATA p) as [v p1]. cbn [fst snd] in *. subst v.
  destruct (IH p1 _ eq_refl Hf') as (p' & -> & Hd'); [by rewrite Hd|].
  exists p'. rewrite Hd', Hd. split; [|done]. unfold done. cbn [of_words]. do 3 f_equal.
  unfold fits in Hw. unfold u8, wrap, shr. rewrite Z.shiftr_div_pow2 by lia. f_equal. dlia.
Qed.

Lemma write_words_data n buf p l taken :
  length buf = (2 * S n)%nat -> bytes_ok buf -> phase (drive p) = DataOut l taken ->
  (length taken + S n = 256)%nat ->
  exists p' k, write_words buf p = (tt, p') /\ (k <= max_busy)%nat /\
    drive p' = set_phase (busy k Idle) (set_disk (fun i =>
      if decide (i = l) then Some (of_words (taken ++ to_words buf)) else disk (drive p) i) (drive p)).
Proof.
  revert p buf taken. induction n as [|n IH]; intros p buf taken Hl Hb Hp Ht.
  all: destruct buf as [|b0 [|b1 buf]]; cbn in Hl; try lia.
  all: inversion_clear Hb as [|? ? H0 Hb']; inversion_clear Hb' as [|? ? H1 Hb].
  all: cbn [write_words to_words]; unfold act_bind, effect; rewrite word_bytes by done.
  - destruct buf; [|cbn in Hl; lia].
    destruct (ata_data_out_last p l taken (b0 + 256 * b1) Hp ltac:(lia)) as (k & Hk & Hd).
    eexists _, k. split; [done|]. by split.
  - pose proof (ata_data_out p l taken (b0 + 256 * b1) Hp ltac:(lia)) as Hd.
    destruct (IH (outw DATA (b0 + 256 * b1) p) buf (taken ++ [b0 + 256 * b1])) as (p' & k & E & Hk & Hd').
    { lia. } { done. } { by rewrite Hd. } { rewrite length_app. cbn. lia. }
    exists p', k. split_and!; [done..|]. rewrite Hd', Hd, <- app_assoc. done.
Qed.

(** ** One sector *)
Definition drive_ok (a : AtaDevice) (d : Drive) : Prop :=
  0 <= total_sectors a <= 2 ^ 28 /\ phase d = Idle /\
  (forall i, 0 <= i < total_sectors a -> is_Some (disk d i)) /\
  (forall i b, disk d i = Some b -> length b = 512%nat /\ bytes_ok b).

(** What stays the same across an operation: everything but the task file. *)
Definition same_disk (d d' : Drive) : Prop := phase d' = phase d /\ disk d' = disk d /\ identify d' = identify d.

Lemma same_disk_trans d d' d'' : same_disk d d' -> same_disk d' d'' -> same_disk d d''.
Proof using. unfold same_disk. intros (? & ? & ?) (? & ? & ?). split_and!; congruence. Qed.

Lemma drive_ok_same a d d' : same_disk d d' -> drive_ok a d -> drive_ok a d'.
Proof using. intros (E1 & E2 & _). unfold drive_ok. by rewrite E1, E2. Qed.

Lemma read_command a p lba b :
  drive_ok a (drive p) -> 0 <= lba < total_sectors a -> disk (drive p) lba = Some b ->
  exists p1 p2 p3 p', wait_while_busy p = (Ok tt, p1) /\ start_command lba CMD_READ_SECTORS p1 = (tt, p2) /\
    wait_for_data p2 = (Ok tt, p3) /\ read_words 256 p3 = (b, p') /\ same_disk (drive p) (drive p').
Proof.
  intros (Ht & Hp & Hall & Hb) Hl Hd. destruct (Hb _ _ Hd) as [Hlen Hbytes].
  destruct (wait_while_busy_idle p Hp) as (p1 & E1 & D1).
  destruct (start_command_loads lba CMD_READ_SECTORS p1) as (p2 & E2 & L); [lia|by rewrite D1|].
  destruct L as [Lp Lc Lh La Ld Li]. rewrite D1 in Ld, Li.
  destruct (ata_command_read p2 b) as (k & Hk & D3); [done..|by rewrite La, Ld|].
  destruct (wait_for_data_ready k (outb COMMAND CMD_READ_SECTORS p2) (DataIn (to_words b)) Hk) as (p4 & E4 & D4);
    [by rewrite D3|by left; eexists|].
  destruct (read_words_data 256 p4 (to_words b)) as (p5 & E5 & D5).
  { by apply length_to_words. } { by apply (to_words_fit 256). }
  { rewrite D4. cbn. pose proof (length_to_words 256 b Hlen). by destruct (to_words b). }
  rewrite (of_to_words 256 b) in E5 by done. eexists p1, _, p4, p5. split_and!; [done..|].
  rewrite D5, D4, D3. unfold same_disk. cbn. by rewrite Ld, Li.
Qed.

Lemma write_command a p lba b buf :
  drive_ok a (drive p) -> 0 <= lba < total_sectors a -> disk (drive p) lba = Some b ->
  length buf = 512%nat -> bytes_ok buf ->
  exists p1 p2 p3 p4 p', wait_while_busy p = (Ok tt, p1) /\ start_command lba CMD_WRITE_SECTORS p1 = (tt, p2) /\
    wait_for_data p2 = (Ok tt, p3) /\ write_words buf p3 = (tt, p4) /\ flush_cache p4 = (Ok tt, p') /\
    phase (drive p') = Idle /\ identify (drive p') = identify (drive p) /\
    disk (drive p') = fun i => if decide (i = lba) then Some buf else disk (drive p) i.
Proof.
  intros (Ht & Hp & Hall & Hb) Hl Hd Hlen Hbuf.
  destruct (wait_while_busy_idle p Hp) as (p1 & E1 & D1).
  destruct (start_command_loads lba CMD_WRITE_SECTORS p1) as (p2 & E2 & L); [lia|by rewrite D1|].
  destruct L as [Lp Lc Lh La Ld Li]. rewrite D1 in Ld, Li.
  destruct (ata_command_write p2 b) as (k & Hk & D3); [done..|by rewrite La, Ld|].
  destruct (wait_for_data_ready k (outb COMMAND CMD_WRITE_SECTORS p2) (DataOut (address (drive p2)) []) Hk)
    as (p4 & E4 & D4); [by rewrite D3|by right; do 2 eexists|].
  destruct (write_words_data 255 buf p4 (address (drive p2)) []) as (p5 & k5 & E5 & Hk5 & D5);
    [done|done|by rewrite D4|done|].
  destruct (wait_while_busy_ready k5 p5 Idle Hk5) as (p6 & E6 & D6); [by rewrite D5|done|].
  destruct (ata_command_flush p6) as (k7 & Hk7 & D7); [by rewrite D6|].
  destruct (wait_while_busy_ready k7 (outb COMMAND CMD_CACHE_FLUSH p6) Idle Hk7) as (p8 & E8 & D8);
    [by rewrite D7|done|].
  eexists p1, _, p4, p5, p8. split_and!; [done..| | | |].
  1: by unfold flush_cache, act_try, act_bind, effect, done; rewrite E6, E8.
  all: rewrite D8, D7, D6, D5, D4, D3; cbn.
  1, 2: done. rewrite La, Ld, (of_to_words 256) by done. done.
Qed.
End protocol.

(** ** The driver is a block device *)
Section block_device.
Context {P : Type} `{HD : AtaDrive P}.

Definition ata_ok (d : disk_state (P := P)) : Prop := drive_ok d.1 (drive d.2).
Definition ata_view (d : disk_state (P := P)) (i : Z) : option (list Z) :=
  if (0 <=? i) && (i <? total_sectors d.1) then disk (drive d.2) i else None.

Lemma u32_small x : fits 32 x -> u32 x = x.
Proof using. intros. by apply Z.mod_small. Qed.

Lemma ata_view_in d i : 0 <= i < total_sectors d.1 -> ata_view d i = disk (drive d.2) i.
Proof. intros. unfold ata_view. zcases; done. Qed.

Lemma ata_view_out d i : ata_ok d -> 0 <= i -> ata_view d i = None <-> total_sectors d.1 <= i.
Proof.
  intros (_ & _ & Hall & _) Hi. unfold ata_view. zcases; split; try done; try lia.
  intros E. destruct (Hall i) as [b Hb]; [lia|]. congruence.
Qed.

Lemma ata_view_some d i b : ata_view d i = Some b -> 0 <= i < total_sectors d.1 /\ disk (drive d.2) i = Some b.
Proof. unfold ata_view. zcases; done. Qed.

Lemma ata_read_in a p i b :
  ata_ok (a, p) -> 0 <= i < total_sectors a -> disk (drive p) i = Some b ->
  exists p', ata_read_sector i (a, p) = (Val b, (a, p')) /\ same_disk (drive p) (drive p').
Proof.
  intros Hok Hi Hb. pose proof (proj1 Hok) as Ht. cbn [fst snd] in *.
  destruct (read_command a p i b Hok Hi Hb) as (p1 & p2 & p3 & p' & E1 & E2 & E3 & E4 & Hs).
  exists p'. split; [|done]. unfold ata_read_sector. cbn [fst].
  rewrite u32_small by (unfold fits; lia). rewrite (proj2 (Z.leb_gt _ _)) by lia.
  unfold bind, map_err, bind, on_ports, ret. cbn [fst snd]. rewrite E1. cbn [fst snd]. rewrite E2. cbn [fst snd].
  rewrite E3. cbn [fst snd]. by rewrite E4.
Qed.

Lemma ata_write_in a p i b buf :
  ata_ok (a, p) -> 0 <= i < total_sectors a -> disk (drive p) i = Some b -> length buf = 512%nat -> bytes_ok buf ->
  exists p', ata_write_sector i buf (a, p) = (Val tt, (a, p')) /\ phase (drive p') = Idle /\
    identify (drive p') = identify (drive p) /\
    disk (drive p') = fun j => if decide (j = i) then Some buf else disk (drive p) j.
Proof.
  intros Hok Hi Hb Hlen Hbuf. pose proof (proj1 Hok) as Ht. cbn [fst snd] in *.
  destruct (write_command a p i b buf Hok Hi Hb Hlen Hbuf)
    as (p1 & p2 & p3 & p4 & p' & E1 & E2 & E3 & E4 & E5 & Hp & Hid & Hd).
  exists p'. split; [|done]. unfold ata_write_sector. cbn [fst].
  rewrite u32_small by (unfold fits; lia). rewrite (proj2 (Z.leb_gt _ _)) by lia.
  unfold bind, map_err, bind, on_ports, ret. cbn [fst snd]. rewrite E1. cbn [fst snd]. rewrite E2. cbn [fst snd].
  rewrite E3. cbn [fst snd]. rewrite E4. cbn [fst snd]. by rewrite E5.
Qed.

Lemma ata_write_ok a p p' i buf :
  ata_ok (a, p) -> length buf = 512%nat -> bytes_ok buf -> phase (drive p') = Idle ->
  disk (drive p') = (fun j => if decide (j = i) then Some buf else disk (drive p) j) -> ata_ok (a, p').
Proof.
  intros (Ht & _ & Hall & Hb) Hlen Hbuf Hp Hd. unfold ata_ok, drive_ok. cbn [fst snd] in *. rewrite Hd.
  split_and!; [lia..|done| |]; intros j.
  - intros Hj. destruct (decide (j = i)); [done|by apply Hall].
  - intros b. destruct (decide (j = i)); [by intros [= <-]|apply Hb].
Qed.

#[export] Instance ata_block_laws : BlockDeviceLaws (disk_state (P := P)).
Proof.
  refine {| bd_limit := 2 ^ 32; bd_ok := ata_ok; bd_view := ata_view |}.
  - intros d i b (_ & _ & _ & Hb) [_ Hv]%ata_view_some. by apply (Hb i).
  - intros [a p] i b Hok [Hi Hv]%ata_view_some. pose proof (proj1 Hok) as Ht. cbn [fst snd] in *. lia.
  - intros [a p] i b Hok _ [Hi Hv]%ata_view_some.
    destruct (ata_read_in a p i b Hok Hi Hv) as (p' & E & Hs). exists (a, p'). split; [exact E|].
    split; [by apply (drive_ok_same a (drive p))|]. intros j. unfold ata_view. cbn [fst snd]. by rewrite (proj1 (proj2 Hs)).
  - intros [a p] i Hok Hi Hv%ata_view_out; [|done|lia]. exists "ATA Read Out of Bounds"%string, (a, p).
    split; [|done]. cbn [read_sector ata_block]. unfold ata_read_sector.
    rewrite u32_small by done. by rewrite (proj2 (Z.leb_le _ _) Hv).
  - intros [a p] i b Hok Hi Hlen Hbuf Hv. destruct (ata_view (a, p) i) as [b0|] eqn:E; [|done].
    apply ata_view_some in E as [Hi' E].
    destruct (ata_write_in a p i b0 b Hok Hi' E Hlen Hbuf) as (p' & Ew & Hp & _ & Hd).
    exists (a, p'). split; [exact Ew|]. split; [by apply (ata_write_ok a p p' i b)|].
    intros j. unfold ata_view. cbn [fst snd] in *. rewrite Hd. destruct (decide (j = i)); [subst; zcases; done|done].
  - intros [a p] i b Hok Hi Hlen Hv%ata_view_out; [|done|lia]. exists "ATA Write Out of Bounds"%string.
    cbn [write_sector ata_block]. unfold ata_write_sector.
    rewrite u32_small by done. by rewrite (proj2 (Z.leb_le _ _) Hv).
Defined.
End block_device.

(** ** A drive that follows the protocol

    Every command keeps it busy for two polls. *)
Definition sim_outb (port v : Z) (d : Drive) : Drive :=
  if port =? COMMAND then
    if v =? CMD_READ_SECTORS then
      set_phase (busy 2 (DataIn (to_words (default [] (disk d (address d)))))) d
    else if v =? CMD_WRITE_SECTORS then set_phase (busy 2 (DataOut (address d) [])) d
    else if v =? CMD_CACHE_FLUSH then set_phase (busy 2 Idle) d
    else if v =? CMD_IDENTIFY then set_phase (busy 2 (DataIn (identify d))) d
    else d
  else latch port v d.

Definition sim_inb (port : Z) : act Drive Z := fun d =>
  if port =? STATUS then
    match phase d with
    | Idle => (STATUS_RDY, d)
    | Busy n next => (STATUS_BSY, set_phase (busy n next) d)
    | _ => (Z.lor STATUS_RDY STATUS_DRQ, d)
    end
  else if port =? LBA_MID then (reg_mid d, d)
  else if port =? LBA_HIGH then (reg_high d, d)
  else (0, d).

Definition sim_inw (port : Z) : act Drive Z := fun d =>
  match phase d with
  | DataIn (w :: ws) => (w, set_phase (data_phase ws) d)
  | _ => (0, d)
  end.

Definition sim_outw (port w : Z) (d : Drive) : Drive :=
  match phase d with
  | DataOut l ws =>
      if (length ws <? 255)%nat then set_phase (DataOut l (ws ++ [w])) d
      else set_phase (busy 2 Idle)
             (set_disk (fun i => if decide (i = l) then Some (of_words (ws ++ [w])) else disk d i) d)
  | _ => d
  end.

#[export] Instance sim_ports : PortIO Drive := {|
  inb := sim_inb; outb := sim_outb; inw := sim_inw; outw := sim_outw;
  inl := fun _ => done 0; outl := fun _ _ d => d
|}.

#[export] Instance sim_drive : AtaDrive Drive.
Proof.
  refine {| drive := fun d => d; max_busy := 2 |}.
  all: try (intros; exists 2%nat; split; [lia|]; cbn).
  - done.
  - intros p port v Hin _. cbn. unfold sim_outb.
    assert ((port =? COMMAND) = false) as ->; [|done].
    apply Z.eqb_neq. intros ->. set_solver.
  - done.
  - done.
  - intros p n next E. cbn. unfold sim_inb. cbn. by rewrite E.
  - intros p E. cbn. unfold sim_inb. cbn. by rewrite E.
  - intros p [[ws E]|(l & ws & E)]; cbn; unfold sim_inb; cbn; by rewrite E.
  - unfold sim_outb. cbn. by destruct (disk p (address p)); simplify_eq.
  - done.
  - done.
  - done.
  - intros p w ws E. cbn. unfold sim_inw. by rewrite E.
  - intros p l ws w E Hl. cbn. unfold sim_outw. rewrite E. by rewrite (proj2 (Nat.ltb_lt _ _) Hl).
  - unfold sim_outw. match goal with E : phase _ = _ |- _ => rewrite E end. by rewrite (proj2 (Nat.ltb_ge _ _)) by lia.
Defined.

(** ** What the driver promises *)
Section claims.
Context {P : Type} `{HD : AtaDrive P}.

(** Several sectors, as the shell's `diskread` reads them. *)
Lemma read_sectors_loop_reads a p lba n i buf (sectors : list (list Z)) :
  drive_ok a (drive p) -> length sectors = n ->
  (forall k b, sectors !! k = Some b -> disk (drive p) (lba + i + Z.of_nat k) = Some b) ->
  0 <= lba -> 0 <= i -> lba + i + Z.of_nat n <= total_sectors a ->
  Z.of_nat (length buf) = (i + Z.of_nat n) * 512 ->
  exists p', read_sectors_loop n lba i buf p = ((Ok tt, take (Z.to_nat (i * 512)) buf ++ concat sectors), p') /\
    same_disk (drive p) (drive p').
Proof.
  revert n i p buf. induction sectors as [|b sectors IH]; intros n i p buf Hok Hn Hs Hl Hi Ht Hb; cbn in Hn; subst n.
  { exists p. split; [|done]. cbn. rewrite app_nil_r, take_ge by lia. done. }
  pose proof (Hs 0%nat b eq_refl) as Hd. rewrite Z.add_0_r in Hd.
  assert (0 <= total_sectors a <= 2 ^ 28) as Hlim by apply Hok.
  destruct (read_command a p (lba + i) b Hok ltac:(lia) Hd) as (p1 & p2 & p3 & p4 & E1 & E2 & E3 & E4 & Hsame).
  assert (length b = 512%nat) as Hlb by (by apply (proj2 (proj2 (proj2 Hok)) _ _ Hd)).
  cbn [read_sectors_loop]. unfold add32. rewrite u32_small by (unfold fits; lia). unfold act_bind.
  rewrite E1, E2, E3, E4. unfold SECTOR_SIZE.
  destruct (IH (length sectors) (i + 1) p4 (splice buf (i * 512) b)) as (p' & E & Hsame').
  { by apply (drive_ok_same a (drive p)). } { done. }
  { intros k b' Hk. rewrite (proj1 (proj2 Hsame)). rewrite <- (Hs (S k) b' Hk). f_equal. lia. }
  { done. } { lia. } { lia. } { rewrite length_splice; lia. }
  exists p'. rewrite E. split; [|by apply (same_disk_trans _ (drive p4))].
  do 2 f_equal. cbn [concat]. rewrite app_assoc. f_equal. unfold splice.
  replace (Z.to_nat ((i + 1) * 512)) with (Z.to_nat (i * 512) + length b)%nat by lia.
  rewrite <- take_take_drop at 1. rewrite take_app_length' by (rewrite length_take; lia). f_equal.
  rewrite drop_app_length' by (rewrite length_take; lia). by rewrite take_app_length.
Qed.
End claims.


Definition demo_sector (k : Z) : list Z := replicate 512 k.
Definition demo_drive : Drive :=
  mkDrive 0 0 0 0 0 Idle (fun i => if (0 <=? i) && (i <? 4) then Some (demo_sector i) else None)
    (replicate 60 0 ++ [4; 0] ++ replicate 194 0).

Lemma demo_drive_ok : drive_ok (mkAta 4) (drive demo_drive).
Proof.
  unfold drive_ok. cbn -[demo_sector]. split_and!; [lia..|done| |].
  - intros i Hi. zcases; done.
  - intros i b. zcases; try done. intros [= <-]. split; [apply length_replicate|].
    apply Forall_replicate. unfold fits. lia.
Qed.


(** `diskread`: [count] consecutive sectors inside the disk arrive in the buffer one
    after the other, whatever the buffer held before. *)
Theorem ata_read_sectors_exact {P : Type} `{HD : AtaDrive P} (a : AtaDevice) (p : P) lba (sectors : list (list Z)) buf :
  drive_ok a (drive p) -> 0 <= lba -> lba + Z.of_nat (length sectors) <= total_sectors a ->
  (forall k b, sectors !! k = Some b -> disk (drive p) (lba + Z.of_nat k) = Some b) ->
  Z.of_nat (length buf) = Z.of_nat (length sectors) * 512 ->
  exists p', read_sectors lba (Z.of_nat (length sectors)) buf p = (Returns (Ok tt, concat sectors), p') /\
    same_disk (drive p) (drive p').
Proof.
  intros Hok Hl Ht Hs Hb. unfold read_sectors, SECTOR_SIZE. rewrite (proj2 (Z.eqb_eq _ _) Hb). unfold act_bind.
  destruct (read_sectors_loop_reads a p lba (length sectors) 0 buf sectors) as (p' & E & Hsame);
    try done; try lia. { intros. rewrite Z.add_0_r. by apply Hs. }
  rewrite Nat2Z.id, E. by exists p'.
Qed.

Lemma ata_read_sectors_exact_witness :
  exists p', read_sectors 1 2 (replicate 1024 9) demo_drive = (Returns (Ok tt, demo_sector 1 ++ demo_sector 2), p') /\
    same_disk demo_drive (drive p').
Proof.
  apply (ata_read_sectors_exact (mkAta 4) demo_drive 1 [demo_sector 1; demo_sector 2] (replicate 1024 9) demo_drive_ok);
    [lia|cbn; lia| |by rewrite length_replicate].
  intros [|[|k]] b; cbn; [by intros [= <-]|by intros [= <-]|done].
Defined.

Lemma read_identify_data {P : Type} `{HD : AtaDrive P} n (p : P) ws :
  length ws = n -> phase (drive p) = data_phase ws ->
  exists p', read_identify n p = (ws, p') /\ drive p' = set_phase Idle (drive p).
Proof.
  revert p n. induction ws as [|w ws IH]; intros p n Hl Hp; cbn in Hl; subst n.
  { exists p. split; [done|]. by rewrite set_phase_at. }
  cbn [read_identify]. unfold act_bind.
  destruct (ata_data_in p w ws Hp) as [E Hd]. destruct (inw DATA p) as [v p1]. cbn [fst snd] in *. subst v.
  destruct (IH p1 _ eq_refl) as (p' & -> & Hd'); [by rewrite Hd|].
  exists p'. by rewrite Hd', Hd.
Qed.

(** The first poll after IDENTIFY: some bit is set, busy or data request. *)
Lemma status_after_command {P : Type} `{HD : AtaDrive P} (p : P) n ws :
  phase (drive p) = busy n (DataIn ws) ->
  exists v p', inb STATUS p = (v, p') /\ v <> 0 /\
    drive p' = set_phase (busy (pred n) (DataIn ws)) (drive p).
Proof.
  intros Hp. destruct n as [|n]; cbn [busy pred] in *.
  - destruct (ata_status_data p) as (_ & Hd & _ & E); [by left; exists ws|].
    destruct (inb STATUS p) as [v p']. cbn [fst snd] in *. exists v, p'. split; [done|].
    split; [by intros ->|]. rewrite E. by rewrite set_phase_at.
  - destruct (ata_status_busy p n (DataIn ws) Hp) as (Hb & _ & E).
    destruct (inb STATUS p) as [v p']. cbn [fst snd] in *. exists v, p'. split_and!; [done|by intros ->|done].
Qed.

(** The register writes of `AtaDevice::new` leave an idle drive with a zeroed address. *)
Lemma probe_registers {P : Type} `{HD : AtaDrive P} (p : P) :
  phase (drive p) = Idle ->
  exists p', (effect (outb DRIVE_HEAD 0xA0) >>> io_delay >>> effect (outb SECTOR_COUNT 0) >>>
    effect (outb LBA_LOW 0) >>> effect (outb LBA_MID 0) >>> effect (outb LBA_HIGH 0)) p = (tt, p') /\
    phase (drive p') = Idle /\ reg_mid (drive p') = 0 /\ reg_high (drive p') = 0 /\
    disk (drive p') = disk (drive p) /\ identify (drive p') = identify (drive p).
Proof.
  intros Hp. unfold act_bind, effect.
  pose proof (ata_latch p DRIVE_HEAD 0xA0 ltac:(set_solver) Hp) as E1.
  destruct (io_delay_keeps (outb DRIVE_HEAD 0xA0 p)) as (p1 & -> & D1). rewrite <- D1 in E1.
  assert (phase (drive p1) = Idle) as I1 by (by rewrite E1).
  pose proof (ata_latch p1 SECTOR_COUNT 0 ltac:(set_solver) I1) as E2.
  pose proof (ata_latch _ LBA_LOW 0 ltac:(set_solver) (eq_trans (f_equal phase E2) I1)) as E3.
  assert (phase (drive (outb LBA_LOW 0 (outb SECTOR_COUNT 0 p1))) = Idle) as I3 by (by rewrite E3, E2).
  pose proof (ata_latch _ LBA_MID 0 ltac:(set_solver) I3) as E4.
  pose proof (ata_latch _ LBA_HIGH 0 ltac:(set_solver) (eq_trans (f_equal phase E4) I3)) as E5.
  eexists. split; [done|]. by rewrite E5, E4, E3, E2, E1.
Qed.

Definition identify_sectors (ws : list Z) : Z :=
  Z.lor (default 0 (ws !! 60%nat)) (u32 (Z.shiftl (default 0 (ws !! 61%nat)) 16)).

Lemma AtaDevice_new_identifies {P : Type} `{HD : AtaDrive P} (p : P) :
  phase (drive p) = Idle -> length (identify (drive p)) = 256%nat ->
  exists p', AtaDevice_new p = (Ok (mkAta (identify_sectors (identify (drive p)))), p') /\
    same_disk (drive p) (drive p').
Proof.
  intros Hp Hl. destruct (probe_registers p Hp) as (p1 & E1 & I1 & Hm1 & Hh1 & D1 & Id1).
  replace (AtaDevice_new p) with
    ((effect (outb COMMAND CMD_IDENTIFY) >>>
      let* status := inb STATUS in
      if status =? 0 then done (Err NoDevice) else
      let*? _ := wait_while_busy in
      let* mid := inb LBA_MID in
      if negb (mid =? 0) then done (Err NoDevice) else
      let* high := inb LBA_HIGH in
      if negb (high =? 0) then done (Err NoDevice) else
      let*? _ := wait_for_data in
      let* status := inb STATUS in
      if Z.land status STATUS_RDY =? 0 then done (Err NoDevice) else
      let* ws := read_identify 256 in done (Ok (mkAta (identify_sectors ws)))) p1).
  2:{ unfold AtaDevice_new. unfold act_bind, effect in *. destruct (io_delay _) as [[] q].
      injection E1 as <-. done. }
  unfold act_bind, act_try, act_bind, effect.
  destruct (ata_command_identify p1 I1) as (n & Hn & D2).
  destruct (status_after_command (outb COMMAND CMD_IDENTIFY p1) n (identify (drive p1))) as (v & p3 & -> & Hv & D3);
    [by rewrite D2|]. rewrite (proj2 (Z.eqb_neq _ _) Hv).
  destruct (wait_while_busy_ready (pred n) p3 (DataIn (identify (drive p1)))) as (p4 & -> & D4);
    [lia|by rewrite D3|done|].
  assert (reg_mid (drive p4) = 0 /\ reg_high (drive p4) = 0 /\ phase (drive p4) = DataIn (identify (drive p1)))
    as (Hm4 & Hh4 & Ph4) by (by rewrite D4, D3, D2).
  destruct (ata_register p4) as (M & DM & _). destruct (inb LBA_MID p4) as [vm p5]. cbn [fst snd] in *.
  rewrite M, Hm4. cbn [Z.eqb negb].
  destruct (ata_register p5) as (_ & _ & Hg & DH). rewrite DM in Hg. destruct (inb LBA_HIGH p5) as [vh p6].
  cbn [fst snd] in *. rewrite Hg, Hh4. cbn [Z.eqb negb].
  assert (drive p6 = drive p4) as D6 by congruence.
  destruct (wait_for_data_ready 0 p6 (DataIn (identify (drive p1)))) as (p7 & -> & D7);
    [lia|by rewrite D6|by left; eexists|]. rewrite set_phase_at in D7 by (by rewrite D6).
  destruct (ata_status_data p7) as (_ & _ & Hr & D8); [left; eexists; by rewrite D7, D6|].
  destruct (inb STATUS p7) as [v8 p8]. cbn [fst snd] in *. rewrite (proj2 (Z.eqb_neq _ _) Hr).
  destruct (read_identify_data 256 p8 (identify (drive p1))) as (p9 & E9 & D9).
  { by rewrite Id1. }
  { rewrite D8, D7, D6, Ph4. unfold data_phase. destruct (identify (drive p1)) eqn:E; [|done].
    by rewrite <- Id1 in Hl. }
  rewrite E9. exists p9. rewrite <- Id1. split; [done|].
  rewrite D9, D8, D7, D6, D4, D3, D2. unfold same_disk. cbn. by rewrite D1, Id1.
Qed.

Lemma test_pattern_ok : length test_pattern = 512%nat /\ bytes_ok test_pattern.
Proof.
  split; [done|]. apply Forall_fmap, Forall_true. intros. apply Z.mod_pos_bound. lia.
Qed.

(** The self-test passes on a working drive and leaves every sector as it was. *)
Lemma self_test_restores {P : Type} `{HD : AtaDrive P} (a : AtaDevice) (p : P) :
  drive_ok a (drive p) -> 0 < total_sectors a ->
  exists p', self_test (a, p) = (Val tt, (a, p')) /\ drive_ok a (drive p') /\
    forall i, disk (drive p') i = disk (drive p) i.
Proof.
  intros Hok Ht. destruct test_pattern_ok as [Hpl Hpb].
  assert (is_Some (disk (drive p) (total_sectors a - 1))) as [b Hb] by (apply Hok; lia).
  destruct (proj2 (proj2 (proj2 Hok)) _ _ Hb) as [Hbl Hbb].
  unfold self_test. cbn [fst]. rewrite (proj2 (Z.eqb_neq _ _)) by lia. unfold bind.
  destruct (ata_read_in a p (total_sectors a - 1) b Hok ltac:(lia) Hb) as (p1 & -> & S1).
  pose proof (drive_ok_same a _ _ S1 Hok) as Hok1. destruct S1 as (_ & S1 & _).
  destruct (ata_write_in a p1 (total_sectors a - 1) b test_pattern Hok1 ltac:(lia) ltac:(by rewrite S1) Hpl Hpb)
    as (p2 & -> & I2 & _ & D2).
  pose proof (ata_write_ok a p1 p2 _ _ Hok1 Hpl Hpb I2 D2) as Hok2.
  destruct (ata_read_in a p2 (total_sectors a - 1) test_pattern Hok2 ltac:(lia)) as (p3 & -> & S3).
  { rewrite D2. by rewrite decide_True. }
  pose proof (drive_ok_same a _ _ S3 Hok2) as Hok3. destruct S3 as (_ & S3 & _).
  destruct (ata_write_in a p3 (total_sectors a - 1) test_pattern b Hok3 ltac:(lia)) as (p4 & -> & I4 & _ & D4);
    [by rewrite S3, D2, decide_True|done..|].
  rewrite bool_decide_true by done. exists p4. split; [done|].
  split; [by apply (ata_write_ok a p3 p4 (total_sectors a - 1) b)|].
  intros i. rewrite D4, S3, D2, S1. destruct (decide (i = total_sectors a - 1)) as [->|]; done.
Qed.

(** Probing and self-testing a disk, as the boot code does: on an idle drive whose
    IDENTIFY data reports its capacity in words 60 and 61, `AtaDevice::new` finds
    exactly that many sectors, and `self_test`, which overwrites the last sector
    and restores it, succeeds and leaves every sector with its content. *)
Theorem ata_probe_and_self_test {P : Type} `{HD : AtaDrive P} (p : P) :
  let total := identify_sectors (identify (drive p)) in
  length (identify (drive p)) = 256%nat -> 0 < total -> drive_ok (mkAta total) (drive p) ->
  exists p1 p2, AtaDevice_new p = (Ok (mkAta total), p1) /\ self_test (mkAta total, p1) = (Val tt, (mkAta total, p2)) /\
    forall i, disk (drive p2) i = disk (drive p) i.
Proof.
  intros total Hl Ht Hok.
  destruct (AtaDevice_new_identifies p (proj1 (proj2 Hok)) Hl) as (p1 & E & S1).
  pose proof (drive_ok_same _ _ _ S1 Hok) as Hok1.
  destruct (self_test_restores (mkAta total) p1 Hok1 Ht) as (p2 & E2 & _ & D2).
  exists p1, p2. split_and!; [done..|]. intros i. by rewrite D2, (proj1 (proj2 S1)).
Qed.

Lemma ata_probe_and_self_test_witness :
  exists p1 p2, AtaDevice_new demo_drive = (Ok (mkAta 4), p1) /\ self_test (mkAta 4, p1) = (Val tt, (mkAta 4, p2)) /\
    forall i, disk (drive p2) i = disk demo_drive i.
Proof.
  pose proof (ata_probe_and_self_test demo_drive) as Hw. cbv zeta in Hw.
  assert (identify_sectors (identify (drive demo_drive)) = 4) as E by reflexivity. rewrite E in Hw.
  apply Hw; [reflexivity|lia|apply demo_drive_ok].
Defined.
