(* ===== verification/Gdt.v ===== *)
(** * Segment descriptors, the TSS and the per-CPU tables (src/src/gdt.rs)

    A descriptor is the 64-bit integer the code packs; the tables are the statics
    `TSS`, `GDT` and `AP_GDTS`, whose addresses the linker chooses.  Loading a table
    sets the CPU's segment state. *)
From S2P Require Import Prelude Acpi.

Definition KERNEL_CODE_SELECTOR : Z := 0x08.
Definition KERNEL_DATA_SELECTOR : Z := 0x10.
Definition USER_CODE_SELECTOR : Z := Z.lor 0x18 3.
Definition USER_DATA_SELECTOR : Z := Z.lor 0x20 3.
Definition TSS_SELECTOR : Z := 0x28.
Definition DOUBLE_FAULT_IST_INDEX : nat := 0.
Definition DOUBLE_FAULT_IST_NUMBER : Z := 1.
Definition DF_STACK_SIZE : Z := 8192.
Definition AP_DF_STACK_SIZE : Z := 8192.

(** ** The task state segment *)
Record Tss := mkTss {
  reserved0 : Z; rsp : list Z; reserved1 : Z; ist : list Z; reserved2 : Z; reserved3 : Z; iomap_base : Z;
}.
(** `size_of::<Tss>()` of the packed structure. *)
Definition TSS_SIZE : Z := 4 + 3 * 8 + 8 + 7 * 8 + 8 + 2 + 2.

Definition Tss_new : Tss := mkTss 0 (replicate 3 0) 0 (replicate 7 0) 0 0 (u16 TSS_SIZE).

Definition set_ist (i : nat) (v : Z) (t : Tss) : Tss :=
  mkTss (reserved0 t) (rsp t) (reserved1 t) (<[i := v]> (ist t)) (reserved2 t) (reserved3 t) (iomap_base t).

(** ** Descriptors *)
Definition descriptor_bits (base limit access flags : Z) : Z :=
  let limit_low := Z.land limit 0xFFFF in
  let limit_high := Z.land (shr limit 16) 0xF in
  let base_low := Z.land base 0xFFFF in
  let base_mid := Z.land (shr base 16) 0xFF in
  let base_high := Z.land (shr base 24) 0xFF in
  Z.lor (Z.lor (Z.lor (Z.lor (Z.lor (Z.lor limit_low (shl64 base_low 16)) (shl64 base_mid 32))
    (shl64 access 40)) (shl64 limit_high 48)) (shl64 flags 52)) (shl64 base_high 56).

Definition GdtEntry_null : Z := 0.
Definition GdtEntry_flat (access flags : Z) : Z := descriptor_bits 0 0xFFFFF access flags.

Definition tss_descriptor_bits (base limit : Z) : Z * Z :=
  let low := descriptor_bits (u32 (Z.land base 0xFFFFFFFF)) limit 0x89 0x0 in
  let high := Z.land (shr base 32) 0xFFFFFFFF in
  (low, high).

Record Gdt := mkGdt {
  null : Z; kernel_code : Z; kernel_data : Z; user_code : Z; user_data : Z; tss_low : Z; tss_high : Z;
}.
Definition GDT_SIZE : Z := 7 * 8.

Definition GDT_initial : Gdt :=
  mkGdt GdtEntry_null (GdtEntry_flat 0x9A 0xA) (GdtEntry_flat 0x92 0xC)
    (GdtEntry_flat 0xFA 0xA) (GdtEntry_flat 0xF2 0xC) GdtEntry_null GdtEntry_null.

Definition set_tss_descriptor (d : Z * Z) (t : Gdt) : Gdt :=
  mkGdt (null t) (kernel_code t) (kernel_data t) (user_code t) (user_data t) d.1 d.2.

(** ** The CPU's view: what `lgdt`, the far return, the segment loads and `ltr` set. *)
Record Segments := mkSegments {
  gdtr_limit : Z; gdtr_base : Z; cs : Z; ds : Z; es : Z; fs : Z; gs : Z; ss : Z; tr : Z;
}.

Definition gdt_flush (limit base : Z) (s : Segments) : Segments :=
  mkSegments limit base 0x08 0x10 0x10 0x10 0x10 0x10 (tr s).
Definition ltr (selector : Z) (s : Segments) : Segments :=
  mkSegments (gdtr_limit s) (gdtr_base s) (cs s) (ds s) (es s) (fs s) (gs s) (ss s) selector.

(** One CPU's tables: the statics `TSS` and `GDT` of the boot CPU, a `PerCpu` of the others. *)
Record PerCpu := mkPerCpu { gdt : Gdt; tss : Tss }.
Definition PerCpu_new : PerCpu := mkPerCpu GDT_initial Tss_new.

(** The two functions do the same to the tables they are given: point IST1 at the stack,
    describe the TSS, load both. *)
Definition load_tables (gdt_addr tss_addr stack_addr stack_size : Z) (t : PerCpu) (s : Segments)
    : PerCpu * Segments :=
  let df_stack_top := add64 stack_addr stack_size in
  let tss' := set_ist DOUBLE_FAULT_IST_INDEX df_stack_top (tss t) in
  let tss_limit := u32 (TSS_SIZE - 1) in
  let gdt' := set_tss_descriptor (tss_descriptor_bits tss_addr tss_limit) (gdt t) in
  (mkPerCpu gdt' tss', ltr TSS_SELECTOR (gdt_flush (u16 (GDT_SIZE - 1)) gdt_addr s)).

Definition init (gdt_addr tss_addr stack_addr : Z) (t : PerCpu) (s : Segments) : PerCpu * Segments :=
  load_tables gdt_addr tss_addr stack_addr DF_STACK_SIZE t s.

(** `set_kernel_stack`. *)
Definition set_kernel_stack (stack_top : Z) (t : PerCpu) : PerCpu :=
  mkPerCpu (gdt t) (mkTss (reserved0 (tss t)) (<[0%nat := stack_top]> (rsp (tss t))) (reserved1 (tss t))
    (ist (tss t)) (reserved2 (tss t)) (reserved3 (tss t)) (iomap_base (tss t))).

(** The frame `enter_usermode` pushes for `iretq`, last pushed first, and the data selectors. *)
Definition enter_usermode (entry user_stack_top : Z) (s : Segments) : Segments * list Z :=
  let d := USER_DATA_SELECTOR in
  (mkSegments (gdtr_limit s) (gdtr_base s) (cs s) d d d d (ss s) (tr s),
   [entry; USER_CODE_SELECTOR; 0x202; user_stack_top; USER_DATA_SELECTOR]).

(** `AP_GDTS` and `AP_DF_STACKS`: arrays of [MAX_CPUS] elements at linker-chosen addresses.
    `repr(Rust)` leaves the place of `gdt` and `tss` inside a [PerCpu] to the compiler. *)
Record ap_layout := mkLayout { ap_gdts : Z; ap_stacks : Z; percpu_size : Z; gdt_offset : Z; tss_offset : Z }.

Definition gdt_ptr (l : ap_layout) (cpu_index : Z) : Z := ap_gdts l + cpu_index * percpu_size l.
Definition stack_ptr (l : ap_layout) (cpu_index : Z) : Z := ap_stacks l + cpu_index * AP_DF_STACK_SIZE.

(** `init_ap`: nothing checks the index, so outside of the array there is no result. *)
Definition init_ap (l : ap_layout) (cpu_index : Z) (cpus : list PerCpu) (s : Segments)
    : option (list PerCpu * Segments) :=
  match cpus !! Z.to_nat cpu_index with
  | Some t =>
      let '(t', s') := load_tables (gdt_ptr l cpu_index + gdt_offset l) (gdt_ptr l cpu_index + tss_offset l)
                         (stack_ptr l cpu_index) AP_DF_STACK_SIZE t s in
      Some (<[Z.to_nat cpu_index := t']> cpus, s')
  | None => None
  end.

(** ** Decoding, as the processor does *)
Definition desc_limit (d : Z) : Z := Z.lor (Z.land d 0xFFFF) (Z.shiftl (Z.land (shr d 48) 0xF) 16).
Definition desc_base (d : Z) : Z :=
  Z.lor (Z.lor (Z.land (shr d 16) 0xFFFF) (Z.shiftl (Z.land (shr d 32) 0xFF) 16)) (Z.shiftl (Z.land (shr d 56) 0xFF) 24).
Definition desc_access (d : Z) : Z := Z.land (shr d 40) 0xFF.
Definition desc_flags (d : Z) : Z := Z.land (shr d 52) 0xF.
Definition desc_present (d : Z) : bool := bit (desc_access d) 7.
Definition desc_dpl (d : Z) : Z := Z.land (shr (desc_access d) 5) 3.
Definition desc_is_segment (d : Z) : bool := bit (desc_access d) 4.
Definition desc_executable (d : Z) : bool := bit (desc_access d) 3.
Definition desc_long (d : Z) : bool := bit (desc_flags d) 1.

(** The quadwords of the table in memory order, and the one a selector names. *)
Definition gdt_words (t : Gdt) : list Z :=
  [null t; kernel_code t; kernel_data t; user_code t; user_data t; tss_low t; tss_high t].
Definition selector_index (sel : Z) : nat := Z.to_nat (shr sel 3).
Definition selector_rpl (sel : Z) : Z := Z.land sel 3.
Definition descriptor (t : Gdt) (sel : Z) : Z := default 0 (gdt_words t !! selector_index sel).
(** The 64-bit base of a system descriptor, which takes two entries. *)
Definition system_base (t : Gdt) (sel : Z) : Z :=
  Z.lor (desc_base (descriptor t sel)) (Z.shiftl (default 0 (gdt_words t !! S (selector_index sel))) 32).

(** ** Packing and unpacking *)
Lemma shl64_pack a b k w : 0 <= k -> 0 <= w -> k + w <= 64 -> fits k a -> fits w b ->
  Z.lor a (shl64 b k) = a + b * 2 ^ k /\ fits (k + w) (a + b * 2 ^ k).
Proof.
  intros Hk Hw Hkw Ha Hb. assert (fits (k + w) (a + b * 2 ^ k)) as Hf.
  { unfold fits in *. rewrite Z.pow_add_r by lia. nia. }
  split; [|done]. unfold shl64. rewrite u64_small; [by apply lor_pack|].
  rewrite Z.shiftl_mul_pow2 by lia. unfold fits in *. rewrite Z.pow_add_r in Hf by lia.
  assert (2 ^ k * 2 ^ w <= 2 ^ 64) by (rewrite <- Z.pow_add_r by lia; apply Z.pow_le_mono_r; lia). nia.
Qed.
Lemma descriptor_sum base limit access flags :
  fits 32 base -> fits 20 limit -> fits 8 access -> fits 4 flags ->
  descriptor_bits base limit access flags =
  limit mod 2 ^ 16 + base mod 2 ^ 16 * 2 ^ 16 + (base / 2 ^ 16) mod 2 ^ 8 * 2 ^ 32 + access * 2 ^ 40 +
  limit / 2 ^ 16 * 2 ^ 48 + flags * 2 ^ 52 + base / 2 ^ 24 * 2 ^ 56.
Proof.
  intros Hb Hl Ha Hf. unfold descriptor_bits, shr. rewrite !Z.shiftr_div_pow2 by lia.
  change 0xFFFF with (Z.ones 16). change 0xFF with (Z.ones 8). change 0xF with (Z.ones 4).
  rewrite !Z.land_ones by lia.
  assert (limit / 2 ^ 16 = (limit / 2 ^ 16) mod 2 ^ 4) as El by (unfold fits in *; dlia).
  assert (base / 2 ^ 24 = (base / 2 ^ 24) mod 2 ^ 8) as Eb by (unfold fits in *; dlia).
  rewrite <- El, <- Eb.
  assert (forall x k, 0 <= k -> fits k (x mod 2 ^ k)) as Hm by (intros; apply Z.mod_pos_bound; lia).
  destruct (shl64_pack _ (base mod 2 ^ 16) 16 16 ltac:(lia) ltac:(lia) ltac:(lia)
    (Hm limit 16 ltac:(lia)) (Hm base 16 ltac:(lia))) as [-> F1].
  destruct (shl64_pack _ ((base / 2 ^ 16) mod 2 ^ 8) 32 8 ltac:(lia) ltac:(lia) ltac:(lia) F1 (Hm _ 8 ltac:(lia))) as [-> F2].
  destruct (shl64_pack _ access 40 8 ltac:(lia) ltac:(lia) ltac:(lia) F2 Ha) as [-> F3].
  assert (fits 4 (limit / 2 ^ 16)) as Hl' by (rewrite El; apply Hm; lia).
  destruct (shl64_pack _ (limit / 2 ^ 16) 48 4 ltac:(lia) ltac:(lia) ltac:(lia) F3 Hl') as [-> F4].
  destruct (shl64_pack _ flags 52 4 ltac:(lia) ltac:(lia) ltac:(lia) F4 Hf) as [-> F5].
  assert (fits 8 (base / 2 ^ 24)) as Hb' by (rewrite Eb; apply Hm; lia).
  destruct (shl64_pack _ (base / 2 ^ 24) 56 8 ltac:(lia) ltac:(lia) ltac:(lia) F5 Hb') as [-> _].
  done.
Qed.


Ltac field lo f hi k w := apply (field_extract k w lo f hi); [lia|lia|unfold fits in *; lia|done|lia].

Lemma seven_fields l0 b0 b1 a l1 f b2 :
  fits 16 l0 -> fits 16 b0 -> fits 8 b1 -> fits 8 a -> fits 4 l1 -> fits 4 f -> fits 8 b2 ->
  let d := l0 + b0 * 2 ^ 16 + b1 * 2 ^ 32 + a * 2 ^ 40 + l1 * 2 ^ 48 + f * 2 ^ 52 + b2 * 2 ^ 56 in
  (d / 2 ^ 0) mod 2 ^ 16 = l0 /\ (d / 2 ^ 16) mod 2 ^ 16 = b0 /\ (d / 2 ^ 32) mod 2 ^ 8 = b1 /\
  (d / 2 ^ 40) mod 2 ^ 8 = a /\ (d / 2 ^ 48) mod 2 ^ 4 = l1 /\ (d / 2 ^ 52) mod 2 ^ 4 = f /\
  (d / 2 ^ 56) mod 2 ^ 8 = b2.
Proof.
  intros H1 H2 H3 H4 H5 H6 H7 d. split_and!.
  - field 0 l0 (b0 + b1 * 2 ^ 16 + a * 2 ^ 24 + l1 * 2 ^ 32 + f * 2 ^ 36 + b2 * 2 ^ 40) 0 16.
  - field l0 b0 (b1 + a * 2 ^ 8 + l1 * 2 ^ 16 + f * 2 ^ 20 + b2 * 2 ^ 24) 16 16.
  - field (l0 + b0 * 2 ^ 16) b1 (a + l1 * 2 ^ 8 + f * 2 ^ 12 + b2 * 2 ^ 16) 32 8.
  - field (l0 + b0 * 2 ^ 16 + b1 * 2 ^ 32) a (l1 + f * 2 ^ 4 + b2 * 2 ^ 8) 40 8.
  - field (l0 + b0 * 2 ^ 16 + b1 * 2 ^ 32 + a * 2 ^ 40) l1 (f + b2 * 2 ^ 4) 48 4.
  - field (l0 + b0 * 2 ^ 16 + b1 * 2 ^ 32 + a * 2 ^ 40 + l1 * 2 ^ 48) f b2 52 4.
  - field (l0 + b0 * 2 ^ 16 + b1 * 2 ^ 32 + a * 2 ^ 40 + l1 * 2 ^ 48 + f * 2 ^ 52) b2 0 56 8.
Qed.

Lemma descriptor_fields base limit access flags :
  fits 32 base -> fits 20 limit -> fits 8 access -> fits 4 flags ->
  let d := descriptor_bits base limit access flags in
  desc_base d = base /\ desc_limit d = limit /\ desc_access d = access /\ desc_flags d = flags.
Proof.
  intros Hb Hl Ha Hf d. subst d. rewrite descriptor_sum by done.
  assert (forall x k, 0 <= k -> fits k (x mod 2 ^ k)) as Hm by (intros; apply Z.mod_pos_bound; lia).
  destruct (seven_fields (limit mod 2 ^ 16) (base mod 2 ^ 16) ((base / 2 ^ 16) mod 2 ^ 8) access
    (limit / 2 ^ 16) flags (base / 2 ^ 24)) as (E0 & E1 & E2 & E3 & E4 & E5 & E6);
    try done; try (apply Hm; lia); try (unfold fits in *; dlia).
  unfold desc_base, desc_limit, desc_access, desc_flags, shr. rewrite !Z.shiftr_div_pow2 by lia.
  change 0xFFFF with (Z.ones 16). change 0xFF with (Z.ones 8). change 0xF with (Z.ones 4).
  rewrite !Z.land_ones by lia. rewrite <- (Z.div_1_r (_ + base / 2 ^ 24 * 2 ^ 56)) at 4.
  change 1 with (2 ^ 0) at 1. rewrite E0, E1, E2, E3, E4, E5, E6.
  clear E0 E1 E2 E3 E4 E5 E6.
  rewrite (lor_pack (base mod 2 ^ 16)), (lor_pack (limit mod 2 ^ 16)) by (apply Hm || lia; lia).
  rewrite lor_pack by (unfold fits in *; dlia).
  unfold fits in *. split_and!; [dlia|dlia|done..].
Qed.

Lemma tss_descriptor_fields base limit :
  fits 64 base -> fits 20 limit ->
  let d := tss_descriptor_bits base limit in
  Z.lor (desc_base d.1) (Z.shiftl d.2 32) = base /\ desc_limit d.1 = limit /\ desc_access d.1 = 0x89.
Proof.
  intros Hb Hl d. subst d. unfold tss_descriptor_bits. cbn [fst snd].
  change 0xFFFFFFFF with (Z.ones 32). rewrite !Z.land_ones by lia. unfold u32, wrap, shr.
  rewrite Z.mod_mod by lia. rewrite Z.shiftr_div_pow2 by lia.
  assert (fits 32 (base mod 2 ^ 32)) as Hm by (apply Z.mod_pos_bound; lia).
  destruct (descriptor_fields (base mod 2 ^ 32) limit 0x89 0) as (-> & -> & -> & _); [done..|].
  rewrite lor_pack by (done || lia). unfold fits in *. split_and!; [dlia|done..].
Qed.

(** ** What a CPU has after its tables are loaded *)
Record tables_ready (gdt_addr tss_addr stack_top : Z) (t : PerCpu) (s : Segments) : Prop := {
  (** the registers name entries of the table *)
  ready_gdtr : gdtr_base s = gdt_addr /\ gdtr_limit s = 8 * Z.of_nat (length (gdt_words (gdt t))) - 1;
  ready_segments : cs s = KERNEL_CODE_SELECTOR /\ ss s = KERNEL_DATA_SELECTOR /\ ds s = KERNEL_DATA_SELECTOR /\
                   tr s = TSS_SELECTOR;
  (** code segments are 64-bit and executable, data segments are not; a selector asks for the
      privilege its descriptor has *)
  ready_code : forall sel, sel ∈ [KERNEL_CODE_SELECTOR; USER_CODE_SELECTOR] ->
    let d := descriptor (gdt t) sel in
    desc_present d = true /\ desc_is_segment d = true /\ desc_executable d = true /\ desc_long d = true /\
    desc_dpl d = selector_rpl sel;
  ready_data : forall sel, sel ∈ [KERNEL_DATA_SELECTOR; USER_DATA_SELECTOR] ->
    let d := descriptor (gdt t) sel in
    desc_present d = true /\ desc_is_segment d = true /\ desc_executable d = false /\ desc_dpl d = selector_rpl sel;
  ready_rings : selector_rpl KERNEL_CODE_SELECTOR = 0 /\ selector_rpl USER_CODE_SELECTOR = 3 /\
                selector_rpl KERNEL_DATA_SELECTOR = 0 /\ selector_rpl USER_DATA_SELECTOR = 3;
  (** the task register describes this CPU's TSS, all 104 bytes of it *)
  ready_tss : system_base (gdt t) TSS_SELECTOR = tss_addr /\
              desc_limit (descriptor (gdt t) TSS_SELECTOR) = TSS_SIZE - 1 /\
              desc_present (descriptor (gdt t) TSS_SELECTOR) = true /\
              desc_is_segment (descriptor (gdt t) TSS_SELECTOR) = false;
  (** the stack the double-fault gate names *)
  ready_ist : ist (tss t) !! Z.to_nat (DOUBLE_FAULT_IST_NUMBER - 1) = Some stack_top;
  (** no I/O permission bitmap *)
  ready_iomap : TSS_SIZE <= iomap_base (tss t);
}.

Lemma load_tables_ready gdt_addr tss_addr stack_addr size s :
  fits 64 tss_addr -> 0 <= stack_addr -> 0 <= size -> stack_addr + size < 2 ^ 64 ->
  let '(t', s') := load_tables gdt_addr tss_addr stack_addr size PerCpu_new s in
  tables_ready gdt_addr tss_addr (stack_addr + size) t' s'.
Proof.
  intros Ht Hs Hz Hlim. unfold load_tables, add64. rewrite u64_small by (unfold fits; lia).
  change (u32 (TSS_SIZE - 1)) with 103.
  destruct (tss_descriptor_fields tss_addr 103 Ht) as (Eb & El & Ea); [done|].
  destruct (tss_descriptor_bits tss_addr 103) as [lo hi]. cbn [fst snd] in *.
  split; try done.
  - cbn [gdt]. intros sel Hin. set_unfold in Hin. destruct Hin as [->|[->|[]]]; vm_compute; done.
  - cbn [gdt]. intros sel Hin. set_unfold in Hin. destruct Hin as [->|[->|[]]]; vm_compute; done.
  - cbn [gdt]. change (descriptor _ TSS_SELECTOR) with lo.
    change (system_base _ TSS_SELECTOR) with (Z.lor (desc_base lo) (Z.shiftl hi 32)).
    unfold desc_present, desc_is_segment. rewrite Eb, El, Ea. done.
Qed.

(** C37: The boot CPU: after `gdt::init` the segment registers name 64-bit code and data
    descriptors of the right privilege, user selectors name ring-3 descriptors, the
    task register describes the TSS at its full 64-bit address, and the stack that
    the double-fault gate selects (IST 1) ends 8 KiB above the reserved array. *)
Theorem gdt_init_ready gdt_addr tss_addr stack_addr s :
  fits 64 tss_addr -> 0 <= stack_addr -> stack_addr + DF_STACK_SIZE < 2 ^ 64 ->
  let '(t', s') := init gdt_addr tss_addr stack_addr PerCpu_new s in
  tables_ready gdt_addr tss_addr (stack_addr + DF_STACK_SIZE) t' s'.
Proof. intros. by apply load_tables_ready. Qed.

Definition demo_segments : Segments := mkSegments 0 0 0 0 0 0 0 0 0.

Lemma gdt_init_ready_witness :
  let '(t', s') := init 0xFFFFFFFF80201000 0xFFFFFFFF80202000 0xFFFFFFFF80203000 PerCpu_new demo_segments in
  tables_ready 0xFFFFFFFF80201000 0xFFFFFFFF80202000 0xFFFFFFFF80205000 t' s'.
Proof. apply gdt_init_ready; [unfold fits; lia|lia|unfold DF_STACK_SIZE; lia]. Defined.

(** Where the arrays are: disjoint structures of the declared size inside the address space. *)
Definition layout_ok (l : ap_layout) : Prop :=
  0 <= ap_gdts l /\ 0 <= ap_stacks l /\ 0 <= gdt_offset l /\ 0 <= tss_offset l /\
  gdt_offset l + GDT_SIZE <= percpu_size l /\ tss_offset l + TSS_SIZE <= percpu_size l /\
  ap_gdts l + Z.of_nat MAX_CPUS * percpu_size l < 2 ^ 64 /\
  ap_stacks l + Z.of_nat MAX_CPUS * AP_DF_STACK_SIZE < 2 ^ 64.

(** The application processors: each one loads its own tables.  `init_ap` on a fresh
    entry makes that CPU ready with its own TSS and double-fault stack, leaves the
    tables of every other CPU alone, and the TSS and stack of two CPUs never overlap. *)
Theorem init_ap_isolated l i (cpus : list PerCpu) s :
  layout_ok l -> length cpus = MAX_CPUS -> 0 <= i < Z.of_nat MAX_CPUS -> cpus !! Z.to_nat i = Some PerCpu_new ->
  exists cpus' s' t', init_ap l i cpus s = Some (cpus', s') /\ cpus' !! Z.to_nat i = Some t' /\
    tables_ready (gdt_ptr l i + gdt_offset l) (gdt_ptr l i + tss_offset l) (stack_ptr l i + AP_DF_STACK_SIZE) t' s' /\
    (forall j, j <> Z.to_nat i -> cpus' !! j = cpus !! j) /\
    (forall j, 0 <= j < Z.of_nat MAX_CPUS -> j <> i ->
       (stack_ptr l j + AP_DF_STACK_SIZE <= stack_ptr l i \/ stack_ptr l i + AP_DF_STACK_SIZE <= stack_ptr l j) /\
       (gdt_ptr l j + tss_offset l + TSS_SIZE <= gdt_ptr l i + tss_offset l \/
        gdt_ptr l i + tss_offset l + TSS_SIZE <= gdt_ptr l j + tss_offset l)).
Proof.
  intros (? & ? & ? & ? & ? & ? & ? & ?) Hlen Hi Hc. unfold init_ap. rewrite Hc.
  assert (0 <= gdt_ptr l i + tss_offset l < 2 ^ 64 /\ 0 <= stack_ptr l i /\ stack_ptr l i + AP_DF_STACK_SIZE < 2 ^ 64)
    as (Ht & Hs & Hs').
  { unfold gdt_ptr, stack_ptr, GDT_SIZE, TSS_SIZE, AP_DF_STACK_SIZE in *. nia. }
  pose proof (load_tables_ready (gdt_ptr l i + gdt_offset l) (gdt_ptr l i + tss_offset l) (stack_ptr l i)
    AP_DF_STACK_SIZE s Ht Hs) as Hr.
  destruct (load_tables _ _ _ _ _ _) as [t' s'].
  exists (<[Z.to_nat i := t']> cpus), s', t'. split_and!; [done| | | |].
  - apply list_lookup_insert_eq. rewrite Hlen. lia.
  - apply Hr; [unfold AP_DF_STACK_SIZE; lia|done].
  - intros j Hj. by rewrite list_lookup_insert_ne.
  - intros j Hj Hne. unfold stack_ptr, gdt_ptr, AP_DF_STACK_SIZE, TSS_SIZE, GDT_SIZE in *.
    split; [lia|]. assert (j < i \/ i < j) as [?|?] by lia; [left|right]; nia.
Qed.

Definition demo_layout : ap_layout := mkLayout 0xFFFFFFFF80300000 0xFFFFFFFF80400000 160 0 56.

Lemma init_ap_isolated_witness :
  exists cpus' s' t', init_ap demo_layout 2 (replicate MAX_CPUS PerCpu_new) demo_segments = Some (cpus', s') /\
    cpus' !! 2%nat = Some t' /\
    tables_ready 0xFFFFFFFF80300140 0xFFFFFFFF80300178 0xFFFFFFFF80406000 t' s'.
Proof.
  destruct (init_ap_isolated demo_layout 2 (replicate MAX_CPUS PerCpu_new) demo_segments)
    as (cpus' & s' & t' & E & Hc & Hr & _).
  - unfold layout_ok. vm_compute. repeat split; congruence.
  - reflexivity.
  - vm_compute. split; congruence.
  - reflexivity.
  - exists cpus', s', t'. split; [exact E|]. split; [exact Hc|exact Hr].
Defined.
