(* ===== verification/Interrupts.v ===== *)
(** * Interrupts and exceptions (src/src/interrupts.rs, src/src/timer.rs)

    The interrupt descriptor table, the interrupt controller and timer programming,
    the UART interrupt handlers of both targets, and the dispatch of CPU faults and
    AArch64 traps over the kernel state of [Syscall].  The assembly around them is
    in [Traps]. *)
From S2P Require Import Prelude Ports Pmm Vmm VmmTheory Ring Uart Fd Task Syscall SyscallCorrect.
From S2P Require Gdt.

(** ** The interrupt descriptor table *)
Record IdtEntry := mkIdtEntry {
  pointer_low : Z; gdt_selector : Z; options : Z; pointer_middle : Z; pointer_high : Z; reserved : Z;
}.

Definition missing : IdtEntry := mkIdtEntry 0 0 0 0 0 0.

Definition set_handler (handler_addr : Z) (e : IdtEntry) : IdtEntry :=
  mkIdtEntry (u16 handler_addr) 0x08 0x8E00 (u16 (shr handler_addr 16)) (u32 (shr handler_addr 32)) 0.

Definition set_ist (index : Z) (e : IdtEntry) : IdtEntry :=
  mkIdtEntry (pointer_low e) (gdt_selector e) (Z.lor (Z.land (options e) 0xFF00) (Z.land index 0x7))
    (pointer_middle e) (pointer_high e) (reserved e).

(** Where the assembly stubs are. *)
Record stubs := mkStubs {
  exception_handler_stub : Z; uart_handler_stub : Z; timer_handler_stub : Z; syscall_handler_stub : Z;
  divide_error_stub : Z; invalid_opcode_stub : Z; double_fault_stub : Z;
  general_protection_fault_stub : Z; page_fault_stub : Z;
}.

Definition set_gate (n : nat) (f : IdtEntry -> IdtEntry) (idt : list IdtEntry) : list IdtEntry :=
  <[n := f (default missing (idt !! n))]> idt.

Definition IDT_initial : list IdtEntry := replicate 256 missing.

(** The gates `imp::init` installs, in order. *)
Definition install_gates (s : stubs) (idt : list IdtEntry) : list IdtEntry :=
  let idt := set_gate 3 (set_handler (exception_handler_stub s)) idt in
  let idt := set_gate 0x20 (set_handler (timer_handler_stub s)) idt in
  let idt := set_gate 0x24 (set_handler (uart_handler_stub s)) idt in
  let idt := set_gate 0x80 (set_handler (syscall_handler_stub s)) idt in
  let idt := set_gate 0 (set_handler (divide_error_stub s)) idt in
  let idt := set_gate 6 (set_handler (invalid_opcode_stub s)) idt in
  let idt := set_gate 8 (set_handler (double_fault_stub s)) idt in
  let idt := set_gate 8 (set_ist Gdt.DOUBLE_FAULT_IST_NUMBER) idt in
  let idt := set_gate 13 (set_handler (general_protection_fault_stub s)) idt in
  set_gate 14 (set_handler (page_fault_stub s)) idt.

(** The limit and base `lidt` is given, by `init` and by `load_idt`. *)
Definition idt_pointer (idt_addr : Z) : Z * Z := (u16 (256 * 16 - 1), idt_addr).

Section x86.
Context {P : Type} `{PortIO P}.

Definition remap_pic : act P unit :=
  effect (outb 0x20 0x11) >>> effect (outb 0xA0 0x11) >>>
  effect (outb 0x21 0x20) >>> effect (outb 0xA1 0x28) >>>
  effect (outb 0x21 0x04) >>> effect (outb 0xA1 0x02) >>>
  effect (outb 0x21 0x01) >>> effect (outb 0xA1 0x01) >>>
  effect (outb 0x21 0xEE) >>> effect (outb 0xA1 0xFF).

Definition init_pit : act P unit :=
  let divisor := 11931 in
  effect (outb 0x43 0x36) >>> effect (outb 0x40 (u8 (Z.land divisor 0xFF))) >>>
  effect (outb 0x40 (u8 (shr divisor 8))).

(** `imp::init`: the table it leaves and what it loads into IDTR. *)
Definition init_x86 (s : stubs) (idt_addr : Z) (idt : list IdtEntry) : act P (list IdtEntry * (Z * Z)) :=
  remap_pic >>> init_pit >>> done (install_gates s idt, idt_pointer idt_addr).

(** `timer::hardware::init` on x86_64. *)
Definition TIMER_HZ : Z := 100.
Definition PIT_FREQ : Z := 1193182.
Definition timer_init : act P unit :=
  let divisor := PIT_FREQ / TIMER_HZ in
  effect (outb 0x43 0x36) >>> effect (outb 0x40 (u8 (Z.land divisor 0xFF))) >>>
  effect (outb 0x40 (u8 (Z.land (shr divisor 8) 0xFF))).

(** `raw_uart_interrupt_handler`: empty the receiver into the input ring, then end the
    interrupt at the PIC. *)
Definition COM1_DATA : Z := 0x3F8.
Definition COM1_LSR : Z := 0x3F8 + 5.

Definition com1_available : act P bool :=
  let* lsr := inb COM1_LSR in done (negb (Z.land lsr 1 =? 0)).

Definition raw_uart_interrupt_handler (fuel : nat) (r : ring) : act P (option ring) :=
  let* o := drain_fifo com1_available (inb COM1_DATA) enqueue_byte fuel r in
  match o with
  | Some r' => effect (outb 0x20 0x20) >>> done (Some r')
  | None => done None
  end.
End x86.

(** ** AArch64: the PL011 and the generic timer *)
Record generic_timer := mkTimer { cntfrq_el0 : Z; cntp_tval_el0 : Z; cntp_ctl_el0 : Z }.

Definition timer_init_aarch64 (t : generic_timer) : generic_timer :=
  mkTimer (cntfrq_el0 t) (cntfrq_el0 t / TIMER_HZ) 1.
Definition reset_timer (t : generic_timer) : generic_timer :=
  mkTimer (cntfrq_el0 t) (cntfrq_el0 t / TIMER_HZ) (cntp_ctl_el0 t).

Section aarch64.
Context {M : Type} `{Mmio M}.

Definition uart_dr : Z := 0x3F000000 + 0x201000.
Definition uart_fr : Z := uart_dr + 0x18.
Definition uart_icr : Z := uart_dr + 0x44.

Definition pl011_available : act M bool :=
  let* fr := mmio_read uart_fr in done (Z.land fr (Z.shiftl 1 4) =? 0).
Definition pl011_get : act M Z := let* dr := mmio_read uart_dr in done (u8 dr).

(** `handle_irq`. *)
Definition handle_irq (fuel : nat) (r : ring) (t : generic_timer) : act M (option (ring * generic_timer)) :=
  let* o := drain_fifo pl011_available pl011_get enqueue_byte fuel r in
  match o with
  | Some r' => effect (mmio_write uart_icr 0x7FF) >>> done (Some (r', reset_timer t))
  | None => done None
  end.

(** `init_gic_timer_irq`. *)
Definition init_gic_timer_irq : act M unit := effect (mmio_write (0x40000000 + 0x40) (Z.shiftl 1 1)).
End aarch64.

(** ** Faults and traps over the kernel *)

(** How a trap ends: back to the interrupted code, with the current task terminated, or with
    the kernel panicking. *)
Inductive trap_end := Resumed | TaskExit | KernelPanic.

Section dispatch.
Context {P : Type} `{FA : FrameAllocator P} `{KA : !KernelArch P}.
(** `{}`, `{:x}`, `{:02x}` and `{:016x}` of the messages. *)
Context (show show_hex show_hex2 show_hex16 : Z -> list Z).
Implicit Types k : kernel P.

Definition print_line (bs : list Z) k : kernel P :=
  Kernel (ks k) (input k) (write_str (bs ++ [10]) (console k)).

Definition fault_name (vector : Z) : list Z :=
  bytes_of (if vector =? 0 then "Divide Error (#DE)"
            else if vector =? 6 then "Invalid Opcode (#UD)"
            else if vector =? 8 then "Double Fault (#DF)"
            else if vector =? 13 then "General Protection Fault (#GP)"
            else if vector =? 14 then "Page Fault (#PF)"
            else "Unhandled Exception").

Definition CANONICAL_LOW_HALF_CEILING : Z := 0x0000800000000000.

Definition rip_in_user_range (rip : Z) : bool :=
  (USER_SPACE_BASE <=? rip) && (rip <? CANONICAL_LOW_HALF_CEILING).

Definition is_user_fault (vector error_code rip : Z) : bool :=
  if vector =? 14 then bit error_code 2 || rip_in_user_range rip else rip_in_user_range rip.

(** The page-fault attempt of both architectures: [true] when the fault is resolved. *)
Definition resolve_fault (addr : Z) (present user : bool) k : outcome bool * kernel P :=
  let '(r, m) := handle_page_fault addr present user (vm (ks k)) in (r, with_ks (with_vm m (ks k)) k).

(** `task::exit()`, which does not return to its caller. *)
Definition exit_task k : trap_end * kernel P := (TaskExit, with_ks (exit (ks k)) k).

(** `fault_common_handler`; [cr2] is the register it reads for a page fault. *)
Definition fault_common_handler (vector error_code rip cr2 : Z) k : trap_end * kernel P :=
  let '(r, k) := if vector =? 14 then resolve_fault cr2 (bit error_code 0) (bit error_code 2) k
                 else (Returns false, k) in
  match r with
  | Panics => (KernelPanic, k)
  | Returns true => (Resumed, k)
  | Returns false =>
      if is_user_fault vector error_code rip && negb (vector =? 8) then
        let k := print_line ([13; 10] ++ bytes_of "[OS] User process triggered " ++ fault_name vector ++
                   bytes_of " (vector " ++ show vector ++ bytes_of ") at RIP: 0x" ++ show_hex rip) k in
        let k := print_line (bytes_of "[OS] Terminating isolated task...") k in
        exit_task k
      else (KernelPanic, k)
  end.

(** *** AArch64 *)
Definition exception_class (esr : Z) : Z := Z.land (shr esr 26) 0x3F.
Definition is_abort (ec : Z) : bool := (ec =? 0x20) || (ec =? 0x21) || (ec =? 0x24) || (ec =? 0x25).

Definition el1_name (ec : Z) : list Z :=
  bytes_of (if ec =? 0x00 then "Illegal Instruction (undefined at current Exception Level)"
            else if ec =? 0x0E then "Illegal Execution State"
            else if ec =? 0x15 then "SVC instruction (unexpected at EL1)"
            else if ec =? 0x18 then "Trapped MSR/MRS/System instruction"
            else if ec =? 0x20 then "Instruction Abort (from a lower EL)"
            else if ec =? 0x21 then "Instruction Abort (same EL)"
            else if ec =? 0x24 then "Data Abort (from a lower EL)"
            else if ec =? 0x25 then "Data Abort (same EL)"
            else "Unhandled synchronous exception").

Definition el1_report (esr far elr : Z) k : kernel P :=
  let ec := exception_class esr in
  let k := print_line ([13; 10] ++ bytes_of "!!! AArch64 EXCEPTION: " ++ el1_name ec ++ bytes_of " (EC=0x" ++
             show_hex2 ec ++ bytes_of ") !!!") k in
  let k := print_line (bytes_of "    ESR_EL1 = 0x" ++ show_hex16 esr) k in
  let k := print_line (bytes_of "    FAR_EL1 = 0x" ++ show_hex16 far ++ bytes_of "  (faulting address)") k in
  print_line (bytes_of "    ELR_EL1 = 0x" ++ show_hex16 elr ++ bytes_of "  (faulting instruction)") k.

Definition handle_el1_sync_exception (esr far elr : Z) k : trap_end * kernel P :=
  let ec := exception_class esr in
  let '(r, k) :=
    if is_abort ec then
      let is_user := (ec =? 0x20) || (ec =? 0x24) in
      let fsc := Z.land esr 0x3F in
      let is_present := Z.land fsc 60 =? 12 in
      resolve_fault far is_present is_user k
    else (Returns false, k) in
  match r with
  | Panics => (KernelPanic, k)
  | Returns true => (Resumed, k)
  | Returns false => (KernelPanic, el1_report esr far elr k)
  end.

Context (OS_VERSION OS_ARCH : list Z).

(** `handle_el0_sync_trap`: the value for `x0`, unless the task ends or the handler faults. *)
Definition handle_el0_sync_trap (esr far elr sysno a0 a1 a2 : Z) k : sysres * kernel P :=
  let ec := exception_class esr in
  if ec =? 0x15 then syscall_handler OS_VERSION OS_ARCH show sysno a0 a1 a2 k
  else
    let k := print_line ([13; 10] ++ bytes_of "[OS] User process faulted (EC=0x" ++ show_hex2 ec ++
               bytes_of ") at ELR 0x" ++ show_hex16 elr) k in
    let k := print_line (bytes_of "[OS] Terminating isolated task...") k in
    (SysExit, with_ks (exit (ks k)) k).

(** `x86_syscall_trap` on the saved registers (not wired to a vector). *)
Definition x86_syscall_trap (rax rdi rsi rdx : Z) k : sysres * kernel P :=
  syscall_handler OS_VERSION OS_ARCH show rax rdi rsi rdx k.
End dispatch.

(** ** The gates *)

(** A gate as the processor reads it. *)
Definition gate_offset (e : IdtEntry) : Z :=
  Z.lor (Z.lor (pointer_low e) (Z.shiftl (pointer_middle e) 16)) (Z.shiftl (pointer_high e) 32).
Definition gate_present (e : IdtEntry) : bool := bit (options e) 15.
Definition gate_dpl (e : IdtEntry) : Z := Z.land (shr (options e) 13) 3.
Definition gate_type (e : IdtEntry) : Z := Z.land (shr (options e) 8) 0xF.
Definition gate_ist (e : IdtEntry) : Z := Z.land (options e) 7.

(** Which stub serves which vector. *)
Definition stub_of (s : stubs) (vector : nat) : option Z :=
  match vector with
  | 0 => Some (divide_error_stub s) | 3 => Some (exception_handler_stub s)
  | 6 => Some (invalid_opcode_stub s) | 8 => Some (double_fault_stub s)
  | 13 => Some (general_protection_fault_stub s) | 14 => Some (page_fault_stub s)
  | 32 => Some (timer_handler_stub s) | 36 => Some (uart_handler_stub s)
  | 128 => Some (syscall_handler_stub s) | _ => None
  end%nat.

Definition gate_ok (s : stubs) (vector : nat) (e : IdtEntry) : Prop :=
  match stub_of s vector with
  | Some a => gate_present e = true /\ gate_offset e = a /\ gdt_selector e = Gdt.KERNEL_CODE_SELECTOR /\
              gate_type e = 0xE /\ gate_dpl e = 0 /\
              gate_ist e = if (vector =? 8)%nat then Gdt.DOUBLE_FAULT_IST_NUMBER else 0
  | None => gate_present e = false
  end.

Definition stubs_ok (s : stubs) : Prop := forall v a, stub_of s v = Some a -> fits 64 a.

Lemma lookup_set_gate n f idt v :
  (n < length idt)%nat -> set_gate n f idt !! v = if decide (v = n) then Some (f (default missing (idt !! n))) else idt !! v.
Proof.
  intros. unfold set_gate. destruct (decide (v = n)) as [->|].
  - by apply list_lookup_insert_eq.
  - by apply list_lookup_insert_ne.
Qed.

Lemma lookup_set_handler n a idt v :
  (n < length idt)%nat ->
  set_gate n (set_handler a) idt !! v = if decide (v = n) then Some (set_handler a missing) else idt !! v.
Proof. apply (lookup_set_gate n (set_handler a)). Qed.

(** Selecting a stack for a gate just installed. *)
Lemma lookup_set_ist n a i idt v :
  (n < length idt)%nat ->
  set_gate n (set_ist i) (set_gate n (set_handler a) idt) !! v =
  if decide (v = n) then Some (set_ist i (set_handler a missing)) else idt !! v.
Proof.
  intros. rewrite lookup_set_gate by (unfold set_gate; by rewrite length_insert).
  rewrite !lookup_set_handler by done. rewrite (decide_True (P := n = n)) by done. by destruct (decide (v = n)).
Qed.

Lemma length_set_gate n f idt : length (set_gate n f idt) = length idt.
Proof. apply length_insert. Qed.

Lemma gate_offset_handler a e : fits 64 a -> gate_offset (set_handler a e) = a.
Proof.
  intros Ha. unfold gate_offset, set_handler. cbn [pointer_low pointer_middle pointer_high].
  unfold u16, u32, wrap, shr. rewrite !Z.shiftr_div_pow2 by lia.
  assert (forall x k, 0 <= k -> fits k (x mod 2 ^ k)) as Hm by (intros; apply Z.mod_pos_bound; lia).
  rewrite (lor_pack (a mod 2 ^ 16)) by (apply Hm || lia; lia).
  rewrite lor_pack by (unfold fits; dlia). unfold fits in *. dlia.
Qed.

Lemma handler_gate_ok s v a e : stubs_ok s -> stub_of s v = Some a -> v <> 8%nat -> gate_ok s v (set_handler a e).
Proof.
  intros Hok Hs Hv. unfold gate_ok. rewrite Hs, gate_offset_handler by (by apply (Hok v)).
  rewrite (proj2 (Nat.eqb_neq _ _)) by done. done.
Qed.

Lemma install_gates_ok s v e :
  stubs_ok s -> install_gates s IDT_initial !! v = Some e -> gate_ok s v e.
Proof.
  intros Hs. unfold install_gates. assert (length IDT_initial = 256%nat) as Hl by reflexivity.
  do 2 rewrite lookup_set_handler by (rewrite !length_set_gate, Hl; lia).
  rewrite lookup_set_ist by (rewrite !length_set_gate, Hl; lia).
  do 6 rewrite lookup_set_handler by (rewrite ?length_set_gate, Hl; lia).
  repeat match goal with |- (if decide (v = ?n) then _ else _) = _ -> _ =>
    destruct (decide (v = n)) as [->|?] end;
    try (intros [= <-]; by apply handler_gate_ok).
  - intros [= <-]. unfold gate_ok. cbn [stub_of].
    split_and!; try done. by apply (gate_offset_handler _ missing), (Hs 8%nat).
  - intros He. assert (stub_of s v = None) as E.
    { do 129 (destruct v as [|v]; [done|]). done. }
    unfold gate_ok. rewrite E. unfold IDT_initial in He. apply lookup_replicate in He as [-> _]. done.
Qed.

(** ** The interrupt lines

    An 8259 as its data sheet has it: a command write with bit 4 starts the
    initialisation sequence, in which the next data write is the vector base; after the
    sequence a data write is the interrupt mask. *)
Record pic := mkPic { icw : nat; vector_base : Z; mask : Z }.

Definition pic_write (command : bool) (v : Z) (p : pic) : pic :=
  if command then if bit v 4 then mkPic 1 (vector_base p) 0 else p
  else match icw p with
  | 1 => mkPic 2 (Z.land v 0xF8) (mask p)
  | 2 => mkPic 3 (vector_base p) (mask p)
  | 3 => mkPic 0 (vector_base p) (mask p)
  | _ => mkPic 0 (vector_base p) v
  end%nat.

Definition pics_write (w : Z * Z) (p : pic * pic) : pic * pic :=
  if w.1 =? 0x20 then (pic_write true w.2 p.1, p.2)
  else if w.1 =? 0x21 then (pic_write false w.2 p.1, p.2)
  else if w.1 =? 0xA0 then (p.1, pic_write true w.2 p.2)
  else if w.1 =? 0xA1 then (p.1, pic_write false w.2 p.2)
  else p.

(** The pair of controllers after a list of port writes. *)
Definition pics_after (l : list (Z * Z)) (p : pic * pic) : pic * pic := foldl (fun p w => pics_write w p) p l.

(** The vector an interrupt request on line [n] is delivered at; the second controller
    is behind line 2 of the first. *)
Definition irq_vector (p : pic * pic) (n : Z) : option Z :=
  if n <? 8 then if Z.testbit (mask p.1) n then None else Some (vector_base p.1 + n)
  else if Z.testbit (mask p.1) 2 || Z.testbit (mask p.2) (n - 8) then None
  else Some (vector_base p.2 + (n - 8)).

(** C36: Interrupt lines reach handlers: after `interrupts::init` on x86_64, whatever state
    the interrupt controllers were in, exactly the timer (line 0) and COM1 (line 4)
    are let through, at vectors 0x20 and 0x24, and these gates are present interrupt
    gates that enter the timer and UART stubs in the kernel code segment; all other
    lines are masked.  The fault vectors 0, 3, 6, 8, 13, 14 and the system-call vector
    enter their own stubs, the double fault on its own stack, and every other vector
    is absent. *)
Theorem interrupts_init_routes s idt_addr (l : port_log) p0 :
  stubs_ok s ->
  let '((idt, idtr), l') := init_x86 s idt_addr IDT_initial l in
  (forall n, 0 <= n < 16 ->
     irq_vector (pics_after (writes l') p0) n = if n =? 0 then Some 0x20 else if n =? 4 then Some 0x24 else None) /\
  length idt = 256%nat /\ idtr = (16 * 256 - 1, idt_addr) /\
  (forall v e, idt !! v = Some e -> gate_ok s v e).
Proof.
  intros Hs. unfold init_x86, remap_pic, init_pit, act_bind, effect, done. cbn [outb log_ports].
  unfold log_write. cbn [writes]. rewrite <- !app_assoc. cbn [app].
  split_and!; [|by unfold install_gates; rewrite !length_set_gate|done|by intros; apply install_gates_ok].
  intros n Hn. unfold pics_after. rewrite foldl_app.
  destruct (foldl _ p0 (writes l)) as [p1 p2]. cbn -[Z.eqb irq_vector].
  revert n Hn. apply range_forall. vm_compute. repeat constructor.
Qed.

Definition demo_stubs : stubs :=
  mkStubs 0xFFFFFFFF80001000 0xFFFFFFFF80001100 0xFFFFFFFF80001200 0xFFFFFFFF80001300 0xFFFFFFFF80001400
    0xFFFFFFFF80001500 0xFFFFFFFF80001600 0xFFFFFFFF80001700 0xFFFFFFFF80001800.

Lemma demo_stubs_ok : stubs_ok demo_stubs.
Proof. intros v a. do 129 (destruct v as [|v]; [cbn; intros [= <-] || done; unfold fits; lia || done|]). done. Qed.

Lemma interrupts_init_routes_witness :
  irq_vector (pics_after (writes (init_x86 demo_stubs 0xFFFFFFFF80100000 IDT_initial (mkLog [])).2)
    (mkPic 0 8 0, mkPic 0 0x70 0)) 4 = Some 0x24.
Proof.
  pose proof (interrupts_init_routes demo_stubs 0xFFFFFFFF80100000 (mkLog []) (mkPic 0 8 0, mkPic 0 0x70 0)
    demo_stubs_ok) as Hw.
  destruct (init_x86 demo_stubs 0xFFFFFFFF80100000 IDT_initial (mkLog [])) as [[idt idtr] l'].
  destruct Hw as [Hw _]. exact (Hw 4 ltac:(lia)).
Defined.

(** The system-call gate has privilege level 0, below the level of the user code
    segment: an `int 0x80` in ring 3 raises a general protection fault, whose handler
    terminates the process, instead of entering `syscall_handler_stub`. *)
Theorem syscall_gate_closed_to_user s e :
  stubs_ok s -> install_gates s IDT_initial !! 0x80%nat = Some e ->
  gate_offset e = syscall_handler_stub s /\ gate_dpl e < Gdt.selector_rpl Gdt.USER_CODE_SELECTOR /\
  forall {P : Type} `{FA : FrameAllocator P} `{KA : !KernelArch P} show show_hex rip (k : kernel P),
    rip_in_user_range rip = true ->
    fst (fault_common_handler show show_hex 13 (0x80 * 8 + 2) rip 0 k) = TaskExit.
Proof.
  intros Hs He. apply (install_gates_ok s 0x80%nat) in He as (_ & Ho & _ & _ & Hd & _); [|done].
  split_and!; [done|rewrite Hd; reflexivity|]. intros P FA KA show show_hex rip k Hr.
  unfold fault_common_handler, is_user_fault. cbn [Z.eqb Pos.eqb]. rewrite Hr. done.
Qed.

Lemma syscall_gate_closed_to_user_witness :
  exists e, install_gates demo_stubs IDT_initial !! 0x80%nat = Some e /\ gate_dpl e < 3.
Proof.
  assert (exists e, install_gates demo_stubs IDT_initial !! 0x80%nat = Some e) as [e He].
  { destruct (lookup_lt_is_Some_2 (install_gates demo_stubs IDT_initial) 0x80%nat) as [e He]; [|by exists e].
    unfold install_gates. rewrite !length_set_gate. unfold IDT_initial. rewrite length_replicate. lia. }
  exists e. split; [exact He|]. exact (proj1 (proj2 (syscall_gate_closed_to_user demo_stubs e demo_stubs_ok He))).
Defined.

(** The two places that program the interval timer agree, and on 100 Hz: the rate they
    set is off by less than one tick in ten thousand. *)
Lemma pit_programmed_once (l : port_log) : timer_init l = init_pit l.
Proof. done. Qed.

Lemma pit_rate : 10000 * Z.abs (PIT_FREQ - TIMER_HZ * 11931) < PIT_FREQ.
Proof. done. Qed.

(** ** The UART interrupt *)

(** The receive interrupt moves what is waiting in the receiver to the input ring, in
    order and without an endless loop, on both machines: as many bytes as there is
    room for are appended, the rest is dropped, the receiver is left empty, and the
    interrupt is acknowledged (at the PIC, or at the PL011 with the timer re-armed). *)
Theorem uart_irq_drains {P : Type} `{PortIO P} {M : Type} `{Mmio M} (fifo : P -> list Z) (fifo' : M -> list Z)
    (r : ring) (t : generic_timer) (p : P) (m : M) fuel :
  fifo_laws fifo com1_available (inb COM1_DATA) -> fifo_laws fifo' pl011_available pl011_get ->
  ring_ok r -> (length (fifo p) < fuel)%nat -> (length (fifo' m) < fuel)%nat ->
  (exists r' q, raw_uart_interrupt_handler fuel r p = (Some r', outb 0x20 0x20 q) /\ fifo q = [] /\
     ring_ok r' /\ contents r' = contents r ++ take (127 - length (contents r)) (fifo p)) /\
  (exists r' q, handle_irq fuel r t m = (Some (r', reset_timer t), mmio_write uart_icr 0x7FF q) /\ fifo' q = [] /\
     ring_ok r' /\ contents r' = contents r ++ take (127 - length (contents r)) (fifo' m)).
Proof.
  intros L L' Hok Hf Hf'. split.
  - destruct (drain_fifo_all fifo _ _ enqueue_byte fuel r p L Hf) as (q & E & Hq).
    destruct (enqueue_burst (fifo p) r Hok) as [Hok' Hc].
    eexists _, q. unfold raw_uart_interrupt_handler, act_bind. by rewrite E.
  - destruct (drain_fifo_all fifo' _ _ enqueue_byte fuel r m L' Hf') as (q & E & Hq).
    destruct (enqueue_burst (fifo' m) r Hok) as [Hok' Hc].
    eexists _, q. unfold handle_irq, act_bind. by rewrite E.
Qed.

(** A receiver that is nothing but its FIFO, behind either interface. *)
Record receiver := mkReceiver { waiting : list Z }.

Definition receiver_pop (d : receiver) : Z * receiver :=
  match waiting d with [] => (0, d) | b :: q => (b, mkReceiver q) end.

#[export] Instance receiver_ports : PortIO receiver := {|
  inb port d := if port =? COM1_LSR then (match waiting d with [] => 0x60 | _ => 0x61 end, d) else receiver_pop d;
  outb _ _ d := d; inw _ := done 0; outw _ _ d := d; inl _ := done 0; outl _ _ d := d
|}.

#[export] Instance receiver_mmio : Mmio receiver := {|
  mmio_read a d := if a =? uart_fr then (match waiting d with [] => 0x90 | _ => 0x80 end, d)
                   else let '(b, d') := receiver_pop d in (u8 b, d');
  mmio_write _ _ d := d
|}.

Lemma receiver_ports_laws : fifo_laws waiting com1_available (inb COM1_DATA).
Proof.
  split.
  - intros [[|b q]]; done.
  - intros [l] b q E. cbn in E. by rewrite E.
Qed.

Lemma receiver_mmio_laws :
  fifo_laws (fun d => map u8 (waiting d)) pl011_available pl011_get.
Proof.
  split.
  - intros [[|b q]]; done.
  - intros [[|c l]] b q E; [done|]. cbn in E. injection E as <- <-. split; [|done].
    exact (Z.mod_mod c (2 ^ 8) ltac:(lia)).
Qed.

Lemma uart_irq_drains_witness :
  exists r' q, raw_uart_interrupt_handler 3 ring_new (mkReceiver [104; 105]) = (Some r', q) /\ contents r' = [104; 105].
Proof.
  destruct (uart_irq_drains waiting (fun d => map u8 (waiting d)) ring_new (mkTimer 62500000 0 1)
    (mkReceiver [104; 105]) (mkReceiver []) 3 receiver_ports_laws receiver_mmio_laws ring_new_ok)
    as [(r' & q & E & _ & _ & Hc) _].
  - cbn. lia.
  - cbn. lia.
  - exists r', (outb 0x20 0x20 q). split; [exact E|exact Hc].
Defined.

(** ** Fault containment *)
Section containment.
Context {P : Type} `{FA : FrameAllocator P} `{KA : !KernelArch P}.
Context (show show_hex show_hex2 show_hex16 : Z -> list Z) (OS_VERSION OS_ARCH : list Z).
Implicit Types k : kernel P.

(** The tasks other than the current one, and the scheduler's position. *)
Definition others_kept k k' : Prop :=
  CURRENT_TASK (ks k') = CURRENT_TASK (ks k) /\
  (forall i, i <> CURRENT_TASK (ks k) -> TASKS (ks k') !! i = TASKS (ks k) !! i).

Lemma resolve_fault_returns addr present user k :
  fa_ok (pmm (vm (ks k))) -> exists b k', resolve_fault addr present user k = (Returns b, k') /\
    TASKS (ks k') = TASKS (ks k) /\ CURRENT_TASK (ks k') = CURRENT_TASK (ks k).
Proof.
  intros Hok. unfold resolve_fault, handle_page_fault. destruct present; [by eexists _, _|].
  destruct (fa_alloc (pmm (vm (ks k)))) as [[f|] p'] eqn:E; [|by eexists _, _].
  destruct (fa_alloc_some _ _ _ Hok E) as (_ & _ & Hf & _). rewrite (proj2 (Z.eqb_neq f 0)) by lia.
  destruct (map_page _ _ _ _ _) as [r m]. by eexists _, _.
Qed.

Lemma exit_keeps k i : i <> CURRENT_TASK (ks k) -> TASKS (exit (ks k)) !! i = TASKS (ks k) !! i.
Proof. intros Hi. unfold exit, set_task. cbn [TASKS]. by apply list_lookup_insert_ne. Qed.

Lemma exit_terminates k : (CURRENT_TASK (ks k) < length (TASKS (ks k)))%nat ->
  state (task (exit (ks k)) (CURRENT_TASK (ks k))) = Terminated.
Proof.
  intros Hc. unfold exit, set_task, task. cbn [TASKS]. rewrite nth_lookup, list_lookup_insert_eq by done. done.
Qed.

(** What the x86_64 fault handler does with a fault it cannot resolve. *)
Lemma unresolved_fault vector error_code rip cr2 k :
  fa_ok (pmm (vm (ks k))) ->
  exists b k0, TASKS (ks k0) = TASKS (ks k) /\ CURRENT_TASK (ks k0) = CURRENT_TASK (ks k) /\
    (b = true -> vector = 14) /\
    fault_common_handler show show_hex vector error_code rip cr2 k =
    if b then (Resumed, k0)
    else if is_user_fault vector error_code rip && negb (vector =? 8)
         then exit_task (print_line (bytes_of "[OS] Terminating isolated task...")
                (print_line ([13; 10] ++ bytes_of "[OS] User process triggered " ++ fault_name vector ++
                   bytes_of " (vector " ++ show vector ++ bytes_of ") at RIP: 0x" ++ show_hex rip) k0))
         else (KernelPanic, k0).
Proof.
  intros Hok. unfold fault_common_handler. destruct (Z.eqb_spec vector 14) as [->|Hv].
  - destruct (resolve_fault_returns cr2 (bit error_code 0) (bit error_code 2) k Hok) as (b & k0 & E & Ht & Hc).
    rewrite E. exists b, k0. split_and!; [done..|]. by destruct b.
  - exists false, k. split_and!; done.
Qed.
End containment.



(** Trap containment on AArch64.  A trap from EL0 never panics the kernel: `svc` is the
    system call its registers ask for, and anything else terminates the current task
    without changing another task or any page table.  A synchronous exception at EL1
    never terminates a task: it is an abort that the page-fault handler resolved, or
    the kernel panics. *)
Theorem aarch64_trap_contained {P : Type} `{FA : FrameAllocator P} `{KA : !KernelArch P}
    show show_hex2 show_hex16 OS_VERSION OS_ARCH esr far elr sysno a0 a1 a2 (k : kernel P) :
  fa_ok (pmm (vm (ks k))) -> (CURRENT_TASK (ks k) < length (TASKS (ks k)))%nat ->
  (let '(r, k') := handle_el0_sync_trap show show_hex2 show_hex16 OS_VERSION OS_ARCH esr far elr sysno a0 a1 a2 k in
   if exception_class esr =? 0x15 then (r, k') = syscall_handler OS_VERSION OS_ARCH show sysno a0 a1 a2 k
   else r = SysExit /\ others_kept k k' /\ vm (ks k') = vm (ks k) /\
        state (task (ks k') (CURRENT_TASK (ks k))) = Terminated) /\
  (let '(r, k') := handle_el1_sync_exception show_hex2 show_hex16 esr far elr k in
   TASKS (ks k') = TASKS (ks k) /\
   (r = KernelPanic \/ r = Resumed /\ is_abort (exception_class esr) = true)).
Proof.
  intros Hok Hcur. split.
  - unfold handle_el0_sync_trap. destruct (exception_class esr =? 0x15).
    + by destruct (syscall_handler _ _ _ _ _ _ _ k).
    + split_and!; [done| |done|by apply (exit_terminates k)].
      split; [done|]. intros i Hi. by apply (exit_keeps k).
  - unfold handle_el1_sync_exception. destruct (is_abort (exception_class esr)) eqn:Ea.
    + edestruct resolve_fault_returns as (b & k0 & -> & Ht & Hc); [done|]. destruct b; [|by split; [|left]].
      split; [done|]. by right.
    + by split; [|left].
Qed.

Lemma aarch64_trap_contained_witness :
  fst (handle_el0_sync_trap (fun _ => []) (fun _ => []) (fun _ => []) [] [] 0x92000004 0 0 0 0 0 0 demo_user_kernel)
  = SysExit.
Proof.
  pose proof (aarch64_trap_contained (fun _ => []) (fun _ => []) (fun _ => []) [] [] 0x92000004 0 0 0 0 0 0
    demo_user_kernel) as Hw.
  destruct (handle_el0_sync_trap _ _ _ _ _ _ _ _ _ _ _ _ _) as [r k'].
  destruct Hw as [Hw _].
  - apply demo_user_context.
  - cbn. lia.
  - exact (proj1 Hw).
Defined.
