(* ===== verification/Traps.v ===== *)
(** * The assembly around the handlers (src/src/interrupts.rs, the `global_asm!` blocks)

    The x86_64 stubs and the AArch64 vector bodies, instruction by instruction, on a
    CPU with its general registers, a stack pointer and a stack of quadwords.  What a
    Rust function does when it is called is a parameter restricted by the calling
    convention: it may change the caller-saved registers, the stack below the
    pointer and the kernel state.  Stack pointers are not near the ends of the address
    space, so their arithmetic does not wrap. *)
From S2P Require Import Prelude.

(** A store of quadwords by address. *)
Abbreviation stack := (Z -> Z).
Definition put (a v : Z) (s : stack) : stack := fun x => if x =? a then v else s x.

(** The [n] quadwords from [a] on. *)
Definition quads (n : nat) (s : stack) (a : Z) : list Z := map (fun i => s (a + 8 * Z.of_nat i)) (seq 0 n).

Lemma length_quads n s a : length (quads n s a) = n.
Proof. unfold quads. by rewrite length_map, length_seq. Qed.

Lemma quads_S n s a : quads (S n) s a = s a :: quads n s (a + 8).
Proof.
  unfold quads. rewrite <- cons_seq, <- seq_shift. cbn [map]. f_equal; [f_equal; lia|].
  rewrite map_map. apply map_ext. intros i. f_equal. lia.
Qed.

Lemma quads_app n n' s a : quads (n + n') s a = quads n s a ++ quads n' s (a + 8 * Z.of_nat n).
Proof.
  revert a. induction n as [|n IH]; intros a; cbn [Nat.add]; [by replace (a + 8 * Z.of_nat 0) with a by lia|].
  rewrite !quads_S, IH. cbn [app]. do 3 f_equal. lia.
Qed.

Lemma quads_ext n s s' a :
  (forall x, a <= x < a + 8 * Z.of_nat n -> s x = s' x) -> quads n s a = quads n s' a.
Proof. intros H. apply map_ext_in. intros i Hi%in_seq. apply H. lia. Qed.

Module X86.
Inductive reg := rax | rbx | rcx | rdx | rsi | rdi | rbp | r8 | r9 | r10 | r11 | r12 | r13 | r14 | r15.
#[export] Instance reg_eq_dec : EqDecision reg.
Proof. solve_decision. Defined.

Record cpu (K : Type) := mkCpu {
  regs : reg -> Z; sp : Z; rip : Z; cs : Z; rflags : Z; ss : Z; mem : stack; kernel : K;
}.
Arguments mkCpu {K}. Arguments regs {K}. Arguments sp {K}. Arguments rip {K}. Arguments cs {K}.
Arguments rflags {K}. Arguments ss {K}. Arguments mem {K}. Arguments kernel {K}.

Definition set_reg {K} (r : reg) (v : Z) (c : cpu K) : cpu K :=
  mkCpu (fun x => if decide (x = r) then v else regs c x) (sp c) (rip c) (cs c) (rflags c) (ss c) (mem c) (kernel c).
Definition set_sp {K} (a : Z) (c : cpu K) : cpu K :=
  mkCpu (regs c) a (rip c) (cs c) (rflags c) (ss c) (mem c) (kernel c).
Definition set_mem {K} (s : stack) (c : cpu K) : cpu K :=
  mkCpu (regs c) (sp c) (rip c) (cs c) (rflags c) (ss c) s (kernel c).
Definition set_kernel {K} (k : K) (c : cpu K) : cpu K :=
  mkCpu (regs c) (sp c) (rip c) (cs c) (rflags c) (ss c) (mem c) k.

Inductive instr :=
| Push (r : reg) | PushImm (v : Z) | Pop (r : reg)
| Mov (d s : reg) | MovImm (d : reg) (v : Z) | MovAl (v : Z)
| MovFromSp (d : reg) | MovToSp (s : reg)
| Load (d : reg) (off : Z) | Store (off : Z) (s : reg)
| AddSp (n : Z) | OutEoi | Call (f : string).

(** What the CPU pushes when it takes an interrupt on the stack ending at [top], and what
    `iretq` takes back. *)
Definition enter {K} (top : Z) (c : cpu K) : cpu K :=
  let m := put (top - 40) (rip c) (put (top - 32) (cs c) (put (top - 24) (rflags c)
             (put (top - 16) (sp c) (put (top - 8) (ss c) (mem c))))) in
  set_sp (top - 40) (set_mem m c).
Definition enter_err {K} (top err : Z) (c : cpu K) : cpu K :=
  let c := enter top c in set_sp (sp c - 8) (set_mem (put (sp c - 8) err (mem c)) c).
Definition iretq {K} (c : cpu K) : cpu K :=
  let a := sp c in
  mkCpu (regs c) (mem c (a + 24)) (mem c a) (mem c (a + 8)) (mem c (a + 16)) (mem c (a + 32)) (mem c) (kernel c).

Section exec.
Context {K : Type} (call : string -> cpu K -> cpu K) (eoi : K -> K).

Definition exec1 (c : cpu K) (i : instr) : cpu K :=
  match i with
  | Push r => set_sp (sp c - 8) (set_mem (put (sp c - 8) (regs c r) (mem c)) c)
  | PushImm v => set_sp (sp c - 8) (set_mem (put (sp c - 8) v (mem c)) c)
  | Pop r => set_sp (sp c + 8) (set_reg r (mem c (sp c)) c)
  | Mov d s => set_reg d (regs c s) c
  | MovImm d v => set_reg d v c
  | MovAl v => set_reg rax (Z.lor (Z.land (regs c rax) (not64 0xFF)) v) c
  | MovFromSp d => set_reg d (sp c) c
  | MovToSp s => set_sp (regs c s) c
  | Load d off => set_reg d (mem c (sp c + off)) c
  | Store off s => set_mem (put (sp c + off) (regs c s) (mem c)) c
  | AddSp n => set_sp (sp c + n) c
  | OutEoi => set_kernel (eoi (kernel c)) c
  | Call f => call f c
  end.

Definition exec (c : cpu K) (code : list instr) : cpu K := foldl exec1 c code.

(** *** The stubs *)
Definition caller_saved : list reg := [rax; rcx; rdx; rsi; rdi; r8; r9; r10; r11].
Definition all_saved : list reg := [rax; rbx; rcx; rdx; rsi; rdi; rbp; r8; r9; r10; r11; r12; r13; r14; r15].

Definition exception_handler_stub : list instr :=
  map Push caller_saved ++ [Call "generic_exception_handler"] ++ map Pop (rev caller_saved).

Definition uart_handler_stub : list instr :=
  map Push caller_saved ++ [Call "raw_uart_interrupt_handler"] ++ map Pop (rev caller_saved).

Definition timer_handler_stub : list instr :=
  map Push all_saved ++
  [MovFromSp rdi; Call "schedule"; MovToSp rax; MovAl 0x20; OutEoi] ++
  map Pop (rev all_saved).

Definition syscall_handler_stub : list instr :=
  map Push caller_saved ++
  [Mov rdi rax; Mov rsi rbx; Mov rdx rcx; Mov rcx r8; Call "syscall_handler"; Store 64 rax] ++
  map Pop (rev caller_saved).

(** The macros `EXC_NOERR` and `EXC_ERR`. *)
Definition EXC_ERR (vector : Z) : list instr :=
  map Push caller_saved ++
  [MovImm rdi vector; Load rsi 72; Load rdx 80; Call "fault_common_handler"] ++
  map Pop (rev caller_saved) ++ [AddSp 8].
Definition EXC_NOERR (vector : Z) : list instr := PushImm 0 :: EXC_ERR vector.

Definition divide_error_stub : list instr := EXC_NOERR 0.
Definition invalid_opcode_stub : list instr := EXC_NOERR 6.
Definition double_fault_stub : list instr := EXC_ERR 8.
Definition general_protection_fault_stub : list instr := EXC_ERR 13.
Definition page_fault_stub : list instr := EXC_ERR 14.
End exec.

(** ** Saving and restoring *)
Lemma map_eq_elem {A B} (f g : A -> B) l x : map f l = map g l -> x ∈ l -> f x = g x.
Proof.
  induction l as [|y l IH]; intros E Hx; [by apply elem_of_nil in Hx|]. cbn in E. injection E as E1 E2.
  apply elem_of_cons in Hx as [->|Hx]; [done|]. by apply IH.
Qed.

Section stubs.
Context {K : Type} (call : string -> cpu K -> cpu K) (eoi : K -> K).
Implicit Types c : cpu K.

Lemma exec_app c l l' : exec call eoi c (l ++ l') = exec call eoi (exec call eoi c l) l'.
Proof using. apply foldl_app. Qed.

Lemma exec_push rs c :
  let c' := exec call eoi c (map Push rs) in
  regs c' = regs c /\ sp c' = sp c - 8 * Z.of_nat (length rs) /\ kernel c' = kernel c /\
  (forall a, sp c <= a -> mem c' a = mem c a) /\
  quads (length rs) (mem c') (sp c') = map (regs c) (rev rs).
Proof using.
  revert c. induction rs as [|r rs IH]; intros c c'.
  { subst c'. cbn. split_and!; try done. lia. }
  pose proof (IH (exec1 call eoi c (Push r))) as (E1 & E2 & E3 & E4 & E5).
  change (exec call eoi (exec1 call eoi c (Push r)) (map Push rs)) with c' in *.
  cbn [exec1 set_sp set_mem regs sp kernel mem] in *. split_and!; [done|cbn [length]; lia|done| |].
  - intros a Ha. rewrite E4 by lia. unfold put. zcases; done.
  - cbn [rev length]. rewrite map_app, <- E5, <- Nat.add_1_r, quads_app. f_equal.
    rewrite quads_S. cbn [quads seq map]. f_equal. rewrite E4 by lia. unfold put. zcases; done.
Qed.

Lemma exec_pop rs c :
  NoDup rs ->
  let c' := exec call eoi c (map Pop rs) in
  sp c' = sp c + 8 * Z.of_nat (length rs) /\ kernel c' = kernel c /\ mem c' = mem c /\
  map (regs c') rs = quads (length rs) (mem c) (sp c) /\ (forall r, r ∉ rs -> regs c' r = regs c r).
Proof using.
  revert c. induction rs as [|r rs IH]; intros c Hnd c'.
  { subst c'. cbn. split_and!; try done. lia. }
  apply NoDup_cons in Hnd as [Hr Hnd].
  pose proof (IH (exec1 call eoi c (Pop r)) Hnd) as (E1 & E2 & E3 & E4 & E5).
  change (exec call eoi (exec1 call eoi c (Pop r)) (map Pop rs)) with c' in *.
  cbn [exec1 set_sp set_reg regs sp kernel mem] in *. split_and!; [cbn [length]; lia|done|done| |].
  - cbn [map length]. rewrite quads_S, <- E4. f_equal. rewrite E5 by done. by rewrite decide_True.
  - intros x [Hx Hx']%not_elem_of_cons. rewrite E5 by done. by rewrite decide_False.
Qed.

(** The calling convention, from the caller's side. *)
Record abi (c c' : cpu K) : Prop := {
  abi_sp : sp c' = sp c;
  abi_saved : forall r, r ∉ caller_saved -> regs c' r = regs c r;
  abi_mem : forall a, sp c <= a -> mem c' a = mem c a;
}.

Lemma caller_saved_nodup : NoDup (rev caller_saved).
Proof using. refine (bool_decide_unpack _ _). vm_compute. exact I. Qed.

Lemma elem_rev_caller_saved r : r ∈ rev caller_saved <-> r ∈ caller_saved.
Proof using. rewrite !list_elem_of_In, <- in_rev. done. Qed.

(** The frame `iretq` finds is the one the CPU pushed, as long as nobody writes above it. *)
Lemma enter_frame top c a :
  top - 40 <= a -> mem (enter top c) a =
  if a =? top - 40 then rip c else if a =? top - 32 then cs c else if a =? top - 24 then rflags c
  else if a =? top - 16 then sp c else if a =? top - 8 then ss c else mem c a.
Proof using. done. Qed.

(** Back where it was interrupted: the control state of [c] and its stack above [top]. *)
Definition resumed (top : Z) (c c' : cpu K) : Prop :=
  rip c' = rip c /\ cs c' = cs c /\ rflags c' = rflags c /\ ss c' = ss c /\ sp c' = sp c /\
  (forall a, top <= a -> mem c' a = mem c a).

Lemma iretq_resumes top c c' :
  sp c' = top - 40 -> (forall a, top - 40 <= a -> mem c' a = mem (enter top c) a) -> resumed top c (iretq c').
Proof using.
  intros Hsp Hm. unfold resumed, iretq. cbn [rip cs rflags ss sp mem]. rewrite Hsp.
  rewrite !Hm by lia. rewrite !enter_frame by lia.
  split_and!; [zcases; done..|]. intros a Ha. rewrite Hm, enter_frame by lia. zcases; done.
Qed.

(** *** The frame every stub but the timer's uses *)
Definition saved (c : cpu K) : cpu K := exec call eoi c (map Push caller_saved).

Lemma saved_spec c :
  regs (saved c) = regs c /\ sp (saved c) = sp c - 72 /\ kernel (saved c) = kernel c /\
  (forall a, sp c <= a -> mem (saved c) a = mem c a) /\
  quads 9 (mem (saved c)) (sp c - 72) = map (regs c) (rev caller_saved).
Proof using.
  pose proof (exec_push caller_saved c) as (R & S & Kn & M & Q). unfold saved.
  revert R S Kn M Q. generalize (exec call eoi c (map Push caller_saved)). intros c1 R S Kn M Q.
  change (8 * Z.of_nat (length caller_saved)) with 72 in S. rewrite S in Q. by split_and!.
Qed.

(** What the code between the pushes and the pops must leave, and what the stub then does. *)
Lemma framed c mid c2 c3 :
  c2 = exec call eoi (saved c) mid ->
  c3 = exec call eoi c (map Push caller_saved ++ mid ++ map Pop (rev caller_saved)) ->
  sp c2 = sp c - 72 -> (forall r, r ∉ caller_saved -> regs c2 r = regs c r) ->
  (forall a, sp c <= a -> mem c2 a = mem c a) ->
  sp c3 = sp c /\ kernel c3 = kernel c2 /\ (forall a, sp c <= a -> mem c3 a = mem c a) /\
  (forall r, r ∉ caller_saved -> regs c3 r = regs c r) /\
  map (regs c3) (rev caller_saved) = quads 9 (mem c2) (sp c - 72).
Proof using.
  unfold saved. intros E2 -> S2 R2 M2. rewrite !exec_app. rewrite <- E2. clear E2.
  pose proof (exec_pop (rev caller_saved) c2 caller_saved_nodup) as (S3 & K3 & M3 & Q3 & R3).
  revert S3 K3 M3 Q3 R3. generalize (exec call eoi c2 (map Pop (rev caller_saved))). intros c3 S3 K3 M3 Q3 R3.
  change (8 * Z.of_nat (length (rev caller_saved))) with 72 in *. change (length (rev caller_saved)) with 9%nat in *.
  split_and!; [lia|done|by rewrite M3| |by rewrite Q3, S2].
  intros r Hr. rewrite R3 by (by rewrite elem_rev_caller_saved). by apply R2.
Qed.

Lemma restored_regs (f : reg -> Z) c3 c vs :
  map (regs c3) (rev caller_saved) = vs -> vs = map f (rev caller_saved) ->
  (forall r, r ∉ caller_saved -> regs c3 r = regs c r) -> (forall r, r ∉ caller_saved -> f r = regs c r) ->
  forall r, regs c3 r = f r.
Proof using.
  intros E E' H1 H2 r. destruct (decide (r ∈ caller_saved)) as [Hr|Hr].
  - apply (map_eq_elem _ _ (rev caller_saved)); [congruence|by apply elem_rev_caller_saved].
  - by rewrite H1, H2.
Qed.

(** *** Handlers that only borrow the CPU *)
Lemma borrowed_cpu top c f c3 :
  (forall c, abi c (call f c)) ->
  c3 = exec call eoi (enter top c) (map Push caller_saved ++ [Call f] ++ map Pop (rev caller_saved)) ->
  resumed top c (iretq c3) /\ (forall r, regs (iretq c3) r = regs c r) /\
  kernel (iretq c3) = kernel (call f (saved (enter top c))).
Proof using.
  intros Habi E3. pose proof (saved_spec (enter top c)) as (R1 & S1 & K1 & M1 & Q1).
  pose proof (framed (enter top c) [Call f] (call f (saved (enter top c))) c3 eq_refl E3) as F. clear E3.
  revert F. generalize (saved (enter top c)) R1 S1 K1 M1 Q1. clear R1 S1 K1 M1 Q1. intros c1 R1 S1 K1 M1 Q1 F.
  destruct (Habi c1) as [S2 R2 M2]. destruct F as (S3 & K3 & M3 & R3 & Q3).
  - by rewrite S2.
  - intros r Hr. rewrite R2 by done. by rewrite R1.
  - intros a Ha. rewrite M2 by lia. by apply M1.
  - split_and!; [by apply iretq_resumes| |done].
    apply (restored_regs _ c3 c _ Q3); [|done|done].
    change (regs c) with (regs (enter top c)). rewrite <- Q1. apply quads_ext. intros a Ha. apply M2. lia.
Qed.

(** The state in which the system-call handler is called. *)
Definition syscall_call (c : cpu K) : cpu K :=
  exec call eoi (saved c) [Mov rdi rax; Mov rsi rbx; Mov rdx rcx; Mov rcx r8].

Lemma syscall_call_spec c :
  let c1 := syscall_call c in
  regs c1 rdi = regs c rax /\ regs c1 rsi = regs c rbx /\ regs c1 rdx = regs c rcx /\ regs c1 rcx = regs c r8 /\
  kernel c1 = kernel c /\ sp c1 = sp c - 72 /\ (forall r, r ∉ caller_saved -> regs c1 r = regs c r) /\
  (forall a, sp c <= a -> mem c1 a = mem c a) /\ quads 9 (mem c1) (sp c - 72) = map (regs c) (rev caller_saved).
Proof using.
  destruct (saved_spec c) as (R1 & S1 & K1 & M1 & Q1). unfold syscall_call.
  generalize dependent (saved c). intros c0 R1 S1 K1 M1 Q1. unfold exec. cbn [foldl exec1 set_reg regs sp mem kernel].
  rewrite !R1. split_and!; try done.
  intros r Hr. repeat (rewrite decide_False by (intros ->; by contradict Hr; refine (bool_decide_unpack _ _))). done.
Qed.

(** The quadword at offset 64 of the frame is the one `pop rax` reads. *)
Lemma quads_store (s : stack) a v vs :
  quads 9 s a = map vs (rev caller_saved) ->
  quads 9 (put (a + 64) v s) a = map (fun r => if decide (r = rax) then v else vs r) (rev caller_saved).
Proof using.
  intros Q. change 9%nat with (8 + 1)%nat in *. rewrite quads_app in *.
  change (rev caller_saved) with ([r11; r10; r9; r8; rdi; rsi; rdx; rcx] ++ [rax]) in *.
  rewrite map_app in *. apply app_inj_1 in Q as [Q _]; [|by rewrite length_quads].
  f_equal.
  - replace (quads 8 (put (a + 64) v s) a) with (quads 8 s a); [by rewrite Q|].
    apply quads_ext. intros x Hx. unfold put. zcases; done.
  - cbn. unfold put. zcases. done.
Qed.

Lemma syscall_stub top c c3 :
  (forall c, abi c (call "syscall_handler" c)) -> c3 = exec call eoi (enter top c) syscall_handler_stub ->
  let c1 := syscall_call (enter top c) in
  resumed top c (iretq c3) /\ regs (iretq c3) rax = regs (call "syscall_handler" c1) rax /\
  (forall r, r <> rax -> regs (iretq c3) r = regs c r) /\ kernel (iretq c3) = kernel (call "syscall_handler" c1).
Proof using.
  intros Habi E3 c1. pose proof (syscall_call_spec (enter top c)) as (_ & _ & _ & _ & _ & S1 & R1 & M1 & Q1).
  fold c1 in S1, R1, M1, Q1.
  pose proof (framed (enter top c) [Mov rdi rax; Mov rsi rbx; Mov rdx rcx; Mov rcx r8; Call "syscall_handler"; Store 64 rax]
    (exec1 call eoi (call "syscall_handler" c1) (Store 64 rax)) c3 eq_refl E3) as F. clear E3.
  clearbody c1. destruct (Habi c1) as [S2 R2 M2]. revert S2 R2 M2 F.
  generalize (call "syscall_handler" c1) as c2. intros c2 S2 R2 M2 F.
  cbn [exec1 set_mem sp regs mem kernel] in F. destruct F as (S3 & K3 & M3 & R3 & Q3).
  - congruence.
  - intros r Hr. by rewrite R2, R1.
  - intros a Ha. unfold put. rewrite S2, S1. zcases. rewrite M2 by lia. by apply M1.
  - assert (forall r, regs c3 r = if decide (r = rax) then regs c2 rax else regs c r) as Hregs.
    { apply (restored_regs _ c3 c _ Q3); [|done|].
      - rewrite S2, S1. apply (quads_store _ _ _ (regs c)). change (regs c) with (regs (enter top c)). rewrite <- Q1.
        apply quads_ext. intros a Ha. apply M2. lia.
      - intros r Hr. rewrite decide_False; [done|]. intros ->. by contradict Hr; refine (bool_decide_unpack _ _). }
    split_and!; [by apply iretq_resumes|exact (Hregs rax)| |done].
    intros r Hr. change (regs (iretq c3) r) with (regs c3 r). rewrite Hregs. by rewrite decide_False.
Qed.

(** *** Faults *)
Definition fault_call (vector : Z) (c : cpu K) : cpu K :=
  exec call eoi (saved c) [MovImm rdi vector; Load rsi 72; Load rdx 80].

Lemma fault_call_spec vector c :
  let c1 := fault_call vector c in
  regs c1 rdi = vector /\ regs c1 rsi = mem c (sp c) /\ regs c1 rdx = mem c (sp c + 8) /\ kernel c1 = kernel c /\
  sp c1 = sp c - 72 /\ (forall r, r ∉ caller_saved -> regs c1 r = regs c r) /\
  (forall a, sp c <= a -> mem c1 a = mem c a) /\ quads 9 (mem c1) (sp c - 72) = map (regs c) (rev caller_saved).
Proof using.
  destruct (saved_spec c) as (R1 & S1 & K1 & M1 & Q1). unfold fault_call.
  generalize dependent (saved c). intros c0 R1 S1 K1 M1 Q1. unfold exec. cbn [foldl exec1 set_reg regs sp mem kernel].
  rewrite S1. replace (sp c - 72 + 72) with (sp c) by lia. replace (sp c - 72 + 80) with (sp c + 8) by lia.
  rewrite !M1 by lia. split_and!; try done.
  intros r Hr. repeat (rewrite decide_False by (intros ->; by contradict Hr; refine (bool_decide_unpack _ _))). by rewrite R1.
Qed.

Definition exc_body (vector : Z) : list instr :=
  [MovImm rdi vector; Load rsi 72; Load rdx 80; Call "fault_common_handler"].

Lemma exc_err_code vector :
  EXC_ERR vector = (map Push caller_saved ++ exc_body vector ++ map Pop (rev caller_saved)) ++ [AddSp 8].
Proof using. unfold EXC_ERR. by rewrite <- !app_assoc. Qed.

Lemma exec_cons c i code : exec call eoi c (i :: code) = exec call eoi (exec1 call eoi c i) code.
Proof using. reflexivity. Qed.

(** Where the processor pushes no error code the stub pushes a 0. *)
Lemma exc_noerr_enter top vector c :
  exec call eoi (enter top c) (EXC_NOERR vector) = exec call eoi (enter_err top 0 c) (EXC_ERR vector).
Proof using. unfold EXC_NOERR. by rewrite exec_cons. Qed.

(** [c] is the state with an error code on top of the interrupt frame. *)
Lemma fault_stub vector c c3 :
  (forall c, abi c (call "fault_common_handler" c)) -> c3 = exec call eoi c (EXC_ERR vector) ->
  sp c3 = sp c + 8 /\ (forall a, sp c <= a -> mem c3 a = mem c a) /\ (forall r, regs c3 r = regs c r) /\
  kernel c3 = kernel (call "fault_common_handler" (fault_call vector c)).
Proof using.
  intros Habi E3. rewrite exc_err_code, exec_app in E3.
  pose proof (fault_call_spec vector c) as (_ & _ & _ & _ & S1 & R1 & M1 & Q1).
  pose proof (framed c (exc_body vector) (call "fault_common_handler" (fault_call vector c)) _ eq_refl eq_refl) as F.
  revert S1 R1 M1 Q1 F E3. generalize (fault_call vector c). intros c1 S1 R1 M1 Q1.
  generalize (exec call eoi c (map Push caller_saved ++ exc_body vector ++ map Pop (rev caller_saved))). intros c4 F E3.
  destruct (Habi c1) as [S2 R2 M2]. revert S2 R2 M2 F. generalize (call "fault_common_handler" c1). intros c2 S2 R2 M2 F.
  destruct F as (S4 & K4 & M4 & R4 & Q4).
  - congruence.
  - intros r Hr. by rewrite R2, R1.
  - intros a Ha. rewrite M2 by lia. by apply M1.
  - subst c3. unfold exec. cbn [foldl exec1 set_sp sp mem regs kernel]. split_and!; [lia|done| |done].
    apply (restored_regs _ c4 c _ Q4); [|done|done]. rewrite <- Q1. apply quads_ext. intros a Ha. apply M2. lia.
Qed.

(** *** The timer: a context switch *)

(** A task context as `TaskContext` lays it out: the registers in the order of its fields,
    then the frame for `iretq`. *)
Definition context_regs : list reg := rev all_saved.
Definition context_at (s : stack) (a : Z) : list Z := quads 20 s a.
Definition context_of (c : cpu K) : list Z := map (regs c) context_regs ++ [rip c; cs c; rflags c; sp c; ss c].

Lemma all_saved_nodup : NoDup context_regs.
Proof using. refine (bool_decide_unpack _ _). vm_compute. exact I. Qed.

Lemma enter_quads top c : quads 5 (mem (enter top c)) (top - 40) = [rip c; cs c; rflags c; sp c; ss c].
Proof using.
  do 5 rewrite quads_S. unfold quads. cbn [map seq]. rewrite !enter_frame by lia.
  repeat f_equal; zcases; done.
Qed.

(** The state in which `schedule` is called. *)
Definition schedule_call (top : Z) (c : cpu K) : cpu K :=
  exec call eoi (enter top c) (map Push all_saved ++ [MovFromSp rdi]).

Lemma schedule_call_spec top c :
  let c1 := schedule_call top c in
  regs c1 rdi = top - 160 /\ sp c1 = top - 160 /\ kernel c1 = kernel c /\ context_at (mem c1) (top - 160) = context_of c /\
  (forall a, top <= a -> mem c1 a = mem c a).
Proof using.
  unfold schedule_call. rewrite exec_app.
  pose proof (exec_push all_saved (enter top c)) as (R & S & Kn & M & Q).
  revert R S Kn M Q. generalize (exec call eoi (enter top c) (map Push all_saved)). intros c1 R S Kn M Q.
  change (sp (enter top c) - 8 * Z.of_nat (length all_saved)) with (top - 40 - 120) in S.
  change (sp (enter top c)) with (top - 40) in M.
  cbn [exec foldl exec1 set_reg regs sp kernel mem]. rewrite S. split_and!; try done; try lia.
  - rewrite decide_True by done. lia.
  - unfold context_at, context_of. change 20%nat with (15 + 5)%nat. rewrite quads_app.
    replace (top - 160) with (top - 40 - 120) by lia. rewrite S in Q. change (length all_saved) with 15%nat in Q.
    rewrite Q. f_equal. replace (top - 40 - 120 + 8 * Z.of_nat 15) with (top - 40) by lia.
    rewrite <- (enter_quads top c). apply quads_ext. intros a Ha. apply M. lia.
  - intros a Ha. rewrite M by lia. rewrite enter_frame by lia. zcases; done.
Qed.

Lemma timer_stub top c c3 :
  c3 = exec call eoi (enter top c) timer_handler_stub ->
  let c2 := call "schedule" (schedule_call top c) in
  context_of (iretq c3) = context_at (mem c2) (regs c2 rax) /\ mem (iretq c3) = mem c2 /\
  kernel (iretq c3) = eoi (kernel c2).
Proof using.
  intros E3. cbv zeta. unfold timer_handler_stub in E3.
  change [MovFromSp rdi; Call "schedule"; MovToSp rax; MovAl 0x20; OutEoi]
    with ([MovFromSp rdi] ++ [Call "schedule"; MovToSp rax; MovAl 0x20; OutEoi]) in E3.
  rewrite <- app_assoc, app_assoc, !exec_app in E3. unfold schedule_call. rewrite exec_app.
  revert E3. generalize (exec call eoi (exec call eoi (enter top c) (map Push all_saved)) [MovFromSp rdi]). intros c1 E3.
  change (exec call eoi c1 [Call "schedule"; MovToSp rax; MovAl 0x20; OutEoi])
    with (exec call eoi (call "schedule" c1) [MovToSp rax; MovAl 0x20; OutEoi]) in E3.
  revert E3. generalize (call "schedule" c1). intros c2 E3.
  remember (exec call eoi c2 [MovToSp rax; MovAl 32; OutEoi]) as c2' eqn:E2'.
  unfold exec in E2'. cbn [foldl exec1] in E2'.
  pose proof (exec_pop (rev all_saved) c2' all_saved_nodup) as (S3 & K3 & M3 & Q3 & R3).
  rewrite <- E3 in S3, K3, M3, Q3, R3. clear E3.
  assert (sp c2' = regs c2 rax /\ mem c2' = mem c2 /\ kernel c2' = eoi (kernel c2)) as (S2 & M2 & K2) by (by subst c2').
  clear E2'. change (length (rev all_saved)) with 15%nat in *. rewrite S2, M2 in *. rewrite K2 in K3. split_and!.
  - unfold context_of, context_at, context_regs, iretq. cbn [regs rip cs rflags sp ss].
    change 20%nat with (15 + 5)%nat. rewrite quads_app, Q3, S3, M3. f_equal.
    replace (8 * Z.of_nat 15) with 120 by lia. do 5 rewrite quads_S. unfold quads. cbn [map seq].
    by rewrite <- !Z.add_assoc.
  - exact M3.
  - exact K3.
Qed.
End stubs.

(** ** What the stubs promise *)

(** C8: System calls on x86_64: for a handler that follows the calling convention and
    computes [handler], `int 0x80` resumes the caller after the instruction with its
    stack and every register unchanged except `rax`, which holds the handler's result on
    the arguments in `rax`, `rbx`, `rcx` and `r8`. *)
Theorem syscall_stub_correct {K : Type} (call : string -> cpu K -> cpu K) (eoi : K -> K)
    (handler : Z -> Z -> Z -> Z -> K -> Z * K) (top : Z) (c : cpu K) :
  (forall c, abi c (call "syscall_handler" c)) ->
  (forall c, (regs (call "syscall_handler" c) rax, kernel (call "syscall_handler" c)) =
     handler (regs c rdi) (regs c rsi) (regs c rdx) (regs c rcx) (kernel c)) ->
  let c' := iretq (exec call eoi (enter top c) syscall_handler_stub) in
  resumed top c c' /\ (forall r, r <> rax -> regs c' r = regs c r) /\
  (regs c' rax, kernel c') = handler (regs c rax) (regs c rbx) (regs c rcx) (regs c r8) (kernel c).
Proof.
  intros Habi Hh c'. destruct (syscall_stub call eoi top c _ Habi eq_refl) as (H1 & H2 & H3 & H4).
  destruct (syscall_call_spec call eoi (enter top c)) as (A1 & A2 & A3 & A4 & A5 & _).
  subst c'. split_and!; [done..|]. rewrite H2, H4, Hh, A1, A2, A3, A4, A5. done.
Qed.

(** A kernel whose functions keep to the calling convention: a system call adds its
    arguments and scratches the caller-saved registers, the others do nothing. *)
Definition demo_call (f : string) (c : cpu Z) : cpu Z :=
  if String.eqb f "syscall_handler" then
    set_kernel (kernel c + 1) (set_reg rax (regs c rdi + regs c rsi + regs c rdx + regs c rcx) (set_reg r11 99 c))
  else if String.eqb f "schedule" then set_reg rax (regs c rdi) (set_reg rcx 5 c)
  else set_reg rcx 7 (set_reg rax 1 c).
Definition demo_cpu : cpu Z := mkCpu (fun r => match r with rax => 63 | rbx => 4 | r8 => 9 | _ => 2 end)
  0x7000 0x1000 0x1B 0x202 0x23 (fun _ => 0) 0.

Lemma demo_call_abi f c : abi c (demo_call f c).
Proof.
  unfold demo_call. destruct (String.eqb f _); [|destruct (String.eqb f _)]; split; try done; intros r Hr;
    cbn [set_kernel set_reg regs];
    repeat (rewrite decide_False by (intros ->; by contradict Hr; refine (bool_decide_unpack _ _))); done.
Qed.

Lemma syscall_stub_correct_witness :
  let c' := iretq (exec demo_call id (enter 0x9000 demo_cpu) syscall_handler_stub) in
  resumed 0x9000 demo_cpu c' /\ (forall r, r <> rax -> regs c' r = regs demo_cpu r) /\
  (regs c' rax, kernel c') = (78, 1).
Proof.
  apply (syscall_stub_correct demo_call id (fun a b c d k => (a + b + c + d, k + 1))).
  - intros c. apply demo_call_abi.
  - intros c. reflexivity.
Defined.

(** Interrupts are invisible to the code they interrupt: whatever a handler that
    follows the calling convention does to the caller-saved registers, after the UART
    and exception stubs every register, the stack pointer, the flags, the program
    counter and the interrupted stack are what they were; the same holds after a fault
    stub whose handler returns, with and without a hardware error code, and the fault
    handler is given the vector, the error code (0 if the CPU pushes none) and the
    faulting instruction's address. *)
Theorem interrupt_transparent {K : Type} (call : string -> cpu K -> cpu K) (eoi : K -> K)
    (fault : Z -> Z -> Z -> K -> K) (top err vector : Z) (c : cpu K) :
  (forall f c, abi c (call f c)) ->
  (forall c, kernel (call "fault_common_handler" c) = fault (regs c rdi) (regs c rsi) (regs c rdx) (kernel c)) ->
  (forall stub, stub ∈ [uart_handler_stub; exception_handler_stub] ->
     let c' := iretq (exec call eoi (enter top c) stub) in
     resumed top c c' /\ forall r, regs c' r = regs c r) /\
  (let c' := iretq (exec call eoi (enter_err top err c) (EXC_ERR vector)) in
   resumed top c c' /\ (forall r, regs c' r = regs c r) /\ kernel c' = fault vector err (rip c) (kernel c)) /\
  (let c' := iretq (exec call eoi (enter top c) (EXC_NOERR vector)) in
   resumed top c c' /\ (forall r, regs c' r = regs c r) /\ kernel c' = fault vector 0 (rip c) (kernel c)).
Proof.
  intros Habi Hf.
  assert (forall e, let c' := iretq (exec call eoi (enter_err top e c) (EXC_ERR vector)) in
    resumed top c c' /\ (forall r, regs c' r = regs c r) /\ kernel c' = fault vector e (rip c) (kernel c)) as Herr.
  { intros e. cbv zeta.
    pose proof (fault_stub call eoi vector (enter_err top e c) _ (Habi _) eq_refl) as (S3 & M3 & R3 & K3).
    pose proof (fault_call_spec call eoi vector (enter_err top e c)) as (A1 & A2 & A3 & A4 & _).
    rewrite Hf, A1, A2, A3, A4 in K3. clear A1 A2 A3 A4.
    revert S3 M3 R3 K3. generalize (exec call eoi (enter_err top e c) (EXC_ERR vector)). intros c3 S3 M3 R3 K3.
    change (sp (enter_err top e c)) with (top - 40 - 8) in *.
    split_and!.
    - apply iretq_resumes; [lia|]. intros a Ha. rewrite M3 by lia. cbn [enter_err mem set_sp set_mem].
      change (sp (enter top c)) with (top - 40). unfold put at 1. zcases; done.
    - exact R3.
    - change (kernel (iretq c3)) with (kernel c3). rewrite K3.
      cbn [enter_err mem set_sp set_mem]. change (sp (enter top c)) with (top - 40).
      unfold put at 1 2. rewrite Z.eqb_refl. zcases. rewrite enter_frame by lia. zcases; done. }
  split; [|split; [apply Herr|rewrite exc_noerr_enter; apply Herr]].
  intros stub Hs. set_unfold in Hs. destruct Hs as [->|[->|[]]].
  - destruct (borrowed_cpu call eoi top c "raw_uart_interrupt_handler" _ (Habi _) eq_refl) as (? & ? & _). done.
  - destruct (borrowed_cpu call eoi top c "generic_exception_handler" _ (Habi _) eq_refl) as (? & ? & _). done.
Qed.

Lemma interrupt_transparent_witness :
  let c' := iretq (exec demo_call id (enter 0x9000 demo_cpu) uart_handler_stub) in
  resumed 0x9000 demo_cpu c' /\ forall r, regs c' r = regs demo_cpu r.
Proof.
  destruct (interrupt_transparent demo_call id (fun _ _ _ k => k) 0x9000 0 14 demo_cpu) as [Hw _].
  - apply demo_call_abi.
  - intros c. reflexivity.
  - apply Hw. left.
Defined.

(** C5: A timer interrupt is a context switch: `schedule` is called with a pointer to a
    frame that holds the complete interrupted context, field by field as `TaskContext`
    declares it, and the context resumed is the one stored where the pointer it returns
    points.  If it returns the pointer it was given and keeps to the calling
    convention, the interrupted code goes on as if nothing had happened. *)
Theorem timer_stub_switches {K : Type} (call : string -> cpu K -> cpu K) (eoi : K -> K) (top : Z) (c : cpu K) :
  let c1 := schedule_call call eoi top c in
  let c2 := call "schedule" c1 in
  let c' := iretq (exec call eoi (enter top c) timer_handler_stub) in
  (regs c1 rdi = top - 160 /\ context_at (mem c1) (regs c1 rdi) = context_of c /\ kernel c1 = kernel c) /\
  (context_of c' = context_at (mem c2) (regs c2 rax) /\ mem c' = mem c2 /\ kernel c' = eoi (kernel c2)) /\
  (abi c1 c2 -> regs c2 rax = regs c1 rdi -> context_of c' = context_of c).
Proof.
  cbv zeta. pose proof (timer_stub call eoi top c _ eq_refl) as (E & M & Kn).
  pose proof (schedule_call_spec call eoi top c) as (A1 & A2 & A3 & A4 & _). cbv zeta in *.
  split; [split; [exact A1|split; [rewrite A1; exact A4|exact A3]]|split; [split; [exact E|split; [exact M|exact Kn]]|]].
  intros [_ _ Hm] Hr. rewrite E, Hr, A1, <- A4. apply quads_ext. intros a Ha. apply Hm. lia.
Qed.

Lemma timer_stub_switches_witness :
  context_of (iretq (exec demo_call id (enter 0x9000 demo_cpu) timer_handler_stub)) = context_of demo_cpu.
Proof.
  destruct (timer_stub_switches demo_call id 0x9000 demo_cpu) as (_ & _ & Hw).
  apply Hw; [apply demo_call_abi|reflexivity].
Defined.
End X86.

(** ** The AArch64 vector bodies *)
Module A64.
(** The state at a vector: the processor has put the interrupted program counter and
    processor state in ELR_EL1 and SPSR_EL1 and runs on SP_EL1. *)
Record cpu (K : Type) := mkCpu {
  x : nat -> Z; sp : Z; spsr : Z; elr : Z; sp_el0 : Z; esr : Z; far : Z; mem : stack; kernel : K;
}.
Arguments mkCpu {K}. Arguments x {K}. Arguments sp {K}. Arguments spsr {K}. Arguments elr {K}.
Arguments sp_el0 {K}. Arguments esr {K}. Arguments far {K}. Arguments mem {K}. Arguments kernel {K}.

Inductive sysreg := SPSR_EL1 | ELR_EL1 | SP_EL0 | ESR_EL1 | FAR_EL1.

Definition set_x {K} (r : nat) (v : Z) (c : cpu K) : cpu K :=
  mkCpu (fun i => if decide (i = r) then v else x c i) (sp c) (spsr c) (elr c) (sp_el0 c) (esr c) (far c)
    (mem c) (kernel c).
Definition set_sp {K} (a : Z) (c : cpu K) : cpu K :=
  mkCpu (x c) a (spsr c) (elr c) (sp_el0 c) (esr c) (far c) (mem c) (kernel c).
Definition set_mem {K} (s : stack) (c : cpu K) : cpu K :=
  mkCpu (x c) (sp c) (spsr c) (elr c) (sp_el0 c) (esr c) (far c) s (kernel c).
Definition get_sys {K} (s : sysreg) (c : cpu K) : Z :=
  match s with SPSR_EL1 => spsr c | ELR_EL1 => elr c | SP_EL0 => sp_el0 c | ESR_EL1 => esr c | FAR_EL1 => far c end.
Definition set_sys {K} (s : sysreg) (v : Z) (c : cpu K) : cpu K :=
  mkCpu (x c) (sp c) (match s with SPSR_EL1 => v | _ => spsr c end) (match s with ELR_EL1 => v | _ => elr c end)
    (match s with SP_EL0 => v | _ => sp_el0 c end) (match s with ESR_EL1 => v | _ => esr c end)
    (match s with FAR_EL1 => v | _ => far c end) (mem c) (kernel c).

Inductive instr :=
| Stp (a b : nat) (off : Z) | Str (a : nat) (off : Z) | Ldp (a b : nat) (off : Z) | Ldr (a : nat) (off : Z)
| Mrs (a : nat) (s : sysreg) | Msr (s : sysreg) (a : nat)
| Lsr (d s : nat) (n : Z) | AndImm (d s : nat) (m : Z) | Mov (d s : nat)
| MovFromSp (a : nat) | MovToSp (a : nat) | AddSp (n : Z) | Bl (f : string).

Section exec.
Context {K : Type} (call : string -> cpu K -> cpu K).

Definition exec1 (c : cpu K) (i : instr) : cpu K :=
  match i with
  | Stp a b off => set_mem (put (sp c + off + 8) (x c b) (put (sp c + off) (x c a) (mem c))) c
  | Str a off => set_mem (put (sp c + off) (x c a) (mem c)) c
  | Ldp a b off => set_x b (mem c (sp c + off + 8)) (set_x a (mem c (sp c + off)) c)
  | Ldr a off => set_x a (mem c (sp c + off)) c
  | Mrs a s => set_x a (get_sys s c) c
  | Msr s a => set_sys s (x c a) c
  | Lsr d s n => set_x d (Z.shiftr (x c s) n) c
  | AndImm d s m => set_x d (Z.land (x c s) m) c
  | Mov d s => set_x d (x c s) c
  | MovFromSp a => set_x a (sp c) c
  | MovToSp a => set_sp (x c a) c
  | AddSp n => set_sp (sp c + n) c
  | Bl f => call f c
  end.

Definition exec (c : cpu K) (code : list instr) : cpu K := foldl exec1 c code.

(** The prologue and epilogue every body has: `stp x0, x1, [sp, #0]` up to
    `stp x28, x29, [sp, #224]`, then x30 and the three system registers. *)
Definition stp_pairs (n : nat) : list instr := map (fun i => Stp (2 * i) (2 * i + 1) (16 * Z.of_nat i)) (seq 0 n).
Definition ldp_pairs (n : nat) : list instr := map (fun i => Ldp (2 * i) (2 * i + 1) (16 * Z.of_nat i)) (seq 0 n).

Definition save_frame : list instr :=
  AddSp (-272) :: stp_pairs 15 ++
  [Str 30 240; Mrs 0 SPSR_EL1; Mrs 1 ELR_EL1; Stp 0 1 248; Mrs 0 SP_EL0; Str 0 264].
Definition restore_frame : list instr :=
  [Ldp 0 1 248; Msr SPSR_EL1 0; Msr ELR_EL1 1; Ldr 0 264; Msr SP_EL0 0] ++
  ldp_pairs 15 ++ [Ldr 30 240; AddSp 272].

Definition exception_class_code : list instr := [Mrs 0 ESR_EL1; Lsr 0 0 26; AndImm 0 0 0x3F].
Definition yield_code : list instr := [MovFromSp 0; Bl "schedule"; MovToSp 0].
Definition el1_fault_code : list instr :=
  [Mrs 0 ESR_EL1; Mrs 1 FAR_EL1; Mrs 2 ELR_EL1; Bl "handle_el1_sync_exception"].

Definition el1_sync_body (c : cpu K) : cpu K :=
  let c := exec c (save_frame ++ exception_class_code) in
  let c := if x c 0%nat =? 0x15 then exec c yield_code else exec c el1_fault_code in
  exec c restore_frame.

Definition irq_code : list instr := [Bl "handle_irq"; MovFromSp 0; Bl "schedule"; MovToSp 0].
Definition el1_irq_body (c : cpu K) : cpu K := exec c (save_frame ++ irq_code ++ restore_frame).
Definition el0_irq_body (c : cpu K) : cpu K := exec c (save_frame ++ irq_code ++ restore_frame).

Definition el0_trap_code : list instr :=
  [Mrs 0 ESR_EL1; Mrs 1 FAR_EL1; Mrs 2 ELR_EL1; Mov 3 8; Ldr 4 0; Ldr 5 8; Ldr 6 16;
   Bl "handle_el0_sync_trap"; Str 0 0].
Definition el0_sync_body (c : cpu K) : cpu K := exec c (save_frame ++ el0_trap_code ++ restore_frame).

(** The vector table: sixteen slots of 128 bytes, four exceptions for each of four
    sources; `b .` hangs. *)
Inductive source := CurrentElSp0 | CurrentElSpx | LowerEl64 | LowerEl32.
Inductive exception := Synchronous | Irq | Fiq | SError.
Inductive slot := Spin | Branch (body : cpu K -> cpu K).
Definition exception_vector_table : list slot :=
  [Spin; Spin; Spin; Spin;
   Branch el1_sync_body; Branch el1_irq_body; Spin; Spin;
   Branch el0_sync_body; Branch el0_irq_body; Spin; Spin;
   Spin; Spin; Spin; Spin].
(** The slot the processor jumps to, at VBAR_EL1 plus 128 times this. *)
Definition vector_slot (s : source) (e : exception) : nat :=
  4 * match s with CurrentElSp0 => 0 | CurrentElSpx => 1 | LowerEl64 => 2 | LowerEl32 => 3 end +
  match e with Synchronous => 0 | Irq => 1 | Fiq => 2 | SError => 3 end.
Definition take_exception (s : source) (e : exception) (c : cpu K) : option (cpu K) :=
  match nth (vector_slot s e) exception_vector_table Spin with Spin => None | Branch body => Some (body c) end.
End exec.

(** *** Frames *)

(** The context of a task as `TaskContext` lays it out, in the registers and in memory. *)
Definition context_of {K} (c : cpu K) : list Z := map (x c) (seq 0 31) ++ [spsr c; elr c; sp_el0 c].
Definition context_at (s : stack) (a : Z) : list Z := quads 34 s a.

Section frames.
Context {K : Type} (call : string -> cpu K -> cpu K).
Implicit Types c : cpu K.

Lemma a64_exec_app c l1 l2 : exec call c (l1 ++ l2) = exec call (exec call c l1) l2.
Proof using. apply foldl_app. Qed.
Lemma a64_exec_cons c i l : exec call c (i :: l) = exec call (exec1 call c i) l.
Proof using. reflexivity. Qed.

Lemma exec_stp_pairs n c :
  let c' := exec call c (stp_pairs n) in
  (x c' = x c /\ sp c' = sp c /\ spsr c' = spsr c /\ elr c' = elr c /\ sp_el0 c' = sp_el0 c /\ esr c' = esr c /\
   far c' = far c /\ kernel c' = kernel c) /\
  (forall i, (i < 2 * n)%nat -> mem c' (sp c + 8 * Z.of_nat i) = x c i) /\
  (forall a, ~ (sp c <= a < sp c + 16 * Z.of_nat n) -> mem c' a = mem c a).
Proof using.
  unfold stp_pairs. induction n as [|n IH]; [cbn; split_and!; try done; lia|].
  cbv zeta. rewrite seq_S, map_app, a64_exec_app. cbn [Nat.add map].
  revert IH. generalize (exec call c (map (fun i => Stp (2 * i) (2 * i + 1) (16 * Z.of_nat i)) (seq 0 n))).
  cbv zeta. intros c1 ((X & S & P1 & P2 & P3 & P4 & P5 & P6) & M & O).
  unfold exec. cbn [foldl exec1 set_mem x sp spsr elr sp_el0 esr far mem kernel]. rewrite X, S. split_and!; try done.
  - intros i Hi. unfold put. zcases; [f_equal; lia|f_equal; lia|]. apply M. lia.
  - intros a Ha. unfold put. zcases. apply O. lia.
Qed.

Lemma exec_ldp_pairs n c :
  let c' := exec call c (ldp_pairs n) in
  (sp c' = sp c /\ spsr c' = spsr c /\ elr c' = elr c /\ sp_el0 c' = sp_el0 c /\ mem c' = mem c /\ kernel c' = kernel c) /\
  (forall i, (i < 2 * n)%nat -> x c' i = mem c (sp c + 8 * Z.of_nat i)).
Proof using.
  unfold ldp_pairs. induction n as [|n IH]; [cbn; split_and!; try done; lia|].
  cbv zeta. rewrite seq_S, map_app, a64_exec_app. cbn [Nat.add map].
  revert IH. generalize (exec call c (map (fun i => Ldp (2 * i) (2 * i + 1) (16 * Z.of_nat i)) (seq 0 n))).
  cbv zeta. intros c1 ((S & P1 & P2 & P3 & M & P6) & X).
  unfold exec. cbn [foldl exec1 set_x x sp spsr elr sp_el0 esr far mem kernel]. rewrite M, S. split_and!; try done.
  intros i Hi. repeat case_decide; [f_equal; lia|f_equal; lia|]. apply X. lia.
Qed.

(** Saving puts the interrupted context below the stack pointer and touches nothing else. *)
Lemma save_frame_spec c :
  let c' := exec call c save_frame in
  sp c' = sp c - 272 /\ context_at (mem c') (sp c') = context_of c /\
  (forall a, sp c <= a -> mem c' a = mem c a) /\
  (forall i, (2 <= i)%nat -> x c' i = x c i) /\
  elr c' = elr c /\ esr c' = esr c /\ far c' = far c /\ kernel c' = kernel c.
Proof using.
  cbv zeta. unfold save_frame.
  rewrite a64_exec_cons, a64_exec_app. change (exec1 call c (AddSp (-272))) with (set_sp (sp c + -272) c).
  pose proof (exec_stp_pairs 15 (set_sp (sp c + -272) c)) as H. revert H.
  generalize (exec call (set_sp (sp c + -272) c) (stp_pairs 15)). cbv zeta. intros c1.
  cbn [set_sp x sp spsr elr sp_el0 esr far mem kernel].
  intros ((X & S & P1 & P2 & P3 & P4 & P5 & P6) & M & O).
  unfold exec. cbn [foldl exec1 set_mem set_x get_sys x sp spsr elr sp_el0 esr far mem kernel].
  split_and!; try done.
  - unfold context_at, context_of. change 34%nat with (31 + 3)%nat. rewrite quads_app. f_equal.
    + unfold quads. apply map_ext_in. intros i Hi%in_seq. unfold put.
      assert (i = 30 \/ i < 30)%nat as [->|Hi'] by lia.
      * repeat zcases. by rewrite X.
      * repeat zcases. rewrite S. apply M. lia.
    + do 3 rewrite quads_S. unfold quads. cbn [seq map]. rewrite P1, P2, P3. unfold put. repeat f_equal; zcases; done.
  - intros a Ha. rewrite S. unfold put. zcases. apply O. lia.
  - intros i Hi. repeat rewrite decide_False by lia. by rewrite X.
Qed.

(** Restoring resumes the context stored at the stack pointer and pops it. *)
Lemma restore_frame_spec c :
  let c' := exec call c restore_frame in
  context_of c' = context_at (mem c) (sp c) /\ sp c' = sp c + 272 /\ mem c' = mem c /\ kernel c' = kernel c.
Proof using.
  cbv zeta. unfold restore_frame. rewrite !a64_exec_app.
  remember (exec call c [Ldp 0 1 248; Msr SPSR_EL1 0; Msr ELR_EL1 1; Ldr 0 264; Msr SP_EL0 0]) as c1 eqn:E1.
  unfold exec in E1. cbn [foldl exec1] in E1.
  assert (sp c1 = sp c /\ mem c1 = mem c /\ kernel c1 = kernel c /\ spsr c1 = mem c (sp c + 248) /\
    elr c1 = mem c (sp c + 248 + 8) /\ sp_el0 c1 = mem c (sp c + 264)) as (S1 & M1 & K1 & A1 & A2 & A3) by (by subst c1).
  clear E1. pose proof (exec_ldp_pairs 15 c1) as H. revert H. generalize (exec call c1 (ldp_pairs 15)). cbv zeta.
  intros c2 ((S & P1 & P2 & P3 & M & P6) & X).
  unfold exec. cbn [foldl exec1 set_x set_sp x sp spsr elr sp_el0 esr far mem kernel].
  rewrite S, M, S1, M1, P6. split_and!; try done.
  unfold context_of, context_at. cbn [x spsr elr sp_el0]. change 34%nat with (31 + 3)%nat. rewrite quads_app. f_equal.
  - unfold quads. apply map_ext_in. intros i Hi%in_seq. cbn [set_sp set_x x]. case_decide; [subst i; done|].
    rewrite X, S1, M1 by lia. done.
  - do 3 rewrite quads_S. unfold quads. cbn [seq map set_sp set_x spsr elr sp_el0].
    rewrite P1, P2, P3, A1, A2, A3. by rewrite <- !Z.add_assoc.
Qed.
End frames.

(** What a Rust function called by a body may do: it leaves the stack pointer and the
    stack above it alone; everything else comes back from the frame. *)
Record abi {K} (c c' : cpu K) : Prop := Abi {
  abi_sp : sp c' = sp c; abi_mem : forall a, sp c <= a -> mem c' a = mem c a }.

Lemma context_at_ext s s' a : (forall b, a <= b -> s b = s' b) -> context_at s a = context_at s' a.
Proof. intros H. apply quads_ext. intros b Hb. apply H. lia. Qed.

(** The state in which a trap from user space calls its handler. *)
Definition el0_call {K} (call : string -> cpu K -> cpu K) (c : cpu K) : cpu K :=
  exec call (exec call c save_frame)
    [Mrs 0 ESR_EL1; Mrs 1 FAR_EL1; Mrs 2 ELR_EL1; Mov 3 8; Ldr 4 0; Ldr 5 8; Ldr 6 16].

Lemma el0_call_spec {K} (call : string -> cpu K -> cpu K) c :
  let c1 := el0_call call c in
  sp c1 = sp c - 272 /\ context_at (mem c1) (sp c1) = context_of c /\ (forall a, sp c <= a -> mem c1 a = mem c a) /\
  kernel c1 = kernel c /\
  (x c1 0 = esr c /\ x c1 1 = far c /\ x c1 2 = elr c /\ x c1 3 = x c 8 /\ x c1 4 = x c 0 /\ x c1 5 = x c 1 /\
   x c1 6 = x c 2)%nat.
Proof.
  cbv zeta. unfold el0_call. pose proof (save_frame_spec call c) as H. revert H.
  generalize (exec call c save_frame). cbv zeta. intros c1 (S & C & M & X & E1 & E2 & E3 & E4).
  remember (exec call c1 _) as c2 eqn:E. unfold exec in E. cbn [foldl exec1] in E.
  pose proof C as C'. unfold context_at in C'. change 34%nat with (3 + 31)%nat in C'. rewrite quads_app in C'.
  do 3 rewrite quads_S in C'. unfold context_of in C'. change (seq 0 31) with (0%nat :: 1%nat :: 2%nat :: seq 3 28) in C'.
  cbn [map app] in C'. injection C' as H0 H1 H2 _.
  assert (sp c2 = sp c1 /\ mem c2 = mem c1 /\ kernel c2 = kernel c1 /\ x c2 0%nat = esr c1 /\ x c2 1%nat = far c1 /\
    x c2 2%nat = elr c1 /\ x c2 3%nat = x c1 8%nat /\ x c2 4%nat = mem c1 (sp c1 + 0) /\
    x c2 5%nat = mem c1 (sp c1 + 8) /\ x c2 6%nat = mem c1 (sp c1 + 16))
    as (-> & -> & -> & -> & -> & -> & -> & -> & -> & ->) by (by subst c2).
  rewrite Z.add_0_r. replace (sp c1 + 16) with (sp c1 + 8 + 8) by lia. rewrite X by lia. split_and!; try done; lia.
Qed.

(** C20: Traps from user space on AArch64: `handle_el0_sync_trap` is called with the syndrome,
    the fault address, the return address, the number in x8 and the arguments in x0 to
    x2; if it returns, the interrupted program resumes with every register, its stack
    pointer, its processor state and its program counter as they were except x0, which
    holds the result, and the kernel stack is as it was. *)
Theorem el0_trap_resumes {K : Type} (call : string -> cpu K -> cpu K)
    (handler : list Z -> K -> Z * K) (c : cpu K) :
  (forall c, abi c (call "handle_el0_sync_trap" c)) ->
  (forall c, (x (call "handle_el0_sync_trap" c) 0%nat, kernel (call "handle_el0_sync_trap" c)) =
     handler (map (x c) (seq 0 7)) (kernel c)) ->
  let (result, k) := handler [esr c; far c; elr c; x c 8%nat; x c 0%nat; x c 1%nat; x c 2%nat] (kernel c) in
  let c' := el0_sync_body call c in
  take_exception call LowerEl64 Synchronous c = Some c' /\
  context_of c' = <[0%nat := result]> (context_of c) /\ kernel c' = k /\ sp c' = sp c /\
  (forall a, sp c <= a -> mem c' a = mem c a).
Proof.
  intros Habi Hh. cbv zeta.
  assert (take_exception call LowerEl64 Synchronous c = Some (el0_sync_body call c)) as Hv by reflexivity.
  rewrite Hv. clear Hv. unfold el0_sync_body, el0_trap_code.
  change [Mrs 0 ESR_EL1; Mrs 1 FAR_EL1; Mrs 2 ELR_EL1; Mov 3 8; Ldr 4 0; Ldr 5 8; Ldr 6 16;
    Bl "handle_el0_sync_trap"; Str 0 0] with
    ([Mrs 0 ESR_EL1; Mrs 1 FAR_EL1; Mrs 2 ELR_EL1; Mov 3 8; Ldr 4 0; Ldr 5 8; Ldr 6 16] ++
     [Bl "handle_el0_sync_trap"; Str 0 0]).
  rewrite !a64_exec_app. fold (el0_call call c). pose proof (el0_call_spec call c) as H. revert H.
  generalize (el0_call call c). cbv zeta.
  intros c1 (S & C & M & Kn & X0 & X1 & X2 & X3 & X4 & X5 & X6).
  rewrite a64_exec_cons. change (exec1 call c1 (Bl "handle_el0_sync_trap")) with (call "handle_el0_sync_trap" c1).
  specialize (Hh c1). destruct (Habi c1) as [S2 M2]. revert Hh S2 M2. generalize (call "handle_el0_sync_trap" c1).
  intros c2 Hh S2 M2. cbn [seq map] in Hh. rewrite X0, X1, X2, X3, X4, X5, X6, Kn in Hh. rewrite <- Hh.
  pose proof (restore_frame_spec call (exec call c2 [Str 0 0])) as H. revert H.
  generalize (exec call (exec call c2 [Str 0 0]) restore_frame). cbv zeta. intros c3.
  unfold exec. cbn [foldl exec1 set_mem sp mem kernel]. intros (C3 & S3 & M3 & K3).
  split; [done|]. split_and!; [|done|lia|].
  - rewrite C3, <- C. unfold context_at. change 34%nat with (Datatypes.S 33). rewrite (quads_S 33), (quads_S 33). cbn [insert list_insert].
    rewrite <- S2. unfold put at 1. rewrite Z.add_0_r, Z.eqb_refl. f_equal.
    apply quads_ext. intros a Ha. unfold put. zcases. apply M2. lia.
  - intros a Ha. rewrite M3. unfold put. zcases. rewrite M2 by lia. by apply M.
Qed.

(** The state in which the interrupt bodies call `schedule`. *)
Definition irq_call {K} (call : string -> cpu K -> cpu K) (c : cpu K) : cpu K :=
  let c := call "handle_irq" (exec call c save_frame) in set_x 0 (sp c) c.

(** What a body does from the call of `schedule` on. *)
Lemma resume_scheduled {K} (call : string -> cpu K -> cpu K) (c1 : cpu K) :
  let c2 := call "schedule" c1 in
  let c' := exec call (exec call c1 [Bl "schedule"; MovToSp 0]) restore_frame in
  context_of c' = context_at (mem c2) (x c2 0%nat) /\ sp c' = x c2 0%nat + 272 /\ mem c' = mem c2 /\ kernel c' = kernel c2.
Proof.
  cbv zeta. rewrite a64_exec_cons. change (exec1 call c1 (Bl "schedule")) with (call "schedule" c1).
  generalize (call "schedule" c1). intros c2. pose proof (restore_frame_spec call (exec call c2 [MovToSp 0])) as H.
  revert H. generalize (exec call (exec call c2 [MovToSp 0]) restore_frame). intros c3. cbv zeta.
  unfold exec. cbn [foldl exec1 set_sp sp mem kernel]. done.
Qed.

(** C21: Context switches on AArch64.  An interrupt, from the kernel or from user space, first
    runs `handle_irq` and then calls `schedule` with a pointer to a frame that holds the
    complete interrupted context field by field as `TaskContext` declares it; the
    context stored where the returned pointer points is resumed and popped.  The
    supervisor call of `yield_now` does the same without `handle_irq`; every other
    exception of the kernel goes to `handle_el1_sync_exception` with the syndrome, the
    fault address and the return address, and resumes unchanged if that returns. *)
Theorem a64_switch_correct {K : Type} (call : string -> cpu K -> cpu K) (c : cpu K) :
  (forall f c, f <> "schedule" -> abi c (call f c)) ->
  let saved c1 := x c1 0%nat = sp c - 272 /\ context_at (mem c1) (sp c - 272) = context_of c /\
    (forall a, sp c <= a -> mem c1 a = mem c a) in
  let resumes c2 c' := context_of c' = context_at (mem c2) (x c2 0%nat) /\ sp c' = x c2 0%nat + 272 /\ mem c' = mem c2 /\
    kernel c' = kernel c2 in
  (saved (irq_call call c) /\
   kernel (irq_call call c) = kernel (call "handle_irq" (exec call c save_frame)) /\
   resumes (call "schedule" (irq_call call c)) (el1_irq_body call c) /\
   take_exception call CurrentElSpx Irq c = Some (el1_irq_body call c) /\
   take_exception call LowerEl64 Irq c = Some (el1_irq_body call c)) /\
  (Z.land (Z.shiftr (esr c) 26) 0x3F = 0x15 ->
   exists c1, saved c1 /\ kernel c1 = kernel c /\ resumes (call "schedule" c1) (el1_sync_body call c)) /\
  (Z.land (Z.shiftr (esr c) 26) 0x3F <> 0x15 ->
   exists c1, (x c1 0 = esr c /\ x c1 1 = far c /\ x c1 2 = elr c)%nat /\ kernel c1 = kernel c /\
     context_of (el1_sync_body call c) = context_of c /\ sp (el1_sync_body call c) = sp c /\
     kernel (el1_sync_body call c) = kernel (call "handle_el1_sync_exception" c1)).
Proof.
  intros Habi. cbv zeta.
  assert (take_exception call CurrentElSpx Irq c = Some (el1_irq_body call c)) as -> by reflexivity.
  assert (take_exception call LowerEl64 Irq c = Some (el0_irq_body call c)) as -> by reflexivity.
  pose proof (save_frame_spec call c) as H. unfold irq_call, el0_irq_body, el1_irq_body, el1_sync_body. rewrite !a64_exec_app. revert H.
  generalize (exec call c save_frame). cbv zeta. intros c0 (S0 & C0 & M0 & X0 & E1 & E2 & E3 & E4).
  rewrite S0 in C0. split; [split; [|split; [|split; [|split; reflexivity]]]|split].
  - destruct (Habi "handle_irq" c0 ltac:(done)) as [Hs Hm]. rewrite Hs.
    revert Hs Hm. generalize (call "handle_irq" c0). intros c1 Hs Hm. cbn [set_x x mem]. split_and!; [done| |].
    + rewrite <- C0. apply context_at_ext. intros b Hb. apply Hm. lia.
    + intros a Ha. rewrite Hm by lia. by apply M0.
  - done.
  - unfold irq_code. rewrite a64_exec_cons.
    change (exec1 call c0 (Bl "handle_irq")) with (call "handle_irq" c0). rewrite a64_exec_cons.
    change (exec1 call (call "handle_irq" c0) (MovFromSp 0)) with
      (set_x 0 (sp (call "handle_irq" c0)) (call "handle_irq" c0)).
    apply resume_scheduled.
  - intros Hec. set (c1 := set_x 0 (sp c0) (exec call c0 exception_class_code)).
    exists c1. assert (x (exec call c0 exception_class_code) 0%nat = 0x15) as ->.
    { rewrite <- Hec, <- E2. reflexivity. }
    rewrite Z.eqb_refl. split; [|split]; [split_and!; [done|done|apply M0]|done|].
    unfold yield_code. rewrite a64_exec_cons. apply (resume_scheduled call c1).
  - intros Hec. assert ((x (exec call c0 exception_class_code) 0%nat =? 0x15) = false) as ->.
    { apply Z.eqb_neq. rewrite <- E2 in Hec. exact Hec. }
    set (c1 := exec call c0 (exception_class_code ++ [Mrs 0 ESR_EL1; Mrs 1 FAR_EL1; Mrs 2 ELR_EL1])).
    exists c1. unfold el1_fault_code.
    change (exec call (exec call c0 exception_class_code)
      [Mrs 0 ESR_EL1; Mrs 1 FAR_EL1; Mrs 2 ELR_EL1; Bl "handle_el1_sync_exception"])
      with (call "handle_el1_sync_exception" c1).
    destruct (Habi "handle_el1_sync_exception" c1 ltac:(done)) as [Hs Hm].
    pose proof (restore_frame_spec call (call "handle_el1_sync_exception" c1)) as (C & S & M & Kn).
    assert (sp c1 = sp c0 /\ mem c1 = mem c0) as [Es Em] by done. rewrite Es in Hs, Hm. rewrite Em in Hm.
    split_and!; [exact E2|exact E3|exact E1|exact E4| |rewrite S; lia|exact Kn].
    rewrite C, Hs, S0, <- C0. apply context_at_ext. intros b Hb. apply Hm. lia.
Qed.

Definition demo_call (f : string) (c : cpu Z) : cpu Z :=
  mkCpu (fun i => if decide (i = 0%nat) then
           (if String.eqb f "handle_el0_sync_trap" then x c 3%nat + x c 4%nat + x c 5%nat + x c 6%nat else x c 0%nat)
         else 99)
    (sp c) 0 0 0 (esr c) (far c) (mem c) (kernel c + 1).
Definition demo_cpu : cpu Z :=
  mkCpu (fun i => Z.of_nat i) 0x9000 0x3C5 0x40001000 0x80000 0x56000000 0 (fun _ => 0) 0.

Lemma a64_demo_call_abi f c : abi c (demo_call f c).
Proof. by split. Qed.

Lemma el0_trap_resumes_witness :
  context_of (el0_sync_body demo_call demo_cpu) = <[0%nat := 8 + 0 + 1 + 2]> (context_of demo_cpu).
Proof.
  apply (el0_trap_resumes demo_call (fun a k => (nth 3 a 0 + nth 4 a 0 + nth 5 a 0 + nth 6 a 0, k + 1)) demo_cpu).
  - intros c. apply a64_demo_call_abi.
  - intros c. reflexivity.
Defined.

Lemma a64_switch_correct_witness :
  exists c1, context_at (mem c1) (0x9000 - 272) = context_of demo_cpu /\
    context_of (el1_sync_body demo_call demo_cpu) = context_at (mem (demo_call "schedule" c1)) (x c1 0%nat).
Proof.
  destruct (a64_switch_correct demo_call demo_cpu) as (_ & Hw & _).
  - intros f c _. apply a64_demo_call_abi.
  - destruct Hw as (c1 & (_ & H & _) & _ & H' & _); [reflexivity|]. exists c1. split; [exact H|exact H'].
Defined.
End A64.
