(* ===== verification/Ahci.v ===== *)
(** * The AHCI driver (src/src/drivers/ahci.rs)

    The driver's world is its three statics, the memory it shares with the controller
    and the controller itself.  The `Hal` trait and the volatile register accesses are
    the interface [Hal]: any of them may let the controller work, move data by DMA and
    raise the interrupt that runs [ahci_irq_handler], so each maps worlds to worlds.
    Buffers are addresses in the shared memory; address sums stay inside the mapped
    windows and do not wrap. *)
From S2P Require Import Prelude Ports.

(** ** Registers *)
Definition HBA_CAP : Z := 0x00.
Definition HBA_GHC : Z := 0x04.
Definition HBA_IS : Z := 0x08.
Definition HBA_PI : Z := 0x0C.
Definition HBA_VS : Z := 0x10.
Definition HBA_CAP2 : Z := 0x24.
Definition HBA_BOHC : Z := 0x28.

Definition HBA_PORT_BASE : Z := 0x100.
Definition HBA_PORT_SIZE : Z := 0x80.
Definition HBA_MAX_PORTS : Z := 32.
Definition HBA_MMIO_SIZE : Z := 0x2000.

Definition GHC_IE : Z := Z.shiftl 1 1.
Definition GHC_AE : Z := Z.shiftl 1 31.
Definition CAP_NCS_SHIFT : Z := 8.
Definition CAP_NCS_MASK : Z := 0x1F.
Definition CAP_S64A : Z := Z.shiftl 1 31.
Definition CAP2_BOH : Z := Z.shiftl 1 0.
Definition BOHC_BOS : Z := Z.shiftl 1 0.
Definition BOHC_OOS : Z := Z.shiftl 1 1.
Definition BOHC_BB : Z := Z.shiftl 1 4.

Definition PORT_CLB : Z := 0x00.
Definition PORT_CLBU : Z := 0x04.
Definition PORT_FB : Z := 0x08.
Definition PORT_FBU : Z := 0x0C.
Definition PORT_IS : Z := 0x10.
Definition PORT_IE : Z := 0x14.
Definition PORT_CMD : Z := 0x18.
Definition PORT_TFD : Z := 0x20.
Definition PORT_SIG : Z := 0x24.
Definition PORT_SSTS : Z := 0x28.
Definition PORT_SERR : Z := 0x30.
Definition PORT_SACT : Z := 0x34.
Definition PORT_CI : Z := 0x38.

Definition PXCMD_ST : Z := Z.shiftl 1 0.
Definition PXCMD_SUD : Z := Z.shiftl 1 1.
Definition PXCMD_POD : Z := Z.shiftl 1 2.
Definition PXCMD_FRE : Z := Z.shiftl 1 4.
Definition PXCMD_FR : Z := Z.shiftl 1 14.
Definition PXCMD_CR : Z := Z.shiftl 1 15.
Definition PORT_IE_DHRS : Z := Z.shiftl 1 0.
Definition ATA_STS_ERR : Z := Z.shiftl 1 0.
Definition ATA_STS_DRQ : Z := Z.shiftl 1 3.
Definition ATA_STS_BSY : Z := Z.shiftl 1 7.
Definition SSTS_DET_MASK : Z := 0xF.
Definition SSTS_DET_PRESENT : Z := 3.

Definition SIG_ATAPI : Z := 0xEB140101.
Definition SIG_SEMB : Z := 0xC33C0101.
Definition SIG_PM : Z := 0x96690101.

Definition FIS_TYPE_REG_H2D : Z := 0x27.
Definition ATA_CMD_READ_DMA_EXT : Z := 0x25.
Definition ATA_CMD_WRITE_DMA_EXT : Z := 0x35.
Definition ATA_CMD_FLUSH_CACHE_EXT : Z := 0xEA.
Definition ATA_CMD_IDENTIFY : Z := 0xEC.

Definition SECTOR_SIZE : Z := 512.
Definition CMD_LIST_ENTRIES : Z := 32.
Definition PRDT_ENTRIES : Z := 9.
Definition MAX_TRANSFER_BYTES : Z := (PRDT_ENTRIES - 1) * 4096.
Definition CMD_TABLE_STRIDE : Z := 384.
Definition FIS_RECV_SIZE : Z := 256.

Inductive AhciError :=
| NotAnAhciController | PortNotPresent | DeviceNotAta | EngineStopTimeout | EngineStartTimeout
| FisReceiveStopTimeout | NoFreeCommandSlot | CommandTimeout | TaskFileError (status error : Z)
| BufferNotSectorAligned | BufferTooLargeForOneCommand | DmaAllocationFailed | AddressTranslationFailed
| Requires64BitDma.

Inductive DeviceKind := Sata | Satapi | PortMultiplier | EnclosureManagement.
#[export] Instance DeviceKind_eq_dec : EqDecision DeviceKind.
Proof. solve_decision. Defined.

(** ** The world *)
Record world (D : Type) := World {
  AHCI_BASE_VIRT : Z;
  SLOT_COMPLETION : list bool;
  PENDING_SLOTS : Z;
  ram : mem_t;
  dev : D
}.
Arguments World {D}. Arguments AHCI_BASE_VIRT {D}. Arguments SLOT_COMPLETION {D}. Arguments PENDING_SLOTS {D}.
Arguments ram {D}. Arguments dev {D}.

Definition set_base {D} (b : Z) (w : world D) : world D :=
  World b (SLOT_COMPLETION w) (PENDING_SLOTS w) (ram w) (dev w).
Definition set_completion {D} (slot : Z) (b : bool) (w : world D) : world D :=
  World (AHCI_BASE_VIRT w) (<[Z.to_nat slot := b]> (SLOT_COMPLETION w)) (PENDING_SLOTS w) (ram w) (dev w).
Definition set_pending {D} (m : Z) (w : world D) : world D :=
  World (AHCI_BASE_VIRT w) (SLOT_COMPLETION w) m (ram w) (dev w).
Definition set_ram {D} (m : mem_t) (w : world D) : world D :=
  World (AHCI_BASE_VIRT w) (SLOT_COMPLETION w) (PENDING_SLOTS w) m (dev w).
Definition completed {D} (slot : Z) (w : world D) : bool := nth (Z.to_nat slot) (SLOT_COMPLETION w) false.

(** The trait `Hal` with the volatile register accesses. *)
Class Hal (D : Type) := {
  reg_read : Z -> act (world D) Z;
  reg_write : Z -> Z -> world D -> world D;
  map_mmio : Z -> Z -> act (world D) Z;
  alloc_dma : Z -> act (world D) (option (Z * Z));
  virt_to_phys : Z -> option Z;
  wait_micros : Z -> world D -> world D
}.

(** `struct Regs`. *)
Record Regs := mkRegs { base : Z }.

Record AhciPort := mkPort {
  p_index : Z; p_regs : Regs; clb_virt : Z; ctba_virt : Z; p_num_slots : Z; kind : DeviceKind;
  sectors : Z; lba48 : bool }.

Record AtaIdentify := mkIdentify { id_sectors : Z; id_lba48 : bool; model : list Z }.

(** ** IDENTIFY data *)
Definition word (buf : list Z) (i : Z) : Z := le_bytes (sub_slice buf (i * 2) (i * 2 + 2)).

Definition parse_identify (buf : list Z) : AtaIdentify :=
  let lba48 := negb (Z.land (word buf 83) (Z.shiftl 1 10) =? 0) in
  mkIdentify
    (if lba48 then
       Z.lor (Z.lor (Z.lor (word buf 100) (shl64 (word buf 101) 16)) (shl64 (word buf 102) 32)) (shl64 (word buf 103) 48)
     else Z.lor (word buf 60) (shl64 (word buf 61) 16))
    lba48
    (flat_map (fun i => let w := word buf (27 + Z.of_nat i) in [u8 (shr w 8); u8 w]) (seq 0 20)).

Section driver.
Context {D : Type} `{!Hal D}.
Abbreviation W := (world D).
Implicit Types (r : Regs) (p : AhciPort) (w : W).

Definition read r (offset : Z) : act W Z := reg_read (base r + offset).
Definition write r (offset value : Z) : act W unit := effect (reg_write (base r + offset) value).
Definition set_bits r (offset mask : Z) : act W unit := let* v := read r offset in write r offset (Z.lor v mask).
Definition clear_bits r (offset mask : Z) : act W unit :=
  let* v := read r offset in write r offset (Z.land v (not32 mask)).

(** `wait_while`: [n] is the number of waits left, ⌈timeout_us / step_us⌉ at the start. *)
Fixpoint wait_loop (cond : act W bool) (n : nat) (step_us : Z) : act W bool :=
  let* busy := cond in
  if busy then
    match n with
    | O => done false
    | S m => effect (wait_micros step_us) >>> wait_loop cond m step_us
    end
  else done true.
Definition wait_while (cond : act W bool) (timeout_us step_us : Z) : act W bool :=
  wait_loop cond (Z.to_nat ((timeout_us + step_us - 1) / step_us)) step_us.

(** `|| regs.read(offset) & mask != 0`. *)
Definition any_set r (offset mask : Z) : act W bool := let* v := read r offset in done (negb (Z.land v mask =? 0)).

(** ** `impl AhciPort` *)
Definition enable_interrupts p : act W unit := write (p_regs p) PORT_IE PORT_IE_DHRS.

(** Addresses of a slot's command header and command table, and of the table's parts. *)
Definition cmd_header p (slot : Z) : Z := clb_virt p + slot * 32.
Definition cmd_table p (slot : Z) : Z := ctba_virt p + slot * CMD_TABLE_STRIDE.
Definition prdt_at (table count : Z) : Z := table + 128 + 16 * count.

Definition find_free_slot p : act W (Result Z AhciError) :=
  let* sact := read (p_regs p) PORT_SACT in
  let* ci := read (p_regs p) PORT_CI in
  let busy := Z.lor sact ci in
  done (match List.find (fun slot => Z.land busy (Z.shiftl 1 slot) =? 0) (seqZ 0 (p_num_slots p)) with
        | Some slot => Ok slot
        | None => Err NoFreeCommandSlot
        end).

(** `prdt.dba`, `dbau`, `reserved0`, `dbc`. *)
Definition prdt_entry (phys chunk : Z) : list Z :=
  to_le 4 (u32 phys) ++ to_le 4 (u32 (shr phys 32)) ++ to_le 4 0 ++
  to_le 4 (Z.lor (Z.land (saturating_sub (u32 chunk) 1) 0x3FFFFF) (Z.shiftl 1 31)).

(** The `while` loop: [fuel] bounds the number of entries. *)
Fixpoint prdt_loop (fuel : nat) (table ptr len count offset : Z) : act W (Result Z AhciError) :=
  if offset <? len then
    match fuel with
    | O => done (Err BufferTooLargeForOneCommand)
    | S f =>
        if PRDT_ENTRIES <=? count then done (Err BufferTooLargeForOneCommand) else
        let virt := ptr + offset in
        let page_off := virt mod 4096 in
        let chunk := Z.min (4096 - page_off) (len - offset) in
        match virt_to_phys virt with
        | None => done (Err AddressTranslationFailed)
        | Some phys =>
            effect (fun w => set_ram (copy_to (ram w) (prdt_at table count) (prdt_entry phys chunk)) w) >>>
            prdt_loop f table ptr len (count + 1) (offset + chunk)
        end
    end
  else done (Ok (u16 count)).

Definition build_prdt (table ptr len : Z) : act W (Result Z AhciError) :=
  if len =? 0 then done (Ok 0)
  else if MAX_TRANSFER_BYTES <? len then done (Err BufferTooLargeForOneCommand)
  else prdt_loop (Z.to_nat PRDT_ENTRIES + 1) table ptr len 0 0.

(** The 20 bytes of `FisRegH2D`. *)
Definition FisRegH2D (command lba sector_count : Z) : list Z :=
  [FIS_TYPE_REG_H2D; Z.shiftl 1 7; command; 0;
   u8 lba; u8 (shr lba 8); u8 (shr lba 16); Z.shiftl 1 6;
   u8 (shr lba 24); u8 (shr lba 32); u8 (shr lba 40); 0;
   u8 sector_count; u8 (shr sector_count 8); 0; 0;
   0; 0; 0; 0].
Definition fis_dwords : Z := 20 / 4.

(** The polling loop: [n] is `timeout_us / 10`, so `timeout_us <= 10` is [n <= 1]. *)
Fixpoint completion_loop (n : nat) p (slot : Z) : act W (Result unit AhciError) := fun w =>
  if completed slot w then (Ok tt, w) else
  match n with
  | O => (Err CommandTimeout, w)
  | S m =>
      (let* ci := read (p_regs p) PORT_CI in
       if Z.land ci (Z.shiftl 1 slot) =? 0 then
         effect (set_completion slot true) >>>
         effect (fun w => set_pending (Z.land (PENDING_SLOTS w) (not32 (Z.shiftl 1 slot))) w) >>>
         done (Ok tt)
       else
         effect (wait_micros 10) >>>
         if (m =? 0)%nat then
           effect (fun w => set_pending (Z.land (PENDING_SLOTS w) (not32 (Z.shiftl 1 slot))) w) >>>
           done (Err CommandTimeout)
         else completion_loop m p slot) w
  end.

Definition write_header p (slot : Z) (write_ : bool) (prdt_count : Z) : act W unit :=
  effect (fun w => set_ram (write_u32 (ram w) (cmd_header p slot)
    (Z.lor (Z.lor fis_dwords (Z.shiftl (if write_ then 1 else 0) 6)) (Z.shiftl prdt_count 16))) w) >>>
  effect (fun w => set_ram (write_u32 (ram w) (cmd_header p slot + 4) 0) w).

Definition issue_command p (command lba sector_count : Z) (write_ : bool) (ptr len : Z) : act W (Result unit AhciError) :=
  let* idle := wait_while (any_set (p_regs p) PORT_TFD (Z.lor ATA_STS_BSY ATA_STS_DRQ)) 500000 1000 in
  if negb idle then done (Err CommandTimeout) else
  let*? slot := find_free_slot p in
  effect (set_completion slot false) >>>
  effect (fun w => set_pending (Z.lor (PENDING_SLOTS w) (Z.shiftl 1 slot)) w) >>>
  let*? prdt_count := build_prdt (cmd_table p slot) ptr len in
  write_header p slot write_ prdt_count >>>
  effect (fun w => set_ram (copy_to (ram w) (cmd_table p slot) (FisRegH2D command lba sector_count)) w) >>>
  write (p_regs p) PORT_CI (Z.shiftl 1 slot) >>>
  let*? _ := completion_loop (Z.to_nat 200000) p slot in
  let* tfd := read (p_regs p) PORT_TFD in
  if negb (Z.land tfd ATA_STS_ERR =? 0) then done (Err (TaskFileError (u8 tfd) (u8 (shr tfd 8)))) else done (Ok tt).

(** [buf] is the address of the local array. *)
Definition identify p (buf : Z) : act W (Result AtaIdentify AhciError) :=
  effect (fun w => set_ram (write_bytes (ram w) buf 0 SECTOR_SIZE) w) >>>
  let*? _ := issue_command p ATA_CMD_IDENTIFY 0 1 false buf SECTOR_SIZE in
  fun w => (Ok (parse_identify (read_n (Z.to_nat SECTOR_SIZE) (ram w) buf)), w).

Definition flush p : act W (Result unit AhciError) := issue_command p ATA_CMD_FLUSH_CACHE_EXT 0 0 false 1 0.

(** The transfer loop of `rw_sectors`; [fuel] bounds the number of commands. *)
Fixpoint rw_loop (fuel : nat) p (command cur_lba ptr len done_ : Z) (write_ : bool) : act W (option (Result unit AhciError)) :=
  if done_ <? len then
    match fuel with
    | O => done None
    | S f =>
        let chunk_len := Z.min (len - done_) MAX_TRANSFER_BYTES in
        let n := u16 (chunk_len / SECTOR_SIZE) in
        let* res := issue_command p command cur_lba n write_ (ptr + done_) chunk_len in
        match res with
        | Err e => done (Some (Err e))
        | Ok _ => rw_loop f p command (add64 cur_lba n) ptr len (done_ + chunk_len) write_
        end
    end
  else done (Some (Ok tt)).

Definition rw_sectors (fuel : nat) p (lba ptr len : Z) (write_ : bool) : act W (option (Result unit AhciError)) :=
  if decide (kind p <> Sata) then done (Some (Err DeviceNotAta))
  else if (len =? 0) || negb (len mod SECTOR_SIZE =? 0) then done (Some (Err BufferNotSectorAligned))
  else rw_loop fuel p (if write_ then ATA_CMD_WRITE_DMA_EXT else ATA_CMD_READ_DMA_EXT) lba ptr len 0 write_.

(** One command moves at least a sector, so the length bounds the number of commands. *)
Definition rw_fuel (len : Z) : nat := Z.to_nat (len / SECTOR_SIZE).
Definition read_sectors p (lba ptr len : Z) := rw_sectors (rw_fuel len) p lba ptr len false.
Definition write_sectors p (lba ptr len : Z) := rw_sectors (rw_fuel len) p lba ptr len true.

(** ** `impl AhciController` *)
Record AhciController := mkController {
  hba : Regs; num_slots : Z; supports_64bit_dma : bool; ports : list (option AhciPort) }.

Definition bios_os_handoff (hba : Regs) : act W unit :=
  let* cap2 := read hba HBA_CAP2 in
  if Z.land cap2 CAP2_BOH =? 0 then done tt else
  set_bits hba HBA_BOHC BOHC_OOS >>>
  wait_while (any_set hba HBA_BOHC BOHC_BOS) 25000 1000 >>>
  let* bohc := read hba HBA_BOHC in
  if negb (Z.land bohc BOHC_BB =? 0) then effect (wait_micros 2000000) else done tt.

Definition stop_cmd_engine r : act W (Result unit AhciError) :=
  let* cmd := read r PORT_CMD in
  (if negb (Z.land cmd PXCMD_ST =? 0) then clear_bits r PORT_CMD PXCMD_ST else done tt) >>>
  let* stopped := wait_while (any_set r PORT_CMD PXCMD_CR) 500000 1000 in
  if negb stopped then done (Err EngineStopTimeout) else
  let* cmd := read r PORT_CMD in
  (if negb (Z.land cmd PXCMD_FRE =? 0) then clear_bits r PORT_CMD PXCMD_FRE else done tt) >>>
  let* stopped := wait_while (any_set r PORT_CMD PXCMD_FR) 500000 1000 in
  if negb stopped then done (Err FisReceiveStopTimeout) else done (Ok tt).

Definition start_cmd_engine r : act W (Result unit AhciError) :=
  let* stopped := wait_while (any_set r PORT_CMD PXCMD_CR) 500000 1000 in
  if negb stopped then done (Err EngineStartTimeout) else
  set_bits r PORT_CMD PXCMD_FRE >>> set_bits r PORT_CMD PXCMD_ST >>> done (Ok tt).

(** `hal.alloc_dma(size).ok_or(DmaAllocationFailed)?`. *)
Definition alloc_or_fail (size : Z) : act W (Result (Z * Z) AhciError) :=
  let* a := alloc_dma size in done (match a with Some x => Ok x | None => Err DmaAllocationFailed end).

(** One iteration of the loop over the command headers. *)
Definition init_header (clb_virt ctba_phys slot : Z) (m : mem_t) : mem_t :=
  let hdr := clb_virt + slot * 32 in
  let ctba := add64 ctba_phys (slot * CMD_TABLE_STRIDE) in
  write_u32 (write_u32 (write_u32 (write_u32 m hdr 0) (hdr + 4) 0) (hdr + 8) (u32 ctba)) (hdr + 12) (u32 (shr ctba 32)).

Definition kind_of (sig : Z) : DeviceKind :=
  if sig =? SIG_ATAPI then Satapi else if sig =? SIG_SEMB then EnclosureManagement
  else if sig =? SIG_PM then PortMultiplier else Sata.

(** `regs.write(offset, regs.read(offset))`: clear write-1-to-clear bits. *)
Definition write_back r (offset : Z) : act W unit := let* v := read r offset in write r offset v.

(** [identify_buf] is where `identify` keeps its local array. *)
Definition init_port (self : AhciController) (identify_buf index : Z) : act W (Result AhciPort AhciError) :=
  let r := mkRegs (base (hba self) + HBA_PORT_BASE + index * HBA_PORT_SIZE) in
  let* ssts := read r PORT_SSTS in
  if negb (Z.land ssts SSTS_DET_MASK =? SSTS_DET_PRESENT) then done (Err PortNotPresent) else
  let*? _ := stop_cmd_engine r in
  let*? clb := alloc_or_fail (CMD_LIST_ENTRIES * 32) in
  let*? fis := alloc_or_fail FIS_RECV_SIZE in
  let*? ctba := alloc_or_fail (num_slots self * CMD_TABLE_STRIDE) in
  if negb (supports_64bit_dma self) &&
     ((2 ^ 32 - 1 <? clb.1) || (2 ^ 32 - 1 <? fis.1) || (2 ^ 32 - 1 <? ctba.1)) then done (Err Requires64BitDma) else
  effect (fun w => set_ram (for_range 0 (num_slots self) (init_header clb.2 ctba.1) (ram w)) w) >>>
  write r PORT_CLB (u32 clb.1) >>>
  write r PORT_CLBU (u32 (shr clb.1 32)) >>>
  write r PORT_FB (u32 fis.1) >>>
  write r PORT_FBU (u32 (shr fis.1 32)) >>>
  write_back r PORT_SERR >>>
  write_back r PORT_IS >>>
  set_bits r PORT_CMD (Z.lor (Z.lor PXCMD_SUD PXCMD_POD) PXCMD_FRE) >>>
  wait_while (any_set r PORT_TFD (Z.lor ATA_STS_BSY ATA_STS_DRQ)) 1000000 1000 >>>
  let*? _ := start_cmd_engine r in
  let* sig := read r PORT_SIG in
  let port := mkPort index r clb.2 ctba.2 (num_slots self) (kind_of sig) 0 false in
  if decide (kind port = Sata) then
    let* id := identify port identify_buf in
    done (Ok (match id with
              | Ok id => mkPort index r clb.2 ctba.2 (num_slots self) (kind_of sig) (id_sectors id) (id_lba48 id)
              | Err _ => port
              end))
  else done (Ok port).

(** The loop over the implemented ports. *)
Fixpoint init_ports (identify_buf pi : Z) (idx : list Z) (self : AhciController) : act W AhciController :=
  match idx with
  | [] => done self
  | i :: rest =>
      if Z.land pi (Z.shiftl 1 i) =? 0 then init_ports identify_buf pi rest self else
      let* res := init_port self identify_buf i in
      match res with
      | Ok port =>
          enable_interrupts port >>>
          init_ports identify_buf pi rest
            (mkController (hba self) (num_slots self) (supports_64bit_dma self) (<[Z.to_nat i := Some port]> (ports self)))
      | Err _ => init_ports identify_buf pi rest self
      end
  end.

Definition AhciController_new (identify_buf abar_phys : Z) : act W (Result AhciController AhciError) :=
  let* mmio := map_mmio abar_phys HBA_MMIO_SIZE in
  let hba := mkRegs mmio in
  let* vs := read hba HBA_VS in
  if (vs =? 0) || (vs =? 0xFFFFFFFF) then done (Err NotAnAhciController) else
  effect (set_base mmio) >>>
  bios_os_handoff hba >>>
  set_bits hba HBA_GHC (Z.lor GHC_AE GHC_IE) >>>
  let* cap := read hba HBA_CAP in
  let* pi := read hba HBA_PI in
  let num_slots := u8 (Z.land (shr cap CAP_NCS_SHIFT) CAP_NCS_MASK + 1) in
  let supports_64bit_dma := negb (Z.land cap CAP_S64A =? 0) in
  let* self := init_ports identify_buf pi (seqZ 0 HBA_MAX_PORTS)
    (mkController hba num_slots supports_64bit_dma (replicate (Z.to_nat HBA_MAX_PORTS) None)) in
  done (Ok self).

(** `iter_ports`. *)
Definition iter_ports (self : AhciController) : list AhciPort := omap (fun o => o) (ports self).

(** ** The interrupt handler *)

(** The body of the inner loop over slots. *)
Definition mark_slots (completed : Z) (w : W) : W :=
  for_range 0 32 (fun slot w => if Z.land completed (Z.shiftl 1 slot) =? 0 then w else set_completion slot true w) w.

Definition irq_port (base_addr port_idx : Z) : act W unit :=
  let port_base := base_addr + (HBA_PORT_BASE + port_idx * HBA_PORT_SIZE) in
  let* interrupt_status := reg_read (port_base + PORT_IS) in
  effect (reg_write (port_base + PORT_IS) interrupt_status) >>>
  let* active_slots := reg_read (port_base + PORT_CI) in
  effect (fun w =>
    let completed := Z.land (PENDING_SLOTS w) (not32 active_slots) in
    if completed =? 0 then w
    else mark_slots completed (set_pending (Z.land (PENDING_SLOTS w) (not32 completed)) w)).

Fixpoint irq_ports (base_addr active_ports : Z) (idx : list Z) : act W unit :=
  match idx with
  | [] => done tt
  | i :: rest =>
      (if Z.land active_ports (Z.shiftl 1 i) =? 0 then done tt else irq_port base_addr i) >>>
      irq_ports base_addr active_ports rest
  end.

(** [eoi] is the end-of-interrupt write of the x86_64 version, to the local APIC's
    register at [phys_to_virt 0xFEE000B0]; the AArch64 version has none. *)
Definition ahci_irq_handler (eoi : option Z) : act W unit := fun w =>
  let base_addr := AHCI_BASE_VIRT w in
  if base_addr =? 0 then (tt, w) else
  (let* active_ports := reg_read (base_addr + HBA_IS) in
   (if active_ports =? 0 then done tt else
    irq_ports base_addr active_ports (seqZ 0 32) >>> effect (reg_write (base_addr + HBA_IS) active_ports)) >>>
   match eoi with Some a => effect (reg_write a 0) | None => done tt end) w.

(** The AArch64 handler is the same walk without the Local APIC acknowledgement. *)
Definition ahci_irq_handler_aarch64 : act W unit := ahci_irq_handler None.
End driver.
