(* ===== verification/AhciCorrect.v ===== *)
(** * The AHCI driver over a controller that follows the specification

    What the controller reads from memory when a command is posted ([decode]), what it
    then does ([AhciDrive], the documented behaviour of a working controller and
    drive), and that over any such controller the driver's transfers move exactly the
    requested sectors. *)
From S2P Require Import Prelude Ports Ahci.

(** ** What a command says *)
Record command := mkCommand {
  c_valid : bool; c_op : Z; c_write : bool; c_lba : Z; c_count : Z; c_regions : list (Z * Z) }.

(** A physical region descriptor: base address and byte count. *)
Definition region_at (m : mem_t) (a : Z) : Z * Z :=
  (read_u32 m a + 2 ^ 32 * read_u32 m (a + 4), Z.land (read_u32 m (a + 12)) 0x3FFFFF + 1).
Definition regions_at (m : mem_t) (table n : Z) : list (Z * Z) :=
  map (fun i => region_at m (prdt_at table i)) (seqZ 0 n).

Definition decode (m : mem_t) (header table : Z) : command :=
  let dw0 := read_u32 m header in
  mkCommand
    ((Z.land dw0 0x1F =? 5) && (m table =? 0x27) && (m (table + 1) =? 0x80) && (m (table + 7) =? 0x40))
    (m (table + 2))
    (Z.testbit dw0 6)
    (le_bytes [m (table + 4); m (table + 5); m (table + 6); m (table + 8); m (table + 9); m (table + 10)])
    (le_bytes [m (table + 12); m (table + 13)])
    (regions_at m table (Z.shiftr dw0 16)).

(** Where the controller finds the bytes of a list of regions: [dma] takes a physical
    address to the address at which the driver sees it. *)
Definition dma_addrs (dma : Z -> Z) (regions : list (Z * Z)) : list Z :=
  flat_map (fun r => map (fun k => dma (r.1 + k)) (seqZ 0 r.2)) regions.
Definition scatter (dma : Z -> Z) (regions : list (Z * Z)) (data : list Z) (m : mem_t) : mem_t :=
  foldl (fun m ab => write_u8 m ab.1 ab.2) m (zip (dma_addrs dma regions) data).
Definition gather (dma : Z -> Z) (regions : list (Z * Z)) (m : mem_t) : list Z := map m (dma_addrs dma regions).

(** [virt_to_phys] translates a page: the controller finds the rest of the page behind the
    physical address it gives. *)
Definition translates {D} `{!Hal D} (dma : Z -> Z) (v : Z) : Prop :=
  exists q, virt_to_phys v = Some q /\ fits 64 q /\ forall k, 0 <= k < 4096 - v mod 4096 -> dma (q + k) = v + k.

(** ** Region tables *)

Lemma land_22 x : 0 <= x < 2 ^ 22 -> Z.land x 0x3FFFFF = x.
Proof. intros. change 0x3FFFFF with (Z.ones 22). rewrite Z.land_ones by lia. by apply Z.mod_small. Qed.

Lemma region_entry m a phys chunk :
  fits 64 phys -> 1 <= chunk <= 4096 -> region_at (copy_to m a (prdt_entry phys chunk)) a = (phys, chunk).
Proof.
  intros Hp Hc. unfold region_at, read_u32.
  pose proof (read_n_copy_to m a (prdt_entry phys chunk)) as E.
  assert (forall k, 0 <= k <= 12 -> read_n 4 (copy_to m a (prdt_entry phys chunk)) (a + k) =
    take 4 (drop (Z.to_nat k) (prdt_entry phys chunk))) as H.
  { intros k Hk. rewrite <- E at 2. change (length (prdt_entry phys chunk)) with 16%nat.
    apply list_eq. intros i. destruct (decide (i < 4)%nat).
    - rewrite lookup_take_lt, lookup_drop, !read_n_lookup by lia. do 2 f_equal. lia.
    - rewrite !lookup_ge_None_2; [done|rewrite length_take; lia|rewrite length_read_n; lia]. }
  rewrite <- (Z.add_0_r a) at 2. rewrite !H by lia. clear E H.
  change (take 4 (drop (Z.to_nat 0) (prdt_entry phys chunk))) with (to_le 4 (u32 phys)).
  change (take 4 (drop (Z.to_nat 4) (prdt_entry phys chunk))) with (to_le 4 (u32 (shr phys 32))).
  change (take 4 (drop (Z.to_nat 12) (prdt_entry phys chunk))) with
    (to_le 4 (Z.lor (Z.land (saturating_sub (u32 chunk) 1) 0x3FFFFF) (Z.shiftl 1 31))).
  rewrite !le_bytes_to_le. unfold u32, wrap, fits, saturating_sub, shr in *.
  rewrite (Z.mod_small chunk), (land_22 (Z.max 0 (chunk - 1))), Z.shiftr_div_pow2 by lia.
  rewrite (lor_pack _ 1 31) by (unfold fits; lia).
  change (2 ^ (8 * Z.of_nat 4)) with (2 ^ 32). rewrite !Z.mod_mod by lia. f_equal.
  - assert (0 <= phys / 2 ^ 32 < 2 ^ 32) by (split; [apply Z.div_pos; lia|apply Z.div_lt_upper_bound; lia]).
    pose proof (Z.div_mod phys (2 ^ 32)). rewrite (Z.mod_small (phys / 2 ^ 32)); lia.
  - rewrite (Z.mod_small (Z.max _ _ + _)) by lia. change 0x3FFFFF with (Z.ones 22). rewrite Z.land_ones by lia.
    replace (Z.max 0 (chunk - 1) + 1 * 2 ^ 31) with (chunk - 1 + 2 ^ 9 * 2 ^ 22) by lia.
    rewrite Z.mod_add, Z.mod_small by lia. lia.
Qed.

Lemma region_at_ext m m' a : (forall x, a <= x < a + 16 -> m x = m' x) -> region_at m a = region_at m' a.
Proof. intros H. unfold region_at, read_u32. rewrite !(read_n_ext 4 m m') by (intros; apply H; lia). done. Qed.

(** How many pages a range touches. *)
Definition pages (v l : Z) : Z := if l <=? 0 then 0 else (v mod 4096 + l + 4095) / 4096.

Lemma pages_step v l (chunk := Z.min (4096 - v mod 4096) l) :
  0 < l -> pages v l = 1 + pages (v + chunk) (l - chunk).
Proof.
  intros Hl. subst chunk. unfold pages. pose proof (Z.mod_pos_bound v 4096). destruct (Z.le_gt_cases l (4096 - v mod 4096)).
  - rewrite Z.min_r by lia. rewrite Z.sub_diag. zcases. symmetry. apply Z.div_unique with (v mod 4096 + l - 1); lia.
  - rewrite Z.min_l by lia. zcases. replace ((v + (4096 - v mod 4096)) mod 4096) with 0.
    + rewrite <- Z.div_add_l by lia. f_equal. lia.
    + symmetry. rewrite (Z.div_mod v 4096) at 1 by lia.
      replace (4096 * (v / 4096) + v mod 4096 + (4096 - v mod 4096)) with (0 + (v / 4096 + 1) * 4096) by lia.
      by rewrite Z.mod_add by lia.
Qed.

Lemma pages_nonneg v l : 0 <= pages v l.
Proof. unfold pages. pose proof (Z.mod_pos_bound v 4096). destruct (Z.leb_spec l 0); [lia|]. apply Z.div_pos; lia. Qed.

Lemma pages_pos v l : 0 < l -> 1 <= pages v l.
Proof. intros. rewrite pages_step by done. pose proof (pages_nonneg (v + Z.min (4096 - v mod 4096) l)
  (l - Z.min (4096 - v mod 4096) l)). lia. Qed.

Lemma pages_bound v l : l <= MAX_TRANSFER_BYTES -> pages v l <= PRDT_ENTRIES.
Proof.
  unfold MAX_TRANSFER_BYTES, PRDT_ENTRIES. intros Hl. unfold pages.
  pose proof (Z.mod_pos_bound v 4096). destruct (Z.leb_spec l 0); [lia|]. apply Z.lt_succ_r, Z.div_lt_upper_bound; lia.
Qed.

Section prdt.
Context {D : Type} `{!Hal D} (dma : Z -> Z).

Lemma dma_addrs_app r1 r2 : dma_addrs dma (r1 ++ r2) = dma_addrs dma r1 ++ dma_addrs dma r2.
Proof using. apply flat_map_app. Qed.

Lemma dma_addrs_page v l q :
  (forall k, 0 <= k < 4096 - v mod 4096 -> dma (q + k) = v + k) -> 0 <= l <= 4096 - v mod 4096 ->
  dma_addrs dma [(q, l)] = seqZ v l.
Proof using.
  intros H Hl. unfold dma_addrs. cbn [flat_map fst snd]. rewrite app_nil_r.
  replace (seqZ v l) with (map (fun k => v + k) (seqZ 0 l)).
  - apply map_ext_in. intros k Hk%list_elem_of_In%elem_of_seqZ. apply H. lia.
  - apply list_eq. intros i. rewrite list_lookup_fmap. destruct (decide (Z.of_nat i < l)).
    + rewrite !lookup_seqZ_lt by lia. done. 
    + by rewrite !lookup_seqZ_ge by lia.
Qed.

Lemma prdt_loop_exact fuel table ptr len count offset (w : world D) :
  (forall v, ptr <= v < ptr + len -> translates dma v) -> 0 <= count -> 0 <= offset <= len ->
  let n := pages (ptr + offset) (len - offset) in
  count + n <= PRDT_ENTRIES -> n <= Z.of_nat fuel ->
  exists m, prdt_loop fuel table ptr len count offset w = (Ok (count + n), set_ram m w) /\
    (forall a, ~ (prdt_at table count <= a < prdt_at table (count + n)) -> m a = ram w a) /\
    dma_addrs dma (map (fun i => region_at m (prdt_at table i)) (seqZ count n)) = seqZ (ptr + offset) (len - offset).
Proof using.
  revert count offset w. induction fuel as [|fuel IH]; intros count offset w Htr Hc Ho n Hn Hf; subst n;
    cbn [prdt_loop]; destruct (Z.ltb_spec offset len) as [Hlt|Hge].
  - pose proof (pages_pos (ptr + offset) (len - offset)). lia.
  - replace (len - offset) with 0 in * by lia. change (pages (ptr + offset) 0) with 0 in *. exists (ram w).
    cbn. rewrite Z.add_0_r. unfold PRDT_ENTRIES in Hn.
    split_and!; [|done|done]. unfold u16, wrap. rewrite Z.mod_small by lia. by destruct w.
  - set (v := ptr + offset) in *. set (chunk := Z.min (4096 - v mod 4096) (len - offset)).
    pose proof (Z.mod_pos_bound v 4096 ltac:(lia)).
    pose proof (pages_step v (len - offset)) as E. fold chunk in E. rewrite E in * by lia. clear E.
    assert (pages (v + chunk) (len - offset - chunk) = pages (ptr + (offset + chunk)) (len - (offset + chunk))) as E
      by (f_equal; lia). rewrite E in *. clear E.
    pose proof (pages_nonneg (ptr + (offset + chunk)) (len - (offset + chunk))) as Hp.
    rewrite (proj2 (Z.leb_gt _ _)) by lia.
    destruct (Htr v) as (q & -> & Hq & Hdma); [lia|]. unfold act_bind, effect.
    set (w1 := set_ram _ w).
    destruct (IH (count + 1) (offset + chunk) w1) as (m & Em & Hm & Ha); [done|lia..|].
    exists m. split; [|split].
    + rewrite Em. by rewrite <- Z.add_assoc.
    + intros a Ha'. rewrite Hm by (unfold prdt_at in *; lia). subst w1. cbn [set_ram ram]. unfold copy_to.
      change (Z.of_nat (length (prdt_entry q chunk))) with 16. unfold prdt_at in *. zcases; done.
    + rewrite seqZ_app by lia. rewrite map_app, dma_addrs_app, Ha. rewrite (seqZ_cons count 1), (seqZ_nil _ (Z.pred 1)) by lia.
      cbn [map].
      rewrite (region_at_ext m (ram w1)) by (intros; apply Hm; unfold prdt_at in *; lia).
      subst w1. cbn [set_ram ram]. rewrite region_entry by (done || lia). rewrite (dma_addrs_page v) by (done || lia).
      replace (len - offset) with (chunk + (len - (offset + chunk))) by lia.
      rewrite seqZ_app by lia. do 2 f_equal. lia.
  - replace (len - offset) with 0 in * by lia. change (pages (ptr + offset) 0) with 0 in *. exists (ram w).
    cbn. rewrite Z.add_0_r. unfold PRDT_ENTRIES in Hn.
    split_and!; [|done|done]. unfold u16, wrap. rewrite Z.mod_small by lia. by destruct w.
Qed.

Lemma prdt_of_buffer table ptr len (w : world D) :
  0 < len -> len <= MAX_TRANSFER_BYTES -> (forall v, ptr <= v < ptr + len -> translates dma v) ->
  exists n m, build_prdt table ptr len w = (Ok n, set_ram m w) /\ 1 <= n <= PRDT_ENTRIES /\
    dma_addrs dma (regions_at m table n) = seqZ ptr len /\
    (forall a, ~ (prdt_at table 0 <= a < prdt_at table n) -> m a = ram w a).
Proof using.
  intros Hl Hmax Htr. unfold build_prdt. rewrite (proj2 (Z.eqb_neq _ _)), (proj2 (Z.ltb_ge _ _)) by lia.
  pose proof (pages_bound ptr len Hmax). pose proof (pages_pos ptr len Hl).
  destruct (prdt_loop_exact (Z.to_nat PRDT_ENTRIES + 1) table ptr len 0 0 w) as (m & E & Hm & Ha);
    rewrite ?Z.add_0_r, ?Z.sub_0_r, ?Z.add_0_l in *; try done; [lia|unfold PRDT_ENTRIES in *; lia|].
  by exists (pages ptr len), m.
Qed.

(** C31: The region table of a buffer: for every buffer of at most [MAX_TRANSFER_BYTES] bytes,
    wherever it starts in its page, the table has at most [PRDT_ENTRIES] entries, the
    bytes the controller will find behind them are, in order, exactly those of the
    buffer, and nothing outside the entries is written; a longer buffer is refused and
    an empty one gets no entry. *)
Theorem build_prdt_exact (table ptr len : Z) (w : world D) :
  0 <= len -> (forall v, ptr <= v < ptr + len -> translates dma v) ->
  if len <=? MAX_TRANSFER_BYTES then
    exists n m, build_prdt table ptr len w = (Ok n, set_ram m w) /\ 0 <= n <= PRDT_ENTRIES /\ (n = 0 <-> len = 0) /\
      dma_addrs dma (regions_at m table n) = seqZ ptr len /\
      (forall a, ~ (prdt_at table 0 <= a < prdt_at table n) -> m a = ram w a)
  else build_prdt table ptr len w = (Err BufferTooLargeForOneCommand, w).
Proof using.
  intros Hl Htr. destruct (Z.leb_spec len MAX_TRANSFER_BYTES) as [Hmax|Hmax].
  - destruct (decide (len = 0)) as [->|Hne].
    + exists 0, (ram w). unfold PRDT_ENTRIES. split_and!; try done. by destruct w.
    + destruct (prdt_of_buffer table ptr len w) as (n & m & E & Hn & Ha & Hm); [lia|done..|].
      exists n, m. split_and!; try done; lia.
  - unfold build_prdt. unfold MAX_TRANSFER_BYTES, PRDT_ENTRIES in *. rewrite (proj2 (Z.eqb_neq _ _)), (proj2 (Z.ltb_lt _ _)) by lia.
    done.
Qed.
End prdt.

(** *** Moving data through a region table *)
Lemma scatter_exact dma regions data m ptr :
  dma_addrs dma regions = seqZ ptr (Z.of_nat (length data)) ->
  forall x, scatter dma regions data m x = copy_to m ptr data x.
Proof.
  intros H x. unfold scatter. rewrite H. clear H. revert ptr m. induction data as [|b data IH]; intros ptr m.
  - unfold copy_to. cbn. zcases; done.
  - cbn [length]. rewrite seqZ_cons by lia. cbn [zip zip_with foldl fst snd].
    replace (Z.pred (Z.of_nat (S (length data)))) with (Z.of_nat (length data)) by lia. rewrite IH.
    unfold copy_to, write_u8. cbn [length]. destruct (Z.eqb_spec x ptr) as [->|].
    + zcases. by replace (ptr - ptr) with 0 by lia.
    + destruct (Z.leb_spec ptr x); [|zcases; done]. replace (Z.to_nat (x - ptr)) with (S (Z.to_nat (x - Z.succ ptr))) by lia.
      cbn [lookup list_lookup]. zcases; done.
Qed.

Lemma gather_exact dma regions m ptr len :
  dma_addrs dma regions = seqZ ptr len -> gather dma regions m = read_n (Z.to_nat len) m ptr.
Proof.
  intros H. unfold gather. rewrite H. unfold read_n, seqZ. rewrite map_map. apply map_ext. intros k. f_equal. lia.
Qed.

(** ** The controller *)

(** The data of [n] sectors from [lba] on, and the medium after writing them. *)
Definition sectors_from (disk : Z -> list Z) (lba n : Z) : list Z := flat_map disk (seqZ lba n).
Definition store_sectors (disk : Z -> list Z) (lba n : Z) (data : list Z) (s : Z) : list Z :=
  if (lba <=? s) && (s <? lba + n) then sub_slice data ((s - lba) * 512) ((s - lba) * 512 + 512) else disk s.

Lemma sectors_from_app d lba n k : 0 <= n -> 0 <= k -> sectors_from d lba (n + k) = sectors_from d lba n ++ sectors_from d (lba + n) k.
Proof. intros. unfold sectors_from. rewrite seqZ_app by done. apply flat_map_app. Qed.

Lemma sectors_from_ext d d' lba n : (forall s, d s = d' s) -> sectors_from d lba n = sectors_from d' lba n.
Proof. intros H. unfold sectors_from. rewrite !flat_map_concat_map. f_equal. by apply map_ext. Qed.

Lemma store_sectors_app d d' lba n k data1 data2 s :
  (forall s, d' s = store_sectors d lba n data1 s) -> 0 <= n -> 0 <= k ->
  Z.of_nat (length data1) = 512 * n -> Z.of_nat (length data2) = 512 * k ->
  store_sectors d' (lba + n) k data2 s = store_sectors d lba (n + k) (data1 ++ data2) s.
Proof.
  intros Hd Hn Hk H1 H2. unfold store_sectors at 1 2. rewrite Hd. unfold store_sectors.
  destruct (Z.leb_spec lba s); [|zcases; done]. destruct (Z.ltb_spec s (lba + n)).
  - zcases. unfold sub_slice. rewrite drop_app_le by lia. rewrite take_app_le by (rewrite length_drop; lia). done.
  - destruct (Z.ltb_spec s (lba + n + k)); zcases; try done. unfold sub_slice. rewrite drop_app_ge by lia.
    do 2 f_equal; lia.
Qed.

Section served.
Context {D : Type} `{!Hal D}.

(** The controller finishes the command in [slot] while the driver waits at most [n]
    times: its interrupt has marked the slot, or the driver sees the slot's bit in
    PxCI cleared. *)
Inductive served (p : AhciPort) (slot : Z) : nat -> world D -> world D -> Prop :=
| served_irq n w : completed slot w = true -> served p slot n w w
| served_poll n w ci w1 :
    completed slot w = false -> read (p_regs p) PORT_CI w = (ci, w1) -> Z.land ci (Z.shiftl 1 slot) = 0 ->
    served p slot n w (let w2 := set_completion slot true w1 in
      set_pending (Z.land (PENDING_SLOTS w2) (not32 (Z.shiftl 1 slot))) w2)
| served_wait n w ci w1 w' :
    completed slot w = false -> read (p_regs p) PORT_CI w = (ci, w1) -> Z.land ci (Z.shiftl 1 slot) <> 0 ->
    served p slot n (wait_micros 10 w1) w' -> served p slot (S n) w w'.

Lemma completion_served p slot n N w w' :
  served p slot n w w' -> (n < N)%nat -> completion_loop N p slot w = (Ok tt, w').
Proof using.
  intros H. revert N. induction H as [n w H|n w ci w1 Hc E H|n w ci w1 w' Hc E H _ IH]; intros [|N] HN; try lia;
    cbn [completion_loop].
  - by rewrite H.
  - rewrite Hc. unfold act_bind at 1. rewrite E, H. done.
  - rewrite Hc. unfold act_bind at 1. rewrite E, (proj2 (Z.eqb_neq _ _) H). unfold act_bind, effect. cbn [fst snd].
    destruct N as [|N]; [lia|]. cbn [Nat.eqb]. apply IH. lia.
Qed.
End served.

(** A working controller with a drive behind the port [p]: [idle] when no command runs,
    [disk] the medium; [scratch] are the addresses the controller may write at any time
    (received FISes and transfer counts). *)
Class AhciDrive (D : Type) `{!Hal D} (p : AhciPort) := {
  dma : Z -> Z;
  idle : D -> Prop;
  disk : D -> Z -> list Z;
  scratch : Z -> Prop;
  drive_sector : forall d s, length (disk d s) = 512%nat;
  idle_tfd : forall w : world D, idle (dev w) -> exists v, read (p_regs p) PORT_TFD w = (v, w) /\
    Z.land v (Z.lor ATA_STS_BSY ATA_STS_DRQ) = 0 /\ Z.land v ATA_STS_ERR = 0;
  idle_slots : forall w : world D, idle (dev w) ->
    read (p_regs p) PORT_SACT w = (0, w) /\ read (p_regs p) PORT_CI w = (0, w);
  (** the controller runs a posted command to completion within two seconds *)
  run_command : forall (w : world D) slot c,
    idle (dev w) -> 0 <= slot < p_num_slots p ->
    c = decode (ram w) (cmd_header p slot) (dma (read_u32 (ram w) (cmd_header p slot + 8) +
                                                 2 ^ 32 * read_u32 (ram w) (cmd_header p slot + 12))) ->
    c_valid c = true -> 1 <= c_count c ->
    Z.of_nat (length (dma_addrs dma (c_regions c))) = 512 * c_count c ->
    c_op c = (if c_write c then ATA_CMD_WRITE_DMA_EXT else ATA_CMD_READ_DMA_EXT) ->
    exists n w', (n < Z.to_nat 200000)%nat /\
      served p slot n (reg_write (base (p_regs p) + PORT_CI) (Z.shiftl 1 slot) w) w' /\ idle (dev w') /\
      (forall a, ~ scratch a -> ram w' a =
         (if c_write c then ram w else scatter dma (c_regions c) (sectors_from (disk (dev w)) (c_lba c) (c_count c)) (ram w)) a) /\
      (forall s, disk (dev w') s =
         (if c_write c then store_sectors (disk (dev w)) (c_lba c) (c_count c) (gather dma (c_regions c) (ram w))
          else disk (dev w)) s)
}.

(** ** One command *)
Section commands.
Context {D : Type} `{!Hal D} (p : AhciPort) `{!AhciDrive D p}.
Implicit Types w : world D.

(** The memory of slot 0, which the controller and the driver share. *)
Definition own (a : Z) : Prop :=
  scratch a \/ clb_virt p <= a < clb_virt p + 8 \/ ctba_virt p <= a < ctba_virt p + 272.

(** A port as `init_port` leaves it: the first command header points to its table. *)
Record ready w : Prop := {
  rd_idle : idle (dev w);
  rd_slots : 1 <= p_num_slots p;
  rd_link : dma (read_u32 (ram w) (clb_virt p + 8) + 2 ^ 32 * read_u32 (ram w) (clb_virt p + 12)) = ctba_virt p;
  rd_apart : clb_virt p + 16 <= ctba_virt p \/ ctba_virt p + 272 <= clb_virt p;
  rd_scratch : forall a, scratch a -> ~ (clb_virt p + 8 <= a < clb_virt p + 16)
}.

(** A buffer outside the memory the controller works in, mapped for DMA. *)
Record safe_buffer (ptr len : Z) : Prop := {
  sb_mapped : forall v, ptr <= v < ptr + len -> translates dma v;
  sb_apart : forall a, ptr <= a < ptr + len -> ~ own a /\ ~ (clb_virt p + 8 <= a < clb_virt p + 16)
}.

Lemma wait_loop_free (cond : act (world D) bool) n step w : cond w = (false, w) -> wait_loop cond n step w = (true, w).
Proof using. intros H. destruct n; cbn [wait_loop]; unfold act_bind; by rewrite H. Qed.

Lemma find_slot_0 w : idle (dev w) -> 1 <= p_num_slots p -> find_free_slot p w = (Ok 0, w).
Proof using AhciDrive0.
  intros Hi Hn. unfold find_free_slot, act_bind. destruct (idle_slots w Hi) as [-> ->]. 
  rewrite seqZ_cons by lia. done.
Qed.

(** The command the driver writes is the one the controller reads. *)
Definition fis_mem (m : mem_t) (header table dw0 : Z) (fis : list Z) : mem_t :=
  copy_to (write_u32 (write_u32 m header dw0) (header + 4) 0) table fis.

Lemma copy_to_byte m a bs k : 0 <= k < Z.of_nat (length bs) -> copy_to m a bs (a + k) = nth (Z.to_nat k) bs 0.
Proof using.
  intros Hk. unfold copy_to. zcases. replace (a + k - a) with k by lia.
  rewrite nth_lookup. done.
Qed.

Lemma lba_bytes lba : 0 <= lba < 2 ^ 48 ->
  le_bytes [u8 lba; u8 (shr lba 8); u8 (shr lba 16); u8 (shr lba 24); u8 (shr lba 32); u8 (shr lba 40)] = lba.
Proof using.
  intros H. unfold u8, wrap, shr. rewrite !Z.shiftr_div_pow2 by lia.
  transitivity (le_bytes (to_le 6 lba)).
  - unfold to_le. rewrite !Z.div_div by lia. done.
  - rewrite le_bytes_to_le. apply Z.mod_small. lia.
Qed.

Lemma header_word (wr : bool) n (dw0 := Z.lor (Z.lor fis_dwords (Z.shiftl (if wr then 1 else 0) 6)) (Z.shiftl n 16)) :
  1 <= n <= PRDT_ENTRIES -> fits 32 dw0 /\ Z.land dw0 0x1F = 5 /\ Z.testbit dw0 6 = wr /\ Z.shiftr dw0 16 = n.
Proof using.
  intros Hn. subst dw0. unfold PRDT_ENTRIES in Hn.
  assert (n = 1 \/ n = 2 \/ n = 3 \/ n = 4 \/ n = 5 \/ n = 6 \/ n = 7 \/ n = 8 \/ n = 9) as Hc by lia.
  destruct wr; destruct_or! Hc; subst n; split_and!; done.
Qed.

Lemma decode_fis m header table n op lba count (wr : bool) :
  header + 8 <= table \/ table + 272 <= header -> 1 <= n <= PRDT_ENTRIES -> 0 <= lba < 2 ^ 48 -> 0 <= count < 2 ^ 16 ->
  decode (fis_mem m header table (Z.lor (Z.lor fis_dwords (Z.shiftl (if wr then 1 else 0) 6)) (Z.shiftl n 16))
            (FisRegH2D op lba count)) header table =
  mkCommand true op wr lba count (regions_at m table n).
Proof using.
  intros Hap Hn Hlba Hcount. destruct (header_word wr n Hn) as (H32 & H5 & H6 & H16).
  revert H32 H5 H6 H16. generalize (Z.lor (Z.lor fis_dwords (Z.shiftl (if wr then 1 else 0) 6)) (Z.shiftl n 16)).
  intros dw0 H32 H5 H6 H16. unfold PRDT_ENTRIES in Hn.
  assert (read_u32 (fis_mem m header table dw0 (FisRegH2D op lba count)) header = dw0) as E0.
  { unfold fis_mem, read_u32. rewrite read_n_copy_to_other by (cbn [length FisRegH2D]; lia).
    change (read_u32 (write_u32 (write_u32 m header dw0) (header + 4) 0) header = dw0).
    rewrite read_write_u32_other by lia. by apply read_write_u32. }
  assert (forall k, 0 <= k < 20 -> fis_mem m header table dw0 (FisRegH2D op lba count) (table + k) =
    nth (Z.to_nat k) (FisRegH2D op lba count) 0) as Ek by (intros; by apply copy_to_byte).
  assert (regions_at (fis_mem m header table dw0 (FisRegH2D op lba count)) table n = regions_at m table n) as Er.
  { apply map_ext_in. intros i Hi%list_elem_of_In%elem_of_seqZ. apply region_at_ext. intros a Ha.
    unfold fis_mem, write_u32, copy_to, prdt_at in *. rewrite !length_to_le. cbn [length FisRegH2D]. zcases; done. }
  unfold decode. rewrite E0, H5, H6, H16, Er.
  pose proof (Ek 0 ltac:(lia)) as E00. rewrite Z.add_0_r in E00. rewrite E00, !Ek by lia.
  change (nth (Z.to_nat 0) (FisRegH2D op lba count) 0) with 0x27.
  change (nth (Z.to_nat 1) (FisRegH2D op lba count) 0) with 0x80.
  change (nth (Z.to_nat 2) (FisRegH2D op lba count) 0) with op.
  change (nth (Z.to_nat 7) (FisRegH2D op lba count) 0) with 0x40.
  f_equal; [exact (lba_bytes lba Hlba)|].
  change (u8 count + 256 * (u8 (shr count 8) + 256 * 0) = count).
  unfold u8, wrap, shr. rewrite Z.shiftr_div_pow2 by lia. pose proof (Z.div_mod count (2 ^ 8)).
  rewrite (Z.mod_small (count / 2 ^ 8)); [lia|]. split; [apply Z.div_pos; lia|apply Z.div_lt_upper_bound; lia].
Qed.

(** Posting a command. *)
Lemma post_command {B} (k : act (world D) B) op lba count (wr : bool) n m w :
  (write_header p 0 wr n >>>
   effect (fun w => set_ram (copy_to (ram w) (cmd_table p 0) (FisRegH2D op lba count)) w) >>>
   write (p_regs p) PORT_CI (Z.shiftl 1 0) >>> k) (set_ram m w) =
  k (reg_write (base (p_regs p) + PORT_CI) (Z.shiftl 1 0)
       (set_ram (fis_mem m (clb_virt p + 0) (ctba_virt p + 0)
          (Z.lor (Z.lor fis_dwords (Z.shiftl (if wr then 1 else 0) 6)) (Z.shiftl n 16)) (FisRegH2D op lba count)) w)).
Proof using. reflexivity. Qed.

Lemma length_sectors_from (d : D) lba n : 0 <= n -> Z.of_nat (length (sectors_from (disk d) lba n)) = 512 * n.
Proof using.
  intros Hn. unfold sectors_from. rewrite <- (Z2Nat.id n) by done. generalize (Z.to_nat n). clear. intros k.
  revert lba. induction k as [|k IH]; intros lba; [done|]. rewrite seqZ_cons by lia. cbn [flat_map]. rewrite length_app.
  replace (Z.pred (Z.of_nat (S k))) with (Z.of_nat k) by lia. specialize (IH (Z.succ lba)).
  rewrite (drive_sector d lba). lia.
Qed.

Abbreviation header_dw0 wr n := (Z.lor (Z.lor fis_dwords (Z.shiftl (if wr then 1 else 0) 6)) (Z.shiftl n 16)).

(** What the driver has written when it posts: only its own memory, and the command. *)
Lemma posted_memory w m n op lba count (wr : bool) (M := fis_mem m (clb_virt p) (ctba_virt p) (header_dw0 wr n) (FisRegH2D op lba count)) :
  ready w -> 1 <= n <= PRDT_ENTRIES -> 0 <= lba < 2 ^ 48 -> 0 <= count < 2 ^ 16 ->
  (forall a, ~ (prdt_at (ctba_virt p) 0 <= a < prdt_at (ctba_virt p) n) -> m a = ram w a) ->
  (forall a, ~ own a -> M a = ram w a) /\
  decode M (clb_virt p) (dma (read_u32 M (clb_virt p + 8) + 2 ^ 32 * read_u32 M (clb_virt p + 12))) =
    mkCommand true op wr lba count (regions_at m (ctba_virt p) n).
Proof using.
  intros [Hi Hs Hl Hap Hsc] Hn Hlba Hc Hm.
  assert (forall a, ~ (clb_virt p <= a < clb_virt p + 8 \/ ctba_virt p <= a < ctba_virt p + 272) -> M a = ram w a) as HM.
  { intros a Ha. subst M. unfold fis_mem, write_u32, copy_to. rewrite !length_to_le. cbn [length FisRegH2D].
    unfold prdt_at, PRDT_ENTRIES in *. zcases; apply Hm; lia. }
  split; [intros a Ha; apply HM; unfold own in Ha; tauto|].
  assert (forall a, a = clb_virt p + 8 \/ a = clb_virt p + 12 -> read_u32 M a = read_u32 (ram w) a) as HL.
  { intros a Ha. unfold read_u32. f_equal. apply read_n_ext. intros x Hx. apply HM. lia. }
  rewrite !HL, Hl by lia. apply decode_fis; lia.
Qed.

(** A port stays ready while its header's pointer is untouched. *)
Lemma ready_frame w w' :
  ready w -> idle (dev w') -> (forall a, clb_virt p + 8 <= a < clb_virt p + 16 -> ram w' a = ram w a) -> ready w'.
Proof using.
  intros [Hi Hs Hl Hap Hsc] Hi' Hr. split; try done. rewrite <- Hl. unfold read_u32.
  do 2 f_equal; [|f_equal]; f_equal; apply read_n_ext; intros a Ha; apply Hr; lia.
Qed.

Lemma idle_waits w timeout step :
  idle (dev w) -> wait_while (any_set (p_regs p) PORT_TFD (Z.lor ATA_STS_BSY ATA_STS_DRQ)) timeout step w = (true, w).
Proof using AhciDrive0.
  intros Hi. apply wait_loop_free. destruct (idle_tfd w Hi) as (v & E & Hv & _). unfold any_set, act_bind. by rewrite E, Hv.
Qed.

(** A read or write command does its work. *)
Lemma issue_transfer w lba count (wr : bool) ptr len :
  ready w -> safe_buffer ptr len -> len = 512 * count -> 1 <= count <= 64 -> 0 <= lba < 2 ^ 48 ->
  exists w', issue_command p (if wr then ATA_CMD_WRITE_DMA_EXT else ATA_CMD_READ_DMA_EXT) lba count wr ptr len w = (Ok tt, w') /\
    ready w' /\
    (forall a, ~ own a -> ram w' a =
       (if wr then ram w else copy_to (ram w) ptr (sectors_from (disk (dev w)) lba count)) a) /\
    (forall s, disk (dev w') s =
       (if wr then store_sectors (disk (dev w)) lba count (read_n (Z.to_nat len) (ram w) ptr) else disk (dev w)) s).
Proof using.
  intros Hr [Hmap Hbuf] Hlen Hc Hlba. pose proof Hr as [Hi Hn Hl Hap Hsc].
  unfold issue_command, act_bind at 1. rewrite idle_waits by done. cbn [negb].
  unfold act_try at 1, act_bind at 1. rewrite find_slot_0 by done.
  unfold act_bind at 1, effect at 1. unfold act_bind at 1, effect at 1.
  set (w1 := set_pending _ _).
  assert (ram w1 = ram w /\ dev w1 = dev w) as [Er1 Ed1] by done. revert Er1 Ed1. generalize w1. clear w1. intros w1 Er1 Ed1.
  pose proof (prdt_of_buffer dma (cmd_table p 0) ptr len w1) as Hp.
  destruct Hp as (n & m & Ep & Hn9 & Ha & Hm); [lia|unfold MAX_TRANSFER_BYTES, PRDT_ENTRIES; lia|done|].
  unfold act_try at 1, act_bind at 1. rewrite Ep, post_command. clear Ep.
  change (cmd_table p 0) with (ctba_virt p + 0) in *. rewrite !Z.add_0_r in *. rewrite Er1 in Hm.
  set (op := if wr then ATA_CMD_WRITE_DMA_EXT else ATA_CMD_READ_DMA_EXT).
  destruct (posted_memory w m n op lba count wr Hr Hn9 Hlba ltac:(lia) Hm) as [HM Ed].
  set (M := fis_mem m (clb_virt p) (ctba_virt p) (header_dw0 wr n) (FisRegH2D op lba count)) in *.
  destruct (run_command (set_ram M w1) 0 _ ltac:(cbn [set_ram dev]; by rewrite Ed1) ltac:(lia) eq_refl)
    as (k & w' & Hk & Hserved & Hi' & Hram & Hdisk);
    cbn [set_ram ram dev] in *; change (cmd_header p 0) with (clb_virt p + 0) in *; rewrite ?Z.add_0_r in *; rewrite Ed in *;
    cbn [c_valid c_op c_count c_write c_regions c_lba] in *; [done|lia|rewrite Ha, length_seqZ; lia|done|].
  unfold act_try, act_bind at 1. rewrite (completion_served _ _ _ _ _ _ Hserved Hk).
  destruct (idle_tfd w' Hi') as (v & Ev & _ & Hv). unfold act_bind. rewrite Ev, Hv. cbn [negb Z.eqb].
  rewrite Ed1 in *.
  assert (forall a, ~ own a -> ram w' a =
    (if wr then ram w else copy_to (ram w) ptr (sectors_from (disk (dev w)) lba count)) a) as Hram'.
  { intros a Ho. rewrite Hram by (unfold own in Ho; tauto).
    destruct wr; [by apply HM|]. rewrite (scatter_exact _ _ _ _ ptr) by (rewrite length_sectors_from, Ha by lia; f_equal; lia).
    unfold copy_to. case_match; [done|]. by apply HM. }
  exists w'. split; [done|]. split; [|split; [done|]].
  - apply (ready_frame w); [done..|]. intros a Ha'.
    rewrite Hram' by (unfold own; specialize (Hsc a); destruct Hap; intuition lia).
    destruct wr; [done|]. unfold copy_to. rewrite length_sectors_from by lia.
    destruct (Z.leb_spec ptr a); [|done]. zcases; [|done]. destruct (Hbuf a) as [_ Hb]; [lia|]. lia.
  - intros s. rewrite Hdisk. destruct wr; [|done]. f_equal. rewrite (gather_exact _ _ _ ptr len) by done.
    apply read_n_ext. intros a Ha'. apply HM. apply Hbuf. lia.
Qed.
Lemma safe_sub ptr len off n : safe_buffer ptr len -> 0 <= off -> off + n <= len -> safe_buffer (ptr + off) n.
Proof using. intros [Hm Ha] Ho Hn. split; intros; [apply Hm|apply Ha]; lia. Qed.

Lemma rw_nothing w lba ptr len off (wr : bool) :
  ready w -> len - off = 0 ->
  exists w', (Some (Ok tt) : option (Result unit AhciError), w) = (Some (Ok tt), w') /\ ready w' /\
    (forall a, ~ own a -> ram w' a =
       (if wr then ram w else copy_to (ram w) (ptr + off) (sectors_from (disk (dev w)) lba ((len - off) / 512))) a) /\
    (forall s, disk (dev w') s =
       (if wr then store_sectors (disk (dev w)) lba ((len - off) / 512) (read_n (Z.to_nat (len - off)) (ram w) (ptr + off))
        else disk (dev w)) s).
Proof using.
  intros Hr ->. change (0 / 512) with 0. exists w. split_and!; try done; intros; destruct wr; try done.
  - unfold copy_to, sectors_from. rewrite seqZ_nil by lia. cbn [flat_map length]. zcases; done.
  - unfold store_sectors. zcases; done.
Qed.

(** The loop moves the rest of the buffer. *)
Lemma rw_loop_exact fuel w lba ptr len off (wr : bool) (n := (len - off) / 512) :
  ready w -> safe_buffer ptr len -> 0 <= off <= len -> (len - off) mod 512 = 0 -> n <= Z.of_nat fuel ->
  0 <= lba -> lba + n <= 2 ^ 48 ->
  exists w', rw_loop fuel p (if wr then ATA_CMD_WRITE_DMA_EXT else ATA_CMD_READ_DMA_EXT) lba ptr len off wr w = (Some (Ok tt), w') /\
    ready w' /\
    (forall a, ~ own a -> ram w' a =
       (if wr then ram w else copy_to (ram w) (ptr + off) (sectors_from (disk (dev w)) lba n)) a) /\
    (forall s, disk (dev w') s =
       (if wr then store_sectors (disk (dev w)) lba n (read_n (Z.to_nat (len - off)) (ram w) (ptr + off)) else disk (dev w)) s).
Proof using.
  subst n. revert w lba off. induction fuel as [|fuel IH]; intros w lba off Hr Hs Ho Hm Hf Hl Hlba; cbn [rw_loop];
    pose proof (Z.div_mod (len - off) 512 ltac:(lia)) as Hdiv;
    destruct (Z.ltb_spec off len) as [Hlt|Hge]; try lia.
  - apply rw_nothing; [done|lia].
  - set (chunk := Z.min (len - off) MAX_TRANSFER_BYTES). unfold SECTOR_SIZE.
    assert (0 < chunk <= len - off /\ chunk <= 32768 /\ chunk mod 512 = 0) as (Hc1 & Hc2 & Hc3).
    { subst chunk. unfold MAX_TRANSFER_BYTES, PRDT_ENTRIES. destruct (Z.min_spec (len - off) ((9 - 1) * 4096)) as [[? ->]|[? ->]];
        split_and!; try lia; done. }
    pose proof (Z.div_mod chunk 512 ltac:(lia)) as Hcd. rewrite Hc3 in Hcd.
    assert (u16 (chunk / 512) = chunk / 512) as -> by (apply Z.mod_small; lia).
    unfold act_bind.
    destruct (issue_transfer w lba (chunk / 512) wr (ptr + off) chunk) as (w1 & -> & Hr1 & Hram1 & Hdisk1);
      [done|apply (safe_sub ptr len); [done|lia|lia]|lia..|].
    assert ((len - off) / 512 = chunk / 512 + (len - (off + chunk)) / 512 /\ (len - (off + chunk)) mod 512 = 0) as [En Em].
    { replace (len - (off + chunk)) with ((len - off) + (- (chunk / 512)) * 512) by lia.
      rewrite Z.mod_add, Z.div_add by lia. lia. }
    assert (add64 lba (chunk / 512) = lba + chunk / 512) as -> by (apply Z.mod_small; lia).
    destruct (IH w1 (lba + chunk / 512) (off + chunk)) as (w' & -> & Hr' & Hram' & Hdisk'); [done|done|lia|done|lia|lia|lia|].
    exists w'. split; [done|]. split; [done|]. split.
    + intros a Ha. rewrite Hram' by done. destruct wr; [by apply Hram1|].
      rewrite En, sectors_from_app by (apply Z.div_pos; lia). rewrite (sectors_from_ext _ _ (lba + chunk / 512) _ Hdisk1).
      rewrite <- copy_to_app, length_sectors_from by (apply Z.div_pos; lia).
      replace (ptr + off + 512 * (chunk / 512)) with (ptr + (off + chunk)) by lia.
      unfold copy_to at 1 2. case_match; [done|]. by apply Hram1.
    + intros s. rewrite Hdisk'. destruct wr; [|apply Hdisk1].
      replace (Z.to_nat (len - off)) with (Z.to_nat chunk + Z.to_nat (len - (off + chunk)))%nat by lia.
      rewrite read_n_app, En. replace (ptr + off + Z.of_nat (Z.to_nat chunk)) with (ptr + (off + chunk)) by lia.
      rewrite <- (store_sectors_app (disk (dev w)) (disk (dev w1)) _ _ _ (read_n (Z.to_nat chunk) (ram w) (ptr + off)));
        [|done|apply Z.div_pos; lia..|rewrite length_read_n; lia|rewrite length_read_n; pose proof (Z.div_mod (len - (off + chunk)) 512); lia].
      f_equal. apply read_n_ext. intros a Ha. apply Hram1. apply Hs. lia.
  - apply rw_nothing; [done|lia].
Qed.
End commands.

Lemma sub_slice_all_sectors (data : list Z) n :
  0 <= n -> Z.of_nat (length data) = 512 * n ->
  flat_map (fun i => sub_slice data (i * 512) (i * 512 + 512)) (seqZ 0 n) = data.
Proof.
  intros Hn. rewrite <- (Z2Nat.id n) by done. generalize (Z.to_nat n). clear n Hn. intros n. revert data.
  induction n as [|n IH]; intros data Hl.
  - destruct data; [done|cbn in Hl; lia].
  - rewrite seqZ_cons by lia. cbn [flat_map]. change (Z.succ 0) with 1. rewrite <- (take_drop 512 data) at 2. f_equal.
    rewrite <- (IH (drop 512 data)) by (rewrite length_drop; lia).
    replace (Z.pred (Z.of_nat (S n))) with (Z.of_nat n) by lia. rewrite !flat_map_concat_map. f_equal.
    change (seqZ 1 (Z.of_nat n)) with (seqZ (1 + 0) (Z.of_nat n)). rewrite <- (fmap_add_seqZ 1 0 (Z.of_nat n)). unfold fmap. rewrite map_map. apply map_ext_in.
    intros i Hi%list_elem_of_In%elem_of_seqZ. unfold sub_slice. rewrite drop_drop. f_equal; [lia|]. f_equal. lia.
Qed.

Lemma sectors_from_store d lba n data :
  0 <= n -> Z.of_nat (length data) = 512 * n -> sectors_from (store_sectors d lba n data) lba n = data.
Proof.
  intros Hn Hl. rewrite <- (sub_slice_all_sectors data n Hn Hl) at 2. unfold sectors_from.
  rewrite !flat_map_concat_map. f_equal. rewrite <- (Z.add_0_r lba) at 2. rewrite <- (fmap_add_seqZ lba 0 n). unfold fmap. rewrite map_map.
  apply map_ext_in. intros i Hi%list_elem_of_In%elem_of_seqZ. unfold store_sectors. zcases.
  by replace (lba + i - lba) with i by lia.
Qed.

(** C9: Sector transfers: over a working controller and drive, for any sector-aligned length
    however many commands it takes, `read_sectors` returns with exactly the requested
    sectors in the buffer, the medium unchanged and no other memory touched than its
    command structures, and `write_sectors` returns with exactly the buffer in the
    requested sectors, every other sector and all memory outside its command
    structures unchanged; the port stays usable. *)
Theorem ahci_transfer_exact {D : Type} `{!Hal D} (p : AhciPort) `{!AhciDrive D p} (w : world D) (lba ptr len : Z) :
  ready p w -> safe_buffer p ptr len -> kind p = Sata -> 0 < len -> len mod SECTOR_SIZE = 0 ->
  0 <= lba -> lba + len / SECTOR_SIZE <= 2 ^ 48 ->
  let n := len / SECTOR_SIZE in
  (exists w', read_sectors p lba ptr len w = (Some (Ok tt), w') /\ ready p w' /\
     read_n (Z.to_nat len) (ram w') ptr = sectors_from (disk (dev w)) lba n /\
     (forall a, ~ own p a -> ~ (ptr <= a < ptr + len) -> ram w' a = ram w a) /\
     (forall s, disk (dev w') s = disk (dev w) s)) /\
  (exists w', write_sectors p lba ptr len w = (Some (Ok tt), w') /\ ready p w' /\
     sectors_from (disk (dev w')) lba n = read_n (Z.to_nat len) (ram w) ptr /\
     (forall s, ~ (lba <= s < lba + n) -> disk (dev w') s = disk (dev w) s) /\
     (forall a, ~ own p a -> ram w' a = ram w a)).
Proof.
  intros Hr Hs Hk Hl Hm Hlba Hmax n. unfold SECTOR_SIZE in *.
  assert (forall wr, rw_sectors (rw_fuel len) p lba ptr len wr =
    rw_loop (rw_fuel len) p (if wr then ATA_CMD_WRITE_DMA_EXT else ATA_CMD_READ_DMA_EXT) lba ptr len 0 wr) as E.
  { intros wr. unfold rw_sectors, SECTOR_SIZE. rewrite decide_False by (rewrite Hk; tauto).
    rewrite Hm, (proj2 (Z.eqb_neq _ _)) by lia. done. }
  assert (0 <= len / 512) by (apply Z.div_pos; lia). pose proof (Z.div_mod len 512 ltac:(lia)) as Hdiv.
  unfold read_sectors, write_sectors. rewrite !E. split.
  - destruct (rw_loop_exact p (rw_fuel len) w lba ptr len 0 false) as (w' & E' & Hr' & Hram & Hdisk);
      rewrite ?Z.sub_0_r, ?Z.add_0_r in *; try done; [lia|unfold rw_fuel, SECTOR_SIZE; lia|].
    exists w'. split_and!; try done.
    + transitivity (read_n (Z.to_nat len) (copy_to (ram w) ptr (sectors_from (disk (dev w)) lba n)) ptr).
      * apply read_n_ext. intros a Ha. apply Hram. apply Hs. lia.
      * assert (Z.to_nat len = length (sectors_from (disk (dev w)) lba n)) as ->.
        { pose proof (length_sectors_from p (dev w) lba n). lia. }
        apply read_n_copy_to.
    + intros a Ho Ha. rewrite Hram by done. unfold copy_to. rewrite (length_sectors_from p) by lia. zcases; done.
  - destruct (rw_loop_exact p (rw_fuel len) w lba ptr len 0 true) as (w' & E' & Hr' & Hram & Hdisk);
      rewrite ?Z.sub_0_r, ?Z.add_0_r in *; try done; [lia|unfold rw_fuel, SECTOR_SIZE; lia|].
    exists w'. split_and!; try done.
    + rewrite (sectors_from_ext _ _ _ _ Hdisk). apply sectors_from_store; [lia|]. rewrite length_read_n. lia.
    + intros s Hs'. rewrite Hdisk. unfold store_sectors. fold n. zcases; done.
Qed.

(** ** A controller that runs a command as soon as it is posted *)
Definition sim_port : AhciPort := mkPort 0 (mkRegs 0x1100) 0x10000 0x20000 32 Sata 0 false.
Definition pad_sector (l : list Z) : list Z := take 512 (l ++ replicate 512 0).
Definition sim_disk (d : Z -> list Z) (s : Z) : list Z := pad_sector (d s).

Lemma length_pad l : length (pad_sector l) = 512%nat.
Proof. unfold pad_sector. rewrite length_take, length_app, length_replicate. lia. Qed.
Lemma pad_id l : length l = 512%nat -> pad_sector l = l.
Proof. intros H. unfold pad_sector. rewrite take_app_le, take_ge by lia. done. Qed.

Definition sim_run (slot : Z) (w : world (Z -> list Z)) : world (Z -> list Z) :=
  let m := ram w in
  let hdr := cmd_header sim_port slot in
  let c := decode m hdr (read_u32 m (hdr + 8) + 2 ^ 32 * read_u32 m (hdr + 12)) in
  if c_write c then
    World (AHCI_BASE_VIRT w) (SLOT_COMPLETION w) (PENDING_SLOTS w) m
      (store_sectors (sim_disk (dev w)) (c_lba c) (c_count c) (gather id (c_regions c) m))
  else set_ram (scatter id (c_regions c) (sectors_from (sim_disk (dev w)) (c_lba c) (c_count c)) m) w.

#[export] Instance sim_hal : Hal (Z -> list Z) := {|
  reg_read _ := done 0;
  reg_write a v := if a =? 0x1100 + PORT_CI then sim_run (Z.log2 v) else fun w => w;
  map_mmio a _ := done a;
  alloc_dma _ := done None;
  virt_to_phys v := if fitsb 64 v then Some v else None;
  wait_micros _ w := w
|}.

Lemma sim_served slot n (w : world (Z -> list Z)) : exists w', served sim_port slot n w w' /\ ram w' = ram w /\ dev w' = dev w.
Proof.
  destruct (completed slot w) eqn:E; eexists; (split; [|split]).
  1: by apply served_irq.
  3: by eapply served_poll.
  all: done.
Qed.

#[export] Instance sim_ahci : AhciDrive (Z -> list Z) sim_port.
Proof.
  refine {| dma := id; idle := fun _ => True; disk := sim_disk; scratch := fun _ => False |}.
  - intros d s. apply length_pad.
  - intros w _. by exists 0.
  - done.
  - intros w slot c _ Hslot Hc Hv Hcnt Hlen Hop.
    destruct (sim_served slot 0 (sim_run slot w)) as (w' & Hs & Er & Ed). exists 0%nat, w'.
    assert (reg_write (base (p_regs sim_port) + PORT_CI) (Z.shiftl 1 slot) w = sim_run slot w) as ->.
    { cbn [reg_write sim_hal]. change (base (p_regs sim_port) + PORT_CI =? 4352 + PORT_CI) with true. cbn beta iota.
      rewrite Z.shiftl_1_l, Z.log2_pow2 by lia. done. }
    split; [lia|]. split; [done|]. split; [done|]. unfold id in Hc. rewrite Er, Ed. unfold sim_run. rewrite <- Hc.
    split; intros x; destruct (c_write c) eqn:Ew; try done. cbn [dev]. unfold sim_disk at 1, store_sectors.
    destruct (Z.leb_spec (c_lba c) x), (Z.ltb_spec x (c_lba c + c_count c)); cbn [andb]; try (apply pad_id, length_pad).
    apply pad_id. apply Nat2Z.inj. rewrite length_sub_slice; [lia..|]. unfold gather. rewrite length_map. lia.
Defined.

(** Memory in which the first header points to its table. *)
Definition sim_world : world (Z -> list Z) :=
  World 0x1000 (replicate 32 false) 0 (write_u32 (fun _ => 7) 0x10008 0x20000) (fun s => replicate 512 (s mod 256)).
Definition sim_start : world (Z -> list Z) := set_ram (write_u32 (ram sim_world) 0x1000C 0) sim_world.

Lemma sim_ready : ready sim_port sim_start.
Proof. split; [done|done|vm_compute; reflexivity|left; done|done]. Qed.

Lemma sim_translates v : 0 <= v < 2 ^ 64 -> translates id v.
Proof.
  intros Hv. exists v. cbn [virt_to_phys sim_hal]. unfold fitsb.
  rewrite (proj2 (Z.leb_le _ _)), (proj2 (Z.ltb_lt _ _)) by lia. done.
Qed.

Lemma sim_buffer ptr len : 0x30000 <= ptr -> ptr + len <= 2 ^ 64 -> safe_buffer sim_port ptr len.
Proof.
  intros Hp Hl. split; intros v Hv; [apply sim_translates; lia|]. unfold own. cbn [scratch sim_ahci clb_virt ctba_virt sim_port]. lia.
Qed.

Lemma build_prdt_exact_witness :
  exists n m, build_prdt 0x20000 0x30010 0x8000 sim_start = (Ok n, set_ram m sim_start) /\ n <= 9 /\
    dma_addrs id (regions_at m 0x20000 n) = seqZ 0x30010 0x8000.
Proof.
  pose proof (build_prdt_exact id 0x20000 0x30010 0x8000 sim_start) as H.
  destruct H as (n & m & E & Hn & _ & Ha & _); [lia|intros v Hv; apply sim_translates; lia|].
  exists n, m. split; [exact E|split; [apply Hn|exact Ha]].
Defined.

Lemma ahci_transfer_exact_witness :
  exists w', read_sectors sim_port 5 0x30010 0x10000 sim_start = (Some (Ok tt), w') /\
    read_n (Z.to_nat 0x10000) (ram w') 0x30010 = sectors_from (sim_disk (dev sim_start)) 5 128.
Proof.
  destruct (ahci_transfer_exact sim_port sim_start 5 0x30010 0x10000) as [(w' & E & _ & H & _) _];
    [apply sim_ready|apply sim_buffer; lia|reflexivity|lia|reflexivity|lia|vm_compute; discriminate|].
  exists w'. split; [exact E|exact H].
Defined.

(** What `rw_sectors` refuses, before it touches the controller: a device that is not a
    disk, an empty buffer and a length that is not a multiple of the sector size. *)
Theorem ahci_rejects {D : Type} `{!Hal D} (p : AhciPort) (w : world D) (lba ptr len : Z) (fuel : nat) (wr : bool) :
  (kind p <> Sata -> rw_sectors fuel p lba ptr len wr w = (Some (Err DeviceNotAta), w)) /\
  (kind p = Sata -> len = 0 \/ len mod SECTOR_SIZE <> 0 ->
   rw_sectors fuel p lba ptr len wr w = (Some (Err BufferNotSectorAligned), w)).
Proof.
  unfold rw_sectors. split.
  - intros H. by rewrite decide_True.
  - intros Hk Hl. rewrite decide_False by (rewrite Hk; tauto).
    destruct (Z.eqb_spec len 0); [done|]. destruct Hl as [|Hl]; [done|]. by rewrite (proj2 (Z.eqb_neq _ _) Hl).
Qed.

(** ** Interrupts *)
Section irq.
Context {D : Type} `{!Hal D} (r : Z -> Z).
(** While the handler runs the registers it reads hold [r] and nothing else touches the
    statics. *)
Definition same_statics (w w' : world D) : Prop :=
  SLOT_COMPLETION w' = SLOT_COMPLETION w /\ PENDING_SLOTS w' = PENDING_SLOTS w /\ AHCI_BASE_VIRT w' = AHCI_BASE_VIRT w.
Context (Hread : forall a w, (reg_read a w).1 = r a /\ same_statics w (reg_read a w).2).
Context (Hwrite : forall a v w, same_statics w (reg_write a v w)).

(** A slot that was pending and that some interrupting port of the list no longer has
    active. *)
Definition finished (base active slot : Z) (idx : list Z) : bool :=
  existsb (fun i => bit active i && negb (bit (r (base + (HBA_PORT_BASE + i * HBA_PORT_SIZE) + PORT_CI)) slot)) idx.

(** The statics after the slots [f] have been retired. *)
Definition retired (f : Z -> bool) (w w' : world D) : Prop :=
  AHCI_BASE_VIRT w' = AHCI_BASE_VIRT w /\ length (SLOT_COMPLETION w') = length (SLOT_COMPLETION w) /\
  fits 32 (PENDING_SLOTS w') /\
  forall slot, 0 <= slot < 32 ->
    completed slot w' = completed slot w || (bit (PENDING_SLOTS w) slot && f slot) /\
    bit (PENDING_SLOTS w') slot = bit (PENDING_SLOTS w) slot && negb (f slot).

Lemma bool_decide_ext_Z (a b c d : Z) : (a < b <-> c < d) -> (a <? b) = (c <? d).
Proof using. intros. destruct (Z.ltb_spec a b), (Z.ltb_spec c d); done || lia. Qed.

Lemma bit_land_not32 a b slot : 0 <= slot < 32 -> bit (Z.land a (not32 b)) slot = bit a slot && negb (bit b slot).
Proof using.
  intros Hs. rewrite !bit_testbit by lia. rewrite Z.land_spec. unfold not_w. rewrite Z.lxor_spec, testbit_ones' by lia.
  rewrite (proj2 (Z.leb_le _ _)), (proj2 (Z.ltb_lt _ _)) by lia. done.
Qed.

Lemma completed_set slot b slot' (w : world D) :
  0 <= slot' -> 0 <= slot < Z.of_nat (length (SLOT_COMPLETION w)) ->
  completed slot' (set_completion slot b w) = if slot' =? slot then b else completed slot' w.
Proof using.
  intros H1 H2. unfold completed, set_completion. cbn [SLOT_COMPLETION]. rewrite !nth_lookup.
  destruct (Z.eqb_spec slot' slot) as [->|].
  - by rewrite list_lookup_insert_eq by lia.
  - by rewrite list_lookup_insert_ne by lia.
Qed.

Lemma mark_slots_spec c (w : world D) :
  length (SLOT_COMPLETION w) = 32%nat ->
  let w' := mark_slots c w in
  PENDING_SLOTS w' = PENDING_SLOTS w /\ AHCI_BASE_VIRT w' = AHCI_BASE_VIRT w /\ length (SLOT_COMPLETION w') = 32%nat /\
  forall slot, 0 <= slot < 32 -> completed slot w' = completed slot w || bit c slot.
Proof using.
  intros Hl. cbv zeta.
  assert (let w' := mark_slots c w in PENDING_SLOTS w' = PENDING_SLOTS w /\ AHCI_BASE_VIRT w' = AHCI_BASE_VIRT w /\
    length (SLOT_COMPLETION w') = 32%nat /\
    forall slot, 0 <= slot < 32 -> completed slot w' = completed slot w || ((slot <? 32) && bit c slot)) as (H1 & H2 & H3 & H4).
  { cbv zeta. unfold mark_slots.
    apply (for_range_ind (fun i w' => PENDING_SLOTS w' = PENDING_SLOTS w /\ AHCI_BASE_VIRT w' = AHCI_BASE_VIRT w /\
      length (SLOT_COMPLETION w') = 32%nat /\
      forall slot, 0 <= slot < 32 -> completed slot w' = completed slot w || ((slot <? i) && bit c slot))); [lia| |].
    - split_and!; try done. intros slot Hs. rewrite (proj2 (Z.ltb_ge _ _)) by lia. by rewrite orb_false_r.
    - intros i w' Hi (P1 & P2 & P3 & P4). rewrite <- (negb_involutive (Z.land c (Z.shiftl 1 i) =? 0)).
      fold (bit c i). destruct (bit c i) eqn:Eb; cbn [negb].
      + split_and!; try done; [cbn [set_completion SLOT_COMPLETION]; by rewrite length_insert|].
        intros slot Hs. rewrite completed_set, P4 by lia. destruct (Z.eqb_spec slot i) as [->|].
        * rewrite (proj2 (Z.ltb_lt i (i + 1))), Eb by lia. by rewrite orb_true_r.
        * do 2 f_equal. apply bool_decide_ext_Z. lia.
      + split_and!; try done. intros slot Hs. rewrite P4 by lia. f_equal. destruct (Z.eqb_spec slot i) as [->|].
        * by rewrite Eb, !andb_false_r.
        * f_equal. apply bool_decide_ext_Z. lia. }
  split_and!; try done. intros slot Hs. rewrite H4, (proj2 (Z.ltb_lt _ _)) by lia. done.
Qed.

Lemma retired_nothing (w w' : world D) f :
  same_statics w w' -> fits 32 (PENDING_SLOTS w) -> (forall slot, 0 <= slot < 32 -> f slot = false) -> retired f w w'.
Proof using.
  intros (E1 & E2 & E3) Hf H. unfold retired, completed. rewrite E1, E2, E3. split_and!; try done.
  intros slot Hs. rewrite H by done. cbn [negb]. by rewrite andb_false_r, orb_false_r, andb_true_r.
Qed.

Lemma retired_trans f g (w w1 w2 : world D) :
  retired f w w1 -> retired g w1 w2 -> retired (fun s => f s || g s) w w2.
Proof using.
  intros (A1 & A2 & A3 & A4) (B1 & B2 & B3 & B4). split_and!; [congruence..|done|].
  intros slot Hs. destruct (A4 slot Hs) as [C1 C2], (B4 slot Hs) as [-> ->]. rewrite C1, C2.
  destruct (completed slot w), (bit (PENDING_SLOTS w) slot), (f slot), (g slot); done.
Qed.

Lemma retired_frame f (w w1 w2 w3 : world D) :
  same_statics w w1 -> retired f w1 w2 -> same_statics w2 w3 -> retired f w w3.
Proof using.
  intros (A1 & A2 & A3) (B1 & B2 & B3 & B4) (C1 & C2 & C3). unfold retired, completed in *.
  rewrite <- A1, <- A2, <- A3, C1, C2, C3. done.
Qed.

Lemma irq_port_spec base i (w : world D) :
  length (SLOT_COMPLETION w) = 32%nat -> fits 32 (PENDING_SLOTS w) ->
  retired (fun slot => negb (bit (r (base + (HBA_PORT_BASE + i * HBA_PORT_SIZE) + PORT_CI)) slot)) w (irq_port base i w).2.
Proof using Hread Hwrite.
  intros Hl Hf. unfold irq_port, act_bind, effect.
  set (pb := base + (HBA_PORT_BASE + i * HBA_PORT_SIZE)).
  destruct (Hread (pb + PORT_IS) w) as [_ S1]. destruct (reg_read (pb + PORT_IS) w) as [v w1]. cbn [snd] in S1.
  pose proof (Hwrite (pb + PORT_IS) v w1) as S2. revert S2. generalize (reg_write (pb + PORT_IS) v w1). intros w2 S2.
  destruct (Hread (pb + PORT_CI) w2) as [E3 S3]. destruct (reg_read (pb + PORT_CI) w2) as [ci w3]. cbn [fst snd] in *. subst ci.
  assert (same_statics w w3) as S by (destruct S1 as (? & ? & ?), S2 as (? & ? & ?), S3 as (? & ? & ?); split_and!; congruence).
  clear S1 S2 S3. cbn [snd]. destruct S as (E1 & E2 & E4). rewrite E2. set (c := Z.land (PENDING_SLOTS w) _).
  assert (forall slot, 0 <= slot < 32 -> bit c slot = bit (PENDING_SLOTS w) slot && negb (bit (r (pb + PORT_CI)) slot)) as Hc
    by (intros; by apply bit_land_not32).
  destruct (Z.eqb_spec c 0) as [E0|].
  - unfold retired, completed. rewrite E1, E2, E4. split_and!; try done. intros slot Hs. rewrite <- Hc, E0 by done.
    assert (bit 0 slot = false) as H0 by done. rewrite H0, orb_false_r. split; [done|].
    specialize (Hc slot Hs). rewrite E0, H0 in Hc. destruct (bit (PENDING_SLOTS w) slot); [|done].
    cbn in Hc |- *. by rewrite <- Hc.
  - destruct (mark_slots_spec c (set_pending (Z.land (PENDING_SLOTS w) (not32 c)) w3)) as (M1 & M2 & M3 & M4);
      [cbn [set_pending SLOT_COMPLETION]; congruence|].
    unfold retired. rewrite M1, M2, M3. cbn [set_pending AHCI_BASE_VIRT PENDING_SLOTS]. split_and!; [done|done|by apply fits_land_l|].
    intros slot Hs. rewrite M4, Hc, bit_land_not32, Hc by done. unfold completed at 1. cbn [set_pending SLOT_COMPLETION].
    rewrite E1. split; [done|]. by destruct (bit (PENDING_SLOTS w) slot), (bit _ slot).
Qed.

Lemma irq_ports_spec base active idx (w : world D) :
  length (SLOT_COMPLETION w) = 32%nat -> fits 32 (PENDING_SLOTS w) ->
  retired (fun slot => finished base active slot idx) w (irq_ports base active idx w).2.
Proof using Hread Hwrite.
  revert w. induction idx as [|i idx IH]; intros w Hl Hf; cbn [irq_ports].
  - by apply retired_nothing.
  - unfold act_bind. rewrite <- (negb_involutive (Z.land active (Z.shiftl 1 i) =? 0)). fold (bit active i).
    destruct (bit active i) eqn:Ei; cbn [negb].
    + pose proof (irq_port_spec base i w Hl Hf) as H1. destruct (irq_port base i w) as [[] w1]. cbn [snd] in H1.
      assert (length (SLOT_COMPLETION w1) = 32%nat /\ fits 32 (PENDING_SLOTS w1)) as [Hl1 Hf1]
        by (destruct H1 as (_ & -> & ? & _); done).
      pose proof (retired_trans _ _ _ _ _ H1 (IH w1 Hl1 Hf1)) as H2. destruct H2 as (P1 & P2 & P3 & P4). split_and!; try done.
      intros slot Hs. unfold finished. cbn [existsb]. rewrite Ei. exact (P4 slot Hs).
    + destruct (IH w Hl Hf) as (P1 & P2 & P3 & P4). split_and!; try done. intros slot Hs. unfold finished. cbn [existsb].
      rewrite Ei. exact (P4 slot Hs).
Qed.

(** The interrupt handler retires exactly the finished commands it can see: a slot
    becomes completed, and stops being pending, if and only if it was pending and one
    of the ports that raise the interrupt does not have it active; every other slot
    keeps its state.  (Slots are tracked per number and not per port.)  Without a
    controller nothing happens. *)
Theorem ahci_irq_exact (eoi : option Z) (w : world D) :
  length (SLOT_COMPLETION w) = 32%nat -> fits 32 (PENDING_SLOTS w) ->
  let b := AHCI_BASE_VIRT w in
  let w' := (ahci_irq_handler eoi w).2 in
  if b =? 0 then w' = w
  else forall slot, 0 <= slot < 32 ->
    let f := finished b (r (b + HBA_IS)) slot (seqZ 0 32) in
    completed slot w' = completed slot w || (bit (PENDING_SLOTS w) slot && f) /\
    bit (PENDING_SLOTS w') slot = bit (PENDING_SLOTS w) slot && negb f.
Proof using Hread Hwrite.
  intros Hl Hf b w'. subst w'. unfold ahci_irq_handler. fold b. destruct (b =? 0); [done|].
  unfold act_bind, effect. destruct (Hread (b + HBA_IS) w) as [E S1].
  destruct (reg_read (b + HBA_IS) w) as [active w1]. cbn [fst snd] in E, S1. subst active.
  set (rest := if r (b + HBA_IS) =? 0 then _ else _).
  assert (retired (fun slot => finished b (r (b + HBA_IS)) slot (seqZ 0 32)) w (rest w1).2) as Hrest.
  { subst rest. destruct (Z.eqb_spec (r (b + HBA_IS)) 0) as [E0|].
    - apply retired_nothing; [done..|]. intros slot _. rewrite E0. done.
    - assert (length (SLOT_COMPLETION w1) = 32%nat /\ fits 32 (PENDING_SLOTS w1)) as [Hl1 Hf1]
        by (destruct S1 as (-> & -> & _); done).
      pose proof (irq_ports_spec b (r (b + HBA_IS)) (seqZ 0 32) w1 Hl1 Hf1) as H.
      destruct (irq_ports b (r (b + HBA_IS)) (seqZ 0 32) w1) as [[] w2]. cbn [snd] in *.
      by apply (retired_frame _ w w1 w2). }
  clearbody rest. destruct (rest w1) as [[] w2]. cbn [snd] in Hrest.
  destruct eoi as [a|]; cbn [snd]; [|by apply Hrest].
  by apply (retired_frame _ w w w2 (reg_write a 0 w2)).
Qed.
End irq.

(** A controller whose port 0 interrupts with only slot 5 still active. *)
Definition irq_regs (a : Z) : Z := if a =? 0x1000 + HBA_IS then 1 else if a =? 0x1100 + PORT_CI then 2 ^ 5 else 0.
#[local] Instance irq_hal : Hal unit := {|
  reg_read a := done (irq_regs a); reg_write _ _ w := w; map_mmio a _ := done a; alloc_dma _ := done None;
  virt_to_phys v := Some v; wait_micros _ w := w |}.
Definition irq_world : world unit := World 0x1000 (replicate 32 false) (2 ^ 3 + 2 ^ 5) (fun _ => 0) tt.

Lemma ahci_irq_exact_witness :
  let w' := (ahci_irq_handler None irq_world).2 in
  completed 3 w' = true /\ bit (PENDING_SLOTS w') 3 = false /\ completed 5 w' = false /\ bit (PENDING_SLOTS w') 5 = true.
Proof.
  pose proof (ahci_irq_exact irq_regs ltac:(done) ltac:(done) None irq_world ltac:(reflexivity) ltac:(done)) as H.
  destruct (H 3 ltac:(lia)) as [H1 H2], (H 5 ltac:(lia)) as [H3 H4].
  split; [exact H1|split; [exact H2|split; [exact H3|exact H4]]].
Defined.
