(* ===== verification/Pci.v ===== *)
(** * PCI enumeration and the memory services of the AHCI driver (src/src/pci.rs)

    Configuration reads through ports 0xCF8/0xCFC, the bus scan, and `KernelHal`, the
    implementation of the driver's `Hal` trait on the kernel's frame allocator and page
    tables. *)
From S2P Require Import Prelude Pmm Vmm Ports.

Definition CONFIG_ADDRESS : Z := 0xCF8.
Definition CONFIG_DATA : Z := 0xCFC.

Record PciDevice := mkPci {
  bus : Z; slot : Z; func : Z; vendor_id : Z; device_id : Z; class : Z; subclass : Z; prog_if : Z; bar5 : Z }.

Definition config_address (bus slot func offset : Z) : Z :=
  Z.lor (Z.lor (Z.lor (Z.lor (Z.shiftl 1 31) (Z.shiftl bus 16)) (Z.shiftl slot 11)) (Z.shiftl func 8)) (Z.land offset 0xFC).

Section config.
Context {P : Type} `{!PortIO P}.

Definition read_config_32 (bus slot func offset : Z) : act P Z :=
  effect (outl CONFIG_ADDRESS (config_address bus slot func offset)) >>> inl CONFIG_DATA.
Definition read_config_16 (bus slot func offset : Z) : act P Z :=
  let* value := read_config_32 bus slot func offset in done (Z.land (shr value (Z.land offset 2 * 8)) 0xFFFF).
Definition read_config_8 (bus slot func offset : Z) : act P Z :=
  let* value := read_config_32 bus slot func offset in done (Z.land (shr value (Z.land offset 3 * 8)) 0xFF).

(** The body of the inner loop of `scan_buses`. *)
Definition scan_slot (bus slot : Z) (devices : list PciDevice) : act P (list PciDevice) :=
  let* vendor_id := read_config_16 bus slot 0 0x00 in
  if vendor_id =? 0xFFFF then done devices else
  let* device_id := read_config_16 bus slot 0 0x02 in
  let* class := read_config_8 bus slot 0 0x0B in
  let* subclass := read_config_8 bus slot 0 0x0A in
  let* prog_if := read_config_8 bus slot 0 0x09 in
  let* bar5 := read_config_32 bus slot 0 0x24 in
  done (devices ++ [mkPci bus slot 0 vendor_id device_id class subclass prog_if bar5]).

Fixpoint scan_slots (bus : Z) (slots : list Z) (devices : list PciDevice) : act P (list PciDevice) :=
  match slots with
  | [] => done devices
  | slot :: rest => let* devices := scan_slot bus slot devices in scan_slots bus rest devices
  end.
Fixpoint scan_bus_list (buses : list Z) (devices : list PciDevice) : act P (list PciDevice) :=
  match buses with
  | [] => done devices
  | bus :: rest => let* devices := scan_slots bus (seqZ 0 32) devices in scan_bus_list rest devices
  end.
Definition scan_buses : act P (list PciDevice) := scan_bus_list (seqZ 0 256) [].
End config.

(** The test of `init_ahci_devices`. *)
Definition is_ahci (d : PciDevice) : bool := (class d =? 0x01) && (subclass d =? 0x06).

(** ** `impl Hal for KernelHal` *)
Section kernel_hal.
Context {P : Type} `{FA : FrameAllocator P}.
Implicit Types m : machine P.

Definition mmio_flags : MapFlags := {| writable := true; user_accessible := false; execute_disable := true; device := true |}.

(** The `while page < page_end` loop; [n] is the number of pages. *)
Fixpoint map_mmio_pages (n : nat) (root page : Z) m : machine P :=
  match n with
  | O => m
  | S k => map_mmio_pages k root (page + 0x1000) (map_page (A := x86_64) root page page mmio_flags m).2
  end.

Definition map_mmio (phys_addr size : Z) m : Z * machine P :=
  let page_start := Z.land phys_addr (not64 0xFFF) in
  let page_end := Z.land (add64 (add64 phys_addr (Z.max size 1)) 0xFFF) (not64 0xFFF) in
  let root := Z.land (root_reg m) (not64 0xFFF) in
  (phys_addr, map_mmio_pages (Z.to_nat ((page_end - page_start) / 0x1000)) root page_start m).

Definition alloc_dma (phys_mem_offset size : Z) m : option (Z * Z) * machine P :=
  let frames_needed := (size + 4095) / 4096 in
  match fa_alloc (pmm m) with
  | (None, p') => (None, with_pmm p' m)
  | (Some start_phys, p') =>
      let virt := add64 start_phys phys_mem_offset in
      (Some (start_phys, virt), with_mem (write_bytes (mem m) virt 0 (frames_needed * 4096)) (with_pmm p' m))
  end.

Definition virt_to_phys (phys_mem_offset virt : Z) : option Z := Some (sub64 virt phys_mem_offset).
End kernel_hal.

(** ** Configuration space *)

(** A host bridge that follows configuration mechanism 1: [conf bus slot func] are the
    bytes of a function's configuration header, all ones where there is none; it
    answers on the data port with the double word the address port selects. *)
Record pci_bridge {P} `{!PortIO P} (conf : Z -> Z -> Z -> Z -> Z) : Prop := {
  conf_byte : forall b s f o, fits 8 (conf b s f o);
  conf_read : forall p a, Z.testbit a 31 = true ->
    (inl CONFIG_DATA (outl CONFIG_ADDRESS a p)).1 =
    le_bytes (map (conf (a / 2 ^ 16 mod 2 ^ 8) (a / 2 ^ 11 mod 2 ^ 5) (a / 2 ^ 8 mod 2 ^ 3)) (seqZ (a mod 2 ^ 8) 4))
}.

(** A field of a double word of configuration space is the bytes at its offset. *)
Lemma le_field l k n : bytes_ok l -> Z.land (shr (le_bytes l) (8 * Z.of_nat k)) (Z.ones (8 * Z.of_nat n)) = le_bytes (take n (drop k l)).
Proof.
  intros H. unfold shr. rewrite Z.land_ones, Z.shiftr_div_pow2 by lia. rewrite <- le_bytes_drop by done.
  rewrite <- le_bytes_take; [done|]. by apply Forall_drop.
Qed.

(** The address selects its bus, slot, function and double word. *)
Lemma config_address_fields b s f o :
  fits 8 b -> fits 5 s -> fits 3 f -> fits 8 o ->
  let a := config_address b s f o in
  Z.testbit a 31 = true /\ a / 2 ^ 16 mod 2 ^ 8 = b /\ a / 2 ^ 11 mod 2 ^ 5 = s /\ a / 2 ^ 8 mod 2 ^ 3 = f /\
  a mod 2 ^ 8 = Z.land o 0xFC.
Proof.
  intros Hb Hs Hf Ho. cbv zeta.
  assert (config_address b s f o =
    Z.land o 0xFC + (f + (s + (b + 2 ^ 15) * 2 ^ 5) * 2 ^ 3) * 2 ^ 8) as ->.
  { assert (fits 8 (Z.land o 0xFC)) by (by apply fits_land_l).
    transitivity (Z.lor (Z.land o 0xFC) (Z.shiftl (Z.lor f (Z.shiftl (Z.lor s (Z.shiftl (Z.lor b (Z.shiftl 1 15)) 5)) 3)) 8)).
    - unfold config_address. rewrite !Z.shiftl_lor, !Z.shiftl_shiftl by lia. apply Z.bits_inj'. intros i _.
      rewrite !Z.lor_spec. cbn [Z.add]. repeat destruct (Z.testbit _ _); done.
    - rewrite (lor_pack _ _ 8), (lor_pack f _ 3), (lor_pack s _ 5) by (done || lia).
      rewrite (lor_pack b 1 15) by (unfold fits in *; lia). lia. }
  assert (fits 8 (Z.land o 0xFC)) as Hl by (by apply fits_land_l). revert Hl. generalize (Z.land o 0xFC). intros l Hl.
  unfold fits in *. split_and!.
  - rewrite Z.testbit_true by lia. replace (_ / 2 ^ 31) with 1; [done|].
    apply Z.div_unique with (l + (f + (s + b * 2 ^ 5) * 2 ^ 3) * 2 ^ 8); lia.
  - apply (field_extract 16 8 (l + (f + s * 2 ^ 3) * 2 ^ 8) b (2 ^ 7)); unfold fits; lia.
  - apply (field_extract 11 5 (l + f * 2 ^ 8) s (b + 2 ^ 15)); unfold fits; lia.
  - apply (field_extract 8 3 l f (s + (b + 2 ^ 15) * 2 ^ 5)); unfold fits; lia.
  - pose proof (field_extract 0 8 0 l (f + (s + (b + 2 ^ 15) * 2 ^ 5) * 2 ^ 3) (l + (f + (s + (b + 2 ^ 15) * 2 ^ 5) * 2 ^ 3) * 2 ^ 8)) as E.
    rewrite Z.pow_0_r, Z.div_1_r in E. apply E; unfold fits; lia.
Qed.

(** ** The scan *)

(** A function's header, read off configuration space. *)
Definition header_device (conf : Z -> Z) (b s : Z) : PciDevice :=
  mkPci b s 0 (le_bytes [conf 0; conf 1]) (le_bytes [conf 2; conf 3]) (conf 0x0B) (conf 0x0A) (conf 0x09)
    (le_bytes [conf 0x24; conf 0x25; conf 0x26; conf 0x27]).

Section scan.
Context {P : Type} `{!PortIO P} (conf : Z -> Z -> Z -> Z -> Z) (Hb : pci_bridge (P := P) conf).

Lemma read_config_32_spec b s o p :
  fits 8 b -> fits 5 s -> fits 8 o ->
  (read_config_32 b s 0 o p).1 = le_bytes (map (conf b s 0) (seqZ (Z.land o 0xFC) 4)).
Proof using Hb.
  intros. destruct (config_address_fields b s 0 o) as (H31 & E1 & E2 & E3 & E4); try done.
  unfold read_config_32, act_bind, effect. rewrite (conf_read _ Hb) by done. by rewrite E1, E2, E3, E4.
Qed.

Lemma conf_bytes_ok b s l : bytes_ok (map (conf b s 0) l).
Proof using Hb. apply Forall_fmap, Forall_true. intros. apply (conf_byte _ Hb). Qed.

Lemma read_config_16_spec b s o p :
  fits 8 b -> fits 5 s -> o = 0x00 \/ o = 0x02 ->
  (read_config_16 b s 0 o p).1 = le_bytes [conf b s 0 o; conf b s 0 (o + 1)].
Proof using Hb.
  intros H1 H2 Ho. assert (fits 8 o) by (destruct Ho; subst; done).
  pose proof (read_config_32_spec b s o p H1 H2 ltac:(done)) as E.
  unfold read_config_16, act_bind. destruct (read_config_32 b s 0 o p) as [v p']. cbn [fst] in E |- *. subst v.
  destruct Ho; subst o; [exact (le_field _ 0 2 (conf_bytes_ok _ _ _))|exact (le_field _ 2 2 (conf_bytes_ok _ _ _))].
Qed.

Lemma read_config_8_spec b s o p :
  fits 8 b -> fits 5 s -> o = 0x09 \/ o = 0x0A \/ o = 0x0B ->
  (read_config_8 b s 0 o p).1 = conf b s 0 o.
Proof using Hb.
  intros H1 H2 Ho. assert (fits 8 o) by (destruct Ho as [|[]]; subst; done).
  pose proof (read_config_32_spec b s o p H1 H2 ltac:(done)) as E.
  unfold read_config_8, act_bind. destruct (read_config_32 b s 0 o p) as [v p']. cbn [fst] in E |- *. subst v.
  transitivity (le_bytes [conf b s 0 o]); [|cbn [le_bytes]; lia].
  destruct Ho as [|[|]]; subst o;
    [exact (le_field _ 1 1 (conf_bytes_ok _ _ _))|exact (le_field _ 2 1 (conf_bytes_ok _ _ _))|
     exact (le_field _ 3 1 (conf_bytes_ok _ _ _))].
Qed.

(** One slot adds its device if it has one. *)
Definition device_at (b s : Z) : list PciDevice :=
  if le_bytes [conf b s 0 0; conf b s 0 1] =? 0xFFFF then [] else [header_device (conf b s 0) b s].

Lemma scan_slot_spec b s devices p : fits 8 b -> fits 5 s -> (scan_slot b s devices p).1 = devices ++ device_at b s.
Proof using Hb.
  intros H1 H2. unfold scan_slot, device_at, act_bind.
  pose proof (read_config_16_spec b s 0 p H1 H2 ltac:(lia)) as E0. destruct (read_config_16 b s 0 0 p) as [v0 p0]. cbn [fst] in E0. subst v0.
  destruct (_ =? 0xFFFF); [by rewrite app_nil_r|].
  pose proof (read_config_16_spec b s 2 p0 H1 H2 ltac:(lia)) as E0. destruct (read_config_16 b s 0 2 p0) as [v1 p1]. cbn [fst] in E0. subst v1.
  pose proof (read_config_8_spec b s 0x0B p1 H1 H2 ltac:(lia)) as E0. destruct (read_config_8 b s 0 0x0B p1) as [v2 p2]. cbn [fst] in E0. subst v2.
  pose proof (read_config_8_spec b s 0x0A p2 H1 H2 ltac:(lia)) as E0. destruct (read_config_8 b s 0 0x0A p2) as [v3 p3]. cbn [fst] in E0. subst v3.
  pose proof (read_config_8_spec b s 0x09 p3 H1 H2 ltac:(lia)) as E0. destruct (read_config_8 b s 0 0x09 p3) as [v4 p4]. cbn [fst] in E0. subst v4.
  pose proof (read_config_32_spec b s 0x24 p4 H1 H2 ltac:(done)) as E0. destruct (read_config_32 b s 0 0x24 p4) as [v5 p5]. cbn [fst] in E0. subst v5.
  done.
Qed.

Lemma scan_slots_spec b slots devices p :
  fits 8 b -> Forall (fits 5) slots -> (scan_slots b slots devices p).1 = devices ++ flat_map (device_at b) slots.
Proof using Hb.
  intros H1 H2. revert devices p. induction H2 as [|s slots Hs _ IH]; intros devices p; cbn [scan_slots flat_map].
  - by rewrite app_nil_r.
  - unfold act_bind. pose proof (scan_slot_spec b s devices p H1 Hs) as E. destruct (scan_slot b s devices p) as [l p']. cbn [fst] in E.
    subst l. by rewrite IH, app_assoc.
Qed.

(** The bus scan finds every device and reports it right: over a bridge that implements
    configuration mechanism 1 the list has one entry for each bus and slot whose
    function 0 answers, in ascending order, with the identification, class and base
    address its configuration header holds. *)
Theorem scan_buses_exact (p : P) :
  (scan_buses p).1 = flat_map (fun b => flat_map (device_at b) (seqZ 0 32)) (seqZ 0 256).
Proof using Hb.
  unfold scan_buses. assert (Forall (fits 8) (seqZ 0 256)) as H by (apply Forall_seqZ; unfold fits; lia).
  change (flat_map _ (seqZ 0 256)) with ([] ++ flat_map (fun b => flat_map (device_at b) (seqZ 0 32)) (seqZ 0 256)).
  generalize (@nil PciDevice). intros devices. revert devices p.
  induction H as [|b bs Hb1 _ IH]; intros devices p; cbn [scan_bus_list flat_map].
  - by rewrite app_nil_r.
  - unfold act_bind. pose proof (scan_slots_spec b (seqZ 0 32) devices p Hb1 ltac:(apply Forall_seqZ; unfold fits; lia)) as E.
    destruct (scan_slots b (seqZ 0 32) devices p) as [l p']. cbn [fst] in E. subst l. by rewrite IH, app_assoc.
Qed.
End scan.

(** A bridge with one AHCI controller on bus 0, slot 31. *)
Definition sim_conf (b s f o : Z) : Z :=
  if (b =? 0) && (s =? 31) && (f =? 0) then
    nth (Z.to_nat o) ([0x86; 0x80; 0x22; 0x29; 0; 0; 0; 0; 2; 1; 6; 1] ++ replicate 24 0 ++ [0; 0x10; 0xBF; 0xFE]) 0
  else 0xFF.
#[local] Instance sim_bridge : PortIO Z := {|
  inb _ := done 0; outb _ _ p := p; inw _ := done 0; outw _ _ p := p;
  inl _ p := (le_bytes (map (sim_conf (p / 2 ^ 16 mod 2 ^ 8) (p / 2 ^ 11 mod 2 ^ 5) (p / 2 ^ 8 mod 2 ^ 3)) (seqZ (p mod 2 ^ 8) 4)), p);
  outl port v p := if port =? CONFIG_ADDRESS then v else p |}.

Lemma sim_bridge_ok : pci_bridge (P := Z) sim_conf.
Proof.
  split; [|done]. intros b s f o. unfold sim_conf. destruct (_ && _); [|done].
  generalize (Z.to_nat o). intros i. destruct (decide (i < 40)%nat); [|by rewrite nth_overflow by (cbn; lia)].
  do 40 (destruct i as [|i]; [done|]). lia.
Qed.

Lemma scan_buses_exact_witness :
  (scan_buses 0).1 = flat_map (fun b => flat_map (device_at sim_conf b) (seqZ 0 32)) (seqZ 0 256) /\
  device_at sim_conf 0 31 = [mkPci 0 31 0 0x8086 0x2922 1 6 1 0xFEBF1000].
Proof. split; [exact (scan_buses_exact sim_conf sim_bridge_ok 0)|reflexivity]. Defined.

(** DMA memory: however large the request, exactly one frame is taken from the pool, and
    the memory zeroed and handed out is the request rounded up to pages, so a request of
    more than 4096 bytes overwrites the frames behind the one it was given, whoever
    owns them. *)
Theorem alloc_dma_one_frame {P} `{FA : FrameAllocator P} (off size phys virt : Z) (m m' : machine P) :
  fa_ok (pmm m) -> 0 <= off -> off + 2 ^ 48 <= 2 ^ 64 ->
  alloc_dma off size m = (Some (phys, virt), m') ->
  virt = phys + off /\ fa_used (pmm m) phys = false /\
  (forall b, b mod 4096 = 0 -> 0 <= b -> fa_used (pmm m') b = fa_used (pmm m) b || (b =? phys)) /\
  (forall a, virt <= a < virt + (size + 4095) / 4096 * 4096 -> mem m' a = 0) /\
  (forall a, ~ (virt <= a < virt + (size + 4095) / 4096 * 4096) -> mem m' a = mem m a).
Proof.
  intros Hok Ho Ho' E. unfold alloc_dma in E. destruct (fa_alloc (pmm m)) as [[a|] p'] eqn:Ea; [|done].
  destruct (fa_alloc_some _ _ _ Hok Ea) as (_ & _ & Ha & Hu & _ & Hused & _). injection E as <- <- <-.
  assert (add64 a off = a + off) as -> by (apply u64_small; unfold fits; lia).
  cbn [pmm with_mem with_pmm mem]. split_and!; try done; intros x Hx; unfold write_bytes; zcases; done.
Qed.

Lemma alloc_dma_one_frame_witness :
  let m := Machine (fun _ => 1) [0x17] 0 0 0 in
  exists m', alloc_dma 0 12288 m = (Some (0x3000, 0x3000), m') /\ fa_used (pmm m) 0x4000 = true /\
    mem m 0x4000 = 1 /\ mem m' 0x4000 = 0.
Proof.
  eexists. split; [reflexivity|]. split; [reflexivity|]. split; [reflexivity|].
  eapply (alloc_dma_one_frame 0 12288 0x3000 0x3000 (Machine (fun _ => 1) [0x17] 0 0 0));
    [|lia|lia|reflexivity|].
  - split; [repeat constructor; vm_compute; done|split; [reflexivity|vm_compute; discriminate]].
  - split; [lia|reflexivity].
Defined.
