(* ===== verification/Boot.v ===== *)
(** * Boot information (src/src/limine.rs, src/src/boot_info.rs)

    [Limine]: reading the responses the Limine boot loader leaves in memory, through
    pointers it stored in the kernel's request statics.  [Info]: the statics of
    `boot_info`, the walk over a Multiboot2 information structure, and `init`, which
    chooses between the two.  Memory is read at the offsets of the `repr(C)` structs. *)
From S2P Require Import Prelude Pmm.

Module Limine.
Definition COMMON_MAGIC_0 : Z := 0xc7b1dd30df4c8b88.
Definition COMMON_MAGIC_1 : Z := 0x0a82e883a194f07b.
Definition REQUESTED_BASE_REVISION : Z := 4.
Definition BASE_REVISION_MAGIC_1 : Z := 0x6a7b384944536bdc.

(** The identifiers by which the boot loader finds the requests. *)
Definition HHDM_ID : list Z := [COMMON_MAGIC_0; COMMON_MAGIC_1; 0x48dcf1cb8ad2b852; 0x63984e959a98244b].
Definition EXECUTABLE_ADDRESS_ID : list Z := [COMMON_MAGIC_0; COMMON_MAGIC_1; 0x71ba76863cc55f63; 0xb2644a48c516a487].
Definition FRAMEBUFFER_ID : list Z := [COMMON_MAGIC_0; COMMON_MAGIC_1; 0x9d5827dcd881dd75; 0xa3148604f6fab11b].
Definition MEMMAP_ID : list Z := [COMMON_MAGIC_0; COMMON_MAGIC_1; 0x67cf3d9d378a806f; 0xe304acdfc50c3c62].
Definition MODULE_ID : list Z := [COMMON_MAGIC_0; COMMON_MAGIC_1; 0x3e7e279702be32af; 0xca1c4f3bd1280cee].
Definition RSDP_ID : list Z := [COMMON_MAGIC_0; COMMON_MAGIC_1; 0xc5e77b6b397e7b43; 0x27637845accdcf3c].

(** What the boot loader has written into the statics: the second and third word of
    `BASE_REVISION` and the `response` pointers. *)
Record requests := mkRequests {
  base_revision_1 : Z; base_revision_2 : Z;
  hhdm_response : Z; executable_response : Z; framebuffer_response : Z; memmap_response : Z;
  module_response : Z; rsdp_response : Z }.

(** As linked, before any boot loader has seen them. *)
Definition unanswered : requests := mkRequests BASE_REVISION_MAGIC_1 REQUESTED_BASE_REVISION 0 0 0 0 0 0.

Definition base_revision_supported (q : requests) : bool := base_revision_2 q =? 0.
Definition loaded_base_revision (q : requests) : Z :=
  if base_revision_supported q then REQUESTED_BASE_REVISION
  else if negb (base_revision_1 q =? BASE_REVISION_MAGIC_1) then base_revision_1 q else 0.

Section responses.
Context (m : mem_t) (q : requests).

Definition hhdm_offset : option Z :=
  let resp := hhdm_response q in if resp =? 0 then None else Some (read_u64 m (resp + 8)).

Definition executable_address : option (Z * Z) :=
  let resp := executable_response q in
  if resp =? 0 then None else Some (read_u64 m (resp + 8), read_u64 m (resp + 16)).

Definition framebuffer : option (Z * Z * Z * Z) :=
  let resp := framebuffer_response q in
  if resp =? 0 then None else
  let framebuffers := read_u64 m (resp + 16) in
  if (read_u64 m (resp + 8) =? 0) || (framebuffers =? 0) then None else
  let fb := read_u64 m framebuffers in
  if fb =? 0 then None else
  Some (read_u64 m fb, read_u64 m (fb + 8), read_u64 m (fb + 16), read_u64 m (fb + 24)).

(** The entries of a memory map: pointers, some of which may be null. *)
Definition entry_at (ptr : Z) : option MemmapEntry :=
  if ptr =? 0 then None
  else Some {| Pmm.base := read_u64 m ptr; length_ := read_u64 m (ptr + 8); typ := read_u64 m (ptr + 16) |}.
Definition memmap_entries (resp : Z) : Pmm.memmap :=
  map (fun i => entry_at (read_u64 m (read_u64 m (resp + 16) + 8 * i))) (seqZ 0 (read_u64 m (resp + 8))).

Definition memmap : option Pmm.memmap :=
  let resp := memmap_response q in if resp =? 0 then None else Some (memmap_entries resp).

(** The loop of `memmap_summary` over the entries. *)
Fixpoint usable_bytes (es : Pmm.memmap) (usable : Z) : Z :=
  match es with
  | [] => usable
  | None :: rest => usable_bytes rest usable
  | Some e :: rest => usable_bytes rest (if typ e =? LIMINE_MEMMAP_USABLE then add64 usable (length_ e) else usable)
  end.
Definition memmap_summary : option (Z * Z) :=
  let resp := memmap_response q in
  if resp =? 0 then None
  else if read_u64 m (resp + 16) =? 0 then Some (0, 0)
  else Some (read_u64 m (resp + 8), usable_bytes (memmap_entries resp) 0).

Definition first_module : option (Z * Z) :=
  let resp := module_response q in
  if resp =? 0 then None else
  let modules := read_u64 m (resp + 16) in
  if (read_u64 m (resp + 8) =? 0) || (modules =? 0) then None else
  let file := read_u64 m modules in
  if file =? 0 then None else Some (read_u64 m (file + 8), read_u64 m (file + 16)).

Definition rsdp : option Z :=
  let resp := rsdp_response q in
  if resp =? 0 then None
  else let address := read_u64 m (resp + 8) in if address =? 0 then None else Some address.

Definition detected : bool :=
  negb (hhdm_response q =? 0) || negb (framebuffer_response q =? 0) || negb (memmap_response q =? 0) ||
  negb (module_response q =? 0) || negb (executable_response q =? 0).
End responses.
End Limine.

Module Info.
Definition KERNEL_VMA : Z := 0xffffffff80000000.
Definition MULTIBOOT2_MAGIC : Z := 0x36d76289.

Inductive BootProtocol := Unknown | Limine | Multiboot2.
#[export] Instance BootProtocol_eq_dec : EqDecision BootProtocol.
Proof. solve_decision. Defined.
Definition discriminant (p : BootProtocol) : Z := match p with Unknown => 0 | Limine => 1 | Multiboot2 => 2 end.

(** The statics of the module, with `memory::HHDM_OFFSET`. *)
Record state := mkState {
  PROTOCOL : Z;
  FB_ADDR : Z; FB_WIDTH : Z; FB_HEIGHT : Z; FB_PITCH : Z; FB_NEEDS_MAPPING : Z;
  MOD_ADDR : Z; MOD_SIZE : Z;
  MEMMAP_ENTRIES : Z; MEMMAP_USABLE_BYTES : Z;
  KERNEL_PHYS_START : Z;
  HHDM_OFFSET : Z }.

Definition initial : state := mkState (discriminant Unknown) 0 0 0 0 0 0 0 0 0 0x00100000 0xFFFF800000000000.

Definition store_protocol (p : BootProtocol) (s : state) : state :=
  mkState (discriminant p) (FB_ADDR s) (FB_WIDTH s) (FB_HEIGHT s) (FB_PITCH s) (FB_NEEDS_MAPPING s)
    (MOD_ADDR s) (MOD_SIZE s) (MEMMAP_ENTRIES s) (MEMMAP_USABLE_BYTES s) (KERNEL_PHYS_START s) (HHDM_OFFSET s).
Definition store_fb (addr w h pitch needs_mapping : Z) (s : state) : state :=
  mkState (PROTOCOL s) addr w h pitch needs_mapping
    (MOD_ADDR s) (MOD_SIZE s) (MEMMAP_ENTRIES s) (MEMMAP_USABLE_BYTES s) (KERNEL_PHYS_START s) (HHDM_OFFSET s).
Definition store_module (addr size : Z) (s : state) : state :=
  mkState (PROTOCOL s) (FB_ADDR s) (FB_WIDTH s) (FB_HEIGHT s) (FB_PITCH s) (FB_NEEDS_MAPPING s)
    addr size (MEMMAP_ENTRIES s) (MEMMAP_USABLE_BYTES s) (KERNEL_PHYS_START s) (HHDM_OFFSET s).
Definition store_memmap (entries usable : Z) (s : state) : state :=
  mkState (PROTOCOL s) (FB_ADDR s) (FB_WIDTH s) (FB_HEIGHT s) (FB_PITCH s) (FB_NEEDS_MAPPING s)
    (MOD_ADDR s) (MOD_SIZE s) entries usable (KERNEL_PHYS_START s) (HHDM_OFFSET s).
Definition store_phys_start (a : Z) (s : state) : state :=
  mkState (PROTOCOL s) (FB_ADDR s) (FB_WIDTH s) (FB_HEIGHT s) (FB_PITCH s) (FB_NEEDS_MAPPING s)
    (MOD_ADDR s) (MOD_SIZE s) (MEMMAP_ENTRIES s) (MEMMAP_USABLE_BYTES s) a (HHDM_OFFSET s).
Definition store_hhdm (a : Z) (s : state) : state :=
  mkState (PROTOCOL s) (FB_ADDR s) (FB_WIDTH s) (FB_HEIGHT s) (FB_PITCH s) (FB_NEEDS_MAPPING s)
    (MOD_ADDR s) (MOD_SIZE s) (MEMMAP_ENTRIES s) (MEMMAP_USABLE_BYTES s) (KERNEL_PHYS_START s) a.

(** ** The accessors *)
Definition protocol (s : state) : BootProtocol :=
  if PROTOCOL s =? 1 then Limine else if PROTOCOL s =? 2 then Multiboot2 else Unknown.
Definition protocol_name (s : state) : string :=
  match protocol s with Limine => "Limine" | Multiboot2 => "Multiboot2" | Unknown => "unknown bootloader" end.
Definition framebuffer (s : state) : option (Z * Z * Z * Z * bool) :=
  if FB_ADDR s =? 0 then None
  else Some (FB_ADDR s, FB_WIDTH s, FB_HEIGHT s, FB_PITCH s, negb (FB_NEEDS_MAPPING s =? 0)).
Definition module (s : state) : option (Z * Z) := if MOD_ADDR s =? 0 then None else Some (MOD_ADDR s, MOD_SIZE s).
Definition memmap_summary (s : state) : option (Z * Z) :=
  if MEMMAP_ENTRIES s =? 0 then None else Some (MEMMAP_ENTRIES s, MEMMAP_USABLE_BYTES s).
Definition kernel_phys_start (s : state) : Z := KERNEL_PHYS_START s.

(** ** Multiboot2 *)
Definition MB2_TAG_END : Z := 0.
Definition MB2_TAG_MODULE : Z := 3.
Definition MB2_TAG_MMAP : Z := 6.
Definition MB2_TAG_FRAMEBUFFER : Z := 8.
Definition MB2_MEMORY_AVAILABLE : Z := 1.
Definition MB2_MAX_INFO_SIZE : Z := 64 * 1024.

Section multiboot2.
Context (m : mem_t).

(** The inner loop over the entries of a memory map; [None] when [fuel] runs out. *)
Fixpoint mmap_loop (fuel : nat) (base eoff entries_end entry_size memmap_entries memmap_usable : Z) : option (Z * Z) :=
  if eoff + 24 <=? entries_end then
    match fuel with
    | O => None
    | S f =>
        let len := read_u64 m (base + (eoff + 8)) in
        let etype := read_u32 m (base + (eoff + 16)) in
        mmap_loop f base (eoff + entry_size) entries_end entry_size (memmap_entries + 1)
          (if etype =? MB2_MEMORY_AVAILABLE then add64 memmap_usable len else memmap_usable)
    end
  else Some (memmap_entries, memmap_usable).

(** The body of the loop over the tags. *)
Definition handle_tag (base offset tag_type tag_size : Z) (acc : state * Z * Z) : option (state * Z * Z) :=
  let '(s, entries, usable) := acc in
  if (tag_type =? MB2_TAG_FRAMEBUFFER) && (24 <=? tag_size) then
    let addr := read_u64 m (base + (offset + 8)) in
    let pitch := read_u32 m (base + (offset + 16)) in
    let width := read_u32 m (base + (offset + 20)) in
    let height := read_u32 m (base + (offset + 24)) in
    Some (store_fb addr width height pitch 1 s, entries, usable)
  else if (tag_type =? MB2_TAG_MODULE) && (16 <=? tag_size) then
    if MOD_ADDR s =? 0 then
      let mod_start := read_u32 m (base + (offset + 8)) in
      let mod_end := read_u32 m (base + (offset + 12)) in
      Some (if mod_start <? mod_end then store_module mod_start (mod_end - mod_start) s else s, entries, usable)
    else Some (s, entries, usable)
  else if (tag_type =? MB2_TAG_MMAP) && (16 <=? tag_size) then
    let entry_size := Z.max (read_u32 m (base + (offset + 8))) 1 in
    match mmap_loop (Z.to_nat tag_size) base (offset + 16) (offset + tag_size) entry_size entries usable with
    | Some (entries, usable) => Some (s, entries, usable)
    | None => None
    end
  else Some (s, entries, usable).

(** The loop over the tags. *)
Fixpoint tag_loop (fuel : nat) (base offset total_size : Z) (acc : state * Z * Z) : option (state * Z * Z) :=
  if offset + 8 <=? total_size then
    match fuel with
    | O => None
    | S f =>
        let tag_type := read_u32 m (base + offset) in
        let tag_size := read_u32 m (base + (offset + 4)) in
        if (tag_type =? MB2_TAG_END) || (tag_size <? 8) then Some acc
        else
          match handle_tag base offset tag_type tag_size acc with
          | Some acc => tag_loop f base (offset + Z.land (tag_size + 7) (not64 7)) total_size acc
          | None => None
          end
    end
  else Some acc.

(** Every tag takes at least 8 of the at most [MB2_MAX_INFO_SIZE] bytes. *)
Definition tag_fuel : nat := Z.to_nat (MB2_MAX_INFO_SIZE / 8).

Definition parse_multiboot2 (info_phys : Z) (s : state) : option state :=
  if info_phys =? 0 then Some s else
  let base := add64 info_phys (HHDM_OFFSET s) in
  let total_size := Z.min (read_u32 m base) MB2_MAX_INFO_SIZE in
  match tag_loop tag_fuel base 8 total_size (s, 0, 0) with
  | Some (s, entries, usable) => Some (if 0 <? entries then store_memmap entries usable s else s)
  | None => None
  end.
End multiboot2.

(** ** `init` *)
Definition init_limine (m : mem_t) (q : Limine.requests) (s : state) : state :=
  let s := store_protocol Limine s in
  let s := match Limine.hhdm_offset m q with Some offset => store_hhdm offset s | None => s end in
  let s := match Limine.executable_address m q with Some (phys_base, _) => store_phys_start phys_base s | None => s end in
  let s := match Limine.framebuffer m q with Some (addr, w, h, pitch) => store_fb addr w h pitch 0 s | None => s end in
  let s := match Limine.first_module m q with Some (addr, size) => store_module addr size s | None => s end in
  match Limine.memmap_summary m q with Some (count, bytes) => store_memmap count bytes s | None => s end.

Definition init (m : mem_t) (q : Limine.requests) (arg0 arg1 : Z) (s : state) : option state :=
  if arg1 =? MULTIBOOT2_MAGIC then parse_multiboot2 m arg0 (store_protocol Multiboot2 s)
  else if Limine.detected q then Some (init_limine m q s)
  else Some (store_protocol Unknown s).
End Info.
