(* ===== verification/BootCorrect.v ===== *)
(** * The Multiboot2 walk: totality and round trip

    The walk over a Multiboot2 information structure ends whatever the loader left in
    memory, and on a structure laid out as the specification says it recovers what was
    encoded. *)
From S2P Require Import Prelude Pmm Boot.
Import Boot.Info.

(** ** Termination *)

Lemma read_u32_fits m a : mem_ok m -> fits 32 (read_u32 m a).
Proof.
  intros H. pose proof (le_bytes_fits _ (read_n_ok 4 m a H)) as Hf. rewrite length_read_n in Hf. exact Hf.
Qed.

Lemma mmap_loop_total m fuel base eoff stop entry_size n u :
  1 <= entry_size -> stop - eoff - 23 <= Z.of_nat fuel -> is_Some (mmap_loop m fuel base eoff stop entry_size n u).
Proof.
  intros He. revert eoff n u. induction fuel as [|fuel IH]; intros eoff n u Hf; cbn [mmap_loop];
    destruct (Z.leb_spec (eoff + 24) stop); try lia; try done. apply IH. lia.
Qed.

Lemma handle_tag_total m base offset ty size acc : 0 <= size -> is_Some (handle_tag m base offset ty size acc).
Proof.
  intros Hs. destruct acc as [[s n] u]. unfold handle_tag. repeat (case_match; try done).
  pose proof (mmap_loop_total m (Z.to_nat size) base (offset + 16) (offset + size)
    (Z.max (read_u32 m (base + (offset + 8))) 1) n u ltac:(lia) ltac:(lia)) as [? ?]. congruence.
Qed.

(** Tags are aligned to 8 bytes. *)
Lemma tag_step size : 8 <= size < 2 ^ 32 -> let k := Z.land (size + 7) (not64 7) in k mod 8 = 0 /\ size <= k < size + 8.
Proof.
  intros H. pose proof (mask_down_spec (size + 7) 3 ltac:(unfold fits; lia) ltac:(lia)) as E.
  unfold mask_down in E. change (sub64 (2 ^ 3) 1) with 7 in E. cbv zeta. rewrite E.
  change (2 ^ 3) with 8. pose proof (Z.mod_pos_bound (size + 7) 8). pose proof (Z.div_mod (size + 7) 8).
  split; [|lia]. replace (size + 7 - (size + 7) mod 8) with ((size + 7) / 8 * 8) by lia. by apply Z.mod_mul.
Qed.

Lemma tag_loop_total m fuel base offset total acc :
  mem_ok m -> total - offset - 7 <= 8 * Z.of_nat fuel -> is_Some (tag_loop m fuel base offset total acc).
Proof.
  intros Hm. revert offset acc. induction fuel as [|fuel IH]; intros offset acc Hf; cbn [tag_loop];
    destruct (Z.leb_spec (offset + 8) total); try lia; try done.
  pose proof (read_u32_fits m (base + (offset + 4)) Hm) as Hs.
  destruct (Z.ltb_spec (read_u32 m (base + (offset + 4))) 8); [by rewrite orb_true_r|].
  destruct (_ =? _); [done|]. cbn [orb].
  destruct (handle_tag_total m base offset (read_u32 m (base + offset)) (read_u32 m (base + (offset + 4))) acc) as [acc' ->]; [lia|].
  apply IH. pose proof (tag_step (read_u32 m (base + (offset + 4))) ltac:(unfold fits in Hs; lia)) as [_ Hk]. lia.
Qed.

Lemma parse_multiboot2_some m info s : mem_ok m -> is_Some (parse_multiboot2 m info s).
Proof.
  intros Hm. unfold parse_multiboot2. destruct (info =? 0); [done|].
  set (base := add64 info (HHDM_OFFSET s)). set (total := Z.min _ _).
  destruct (tag_loop_total m tag_fuel base 8 total (s, 0, 0) Hm) as [[[s' n] u] E]; [|by rewrite E].
  unfold tag_fuel, MB2_MAX_INFO_SIZE in *. subst total.
  rewrite Z2Nat.id by (vm_compute; discriminate). change (64 * 1024 / 8) with 8192. lia.
Qed.

Lemma handle_tag_protocol m base offset ty size acc acc' :
  handle_tag m base offset ty size acc = Some acc' -> PROTOCOL acc'.1.1 = PROTOCOL acc.1.1.
Proof. destruct acc as [[s n] u]. unfold handle_tag. intros H. repeat case_match; by simplify_eq. Qed.

Lemma tag_loop_protocol m fuel base offset total acc acc' :
  tag_loop m fuel base offset total acc = Some acc' -> PROTOCOL acc'.1.1 = PROTOCOL acc.1.1.
Proof.
  revert offset acc. induction fuel as [|fuel IH]; intros offset acc H; cbn [tag_loop] in H; repeat case_match; simplify_eq; try done.
  rewrite (IH _ _ H). by eapply handle_tag_protocol.
Qed.

Lemma init_limine_protocol m q s : protocol (init_limine m q s) = Limine.
Proof. unfold init_limine. repeat (case_match; subst); done. Qed.

(** Boot information is always established: whatever the two entry arguments, the boot
    loader's responses and the contents of memory, `init` ends, and it takes the
    Multiboot2 path exactly when the second argument is the magic number, the Limine
    path exactly when it is not and some response pointer is set. *)
Theorem boot_init_total (m : mem_t) (q : Boot.Limine.requests) (arg0 arg1 : Z) (s : state) :
  mem_ok m ->
  exists s', init m q arg0 arg1 s = Some s' /\
    protocol s' = (if arg1 =? MULTIBOOT2_MAGIC then Multiboot2 else if Boot.Limine.detected q then Limine else Unknown).
Proof.
  intros Hm. unfold init. destruct (arg1 =? MULTIBOOT2_MAGIC).
  - destruct (parse_multiboot2_some m arg0 (store_protocol Multiboot2 s) Hm) as [s' E]. exists s'. split; [done|].
    assert (PROTOCOL s' = 2) as Ep; [|unfold protocol; by rewrite Ep].
    unfold parse_multiboot2 in E. destruct (arg0 =? 0); [by simplify_eq|].
    destruct (tag_loop _ _ _ _ _ _) as [[[s1 n] u]|] eqn:El; [|done]. apply tag_loop_protocol in El. cbn [fst] in El.
    injection E as <-. by destruct (0 <? n).
  - destruct (Boot.Limine.detected q); eexists; (split; [reflexivity|]); [apply init_limine_protocol|done].
Qed.

Lemma boot_init_total_witness :
  exists s', init (fun _ => 0) (Boot.Limine.unanswered) 0x1000 MULTIBOOT2_MAGIC initial = Some s' /\ protocol s' = Multiboot2.
Proof. apply (boot_init_total (fun _ => 0) Boot.Limine.unanswered 0x1000 MULTIBOOT2_MAGIC initial). done. Defined.

(** ** Round trip *)
Inductive tag :=
| FramebufferTag (addr pitch width height : Z) (rest : list Z)
| ModuleTag (mod_start mod_end : Z) (name : list Z)
| MmapTag (entries : list (Z * Z * Z))
| OtherTag (ty : Z) (payload : list Z).

Definition encode_entry (e : Z * Z * Z) : list Z :=
  let '(base, len, ty) := e in to_le 8 base ++ to_le 8 len ++ to_le 4 ty ++ to_le 4 0.
Definition tag_type_of (t : tag) : Z :=
  match t with FramebufferTag _ _ _ _ _ => 8 | ModuleTag _ _ _ => 3 | MmapTag _ => 6 | OtherTag ty _ => ty end.
Definition payload_of (t : tag) : list Z :=
  match t with
  | FramebufferTag addr pitch width height rest => to_le 8 addr ++ to_le 4 pitch ++ to_le 4 width ++ to_le 4 height ++ rest
  | ModuleTag a b name => to_le 4 a ++ to_le 4 b ++ name
  | MmapTag es => to_le 4 24 ++ to_le 4 0 ++ flat_map encode_entry es
  | OtherTag _ payload => payload
  end.
Definition tag_size_of (t : tag) : Z := 8 + Z.of_nat (length (payload_of t)).
Definition padding (n : Z) : list Z := replicate (Z.to_nat ((- n) mod 8)) 0.
Definition encode_tag (t : tag) : list Z :=
  to_le 4 (tag_type_of t) ++ to_le 4 (tag_size_of t) ++ payload_of t ++ padding (tag_size_of t).
Definition end_tag : list Z := to_le 4 0 ++ to_le 4 8.
Definition info_size (ts : list tag) : Z := 8 + Z.of_nat (length (flat_map encode_tag ts)) + 8.
Definition encode_info (ts : list tag) : list Z :=
  to_le 4 (info_size ts) ++ to_le 4 0 ++ flat_map encode_tag ts ++ end_tag.

Definition entry_ok (e : Z * Z * Z) : Prop := fits 64 e.1.1 /\ fits 64 e.1.2 /\ fits 32 e.2.
Definition tag_ok (t : tag) : Prop :=
  match t with
  | FramebufferTag addr pitch width height _ => fits 64 addr /\ fits 32 pitch /\ fits 32 width /\ fits 32 height
  | ModuleTag a b _ => fits 32 a /\ fits 32 b
  | MmapTag es => Forall entry_ok es
  | OtherTag ty _ => fits 32 ty /\ ty ∉ [0; 3; 6; 8]
  end.

(** What each tag says. *)
Definition add_usable (u : Z) (e : Z * Z * Z) : Z := if e.2 =? 1 then add64 u e.1.2 else u.
Definition apply_tag (acc : state * Z * Z) (t : tag) : state * Z * Z :=
  let '(s, n, u) := acc in
  match t with
  | FramebufferTag addr pitch width height _ => (store_fb addr width height pitch 1 s, n, u)
  | ModuleTag a b _ => (if (MOD_ADDR s =? 0) && (a <? b) then store_module a (b - a) s else s, n, u)
  | MmapTag es => (s, n + Z.of_nat (length es), foldl add_usable u es)
  | OtherTag _ _ => (s, n, u)
  end.
Definition apply_tags (ts : list tag) (s : state) : state :=
  let '(s, n, u) := foldl apply_tag (s, 0, 0) ts in if 0 <? n then store_memmap n u s else s.

Lemma mmap_loop_entries m base eoff es n u fuel rest :
  Forall entry_ok es -> stored m (base + eoff) (flat_map encode_entry es ++ rest) -> (length es <= fuel)%nat ->
  mmap_loop m fuel base eoff (eoff + 24 * Z.of_nat (length es)) 24 n u = Some (n + Z.of_nat (length es), foldl add_usable u es).
Proof.
  intros H. revert eoff n u fuel. induction H as [|e es He _ IH]; intros eoff n u fuel Hst Hf.
  - destruct fuel; cbn [mmap_loop length foldl]; rewrite (proj2 (Z.leb_gt _ _)) by lia; f_equal; f_equal; lia.
  - destruct fuel as [|fuel]; [cbn in Hf; lia|]. cbn [mmap_loop]. rewrite (proj2 (Z.leb_le _ _)) by (cbn [length]; lia).
    destruct e as [[b l] ty], He as (Hb & Hl & Ht). cbn [fst snd] in *. cbn [flat_map] in Hst. rewrite <- app_assoc in Hst.
    unfold encode_entry at 1 in Hst. rewrite <- !app_assoc in Hst.
    destruct (stored_le _ _ 8 _ _ Hst Hb) as [_ Hst1]. destruct (stored_le _ _ 8 _ _ Hst1 Hl) as [E1 Hst2].
    destruct (stored_le _ _ 4 _ _ Hst2 Ht) as [E2 Hst3]. destruct (stored_le _ _ 4 _ _ Hst3 ltac:(done)) as [_ Hst4].
    replace (base + eoff + Z.of_nat 8 + Z.of_nat 8 + Z.of_nat 4 + Z.of_nat 4) with (base + (eoff + 24)) in Hst4 by lia.
    unfold read_u64, read_u32. replace (base + (eoff + 8)) with (base + eoff + Z.of_nat 8) by lia.
    replace (base + (eoff + 16)) with (base + eoff + Z.of_nat 8 + Z.of_nat 8) by lia. rewrite E1, E2.
    specialize (IH (eoff + 24) (n + 1) (add_usable u (b, l, ty)) fuel Hst4 ltac:(cbn in Hf; lia)).
    replace (eoff + 24 + 24 * Z.of_nat (length es)) with (eoff + 24 * Z.of_nat (length ((b, l, ty) :: es))) in IH by (cbn [length]; lia).
    cbn [foldl]. replace (n + Z.of_nat (length ((b, l, ty) :: es))) with (n + 1 + Z.of_nat (length es)) by (cbn [length]; lia).
    exact IH.
Qed.

Lemma length_entries es : Z.of_nat (length (flat_map encode_entry es)) = 24 * Z.of_nat (length es).
Proof.
  induction es as [|[[b l] ty] es IH]; [done|]. cbn [flat_map]. rewrite length_app. cbn [length]. rewrite Nat2Z.inj_add, IH.
  unfold encode_entry. rewrite !length_app, !length_to_le. lia.
Qed.

Lemma handle_tag_encoded m base offset t acc rest :
  tag_ok t -> stored m (base + offset) (encode_tag t ++ rest) ->
  handle_tag m base offset (tag_type_of t) (tag_size_of t) acc = Some (apply_tag acc t).
Proof.
  intros Hok Hst. unfold encode_tag in Hst. rewrite <- !app_assoc in Hst.
  apply stored_app in Hst as [_ Hst]. apply stored_app in Hst as [_ Hst]. rewrite !length_to_le in Hst.
  replace (base + offset + Z.of_nat 4 + Z.of_nat 4) with (base + (offset + 8)) in Hst by lia.
  destruct acc as [[s n] u]. unfold handle_tag, tag_size_of, MB2_TAG_FRAMEBUFFER, MB2_TAG_MODULE, MB2_TAG_MMAP.
  destruct t as [addr pitch width height r|a b name|es|ty payload]; cbn [tag_type_of payload_of tag_ok apply_tag] in *.
  - destruct Hok as (H1 & H2 & H3 & H4). rewrite <- !app_assoc in Hst.
    destruct (stored_le _ _ 8 _ _ Hst H1) as [E1 Hst1]. destruct (stored_le _ _ 4 _ _ Hst1 H2) as [E2 Hst2].
    destruct (stored_le _ _ 4 _ _ Hst2 H3) as [E3 Hst3]. destruct (stored_le _ _ 4 _ _ Hst3 H4) as [E4 _].
    rewrite !length_app, !length_to_le. rewrite (proj2 (Z.leb_le _ _)) by lia. cbn [Z.eqb Pos.eqb andb].
    unfold read_u64, read_u32. replace (base + (offset + 16)) with (base + (offset + 8) + Z.of_nat 8) by lia.
    replace (base + (offset + 20)) with (base + (offset + 8) + Z.of_nat 8 + Z.of_nat 4) by lia.
    replace (base + (offset + 24)) with (base + (offset + 8) + Z.of_nat 8 + Z.of_nat 4 + Z.of_nat 4) by lia.
    by rewrite E1, E2, E3, E4.
  - destruct Hok as [H1 H2]. rewrite <- !app_assoc in Hst.
    destruct (stored_le _ _ 4 _ _ Hst H1) as [E1 Hst1]. destruct (stored_le _ _ 4 _ _ Hst1 H2) as [E2 _].
    rewrite !length_app, !length_to_le. rewrite (proj2 (Z.leb_le 16 _)) by lia. cbn [Z.eqb Pos.eqb andb].
    replace (base + (offset + 12)) with (base + (offset + 8) + Z.of_nat 4) by lia.
    unfold read_u32. rewrite E1, E2. by destruct (MOD_ADDR s =? 0), (a <? b).
  - rewrite <- !app_assoc in Hst.
    destruct (stored_le _ _ 4 _ _ Hst ltac:(done)) as [E1 Hst1]. destruct (stored_le _ _ 4 _ _ Hst1 ltac:(done)) as [_ Hst2].
    rewrite !length_app, !length_to_le. rewrite (proj2 (Z.leb_le 16 _)) by lia. cbn [Z.eqb Pos.eqb andb].
    unfold read_u32. rewrite E1. change (Z.max 24 1) with 24.
    replace (base + (offset + 8) + Z.of_nat 4 + Z.of_nat 4) with (base + (offset + 16)) in Hst2 by lia.
    pose proof (length_entries es) as Hl.
    replace (offset + (8 + Z.of_nat (4 + (4 + length (flat_map encode_entry es))))) with (offset + 16 + 24 * Z.of_nat (length es)) by lia.
    by rewrite (mmap_loop_entries m base (offset + 16) es n u _ _ Hok Hst2) by lia.
  - destruct Hok as [_ Hty]. set_unfold in Hty.
    rewrite !(proj2 (Z.eqb_neq ty _)) by (intros ->; tauto). done.
Qed.

Lemma length_encode_tag t :
  tag_size_of t < 2 ^ 32 -> Z.of_nat (length (encode_tag t)) = Z.land (tag_size_of t + 7) (not64 7) /\
  (length (encode_tag t) <> 0)%nat.
Proof.
  intros H. assert (8 <= tag_size_of t) as H8 by (unfold tag_size_of; lia).
  destruct (tag_step (tag_size_of t)) as [Hm Hk]; [lia|].
  unfold encode_tag, padding. rewrite !length_app, !length_to_le, length_replicate. split; [|lia].
  revert Hm Hk. generalize (Z.land (tag_size_of t + 7) (not64 7)). intros k Hm Hk.
  assert ((- tag_size_of t) mod 8 = k - tag_size_of t) as E.
  { symmetry. apply Z.mod_unique with (- (k / 8)); [lia|]. pose proof (Z.div_mod k 8). lia. }
  rewrite E. unfold tag_size_of in *. lia.
Qed.

Lemma tag_loop_encoded m base offset ts fuel acc rest total :
  Forall tag_ok ts -> stored m (base + offset) (flat_map encode_tag ts ++ end_tag ++ rest) -> (length ts < fuel)%nat ->
  total = offset + Z.of_nat (length (flat_map encode_tag ts)) + 8 -> total < 2 ^ 32 -> 0 <= offset ->
  tag_loop m fuel base offset total acc = Some (foldl apply_tag acc ts).
Proof.
  intros H. revert offset acc fuel. induction H as [|t ts Ht _ IH]; intros offset acc fuel Hst Hf Htot Hmax Ho;
    (destruct fuel as [|fuel]; [cbn in Hf; lia|]); cbn [tag_loop flat_map foldl] in *.
  - cbn [length] in Htot. rewrite (proj2 (Z.leb_le _ _)) by lia. unfold end_tag in Hst. rewrite <- !app_assoc in Hst. cbn [app] in Hst.
    destruct (stored_le _ _ 4 0 _ Hst ltac:(done)) as [E0 _]. unfold read_u32 at 1. by rewrite E0.
  - rewrite length_app, Nat2Z.inj_add in Htot. rewrite <- app_assoc in Hst.
    assert (tag_size_of t < 2 ^ 32) as Hs.
    { unfold encode_tag in Htot. rewrite !length_app, !length_to_le in Htot. unfold tag_size_of. lia. }
    destruct (length_encode_tag t Hs) as [El Hne]. assert (8 <= tag_size_of t) as H8 by (unfold tag_size_of; lia).
    rewrite (proj2 (Z.leb_le _ _)) by lia.
    pose proof (handle_tag_encoded m base offset t acc _ Ht Hst) as Eh.
    pose proof (stored_app _ _ _ _ Hst) as [Ht1 Hst'].
    unfold encode_tag in Ht1. 
    assert (fits 32 (tag_type_of t)) as Hty by (destruct t; try done; apply Ht).
    destruct (stored_le _ _ 4 _ _ Ht1 Hty) as [E0 Ht2]. destruct (stored_le _ _ 4 _ _ Ht2 ltac:(unfold fits; lia)) as [E1 _].
    unfold read_u32. replace (base + (offset + 4)) with (base + offset + Z.of_nat 4) by lia. rewrite E0, E1.
    assert (tag_type_of t <> 0) as Hn0 by (destruct t; try done; cbn in *; intros ->; apply Ht; left).
    unfold MB2_TAG_END. rewrite (proj2 (Z.eqb_neq _ _) Hn0), (proj2 (Z.ltb_ge _ _)) by lia. cbn [orb].
    rewrite Eh, <- El. apply IH; try lia.
    + replace (base + (offset + Z.of_nat (length (encode_tag t)))) with (base + offset + Z.of_nat (length (encode_tag t))) by lia. done.
    + cbn in Hf. lia.
Qed.


Definition demo_tags : list tag :=
  [OtherTag 1 (bytes_of "console=serial"); ModuleTag 0x200000 0x240000 (bytes_of "initrd");
   MmapTag [(0, 0x9FC00, 1); (0xF0000, 0x10000, 2); (0x100000, 0x7EE0000, 1)];
   FramebufferTag 0xFD000000 4096 1024 768 [32; 1; 0; 0]].
Definition demo_info : mem_t := copy_to (fun _ => 0) (add64 0x10000 (HHDM_OFFSET initial)) (encode_info demo_tags).

