(* ===== verification/Shell.v ===== *)
(** * The shell (src/src/shell.rs)

    The line editor and the command dispatcher.  A command runs in the [io] monad over
    the state it can change: the kernel (tasks, frames, console), the device ports
    behind the disk driver and the file systems, and the receiver of the serial port. *)
From S2P Require Import Prelude Ports Pmm Vmm Ring Uart Fd Task Syscall Block Ata Vfs.

Definition BACKSPACE : Z := 0x08.
Definition DELETE : Z := 0x7F.
Definition CR : Z := 13.
Definition LF : Z := 10.

(** ** Text *)

(** `char::is_whitespace` on ASCII, `str::trim`, `str::split_whitespace`. *)
Definition is_ws (b : Z) : bool := ((9 <=? b) && (b <=? 13)) || (b =? 32).
Fixpoint trim_start (l : list Z) : list Z :=
  match l with b :: l' => if is_ws b then trim_start l' else l | [] => [] end.
Definition trim (l : list Z) : list Z := rev (trim_start (rev (trim_start l))).

(** [word] is the word being read, in reverse. *)
Fixpoint split_words (l word : list Z) : list (list Z) :=
  match l with
  | [] => match word with [] => [] | _ => [rev word] end
  | b :: l' =>
      if is_ws b then match word with [] => split_words l' [] | _ => rev word :: split_words l' [] end
      else split_words l' (b :: word)
  end.
Definition split_whitespace (l : list Z) : list (list Z) := split_words l [].

(** `from_str_radix` and `parse` for unsigned integers of [w] bits. *)
Definition digit (radix b : Z) : option Z :=
  let d := if (48 <=? b) && (b <=? 57) then b - 48
           else if (97 <=? b) && (b <=? 122) then b - 97 + 10
           else if (65 <=? b) && (b <=? 90) then b - 65 + 10 else radix in
  if d <? radix then Some d else None.
Fixpoint parse_digits (radix w : Z) (l : list Z) (acc : Z) : option Z :=
  match l with
  | [] => Some acc
  | b :: l' =>
      match digit radix b with
      | Some d => let acc := acc * radix + d in if acc <? 2 ^ w then parse_digits radix w l' acc else None
      | None => None
      end
  end.
Definition from_str_radix (radix w : Z) (l : list Z) : option Z :=
  match l with
  | [] => None
  | b :: l' => if b =? 43 then match l' with [] => None | _ => parse_digits radix w l' 0 end
               else parse_digits radix w l 0
  end.

(** Formatting: digits, `{:<n}`, zero padding to a width. *)
Definition digit_char (upper : bool) (d : Z) : Z := if d <? 10 then 48 + d else (if upper then 55 else 87) + d.
Fixpoint digits (fuel : nat) (radix : Z) (upper : bool) (n : Z) (acc : list Z) : list Z :=
  match fuel with
  | O => acc
  | S f =>
      let acc := digit_char upper (n mod radix) :: acc in
      if n / radix =? 0 then acc else digits f radix upper (n / radix) acc
  end.
Definition dec (n : Z) : list Z := digits 20 10 false n [].
Definition hex (n : Z) : list Z := digits 16 16 false n [].
Definition HEX (n : Z) : list Z := digits 16 16 true n [].
Definition zero_pad (w : nat) (l : list Z) : list Z := replicate (w - length l) 48 ++ l.
Definition pad_right (w : nat) (l : list Z) : list Z := l ++ replicate (w - length l) 32.

Definition strip_prefix (prefix l : list Z) : option (list Z) :=
  if bool_decide (take (length prefix) l = prefix) then Some (drop (length prefix) l) else None.
Fixpoint trim_nuls_start (l : list Z) : list Z := match l with 0 :: l' => trim_nuls_start l' | _ => l end.
Definition trim_nuls (l : list Z) : list Z := rev (trim_nuls_start (rev (trim_nuls_start l))).

Section shell.
Context {P : Type} `{FA : FrameAllocator P} `{KA : !KernelArch P}.
Context (stack_base : nat -> Z) (kernel_root : Z).
Context {W : Type} `{!PortIO W}.
(** The target, the release, and the serial receiver (`uart::imp`). *)
Context (x86 : bool) (OS_VERSION OS_ARCH : list Z) (show : Z -> list Z).
Context (ready error : Z -> bool) (receiver : device).
(** `VFS`, and the ramdisk `run` was given. *)
Context (VFS : VirtualFileSystem (W := W)) (ramdisk : option TarFileSystem).

Record sh := mkSh { kern : kernel P; world : W; polls : nat }.

Abbreviation cmd := (io sh unit).

(** *** Access to the parts of the state *)
Definition on_kernel {A} (f : kernel P -> A * kernel P) : io sh A := fun s =>
  let '(a, k) := f (kern s) in (Val a, mkSh k (world s) (polls s)).
Definition on_world {A} (c : act W A) : io sh A := fun s =>
  let '(a, w) := c (world s) in (Val a, mkSh (kern s) w (polls s)).
(** A file-system operation: an error is a value, a panic stops the command. *)
Definition attempt {A} (c : io W A) : io sh (Result A string) := fun s =>
  match c (world s) with
  | (Val a, w) => (Val (Ok a), mkSh (kern s) w (polls s))
  | (Fail e, w) => (Val (Err e), mkSh (kern s) w (polls s))
  | (Panicked, w) => (Panicked, mkSh (kern s) w (polls s))
  | (NoFuel, w) => (NoFuel, mkSh (kern s) w (polls s))
  end.

Definition put_str (bs : list Z) : cmd :=
  on_kernel (fun k => (tt, Kernel (ks k) (input k) (Uart.write_str bs (console k)))).
Definition put_line (bs : list Z) : cmd := put_str (bs ++ [LF]).
Definition say (s : string) : cmd := put_line (bytes_of s).
(** `uart.write_byte`: no newline translation. *)
Definition put_byte (b : Z) : cmd := on_kernel (fun k => (tt, Kernel (ks k) (input k) (console k ++ [b]))).

Fixpoint each {A} (f : A -> cmd) (l : list A) : cmd :=
  match l with [] => ret tt | a :: l' => _ <~ f a; each f l' end.

(** *** Commands *)
Definition cmd_help : cmd :=
  say "commands: help, about, uname, translate <hex vaddr>, ps, echo <text>, history, memstat, panic, ls, cat <file>, stat <file>, raw <file>, rxtest, diskread <lba> [count], diskwrite <lba> <text>, run <file>".

Definition cmd_about : cmd :=
  put_line (bytes_of "mitosOS Phase 1 -- Engine: O(1) Allocator Core | Target: " ++
    bytes_of (if x86 then "x86_64 (Intel/AMD Bare-Metal)" else "aarch64 (ARM64 Bare-Metal)")).

(** [ptr] is the address of the local `info`. *)
Definition cmd_uname (ptr : Z) : cmd := fun s =>
  match vwrite_bytes (vm (ks (kern s))) ptr (uts_bytes UtsName_new) with
  | None => (Panicked, s)
  | Some m =>
      let k := with_ks (with_vm m (ks (kern s))) (kern s) in
      match syscall_handler OS_VERSION OS_ARCH show SYS_UNAME ptr 0 0 k with
      | (SysRet 0, k) =>
          match vread_bytes (vm (ks k)) ptr (Z.to_nat UTS_SIZE) with
          | None => (Panicked, mkSh k (world s) (polls s))
          | Some bs =>
              let field f := if from_utf8_ok f then trim_nuls f else bytes_of "?" in
              let info := uts_of bs in
              put_line (field (sysname info) ++ bytes_of " v" ++ field (version info) ++ bytes_of " (" ++
                        field (machine_ info) ++ bytes_of ")") (mkSh k (world s) (polls s))
          end
      | (SysRet _, k) => say "Error executing uname syscall." (mkSh k (world s) (polls s))
      | (_, k) => (Panicked, mkSh k (world s) (polls s))
      end
  end.

Definition cmd_translate (args : list (list Z)) : cmd :=
  match args with
  | _ :: arg :: _ =>
      match from_str_radix 16 64 (default arg (strip_prefix (bytes_of "0x") arg)) with
      | None => put_line (bytes_of "Invalid address: '" ++ arg ++ bytes_of "'")
      | Some vaddr =>
          r <~ on_kernel (fun k => ((current_task_access_info (ks k)).1, k));
          if r =? 0 then say "No active task page table yet." else
          t <~ on_kernel (fun k => (translate_addr (A := ka_page) r vaddr (vm (ks k)), k));
          match t with
          | Some phys => put_line (bytes_of "0x" ++ hex vaddr ++ bytes_of " -> 0x" ++ hex phys)
          | None => put_line (bytes_of "0x" ++ hex vaddr ++ bytes_of " is not mapped in the current task's page table")
          end
      end
  | _ => say "Usage: translate <hex vaddr>"
  end.

Definition state_str (st : TaskState) : list Z :=
  bytes_of (match st with Ready => "Ready" | Running => "Running" | Blocked => "Blocked" | Terminated => "Terminated" end).
Definition cmd_ps : cmd :=
  tasks <~ on_kernel (fun k => (get_task_list (ks k), k));
  _ <~ say "--- mitosOS Task Table ---";
  _ <~ say "ID | Parent | State | Memory Root";
  _ <~ say "----+--------+-----------+-------------------";
  each (fun t => put_line (pad_right 3 (dec (ti_id t)) ++ bytes_of " | " ++ pad_right 6 (dec (ti_parent_id t)) ++
                           bytes_of " | " ++ pad_right 9 (state_str (ti_state t)) ++ bytes_of " | 0x" ++
                           zero_pad 16 (hex (ti_memory_root t)))) tasks.

(** The loop of `echo`: a space before every word but the first. *)
Fixpoint echo_words (ws : list (list Z)) (first : bool) : cmd :=
  match ws with
  | [] => put_line []
  | w :: ws' => _ <~ (if first then ret tt else put_str [32]); _ <~ put_str w; echo_words ws' false
  end.
Definition cmd_echo (args : list (list Z)) : cmd := echo_words (tail args) true.

Fixpoint history_lines (i : Z) (h : list (list Z)) : cmd :=
  match h with
  | [] => ret tt
  | c :: h' => _ <~ put_line (bytes_of " " ++ dec i ++ bytes_of ": " ++ c); history_lines (i + 1) h'
  end.
Definition cmd_history (history : list (list Z)) : cmd := _ <~ say "--- Command History Log ---"; history_lines 1 history.

Definition vmm_alloc (k : kernel P) : option Z * kernel P :=
  let m := vm (ks k) in
  let '(r, p) := fa_alloc (pmm m) in (r, with_ks (with_vm (with_pmm p m) (ks k)) k).
Definition cmd_memstat : cmd :=
  _ <~ say "--- Memory System Architecture ---";
  _ <~ say " Heap Location Range : 0x150000 -> 0x1F0000";
  _ <~ say " Heap Arena Budget : 640 KiB Active Managed Space";
  _ <~ say " Alloc Engine Speed : Hardened Hardware Bit-Scanning O(1)";
  r <~ on_kernel vmm_alloc;
  match r with
  | Some addr => put_line (bytes_of " Physical Frame Alloc: 0x" ++ zero_pad 8 (hex addr) ++ bytes_of " (demo allocation)")
  | None => say " Physical Frame Alloc: frame pool exhausted"
  end.

(** `uart.read_byte` and `uart.try_read_byte` on the receiver; [fuel] bounds the retries. *)
Fixpoint uart_read_byte (fuel : nat) : io sh Z := fun s =>
  match fuel with
  | O => (NoFuel, s)
  | S f =>
      match Uart.try_read_byte ready error receiver (Z.to_nat Uart.POLL_ATTEMPTS) (polls s) with
      | (Ok b, t) => (Val b, mkSh (kern s) (world s) t)
      | (Err _, t) => uart_read_byte f (mkSh (kern s) (world s) t)
      end
  end.
Definition cmd_panic (fuel : nat) : cmd :=
  _ <~ put_str (bytes_of "Trigger test panic? (y/N): ");
  response <~ uart_read_byte fuel;
  _ <~ put_byte response;
  _ <~ put_line [];
  if (response =? 121) || (response =? 89) then panic else say "Aborted.".

Definition cmd_rxtest : cmd :=
  _ <~ say "Listening for one byte (bounded poll, bypasses IRQ queue)...";
  fun s =>
    let '(r, t) := Uart.try_read_byte ready error receiver (Z.to_nat Uart.POLL_ATTEMPTS) (polls s) in
    (match r with
     | Ok b => put_line (bytes_of "Got byte: 0x" ++ zero_pad 2 (HEX b))
     | Err Uart.Timeout => say "Timed out waiting for input."
     | Err LineError => say "Line error (framing/parity/overrun) detected and discarded."
     end) (mkSh (kern s) (world s) t).

(** `{:?}` of an `AtaError`. *)
Definition debug_ata (e : AtaError) : list Z :=
  match e with
  | Ata.Timeout => bytes_of "Timeout"
  | DeviceError c => bytes_of "DeviceError(" ++ dec c ++ bytes_of ")"
  | NoDevice => bytes_of "NoDevice"
  end.

Definition hex_line (chunk : list Z) : cmd :=
  _ <~ each (fun b => put_str (zero_pad 2 (hex b) ++ [32])) chunk; put_line [].

Definition cmd_diskread (args : list (list Z)) : cmd :=
  if negb x86 then say "diskread is only available on x86_64 (ATA PIO driver)." else
  match args with
  | _ :: a1 :: rest =>
      match from_str_radix 10 32 a1 with
      | None => put_line (bytes_of "Invalid LBA: '" ++ a1 ++ bytes_of "'")
      | Some lba =>
          match (match rest with [] => Ok 1 | a2 :: _ => match from_str_radix 10 32 a2 with Some n => Ok n | None => Err a2 end end) with
          | Err a2 => put_line (bytes_of "Invalid sector count: '" ++ a2 ++ bytes_of "'")
          | Ok count =>
              if (count =? 0) || (64 <? count) then say "count must be between 1 and 64 sectors (kept small: 640 KiB heap)" else
              r <~ on_world (Ata.read_sectors lba count (replicate (Z.to_nat (count * 512)) 0));
              match r with
              | Panics => panic
              | Returns (Err e, _) => put_line (bytes_of "ATA read error: " ++ debug_ata e)
              | Returns (Ok _, buf) =>
                  _ <~ put_line (bytes_of "--- LBA " ++ dec lba ++ bytes_of " .. " ++ dec (sub32 (add32 lba count) 1) ++
                                 bytes_of " (first 32 bytes) ---");
                  _ <~ hex_line (take 16 buf);
                  _ <~ hex_line (take 16 (drop 16 buf));
                  let sig := le_bytes (sub_slice buf 510 512) in
                  put_line (bytes_of "sector 0 boot signature: 0x" ++ zero_pad 4 (hex sig) ++ bytes_of " (" ++
                            bytes_of (if sig =? 0xAA55 then "valid" else "not a boot sector") ++ bytes_of ")")
              end
          end
      end
  | _ => say "Usage: diskread <lba> [count]"
  end.

Definition cmd_diskwrite (args : list (list Z)) : cmd :=
  if negb x86 then say "diskwrite is only available on x86_64 (ATA PIO driver)." else
  match args with
  | _ :: a1 :: text :: _ =>
      match from_str_radix 10 64 a1 with
      | None => put_line (bytes_of "Invalid LBA: '" ++ a1 ++ bytes_of "'")
      | Some lba =>
          if 512 <? Z.of_nat (length text) then
            put_line (bytes_of "Text too long (" ++ dec (Z.of_nat (length text)) ++ bytes_of " bytes, max 512)")
          else
            let buf := text ++ replicate (512 - length text) 0 in
            r <~ on_world AtaDevice_new;
            match r with
            | Err e => put_line (bytes_of "ATA init failed: " ++ debug_ata e)
            | Ok ata => fun s =>
                match ata_write_sector lba buf (ata, world s) with
                | (Val _, (_, w)) =>
                    put_line (bytes_of "Wrote " ++ dec (Z.of_nat (length text)) ++ bytes_of " bytes to LBA " ++ dec lba ++
                              bytes_of " (zero-padded to 512B, cache flushed).") (mkSh (kern s) w (polls s))
                | (Fail e, (_, w)) => put_line (bytes_of "Write failed: " ++ bytes_of e) (mkSh (kern s) w (polls s))
                | (Panicked, (_, w)) => (Panicked, mkSh (kern s) w (polls s))
                | (NoFuel, (_, w)) => (NoFuel, mkSh (kern s) w (polls s))
                end
            end
      end
  | _ => say "Usage: diskwrite <lba> <text>  -- OVERWRITES that sector with <text>, zero-padded to 512B. Destructive, no undo."
  end.

Definition cmd_ls : cmd :=
  match ramdisk with
  | None => say "Error: No ramdisk mounted."
  | Some fs =>
      _ <~ say "--- Ramdisk Contents ---";
      match collect (tar_fuel fs) (files fs) with
      | None => no_fuel
      | Some es =>
          each (fun e =>
            if is_file e then put_line (bytes_of " [" ++ zero_pad 6 (dec (fe_size e)) ++ bytes_of " bytes] " ++ fe_name e)
            else if is_dir e then put_line (bytes_of " [ DIR ] " ++ fe_name e ++ bytes_of "/") else ret tt) es
      end
  end.

(** `vfs.open(target)`. *)
Definition open (target : list Z) : io sh (option (FileNode W)) :=
  r <~ attempt (vfs_open VFS target); match r with Ok o => ret o | Err _ => ret None end.

Definition cmd_cat (args : list (list Z)) : cmd :=
  match args with
  | _ :: target :: _ =>
      n <~ open target;
      match n with
      | None => put_line (bytes_of "Error: File '" ++ target ++ bytes_of "' not found in VFS.")
      | Some node =>
          r <~ attempt (node_read node 0 (md_size (metadata node)));
          match r with
          | Ok bytes => if from_utf8_ok bytes then put_str bytes
                        else put_line (bytes_of "[Binary file, size: " ++ dec (Z.of_nat (length bytes)) ++ bytes_of " bytes]")
          | Err e => put_line (bytes_of "Error reading file: " ++ bytes_of e)
          end
      end
  | _ => say "Usage: cat <file>"
  end.

Definition cmd_stat (args : list (list Z)) : cmd :=
  match args with
  | _ :: target :: _ =>
      n <~ open target;
      match n with
      | None => put_line (bytes_of "Error: '" ++ target ++ bytes_of "' not found in VFS.")
      | Some node =>
          let meta := metadata node in
          _ <~ put_line (bytes_of "name: " ++ md_name meta);
          _ <~ put_line (bytes_of "type: " ++ bytes_of (match md_type meta with File => "file" | Directory => "directory" end));
          put_line (bytes_of "size: " ++ dec (md_size meta) ++ bytes_of " bytes")
      end
  | _ => say "Usage: stat <file>"
  end.

Definition spawn_process (elf : list Z) : io sh (Result unit string) := fun s =>
  match spawn_and_run_elf stack_base kernel_root elf (ks (kern s)) with
  | (Returns r, ks') => (Val r, mkSh (with_ks ks' (kern s)) (world s) (polls s))
  | (Panics, ks') => (Panicked, mkSh (with_ks ks' (kern s)) (world s) (polls s))
  end.

Definition cmd_run (args : list (list Z)) : cmd :=
  match args with
  | _ :: target :: _ =>
      n <~ open target;
      match n with
      | None => put_line (bytes_of "Error: '" ++ target ++ bytes_of "' not found in VFS.")
      | Some node =>
          r <~ attempt (node_read node 0 (md_size (metadata node)));
          match r with
          | Err e => put_line (bytes_of "Error reading file: " ++ bytes_of e)
          | Ok bytes =>
              _ <~ put_line (bytes_of "Loading '" ++ target ++ bytes_of "' (" ++ dec (Z.of_nat (length bytes)) ++ bytes_of " bytes)...");
              r <~ spawn_process bytes;
              match r with
              | Ok _ => say "Spawned as a new isolated (ring-3) process -- check 'ps'."
              | Err e => put_line (bytes_of "Failed to spawn '" ++ target ++ bytes_of "': " ++ bytes_of e ++
                  bytes_of ". Common causes right now: no free task slot (MAX_TASKS is 4, and two are already used by the background workers), or the ELF failed to load/map -- see task.rs::spawn_from_elf.")
              end
          end
      end
  | _ => say "Usage: run <file>"
  end.

Definition cmd_raw (args : list (list Z)) : cmd :=
  match args with
  | _ :: target :: _ =>
      match ramdisk with
      | None => say "Error: No ramdisk mounted."
      | Some fs =>
          match tar_find fs target with
          | None => put_line (bytes_of "Error: '" ++ target ++ bytes_of "' not found on ramdisk.")
          | Some e =>
              if is_file e then
                match as_text e with
                | Some text => put_str text
                | None => put_line (bytes_of "[Binary file, " ++ dec (fe_size e) ++ bytes_of " bytes]")
                end
              else put_line (bytes_of "'" ++ target ++ bytes_of "' is not a regular file.")
          end
      end
  | _ => say "Usage: raw <file>"
  end.

(** [info_ptr]: the local of `cmd_uname`; [fuel]: retries of the blocking read of `panic`. *)
Definition run_command (info_ptr : Z) (fuel : nat) (line : list Z) (history : list (list Z)) : cmd :=
  let args := split_whitespace line in
  match args with
  | [] => ret tt
  | c :: _ =>
      let named name := bool_decide (c = bytes_of name) in
      if named "help"%string then cmd_help
      else if named "about"%string then cmd_about
      else if named "uname"%string then cmd_uname info_ptr
      else if named "translate"%string then cmd_translate args
      else if named "ps"%string then cmd_ps
      else if named "echo"%string then cmd_echo args
      else if named "history"%string then cmd_history history
      else if named "memstat"%string then cmd_memstat
      else if named "panic"%string then cmd_panic fuel
      else if named "rxtest"%string then cmd_rxtest
      else if named "diskread"%string then cmd_diskread args
      else if named "diskwrite"%string then cmd_diskwrite args
      else if named "ls"%string then cmd_ls
      else if named "cat"%string then cmd_cat args
      else if named "stat"%string then cmd_stat args
      else if named "run"%string then cmd_run args
      else if named "raw"%string then cmd_raw args
      else put_line (bytes_of "unknown command: " ++ c ++ bytes_of " (try 'help')")
  end.

(** *** The loop of `run`

    One iteration takes a byte from the input ring, if there is one.  The line and the
    history are the loop's local variables. *)
Definition prompt : list Z := bytes_of "mitosOS> ".

Definition handle_byte (info_ptr : Z) (fuel : nat) (byte : Z) (current_line : list Z) (history : list (list Z))
    : io sh (list Z * list (list Z)) :=
  if (byte =? CR) || (byte =? LF) then
    _ <~ put_line [];
    let trimmed := trim current_line in
    match trimmed with
    | [] => _ <~ put_str prompt; ret ([], history)
    | _ =>
        let history := history ++ [trimmed] in
        _ <~ run_command info_ptr fuel trimmed history;
        _ <~ put_str prompt; ret ([], history)
    end
  else if (byte =? BACKSPACE) || (byte =? DELETE) then
    match current_line with
    | [] => ret ([], history)
    | _ => _ <~ put_byte BACKSPACE; _ <~ put_byte 32; _ <~ put_byte BACKSPACE; ret (removelast current_line, history)
    end
  else if (0x20 <=? byte) && (byte <? 0x7F) then
    if Z.of_nat (length current_line) <? 1024 then
      _ <~ put_byte byte; ret (current_line ++ [byte], history)
    else ret (current_line, history)
  else ret (current_line, history).

(** [None]: the ring was empty and the processor sleeps until the next interrupt. *)
Definition shell_iteration (info_ptr : Z) (fuel : nat) (current_line : list Z) (history : list (list Z))
    : io sh (option (list Z * list (list Z))) :=
  b <~ on_kernel (fun k => let '(b, r) := dequeue_byte (input k) in (b, Kernel (ks k) r (console k)));
  match b with
  | Some byte => r <~ handle_byte info_ptr fuel byte current_line history; ret (Some r)
  | None => ret None
  end.

Definition shell_banner : cmd :=
  _ <~ put_line (bytes_of "
mitosOS shell -- type 'help' for commands.");
  put_str prompt.

(** The loop until the ring is empty. *)
Fixpoint shell_drain (info_ptr : Z) (fuel n : nat) (current_line : list Z) (history : list (list Z))
    : io sh (list Z * list (list Z)) :=
  match n with
  | O => no_fuel
  | S n' =>
      r <~ shell_iteration info_ptr fuel current_line history;
      match r with
      | Some (line, history) => shell_drain info_ptr fuel n' line history
      | None => ret (current_line, history)
      end
  end.
End shell.
