(* ===== verification/ShellCorrect.v ===== *)
(** * The shell: what is typed, what is shown and what is run *)
From S2P Require Import Prelude Ports Pmm Vmm Ring Uart Fd Task Syscall Block Ata AtaCorrect Vfs Shell.

(** ** The line, from the keys *)
Definition edit_step (line : list Z) (b : Z) : list Z :=
  if (b =? BACKSPACE) || (b =? DELETE) then removelast line
  else if (0x20 <=? b) && (b <? 0x7F) && (Z.of_nat (length line) <? 1024) then line ++ [b] else line.
Definition edit (keys : list Z) : list Z := foldl edit_step [] keys.

Definition is_key (b : Z) : Prop := b <> CR /\ b <> LF.
Definition line_ok (line : list Z) : Prop :=
  Z.of_nat (length line) <= 1024 /\ Forall (fun b => 0x20 <= b < 0x7F) line.

(** ** The row of a terminal *)

(** What a byte does to the row the cursor is in: text and column. *)
Definition term_step (st : list Z * nat) (b : Z) : list Z * nat :=
  let '(row, col) := st in
  if b =? 13 then (row, 0%nat)
  else if b =? 10 then ([], col)
  else if b =? 8 then (row, pred col)
  else (take col row ++ [b] ++ drop (S col) row, S col).
Definition screen (out : list Z) : list Z * nat := foldl term_step ([], 0%nat) out.

(** The prompt and the line are what the row shows, blanks after them, the cursor behind. *)
Definition shows (out line : list Z) : Prop :=
  exists k, screen out = (prompt ++ line ++ replicate k 32, (9 + length line)%nat).

Lemma edit_step_ok line b : line_ok line -> line_ok (edit_step line b).
Proof.
  intros Hok. pose proof Hok as [Hl Hf]. unfold edit_step. destruct (_ || _).
  - destruct line as [|x line _] using rev_ind; [done|]. rewrite removelast_last. rewrite length_app in Hl.
    apply Forall_app in Hf as [Hf _]. split; [lia|done].
  - destruct (Z.leb_spec 0x20 b), (Z.ltb_spec b 0x7F), (Z.ltb_spec (Z.of_nat (length line)) 1024); try done. cbn [andb].
    split; [rewrite length_app; cbn [length]; lia|]. apply Forall_app. split; [done|]. by constructor.
Qed.

Lemma edit_ok keys : line_ok (edit keys).
Proof.
  unfold edit. assert (line_ok []) as H by (split; [done|constructor]). revert H. generalize (@nil Z).
  induction keys as [|b keys IH]; intros line H; [done|]. cbn [foldl]. apply IH. by apply edit_step_ok.
Qed.

Lemma screen_app o1 o2 : screen (o1 ++ o2) = foldl term_step (screen o1) o2.
Proof. apply foldl_app. Qed.

(** An accepted key is echoed where it belongs, an erased one is blanked. *)
Lemma shows_push out line b : 0x20 <= b < 0x7F -> shows out line -> shows (out ++ [b]) (line ++ [b]).
Proof.
  intros Hb [k E]. unfold shows. rewrite screen_app, E. cbn [foldl term_step]. zcases.
  exists (pred k). assert (length prompt = 9%nat) as Hp by done. f_equal; [|rewrite length_app; cbn; lia].
  rewrite (app_assoc prompt line). rewrite take_app_length' by (rewrite length_app; lia).
  rewrite drop_app_ge by (rewrite length_app; lia). rewrite length_app, Hp, drop_replicate, <- !app_assoc.
  cbn [app]. do 4 f_equal. lia.
Qed.

Lemma shows_erase out line b : shows out (line ++ [b]) -> shows (out ++ [BACKSPACE; 32; BACKSPACE]) line.
Proof.
  intros [k E]. unfold shows. rewrite screen_app, E. cbn [foldl]. unfold BACKSPACE, term_step. cbn [Z.eqb Pos.eqb].
  exists (S k). assert (length prompt = 9%nat) as Hp by done. rewrite length_app. cbn [length].
  replace (pred (9 + (length line + 1)))%nat with (9 + length line)%nat by lia. cbn [pred]. f_equal.
  rewrite <- app_assoc, (app_assoc prompt line). rewrite take_app_length' by (rewrite length_app; lia).
  rewrite drop_app_ge by (rewrite length_app; lia). rewrite length_app, Hp.
  replace (S (9 + length line) - (9 + length line))%nat with 1%nat by lia. by rewrite <- app_assoc.
Qed.

Lemma shows_prompt out : (screen out).1 = [] -> (screen out).2 = 0%nat -> shows (out ++ prompt) [].
Proof. intros H1 H2. exists 0%nat. rewrite screen_app. destruct (screen out) as [row col]. cbn in H1, H2. subst. reflexivity. Qed.

Section editor.
Context {P : Type} `{FA : FrameAllocator P} `{KA : !KernelArch P}.
Context (stack_base : nat -> Z) (kernel_root : Z) {W : Type} `{!PortIO W}.
Context (x86 : bool) (OS_VERSION OS_ARCH : list Z) (show : Z -> list Z).
Context (ready error : Z -> bool) (receiver : device) (VFS : VirtualFileSystem (W := W)) (ramdisk : option TarFileSystem).
Context (info_ptr : Z) (fuel : nat).
Abbreviation run := (run_command stack_base kernel_root x86 OS_VERSION OS_ARCH show ready error receiver VFS ramdisk info_ptr fuel).
Abbreviation key := (handle_byte stack_base kernel_root x86 OS_VERSION OS_ARCH show ready error receiver VFS ramdisk info_ptr fuel).
Abbreviation drain_keys := (shell_drain stack_base kernel_root x86 OS_VERSION OS_ARCH show ready error receiver VFS ramdisk info_ptr fuel).
Implicit Types s : sh (P := P) (W := W).

(** The state with more on the console. *)
Definition printed (out : list Z) s : sh :=
  mkSh (Kernel (ks (kern s)) (input (kern s)) (console (kern s) ++ out)) (world s) (polls s).

Lemma key_step b line h s :
  is_key b -> shows (console (kern s)) line ->
  exists out, key b line h s = (Val (edit_step line b, h), printed out s) /\ shows (console (kern s) ++ out) (edit_step line b).
Proof using.
  intros [H1 H2] Hs. unfold handle_byte, edit_step. rewrite (proj2 (Z.eqb_neq _ _) H1), (proj2 (Z.eqb_neq _ _) H2). cbn [orb].
  assert (exists out, (Val (line, h), s) = (Val (line, h), printed out s) /\ shows (console (kern s) ++ out) line) as Hkeep.
  { exists []. unfold printed. rewrite app_nil_r. split; [by destruct s as [[] ? ?]|done]. }
  destruct (_ || _).
  - destruct line as [|x line _] using rev_ind; [exact Hkeep|]. rewrite removelast_last.
    assert (line ++ [x] <> []) as Hne by (by destruct line). destruct (line ++ [x]) eqn:E; [done|]. rewrite <- E in Hs.
    exists [BACKSPACE; 32; BACKSPACE]. split; [|by apply shows_erase in Hs].
    unfold put_byte, on_kernel, bind, ret, printed. cbn [kern ks input console world polls]. by rewrite <- !app_assoc.
  - destruct (Z.leb_spec 0x20 b), (Z.ltb_spec b 0x7F); cbn [andb]; try exact Hkeep.
    destruct (Z.of_nat (length line) <? 1024); [|exact Hkeep].
    exists [b]. split; [done|]. apply shows_push; [lia|done].
Qed.
(** All the keys waiting in the input ring. *)
Lemma drain_keys_edit n line h s :
  ring_ok (input (kern s)) -> Forall is_key (contents (input (kern s))) -> (length (contents (input (kern s))) < n)%nat ->
  shows (console (kern s)) line ->
  let line' := foldl edit_step line (contents (input (kern s))) in
  exists out r, drain_keys n line h s =
      (Val (line', h), mkSh (Kernel (ks (kern s)) r (console (kern s) ++ out)) (world s) (polls s)) /\
    ring_ok r /\ contents r = [] /\ shows (console (kern s) ++ out) line'.
Proof using.
  revert line s. induction n as [|n IH]; intros line s Hok Hk Hn Hs; cbv zeta; [lia|].
  cbn [shell_drain]. unfold shell_iteration, bind, on_kernel, ret.
  pose proof (dequeue_contents _ Hok) as Hd. destruct (contents (input (kern s))) as [|b keys] eqn:Ec.
  - rewrite Hd. exists [], (input (kern s)). rewrite app_nil_r. split; [|done]. by destruct s as [[] ? ?].
  - destruct Hd as (r1 & -> & Er & Hok1). inversion Hk as [|? ? Hb Hk']; subst.
    set (s1 := mkSh (Kernel (ks (kern s)) r1 (console (kern s))) (world s) (polls s)).
    destruct (key_step b line h s1 Hb Hs) as (out1 & E1 & Hs1). rewrite E1.
    destruct (IH (edit_step line b) (printed out1 s1) Hok1 Hk' ltac:(cbn in Hn |- *; lia) Hs1) as (out2 & r2 & E2 & Hok2 & Ec2 & Hs2).
    exists (out1 ++ out2), r2. cbn [foldl].
    assert (forall o, console (kern (printed out1 s1)) ++ o = console (kern s) ++ out1 ++ o) as Ea by (intros; symmetry; apply app_assoc).
    rewrite Ea in E2, Hs2. split; [exact E2|done].
Qed.

(** The end of a line. *)
Definition submit (line : list Z) (h : list (list Z)) : io sh (list Z * list (list Z)) :=
  match trim line with
  | [] => _ <~ put_str prompt; ret ([], h)
  | c => _ <~ run c (h ++ [c]); _ <~ put_str prompt; ret ([], h ++ [c])
  end.
End editor.

(** ** What the shell promises *)


Definition demo_shell (bs : list Z) : sh (P := bitmap) (W := Drive) :=
  mkSh (Kernel (Sched (replicate 4 Task_empty) 0 true (Machine (fun _ => 0) [0x17] 0 0 0) 0 (fun _ => None))
          (foldl (fun r b => enqueue_byte b r) ring_new bs) (bytes_of "mitosOS> ")) demo_drive 0.
Definition no_input : device := {| status_at _ := 0; data_at _ := 0 |}.


(** ** Numbers *)
Lemma digit_char_digit upper radix d : 2 <= radix <= 16 -> 0 <= d < radix ->
  digit radix (digit_char upper d) = Some d /\ digit_char upper d <> 43.
Proof.
  intros Hr Hd. unfold digit, digit_char. destruct (Z.ltb_spec d 10).
  - zcases; split; try lia; f_equal; lia.
  - destruct upper; zcases; split; try lia; f_equal; lia.
Qed.

Lemma parse_digits_digits fuel radix w upper n acc :
  2 <= radix <= 16 -> 0 <= n < 2 ^ w -> n < radix ^ Z.of_nat fuel -> (0 < fuel)%nat ->
  parse_digits radix w (digits fuel radix upper n acc) 0 = parse_digits radix w acc n.
Proof.
  intros Hr. revert n acc. induction fuel as [|fuel IH]; intros n acc Hn Hf Hpos; [lia|]. cbn [digits].
  pose proof (Z.mod_pos_bound n radix ltac:(lia)) as Hm. pose proof (Z.div_mod n radix ltac:(lia)) as Hdm.
  assert (0 <= n / radix) by (apply Z.div_pos; lia).
  destruct (digit_char_digit upper radix (n mod radix) Hr Hm) as [Ed _].
  destruct (Z.eqb_spec (n / radix) 0) as [E0|Hne].
  - cbn [parse_digits]. rewrite Ed. replace (0 * radix + n mod radix) with n by (rewrite E0 in Hdm; lia).
    by rewrite (proj2 (Z.ltb_lt _ _)) by lia.
  - rewrite IH.
    + cbn [parse_digits]. rewrite Ed. replace (n / radix * radix + n mod radix) with n by lia.
      by rewrite (proj2 (Z.ltb_lt _ _)) by lia.
    + split; [done|]. nia.
    + apply Z.div_lt_upper_bound; [lia|]. rewrite Nat2Z.inj_succ, Z.pow_succ_r in Hf by lia. lia.
    + destruct fuel; [|lia]. cbn in Hf. assert (n < radix) by lia. rewrite Z.div_small in Hne; lia.
Qed.

Lemma digits_head fuel radix upper n acc :
  2 <= radix <= 16 -> (0 < fuel)%nat -> exists b l, digits fuel radix upper n acc = b :: l /\ b <> 43.
Proof.
  intros Hr. revert n acc. induction fuel as [|fuel IH]; intros n acc Hpos; [lia|]. cbn [digits].
  destruct (digit_char_digit upper radix (n mod radix) Hr (Z.mod_pos_bound n radix ltac:(lia))) as [_ Hd].
  destruct (_ =? 0); [by eexists _, _|]. destruct fuel as [|fuel]; [cbn [digits]; by eexists _, _|]. apply IH. lia.
Qed.

(** Decimal numbers read back as they were printed. *)
Lemma parse_dec n w : 0 <= n < 2 ^ w -> w <= 64 -> from_str_radix 10 w (dec n) = Some n.
Proof.
  intros Hn Hw. assert (n < 2 ^ 64) by (assert (2 ^ w <= 2 ^ 64) by (apply Z.pow_le_mono_r; lia); lia).
  destruct (digits_head 20 10 false n [] ltac:(lia) ltac:(lia)) as (b & l & E & Hb).
  pose proof (parse_digits_digits 20 10 w false n [] ltac:(lia) Hn ltac:(lia) ltac:(lia)) as Ep.
  unfold from_str_radix, dec. rewrite E in Ep |- *. by rewrite (proj2 (Z.eqb_neq _ _) Hb).
Qed.

(** The `diskwrite` command on a disk that works: the text, padded with zeros, replaces
    the sector whose number is the one typed modulo 2^32, no other sector changes, and
    the message names the number typed.  So a number of 2^32 or more, which is beyond
    the end of every disk the driver can address, overwrites a sector at its start. *)
Theorem diskwrite_exact {P : Type} `{FA : FrameAllocator P} `{KA : !KernelArch P} {W : Type} `{HD : AtaDrive W}
    (s : sh (P := P) (W := W)) (c text : list Z) (rest : list (list Z)) (lba : Z) :
  let d := drive (world s) in
  let total := identify_sectors (identify d) in
  0 <= lba < 2 ^ 64 -> (length text <= 512)%nat -> bytes_ok text ->
  length (identify d) = 256%nat -> drive_ok (mkAta total) d -> lba mod 2 ^ 32 < total ->
  exists s', cmd_diskwrite true (c :: dec lba :: text :: rest) s = (Val tt, s') /\
    disk (drive (world s')) = (fun j => if decide (j = lba mod 2 ^ 32) then Some (text ++ replicate (512 - length text) 0) else disk d j) /\
    console (kern s') = Uart.write_str (bytes_of "Wrote " ++ dec (Z.of_nat (length text)) ++ bytes_of " bytes to LBA " ++
      dec lba ++ bytes_of " (zero-padded to 512B, cache flushed)." ++ [LF]) (console (kern s)).
Proof.
  intros d total Hlba Ht Hb Hl Hok Hin. unfold cmd_diskwrite. cbn [negb]. rewrite parse_dec by lia.
  rewrite (proj2 (Z.ltb_ge _ _)) by lia.
  destruct (AtaDevice_new_identifies (world s) (proj1 (proj2 Hok)) Hl) as (p1 & E1 & S1).
  pose proof (drive_ok_same _ _ _ S1 Hok) as Hok1. fold d in E1. fold total in E1.
  unfold bind at 1, on_world. rewrite E1. cbn [world kern polls].
  set (i := lba mod 2 ^ 32) in *. assert (0 <= i < 2 ^ 32) as Hi by (apply Z.mod_pos_bound; lia).
  assert (is_Some (disk (drive p1) i)) as [b Hd] by (apply Hok1; cbn [total_sectors]; lia).
  set (buf := text ++ replicate (512 - length text) 0).
  assert (length buf = 512%nat) as Hbl by (subst buf; rewrite length_app, length_replicate; lia).
  assert (bytes_ok buf) as Hbb by (apply Forall_app; split; [done|apply Forall_replicate; unfold fits; lia]).
  destruct (ata_write_in (mkAta total) p1 i b buf Hok1 ltac:(cbn [total_sectors]; lia) Hd Hbl Hbb) as (p2 & E2 & _ & _ & D2).
  assert (ata_write_sector lba buf (mkAta total, p1) = ata_write_sector i buf (mkAta total, p1)) as E3.
  { unfold ata_write_sector. replace (u32 i) with (u32 lba); [done|]. unfold u32, wrap, i. by rewrite Z.mod_mod by lia. }
  rewrite E3, E2. unfold put_line, put_str, on_kernel. cbn [kern world polls]. eexists. split; [reflexivity|]. cbn [world kern console].
  split; [|by rewrite <- !app_assoc]. rewrite D2. destruct S1 as (_ & -> & _). done.
Qed.

Lemma diskwrite_exact_witness :
  exists s', cmd_diskwrite true [bytes_of "diskwrite"; dec (2 ^ 32 + 2); bytes_of "hello"] (demo_shell []) = (Val tt, s') /\
    disk (drive (world s')) 2 = Some (bytes_of "hello" ++ replicate 507 0) /\
    disk (drive (world s')) 1 = Some (demo_sector 1).
Proof.
  destruct (diskwrite_exact (demo_shell []) (bytes_of "diskwrite") (bytes_of "hello") [] (2 ^ 32 + 2)) as (s' & E & D & _).
  - lia.
  - vm_compute. repeat constructor.
  - repeat constructor; vm_compute; discriminate.
  - reflexivity.
  - apply demo_drive_ok.
  - reflexivity.
  - exists s'. split; [exact E|]. rewrite D. split; reflexivity.
Defined.
