(* ===== verification/Smp.v ===== *)
(** The local APIC (src/src/hal/apic.rs) and the start of the other processors
    (src/src/hal/smp.rs).

    The code runs on several processors at once.  [system] holds what they share: the
    statics of the two files and of gdt.rs, memory, and the hardware [D].  The class
    [Cpu] has the accesses a processor makes to its own registers and, by virtual address,
    to the registers of its local APIC and of the I/O APICs; ports are accessed through [PortIO].  Either kind of access takes time, in which the other
    processors may run, so it may change all of [system].  The diagnostics on the serial
    port are left out. *)
From S2P Require Import Prelude Ports Acpi Gdt Interrupts.
#[local] Open Scope kernel_scope.

(** ** Shared state *)
Record system (D : Type) := System {
  LAPIC_PHYS_BASE : Z;
  USE_X2APIC : bool;
  AP_ONLINE : list bool;
  CPUS_ONLINE : Z;
  AP_GDTS : list PerCpu;
  sys_ram : mem_t;
  hw : D
}.
Arguments System {D}. Arguments LAPIC_PHYS_BASE {D}. Arguments USE_X2APIC {D}. Arguments AP_ONLINE {D}.
Arguments CPUS_ONLINE {D}. Arguments AP_GDTS {D}. Arguments sys_ram {D}. Arguments hw {D}.

Definition set_lapic {D} (b : Z) (x2 : bool) (s : system D) : system D :=
  System b x2 (AP_ONLINE s) (CPUS_ONLINE s) (AP_GDTS s) (sys_ram s) (hw s).
Definition set_online {D} (i : nat) (b : bool) (s : system D) : system D :=
  System (LAPIC_PHYS_BASE s) (USE_X2APIC s) (<[i := b]> (AP_ONLINE s)) (CPUS_ONLINE s) (AP_GDTS s) (sys_ram s) (hw s).
Definition set_cpus {D} (n : Z) (s : system D) : system D :=
  System (LAPIC_PHYS_BASE s) (USE_X2APIC s) (AP_ONLINE s) n (AP_GDTS s) (sys_ram s) (hw s).
Definition set_gdts {D} (t : list PerCpu) (s : system D) : system D :=
  System (LAPIC_PHYS_BASE s) (USE_X2APIC s) (AP_ONLINE s) (CPUS_ONLINE s) t (sys_ram s) (hw s).
Definition set_sys_ram {D} (m : mem_t) (s : system D) : system D :=
  System (LAPIC_PHYS_BASE s) (USE_X2APIC s) (AP_ONLINE s) (CPUS_ONLINE s) (AP_GDTS s) m (hw s).
Definition set_hw {D} (h : D) (s : system D) : system D :=
  System (LAPIC_PHYS_BASE s) (USE_X2APIC s) (AP_ONLINE s) (CPUS_ONLINE s) (AP_GDTS s) (sys_ram s) h.

(** What the processor that executes the code can do. *)
Class Cpu (D : Type) := {
  rdmsr : Z -> act (system D) Z;
  wrmsr : Z -> Z -> system D -> system D;
  cpuid_ecx1 : act (system D) Z;
  reg_load : Z -> act (system D) Z;
  reg_store : Z -> Z -> system D -> system D;
  read_cr3 : act (system D) Z;
  read_segments : act (system D) Segments;
  load_segments : Segments -> system D -> system D;
  lidt : Z * Z -> system D -> system D;
  vec_zeroed : Z -> act (system D) (option Z)
}.

(** How a run can fail to return: a wait longer than the model follows it, an allocation
    that fails (the kernel panics), a processor number outside of the tables. *)
Inductive stop := WaitsForever | AllocationFailed | BadIndex.

(** ** `hal::apic` *)
Module reg.
Definition ID : Z := 0x20.
Definition EOI : Z := 0xB0.
Definition SPURIOUS : Z := 0xF0.
Definition ICR_LOW : Z := 0x300.
Definition ICR_HIGH : Z := 0x310.
End reg.

Definition IA32_APIC_BASE_MSR : Z := 0x1B.
Definition IA32_X2APIC_ID : Z := 0x802.
Definition IA32_X2APIC_EOI : Z := 0x80B.
Definition IA32_X2APIC_SIVR : Z := 0x80F.
Definition IA32_X2APIC_ICR : Z := 0x830.
Definition SPURIOUS_VECTOR : Z := 0xFF.

(** ** `hal::ioapic`, discovery *)
Definition IOREGSEL : Z := 0x00.
Definition IOWIN : Z := 0x10.

Section apic.
Context {D : Type} `{!Cpu D} (hhdm : Z).
Abbreviation W := (system D).

Definition phys_to_virt (phys : Z) : Z := add64 phys hhdm.

Definition ioapic_read_reg (mmio_base reg : Z) : act W Z :=
  effect (reg_store (phys_to_virt (add64 mmio_base IOREGSEL)) reg) >>>
  reg_load (phys_to_virt (add64 mmio_base IOWIN)).

(** The version and the number of redirection entries of each I/O APIC, as logged. *)
Fixpoint log_ioapics (l : list IoApicInfo) : act W (list (Z * Z)) :=
  match l with
  | [] => done []
  | ioapic :: l' =>
      let* ver := ioapic_read_reg (io_address ioapic) IOAPICVER in
      let version := Z.land ver 0xFF in
      let max_entries := Z.land (shr ver 16) 0xFF + 1 in
      let* rest := log_ioapics l' in
      done ((version, max_entries) :: rest)
  end.
Definition init_from_madt (madt : MadtData) : act W (list (Z * Z)) :=
  if (ioapic_count madt =? 0)%nat then done [] else log_ioapics (take (ioapic_count madt) (ioapics madt)).

Definition apic_mmio_read (offset : Z) : act W Z := fun s =>
  reg_load (phys_to_virt (add64 (LAPIC_PHYS_BASE s) offset)) s.
Definition apic_mmio_write (offset value : Z) : act W unit := fun s =>
  (tt, reg_store (phys_to_virt (add64 (LAPIC_PHYS_BASE s) offset)) value s).

Definition apic_id_self : act W Z := fun s =>
  if USE_X2APIC s then (let* v := rdmsr IA32_X2APIC_ID in done (u32 v)) s
  else (let* v := apic_mmio_read reg.ID in done (shr v 24)) s.

Definition apic_set_base (phys_base : Z) : act W unit := fun s =>
  let s := set_lapic phys_base (USE_X2APIC s) s in
  (let* ecx := cpuid_ecx1 in
   effect (fun s => set_lapic (LAPIC_PHYS_BASE s) (negb (Z.land ecx (Z.shiftl 1 21) =? 0)) s)) s.

Definition init_this_core : act W unit :=
  let* base := rdmsr IA32_APIC_BASE_MSR in
  fun s =>
  let new_base := Z.lor base (Z.shiftl 1 11) in
  let new_base := if USE_X2APIC s then Z.lor new_base (Z.shiftl 1 10) else new_base in
  ((if new_base =? base then done tt else effect (wrmsr IA32_APIC_BASE_MSR new_base)) >>>
   fun s =>
   if USE_X2APIC s then (tt, wrmsr IA32_X2APIC_SIVR (Z.lor (Z.shiftl 1 8) SPURIOUS_VECTOR) s)
   else apic_mmio_write reg.SPURIOUS (Z.lor (Z.shiftl 1 8) SPURIOUS_VECTOR) s) s.

Definition apic_eoi : act W unit := fun s =>
  if USE_X2APIC s then (tt, wrmsr IA32_X2APIC_EOI 0 s) else apic_mmio_write reg.EOI 0 s.

(** The polling loop of `wait_icr_idle`. *)
Fixpoint icr_loop (fuel : nat) : act W (Result unit stop) :=
  match fuel with
  | O => done (Err WaitsForever)
  | S f =>
      let* v := apic_mmio_read reg.ICR_LOW in
      if Z.land v (Z.shiftl 1 12) =? 0 then done (Ok tt) else icr_loop f
  end.
Definition wait_icr_idle (fuel : nat) : act W (Result unit stop) := fun s =>
  if USE_X2APIC s then (Ok tt, s) else icr_loop fuel s.

Definition send_icr (fuel : nat) (dest_apic_id icr_low_bits : Z) : act W (Result unit stop) := fun s =>
  if USE_X2APIC s
  then (Ok tt, wrmsr IA32_X2APIC_ICR (Z.lor (Z.shiftl dest_apic_id 32) icr_low_bits) s)
  else
    (let*? _ := wait_icr_idle fuel in
     apic_mmio_write reg.ICR_HIGH (u32 (Z.shiftl (Z.land dest_apic_id 0xFF) 24)) >>>
     apic_mmio_write reg.ICR_LOW icr_low_bits >>>
     wait_icr_idle fuel) s.

Definition INIT_ASSERT : Z := Z.lor (Z.shiftl 5 8) (Z.shiftl 1 14).
Definition STARTUP_ASSERT : Z := Z.lor (Z.shiftl 6 8) (Z.shiftl 1 14).
Definition send_init (fuel : nat) (dest_apic_id : Z) := send_icr fuel dest_apic_id INIT_ASSERT.
Definition send_startup (fuel : nat) (dest_apic_id start_page : Z) :=
  send_icr fuel dest_apic_id (Z.lor STARTUP_ASSERT start_page).
End apic.

(** ** `hal::smp` *)
Definition TRAMPOLINE_PHYS : Z := 0x8000.
Definition PARAM_CR3 : Z := 0x1F0.
Definition PARAM_STACK_TOP : Z := 0x1F8.
Definition PARAM_ENTRY : Z := 0x200.
Definition PARAM_CPU_INDEX : Z := 0x208.
Definition AP_STACK_SIZE : Z := 16 * 1024.
Definition PIT_HZ : Z := 1193182.

Section smp.
Context {D : Type} `{!Cpu D} `{!PortIO (system D)} (hhdm : Z).
Abbreviation W := (system D).

Definition write_param_u64 (offset value : Z) : act W unit :=
  effect (fun s => set_sys_ram (copy_to (sys_ram s) (phys_to_virt hhdm (TRAMPOLINE_PHYS + offset)) (to_le 8 value)) s).

Definition pit_count (us : Z) : Z := u16 (Z.min (Z.max (PIT_HZ * us / 1000000) 1) 0xFFFF).

Fixpoint pit_loop (fuel : nat) : act W (Result unit stop) :=
  match fuel with
  | O => done (Err WaitsForever)
  | S f => let* v := inb 0x61 in if Z.land v 0x20 =? 0 then pit_loop f else done (Ok tt)
  end.

Definition pit_delay_us (fuel : nat) (us : Z) : act W (Result unit stop) :=
  let count := pit_count us in
  let* v := inb 0x61 in
  effect (outb 0x61 (Z.lor (Z.land v 0xFD) 0x01)) >>>
  effect (outb 0x43 0xB0) >>>
  effect (outb 0x42 (Z.land count 0xFF)) >>>
  effect (outb 0x42 (shr count 8)) >>>
  pit_loop fuel.

Fixpoint pit_delay_ms (fuel : nat) (ms : nat) : act W (Result unit stop) :=
  match ms with
  | O => done (Ok tt)
  | S n => let*? _ := pit_delay_us fuel 1000 in pit_delay_ms fuel n
  end.

Definition online (cpu_index : nat) (s : W) : bool := nth cpu_index (AP_ONLINE s) false.

Fixpoint wait_online (fuel cpu_index : nat) (timeout_ms : nat) : act W (Result bool stop) :=
  match timeout_ms with
  | O => done (Ok false)
  | S n => fun s =>
      if online cpu_index s then (Ok true, s)
      else (let*? _ := pit_delay_ms fuel 1 in wait_online fuel cpu_index n) s
  end.

(** Where an application processor enters the kernel, up to its idle loop: [l] is where
    the linker put the per-processor tables, [idt_addr] the interrupt table. *)
Definition rust_ap_entry (l : ap_layout) (idt_addr cpu_index : Z) : act W (Result unit stop) :=
  let* segs := read_segments in
  fun s =>
  match init_ap l cpu_index (AP_GDTS s) segs with
  | None => (Err BadIndex, s)
  | Some (gdts, segs) =>
      (effect (set_gdts gdts) >>>
       effect (load_segments segs) >>>
       effect (lidt (idt_pointer idt_addr)) >>>
       init_this_core hhdm >>>
       effect (set_online (Z.to_nat cpu_index) true) >>>
       done (Ok tt)) s
  end.

(** [entry] is the address of [rust_ap_entry]. *)
Definition start_one_ap (fuel : nat) (entry apic_id : Z) (cpu_index : nat) (target_cr3 : Z) : act W (Result bool stop) :=
  let* stack := vec_zeroed AP_STACK_SIZE in
  match stack with
  | None => done (Err AllocationFailed)
  | Some stack =>
      let stack_top := add64 stack AP_STACK_SIZE in
      write_param_u64 PARAM_CR3 (Z.land target_cr3 (not64 0xFFF)) >>>
      write_param_u64 PARAM_STACK_TOP (Z.land stack_top (not64 0xF)) >>>
      write_param_u64 PARAM_ENTRY entry >>>
      write_param_u64 PARAM_CPU_INDEX (Z.of_nat cpu_index) >>>
      effect (set_online cpu_index false) >>>
      let start_page := u8 (shr TRAMPOLINE_PHYS 12) in
      let*? _ := send_init hhdm fuel apic_id in
      let*? _ := pit_delay_ms fuel 10 in
      let*? _ := send_startup hhdm fuel apic_id start_page in
      let*? up := wait_online fuel cpu_index 1 in
      let*? _ := (if up then done (Ok true)
                  else let*? _ := send_startup hhdm fuel apic_id start_page in wait_online fuel cpu_index 100) in
      fun s => (Ok (online cpu_index s), s)
  end.

(** The loop over the processors of the MADT: the number started. *)
Fixpoint start_list (fuel : nat) (entry bsp_apic_id target_cr3 : Z) (l : list ProcessorLocalApic)
    (next_cpu_index : nat) (started : Z) : act W (Result Z stop) :=
  match l with
  | [] => done (Ok started)
  | cpu :: l' =>
      if apic_id cpu =? bsp_apic_id then start_list fuel entry bsp_apic_id target_cr3 l' next_cpu_index started
      else if negb (enabled cpu) then start_list fuel entry bsp_apic_id target_cr3 l' next_cpu_index started
      else if (MAX_CPUS <=? next_cpu_index)%nat then start_list fuel entry bsp_apic_id target_cr3 l' next_cpu_index started
      else
        let*? up := start_one_ap fuel entry (apic_id cpu) next_cpu_index target_cr3 in
        start_list fuel entry bsp_apic_id target_cr3 l' (S next_cpu_index) (if up then started + 1 else started)
  end.

(** [blob] is the assembled trampoline. *)
Definition start_aps (fuel : nat) (blob : list Z) (entry : Z) (data : MadtData) : act W (Result unit stop) :=
  if negb (found data) then done (Ok tt) else
  apic_set_base (local_apic_address data) >>>
  init_this_core hhdm >>>
  init_from_madt hhdm data >>>
  let* bsp_apic_id := apic_id_self hhdm in
  let* target_cr3 := read_cr3 in
  effect (fun s => set_sys_ram (copy_to (sys_ram s) (phys_to_virt hhdm TRAMPOLINE_PHYS) blob) s) >>>
  let*? started := start_list fuel entry bsp_apic_id target_cr3 (take (cpu_count data) (cpus data)) 0 0 in
  effect (fun s => set_cpus (add64 (CPUS_ONLINE s) started) s) >>> done (Ok tt).
End smp.
