(* ===== verification/SmpCorrect.v ===== *)
(** Bring-up of the other processors is correct: a board with any number of processors,
    their local APICs and the timer the code waits with, and what [start_aps] does to it. *)
From S2P Require Import Prelude Ports Acpi Gdt Interrupts Smp.
#[local] Open Scope kernel_scope.

(** ** The board *)

(** What the trampoline (src/src/smp_trampoline.s) takes from its parameter block. *)
Record params := mkParams { p_cr3 : Z; p_stack : Z; p_entry : Z; p_index : Z }.

(** A processor: not started by the kernel, waiting for a startup interrupt (and deaf to
    the first [ignored] of them), on its way to the parameter block, on its way through
    [rust_ap_entry], in the idle loop, or executing something else. *)
Inductive phase :=
  Running | WaitSipi (ignored : nat) | Launching (polls : nat) | Booting (p : params) (polls : nat) | Up (p : params)
| Astray.

Record core := mkCore {
  c_id : Z; c_phase : phase; c_apic_base : Z; c_svr : Z; c_segs : Segments; c_idtr : Z * Z;
  c_misses : nat; c_fetch : option nat; c_boot : nat
}.
Definition set_phase (ph : phase) (c : core) : core :=
  mkCore (c_id c) ph (c_apic_base c) (c_svr c) (c_segs c) (c_idtr c) (c_misses c) (c_fetch c) (c_boot c).
Definition set_apic_base (v : Z) (c : core) : core :=
  mkCore (c_id c) (c_phase c) v (c_svr c) (c_segs c) (c_idtr c) (c_misses c) (c_fetch c) (c_boot c).
Definition set_svr (v : Z) (c : core) : core :=
  mkCore (c_id c) (c_phase c) (c_apic_base c) v (c_segs c) (c_idtr c) (c_misses c) (c_fetch c) (c_boot c).
Definition set_segs (v : Segments) (c : core) : core :=
  mkCore (c_id c) (c_phase c) (c_apic_base c) (c_svr c) v (c_idtr c) (c_misses c) (c_fetch c) (c_boot c).
Definition set_idtr (v : Z * Z) (c : core) : core :=
  mkCore (c_id c) (c_phase c) (c_apic_base c) (c_svr c) (c_segs c) v (c_misses c) (c_fetch c) (c_boot c).

(** [cur] is the processor executing; the others run while it polls the timer. *)
Record board := mkBoard {
  cores : list core; cur : nat;
  pit : nat; pit_low : option Z;
  icr_high : Z; icr_busy : nat;
  cr3 : Z; allocs : nat
}.
Definition set_cores (l : list core) (b : board) : board :=
  mkBoard l (cur b) (pit b) (pit_low b) (icr_high b) (icr_busy b) (cr3 b) (allocs b).
Definition set_cur (k : nat) (b : board) : board :=
  mkBoard (cores b) k (pit b) (pit_low b) (icr_high b) (icr_busy b) (cr3 b) (allocs b).
Definition set_pit (n : nat) (lo : option Z) (b : board) : board :=
  mkBoard (cores b) (cur b) n lo (icr_high b) (icr_busy b) (cr3 b) (allocs b).
Definition set_icr (h : Z) (n : nat) (b : board) : board :=
  mkBoard (cores b) (cur b) (pit b) (pit_low b) h n (cr3 b) (allocs b).
Definition set_allocs (n : nat) (b : board) : board :=
  mkBoard (cores b) (cur b) (pit b) (pit_low b) (icr_high b) (icr_busy b) (cr3 b) n.

Abbreviation sys := (system board).
Definition on_hw (f : board -> board) (s : sys) : sys := set_hw (f (hw s)) s.
Definition on_core (k : nat) (f : core -> core) (s : sys) : sys := on_hw (fun b => set_cores (alter f k (cores b)) b) s.

(** An interprocessor interrupt, as the ICR encodes it. *)
Definition take_ipi (low : Z) (c : core) : core :=
  let mode := Z.land (shr low 8) 7 in
  if mode =? 5 then set_phase (WaitSipi (c_misses c)) c
  else if mode =? 6 then
    match c_phase c with
    | WaitSipi (S n) => set_phase (WaitSipi n) c
    | WaitSipi O =>
        match c_fetch c with
        | Some f => set_phase (if Z.land low 0xFF =? 8 then Launching f else Astray) c
        | None => c
        end
    | _ => c
    end
  else c.
Definition ipi (dest low : Z) (s : sys) : sys :=
  on_hw (fun b => set_cores (map (fun c => if c_id c =? dest then take_ipi low c else c) (cores b)) b) s.

Section board.
(** [lapic] is the physical base of the local APICs; [x2] whether they have the register
    interface; [sends] how many reads of the ICR see a command being sent; [quantum] how
    many timer ticks a read of port 0x61 takes; [stack_at n] the [n]-th stack the heap
    hands out. *)
Context (hhdm lapic : Z) (x2 : bool) (sends quantum : nat) (stack_at : nat -> Z).
Context (l : ap_layout) (idt_addr entry : Z).

Definition reg_addr (offset : Z) : Z := phys_to_virt hhdm (add64 lapic offset).
Definition current (s : sys) : core := default (mkCore 0 Running 0 0 (mkSegments 0 0 0 0 0 0 0 0 0) (0, 0) 0 None 0)
  (cores (hw s) !! cur (hw s)).

#[local] Instance board_cpu : Cpu board := {|
  rdmsr := fun r s => (if r =? IA32_APIC_BASE_MSR then c_apic_base (current s)
                       else if r =? IA32_X2APIC_ID then c_id (current s) else 0, s);
  wrmsr := fun r v s =>
    if r =? IA32_APIC_BASE_MSR then on_core (cur (hw s)) (set_apic_base v) s
    else if r =? IA32_X2APIC_SIVR then on_core (cur (hw s)) (set_svr v) s
    else if r =? IA32_X2APIC_ICR then ipi (shr v 32) (Z.land v 0xFFFFFFFF) s else s;
  cpuid_ecx1 := fun s => (if x2 then Z.shiftl 1 21 else 0, s);
  reg_load := fun a s =>
    if a =? reg_addr reg.ID then (Z.shiftl (c_id (current s)) 24, s)
    else if a =? reg_addr reg.ICR_LOW then
      (if (icr_busy (hw s) =? 0)%nat then 0 else Z.shiftl 1 12,
       on_hw (fun b => set_icr (icr_high b) (icr_busy b - 1) b) s)
    else (0, s);
  reg_store := fun a v s =>
    if a =? reg_addr reg.ICR_HIGH then on_hw (fun b => set_icr v (icr_busy b) b) s
    else if a =? reg_addr reg.ICR_LOW then
      on_hw (fun b => set_icr (icr_high b) sends b) (ipi (shr (icr_high (hw s)) 24) v s)
    else if a =? reg_addr reg.SPURIOUS then on_core (cur (hw s)) (set_svr v) s else s;
  read_cr3 := fun s => (cr3 (hw s), s);
  read_segments := fun s => (c_segs (current s), s);
  load_segments := fun v s => on_core (cur (hw s)) (set_segs v) s;
  lidt := fun v s => on_core (cur (hw s)) (set_idtr v) s;
  vec_zeroed := fun size s =>
    let a := stack_at (allocs (hw s)) in
    (Some a, on_hw (fun b => set_allocs (S (allocs b)) b) (set_sys_ram (write_bytes (sys_ram s) a 0 size) s))
|}.

(** The trampoline reads the block in physical memory; of the page-table root it takes
    the low half. *)
Definition trampoline (m : mem_t) : params :=
  let at_ off := phys_to_virt hhdm (TRAMPOLINE_PHYS + off) in
  mkParams (read_u32 m (at_ PARAM_CR3)) (read_u64 m (at_ PARAM_STACK_TOP)) (read_u64 m (at_ PARAM_ENTRY))
    (read_u64 m (at_ PARAM_CPU_INDEX)).

(** Processor [k] runs [rust_ap_entry] if that is where the trampoline jumps. *)
Definition enter_kernel (k : nat) (p : params) (s : sys) : sys :=
  if p_entry p =? entry then
    let back := cur (hw s) in
    let '(r, s) := rust_ap_entry hhdm l idt_addr (p_index p) (on_hw (set_cur k) s) in
    on_core k (set_phase (match r with Ok _ => Up p | Err _ => Astray end)) (on_hw (set_cur back) s)
  else on_core k (set_phase Astray) s.

(** One quantum of processor [k]. *)
Definition step_core (k : nat) (s : sys) : sys :=
  match c_phase <$> (cores (hw s) !! k) with
  | Some (Launching (S n)) => on_core k (set_phase (Launching n)) s
  | Some (Launching O) => on_core k (fun c => set_phase (Booting (trampoline (sys_ram s)) (c_boot c)) c) s
  | Some (Booting p (S n)) => on_core k (set_phase (Booting p n)) s
  | Some (Booting p O) => enter_kernel k p s
  | _ => s
  end.
Definition tick (s : sys) : sys := foldl (fun s k => step_core k s) s (seq 0 (length (cores (hw s)))).

(** Channel 2 of the timer, in mode 0: its output rises when the count is used up. *)
#[local] Instance board_ports : PortIO sys := {|
  inb := fun port s =>
    if port =? 0x61 then
      (if (pit (hw s) =? 0)%nat then 0x20 else 0,
       tick (on_hw (fun b => set_pit (pit b - quantum) (pit_low b) b) s))
    else (0, s);
  outb := fun port v s =>
    if port =? 0x43 then on_hw (fun b => set_pit (pit b) None b) s
    else if port =? 0x42 then
      on_hw (fun b => match pit_low b with
                      | None => set_pit (pit b) (Some v) b
                      | Some lo => set_pit (Z.to_nat (lo + 256 * v)) None b
                      end) s
    else s;
  inw := fun _ => done 0; outw := fun _ _ s => s; inl := fun _ => done 0; outl := fun _ _ s => s
|}.

(** ** Quiet processors *)
Definition quiet (ph : phase) : bool := match ph with Launching _ | Booting _ _ => false | _ => true end.
Definition quiet_but (k : nat) (s : sys) : Prop :=
  forall j c, cores (hw s) !! j = Some c -> j <> k -> quiet (c_phase c) = true.

Lemma step_quiet k s : (forall c, cores (hw s) !! k = Some c -> quiet (c_phase c) = true) -> step_core k s = s.
Proof.
  intros H. unfold step_core. destruct (cores (hw s) !! k) as [c|] eqn:E; [|done]. cbn.
  specialize (H c eq_refl). by destruct (c_phase c).
Qed.

Lemma alter_other {A} (f : A -> A) k j (l0 : list A) : j <> k -> alter f k l0 !! j = l0 !! j.
Proof. intros. by apply list_lookup_alter_ne. Qed.

(** With one processor under way, a quantum of all is a quantum of that one. *)
Lemma tick_one k s :
  quiet_but k s -> quiet_but k (step_core k s) -> (k < length (cores (hw s)))%nat -> tick s = step_core k s.
Proof.
  intros H H' Hk. unfold tick.
  assert (forall js s, quiet_but k s -> k ∉ js -> foldl (fun s j => step_core j s) s js = s) as Hout.
  { induction js as [|j js IH]; intros s0 H0 Hn; [done|]. apply not_elem_of_cons in Hn as [Hj Hn]. cbn [foldl].
    rewrite step_quiet by (intros c Ec; apply (H0 j c Ec); done). by apply IH. }
  replace (length (cores (hw s))) with (k + S (length (cores (hw s)) - S k))%nat by lia.
  rewrite seq_app, foldl_app. cbn [Nat.add seq foldl].
  rewrite (Hout (seq 0 k) s H) by (rewrite elem_of_seq; lia).
  apply Hout; [done|]. rewrite elem_of_seq. lia.
Qed.

Lemma tick_quiet s : (forall j c, cores (hw s) !! j = Some c -> quiet (c_phase c) = true) -> tick s = s.
Proof.
  intros H. unfold tick. generalize (seq 0 (length (cores (hw s)))).
  induction l0 as [|j js IH]; [done|]. cbn [foldl]. rewrite step_quiet; [done|]. intros c Ec. by apply (H j).
Qed.

(** ** A processor enters the kernel *)
Definition put_core (k : nat) (c : core) (s : sys) : sys := on_hw (fun b => set_cores (<[k := c]> (cores b)) b) s.

Lemma on_core_put k f c s : cores (hw s) !! k = Some c -> on_core k f s = put_core k (f c) s.
Proof.
  intros E. unfold on_core, put_core, on_hw. do 2 f_equal. apply list_eq. intros j.
  destruct (decide (j = k)) as [->|Hj].
  - rewrite list_lookup_alter_eq, list_lookup_insert_eq by (by eapply lookup_lt_Some). by rewrite E.
  - by rewrite list_lookup_alter_ne, list_lookup_insert_ne.
Qed.
Lemma put_core_put k c c' s : put_core k c (put_core k c' s) = put_core k c s.
Proof. unfold put_core, on_hw. cbn. by rewrite list_insert_insert_eq. Qed.
Lemma put_core_lookup k c c' s : cores (hw s) !! k = Some c -> cores (hw (put_core k c' s)) !! k = Some c'.
Proof. intros E. cbn. apply list_lookup_insert_eq. by eapply lookup_lt_Some. Qed.

Lemma put_core_id k c s : cores (hw s) !! k = Some c -> put_core k c s = s.
Proof. intros E. unfold put_core, on_hw. rewrite list_insert_id by done. by destruct s as [? ? ? ? ? ? []]. Qed.

Lemma reg_addr_inj a b : 0 <= a < 4096 -> 0 <= b < 4096 -> (reg_addr a =? reg_addr b) = (a =? b).
Proof.
  intros Ha Hb. destruct (Z.eqb_spec a b) as [->|Hn]; [apply Z.eqb_refl|]. apply Z.eqb_neq. intros E. apply Hn.
  unfold reg_addr, phys_to_virt, add64, u64, wrap in E.
  assert ((a - b) mod 2 ^ 64 = 0) as Hm.
  { apply (f_equal (fun v => (v - ((lapic + b) mod 2 ^ 64 + hhdm)) mod 2 ^ 64)) in E.
    rewrite !Zminus_mod_idemp_l in E. rewrite Z.sub_diag in E. change (0 mod 2 ^ 64) with 0 in E. rewrite <- E.
    replace ((lapic + a) mod 2 ^ 64 + hhdm - ((lapic + b) mod 2 ^ 64 + hhdm))
      with ((lapic + a) mod 2 ^ 64 - (lapic + b) mod 2 ^ 64) by lia.
    rewrite <- Zminus_mod. f_equal. lia. }
  apply Z.mod_divide in Hm as [q Hq]; [|done]. nia.
Qed.

Definition enabled_base (c : core) : Z :=
  let b := Z.lor (c_apic_base c) (Z.shiftl 1 11) in if x2 then Z.lor b (Z.shiftl 1 10) else b.

(** The local APIC of the executing processor is on, with the spurious vector. *)
Lemma init_this_core_spec k c s :
  cores (hw s) !! k = Some c -> cur (hw s) = k -> USE_X2APIC s = x2 -> LAPIC_PHYS_BASE s = lapic ->
  init_this_core hhdm s = (tt, put_core k (set_svr 0x1FF (set_apic_base (enabled_base c) c)) s).
Proof.
  intros E Hk Hx Hl. unfold init_this_core, act_bind. cbn [rdmsr board_cpu]. rewrite Z.eqb_refl, Hx.
  assert (current s = c) as -> by (unfold current; by rewrite Hk, E). fold (enabled_base c).
  set (s1 := put_core k (set_apic_base (enabled_base c) c) s).
  assert (((if enabled_base c =? c_apic_base c then done tt else effect (wrmsr IA32_APIC_BASE_MSR (enabled_base c))) s)
    = (tt, s1)) as ->.
  { destruct (Z.eqb_spec (enabled_base c) (c_apic_base c)) as [Eb|_].
    - unfold s1. rewrite Eb, put_core_id; [done|]. by destruct c.
    - unfold effect. cbn [wrmsr board_cpu]. rewrite Z.eqb_refl, Hk. by rewrite (on_core_put k _ c). }
  assert (cores (hw s1) !! k = Some (set_apic_base (enabled_base c) c)) as E1 by (by apply (put_core_lookup k c)).
  change (USE_X2APIC s1) with (USE_X2APIC s). rewrite Hx. destruct x2.
  - cbn [wrmsr board_cpu]. change (cur (hw s1)) with (cur (hw s)). rewrite Hk. cbn [Z.eqb IA32_X2APIC_SIVR IA32_APIC_BASE_MSR Pos.eqb].
    rewrite (on_core_put k _ _ _ E1). unfold s1. by rewrite put_core_put.
  - unfold apic_mmio_write. change (LAPIC_PHYS_BASE s1) with (LAPIC_PHYS_BASE s). rewrite Hl. fold (reg_addr reg.SPURIOUS).
    cbn [reg_store board_cpu]. rewrite !reg_addr_inj by done. cbn [Z.eqb reg.SPURIOUS reg.ICR_HIGH reg.ICR_LOW Pos.eqb].
    change (cur (hw s1)) with (cur (hw s)). rewrite Hk. rewrite (on_core_put k _ _ _ E1). unfold s1. by rewrite put_core_put.
Qed.

Definition ap_tables (i : Z) (t : PerCpu) (segs : Segments) : PerCpu * Segments :=
  load_tables (gdt_ptr l i + gdt_offset l) (gdt_ptr l i + tss_offset l) (stack_ptr l i) AP_DF_STACK_SIZE t segs.
(** The processor with its own tables, the shared interrupt table and its local APIC on. *)
Definition ready_core (p : params) (t : PerCpu) (c : core) : core :=
  mkCore (c_id c) (Up p) (enabled_base c) 0x1FF (ap_tables (p_index p) t (c_segs c)).2 (idt_pointer idt_addr)
    (c_misses c) (c_fetch c) (c_boot c).
Definition entered (k : nat) (p : params) (t : PerCpu) (c : core) (s : sys) : sys :=
  let i := Z.to_nat (p_index p) in
  set_online i true (set_gdts (<[i := (ap_tables (p_index p) t (c_segs c)).1]> (AP_GDTS s)) (put_core k (ready_core p t c) s)).

Lemma enter_kernel_spec k p t c s :
  cores (hw s) !! k = Some c -> USE_X2APIC s = x2 -> LAPIC_PHYS_BASE s = lapic ->
  p_entry p = entry -> AP_GDTS s !! Z.to_nat (p_index p) = Some t ->
  enter_kernel k p s = entered k p t c s.
Proof.
  intros E Hx Hl Hp Ht. unfold enter_kernel. rewrite Hp, Z.eqb_refl.
  set (i := Z.to_nat (p_index p)) in *. set (T := ap_tables (p_index p) t (c_segs c)).
  set (c1 := set_idtr (idt_pointer idt_addr) (set_segs T.2 c)).
  set (s1 := put_core k c1 (set_gdts (<[i := T.1]> (AP_GDTS s)) (on_hw (set_cur k) s))).
  assert (rust_ap_entry hhdm l idt_addr (p_index p) (on_hw (set_cur k) s) =
    (Ok tt, set_online i true (put_core k (set_svr 0x1FF (set_apic_base (enabled_base c1) c1)) s1))) as ->.
  { unfold rust_ap_entry. unfold act_bind at 1. cbn [read_segments board_cpu].
    assert (current (on_hw (set_cur k) s) = c) as -> by (unfold current; cbn; by rewrite E).
    unfold init_ap. fold i. change (AP_GDTS (on_hw (set_cur k) s)) with (AP_GDTS s). rewrite Ht.
    fold (ap_tables (p_index p) t (c_segs c)). fold T. destruct T as [t' segs'] eqn:ET. cbn [fst snd] in *.
    unfold act_bind, effect. cbn [load_segments lidt board_cpu].
    match goal with |- context [init_this_core hhdm ?x] => assert (x = s1) as -> end.
    { unfold s1. cbn -[on_core]. rewrite (on_core_put k (set_segs segs') c) by done.
      rewrite (on_core_put k (set_idtr _) (set_segs segs' c)) by (by apply (put_core_lookup k c)).
      rewrite put_core_put. subst c1. done. }
    rewrite (init_this_core_spec k c1); [done|by apply (put_core_lookup k c)|done..]. }
  cbn [fst snd]. unfold s1. rewrite put_core_put.
  rewrite (on_core_put k _ (set_svr 0x1FF (set_apic_base (enabled_base c1) c1))).
  - unfold entered. fold i. fold T. unfold put_core, on_hw, set_online, set_gdts, set_hw, set_cores, set_cur. cbn. by rewrite list_insert_insert_eq.
  - cbn. apply list_lookup_insert_eq. by eapply lookup_lt_Some.
Qed.

(** ** Waiting

    A timeline: the states of the board as time passes and nothing but the timer is
    touched, by number of quanta and state of the timer. *)
Record timeline (G : nat -> nat -> option Z -> sys) : Prop := {
  line_pit : forall n a b, pit (hw (G n a b)) = a /\ pit_low (hw (G n a b)) = b;
  line_set : forall n a b a' b', on_hw (set_pit a' b') (G n a b) = G n a' b';
  line_tick : forall n a b, tick (G n a b) = G (S n) a b
}.

(** How many reads a count takes, and what they amount to. *)
Fixpoint reads (fuel a : nat) : nat :=
  match fuel with O => 0 | S f => if (a =? 0)%nat then 1 else S (reads f (a - quantum)) end.

Lemma reads_enough fuel a : (0 < quantum)%nat -> (a < fuel)%nat -> (a <= reads fuel a * quantum)%nat.
Proof.
  intros Hq. revert a. induction fuel as [|f IH]; intros a Ha; [lia|]. cbn [reads].
  destruct (Nat.eqb_spec a 0); [lia|]. specialize (IH (a - quantum)%nat ltac:(lia)). lia.
Qed.

Section line.
Context (G : nat -> nat -> option Z -> sys) (HG : timeline G) (Hq : (0 < quantum)%nat).

Lemma line_inb n a b : inb 0x61 (G n a b) = (if (a =? 0)%nat then 0x20 else 0, G (S n) (a - quantum) b).
Proof.
  cbn [inb board_ports]. rewrite Z.eqb_refl. destruct (line_pit G HG n a b) as [E1 E2]. rewrite E1. f_equal.
  transitivity (tick (on_hw (set_pit (a - quantum) b) (G n a b))).
  - unfold on_hw at 1. by rewrite E1, E2.
  - by rewrite (line_set G HG), (line_tick G HG).
Qed.

Lemma pit_loop_line fuel n a b : (a < fuel)%nat -> pit_loop fuel (G n a b) = (Ok tt, G (n + reads fuel a) 0 b).
Proof.
  revert n a. induction fuel as [|f IH]; intros n a Ha; [lia|]. cbn [pit_loop reads]. unfold act_bind. rewrite line_inb.
  destruct (Nat.eqb_spec a 0) as [->|Hn].
  - change (Z.land 0x20 0x20 =? 0) with false. cbn iota. unfold done. by rewrite Nat.sub_0_l, Nat.add_1_r.
  - change (Z.land 0 0x20 =? 0) with true. cbn iota. rewrite IH by lia. by rewrite Nat.add_succ_comm.
Qed.

Definition ms_quanta (fuel : nat) : nat := S (reads fuel 1193).

Lemma delay_line fuel n a b : (1193 < fuel)%nat -> pit_delay_us fuel 1000 (G n a b) = (Ok tt, G (n + ms_quanta fuel) 0 None).
Proof.
  intros Hf. unfold pit_delay_us. change (pit_count 1000) with 1193. unfold act_bind, effect. rewrite line_inb.
  cbn [outb board_ports]. cbn [Z.eqb Pos.eqb].
  set (a1 := (a - quantum)%nat). clearbody a1.
  assert (forall f n a b, on_hw (fun h => f (pit h) (pit_low h) h) (G n a b) = on_hw (f a b) (G n a b)) as Hon.
  { intros f0 n0 a0 b0. unfold on_hw. by destruct (line_pit G HG n0 a0 b0) as [-> ->]. }
  rewrite (Hon (fun p _ => set_pit p None)), (line_set G HG).
  rewrite (Hon (fun p lo h => match lo with None => set_pit p (Some (Z.land 1193 0xFF)) h | Some lo => set_pit (Z.to_nat (lo + 256 * Z.land 1193 0xFF)) None h end)).
  change (fun h => set_pit a1 (Some (Z.land 1193 0xFF)) h) with (set_pit a1 (Some (Z.land 1193 0xFF))). rewrite (line_set G HG).
  rewrite (Hon (fun p lo h => match lo with None => set_pit p (Some (shr 1193 8)) h | Some lo => set_pit (Z.to_nat (lo + 256 * shr 1193 8)) None h end)).
  change (fun h => set_pit (Z.to_nat (Z.land 1193 0xFF + 256 * shr 1193 8)) None h) with (set_pit 1193 None). rewrite (line_set G HG).
  rewrite pit_loop_line by done. unfold ms_quanta. by rewrite Nat.add_succ_comm.
Qed.

Lemma delay_ms_line fuel ms n a b : (1193 < fuel)%nat ->
  pit_delay_ms fuel (S ms) (G n a b) = (Ok tt, G (n + S ms * ms_quanta fuel) 0 None).
Proof.
  intros Hf. revert n a b. induction ms as [|ms IH]; intros n a b.
  - cbn [pit_delay_ms]. unfold act_try, act_bind. rewrite delay_line by done. by rewrite Nat.mul_1_l.
  - change (pit_delay_ms fuel (S (S ms))) with (let*? _ := pit_delay_us fuel 1000 in pit_delay_ms fuel (S ms)).
    unfold act_try, act_bind. rewrite delay_line by done. rewrite IH.
    by replace (n + ms_quanta fuel + S ms * ms_quanta fuel)%nat with (n + S (S ms) * ms_quanta fuel)%nat by lia.
Qed.

(** A wait ends at the deadline, or at the first millisecond at which the flag is set. *)
Lemma wait_online_line fuel i ms n : (1193 < fuel)%nat ->
  exists r m, wait_online fuel i ms (G n 0 None) = (Ok r, G (n + m * ms_quanta fuel) 0 None) /\ (m <= ms)%nat /\
    (m < ms -> online i (G (n + m * ms_quanta fuel) 0 None) = true)%nat.
Proof.
  intros Hf. revert n. induction ms as [|ms IH]; intros n.
  - exists false, 0%nat. cbn. rewrite Nat.add_0_r. split_and!; [done|lia..].
  - cbn [wait_online]. destruct (online i (G n 0 None)) eqn:E.
    + exists true, 0%nat. cbn. rewrite Nat.add_0_r. split_and!; [done|lia|done].
    + unfold act_try, act_bind. rewrite (delay_ms_line fuel 0) by done. rewrite Nat.mul_1_l.
      destruct (IH (n + ms_quanta fuel)%nat) as (r & m & -> & Hm & Ho). exists r, (S m).
      replace (n + S m * ms_quanta fuel)%nat with (n + ms_quanta fuel + m * ms_quanta fuel)%nat by lia.
      split_and!; [done|lia|]. intros. apply Ho. lia.
Qed.
End line.

(** ** Interprocessor interrupts *)
Definition ids (s : sys) : list Z := map c_id (cores (hw s)).

Lemma ipi_put k c dest low s :
  NoDup (ids s) -> cores (hw s) !! k = Some c -> c_id c = dest -> ipi dest low s = put_core k (take_ipi low c) s.
Proof.
  intros Hn E Hd. unfold ipi, put_core, on_hw. do 2 f_equal. apply list_eq. intros j.
  change (map (fun c => _) (cores (hw s))) with ((fun c => if c_id c =? dest then take_ipi low c else c) <$> cores (hw s)).
  rewrite list_lookup_fmap.
  destruct (decide (j = k)) as [->|Hj].
  - rewrite list_lookup_insert_eq by (by eapply lookup_lt_Some). rewrite E. cbn. by rewrite Hd, Z.eqb_refl.
  - rewrite list_lookup_insert_ne by done. destruct (cores (hw s) !! j) as [c'|] eqn:E'; [|done]. cbn.
    destruct (Z.eqb_spec (c_id c') dest) as [Hd'|]; [|done]. destruct Hj.
    apply (NoDup_lookup (ids s) j k dest Hn); unfold ids.
    + change (map c_id) with (fmap (M := list) c_id). by rewrite list_lookup_fmap, E', <- Hd'.
    + change (map c_id) with (fmap (M := list) c_id). by rewrite list_lookup_fmap, E, <- Hd.
Qed.

(** The state of the command registers after a command to [dest]. *)
Definition sent (dest : Z) (s : sys) : sys :=
  if x2 then s else on_hw (set_icr (Z.shiftl dest 24) 0) s.

Lemma icr_read fuel s : LAPIC_PHYS_BASE s = lapic -> (icr_busy (hw s) < fuel)%nat ->
  icr_loop hhdm fuel s = (Ok tt, on_hw (fun b => set_icr (icr_high b) 0 b) s).
Proof.
  intros Hl. revert s Hl. induction fuel as [|f IH]; intros s Hl Hf; [lia|]. cbn [icr_loop]. unfold act_bind, apic_mmio_read.
  rewrite Hl. fold (reg_addr reg.ICR_LOW). cbn [reg_load board_cpu]. rewrite reg_addr_inj by done.
  cbn [Z.eqb reg.ICR_LOW reg.ID Pos.eqb]. rewrite Z.eqb_refl.
  destruct (Nat.eqb_spec (icr_busy (hw s)) 0) as [E|E].
  - cbn. unfold done, on_hw. by rewrite E.
  - change (Z.land (Z.shiftl 1 12) (Z.shiftl 1 12) =? 0) with false. cbn iota. rewrite IH; [done..|cbn; lia].
Qed.

Lemma mmio_write_at off v s : LAPIC_PHYS_BASE s = lapic ->
  apic_mmio_write hhdm off v s = (tt, reg_store (reg_addr off) v s).
Proof. intros Hl. unfold apic_mmio_write, reg_addr. by rewrite Hl. Qed.

Lemma send_icr_spec fuel dest low s :
  LAPIC_PHYS_BASE s = lapic -> USE_X2APIC s = x2 -> icr_busy (hw s) = 0%nat -> (sends < fuel)%nat ->
  fits 32 low -> fits (if x2 then 32 else 8) dest ->
  send_icr hhdm fuel dest low s = (Ok tt, sent dest (ipi dest low s)).
Proof.
  intros Hl Hx Hb Hf Hlow Hd. unfold send_icr, sent, wait_icr_idle. rewrite Hx. destruct x2 eqn:Ex.
  - cbn [wrmsr board_cpu]. change (IA32_X2APIC_ICR =? IA32_APIC_BASE_MSR) with false.
    change (IA32_X2APIC_ICR =? IA32_X2APIC_SIVR) with false. rewrite Z.eqb_refl. cbn iota.
    assert (shr (Z.lor (Z.shiftl dest 32) low) 32 = dest /\ Z.land (Z.lor (Z.shiftl dest 32) low) 0xFFFFFFFF = low) as [-> ->].
    { rewrite Z.lor_comm, lor_pack by done. unfold fits in Hlow. unfold shr. rewrite Z.shiftr_div_pow2 by done.
      change 0xFFFFFFFF with (Z.ones 32). rewrite land_mask by done. split.
      - rewrite Z.div_add, Z.div_small by lia. lia.
      - rewrite Z.mod_add, Z.mod_small by lia. done. }
    done.
  - unfold fits in Hd. unfold act_try, act_bind. rewrite Hx, icr_read by (done || lia). cbn iota.
    rewrite mmio_write_at by done. cbn [reg_store board_cpu]. rewrite Z.eqb_refl. rewrite mmio_write_at by done.
    cbn [reg_store board_cpu]. rewrite reg_addr_inj by done. cbn [Z.eqb reg.ICR_LOW reg.ICR_HIGH Pos.eqb]. rewrite Z.eqb_refl.
    change 0xFF with (Z.ones 8). rewrite land_mask, Z.mod_small by done.
    assert (u32 (Z.shiftl dest 24) = Z.shiftl dest 24) as ->
      by (apply Z.mod_small; rewrite Z.shiftl_mul_pow2 by done; lia).
    set (s1 := on_hw _ (on_hw _ s)).
    change (USE_X2APIC _) with (USE_X2APIC s). rewrite Hx.
    rewrite icr_read by (done || (cbn; lia)). f_equal.
    assert (shr (icr_high (hw s1)) 24 = dest) as ->; [|done].
    cbn. unfold shr. rewrite Z.shiftr_shiftl_l by done. by rewrite Z.shiftl_0_r.
Qed.

(** ** The run of one processor, from the startup interrupt on *)
Section run.
Context (k : nat) (c : core) (f : nat) (t : PerCpu).

Definition run_state (n : nat) (s : sys) : sys :=
  let p := trampoline (sys_ram s) in
  if (n <=? f)%nat then put_core k (set_phase (Launching (f - n)) c) s
  else if (n <=? f + 1 + c_boot c)%nat then put_core k (set_phase (Booting p (c_boot c - (n - f - 1))) c) s
  else entered k p t c s.

(** What the base state of a run needs. *)
Record run_ok (s : sys) : Prop := {
  run_core : (k < length (cores (hw s)))%nat;
  run_quiet : quiet_but k s;
  run_lapic : USE_X2APIC s = x2 /\ LAPIC_PHYS_BASE s = lapic;
  run_entry : p_entry (trampoline (sys_ram s)) = entry;
  run_gdt : AP_GDTS s !! Z.to_nat (p_index (trampoline (sys_ram s))) = Some t
}.

Lemma put_quiet c' s : quiet_but k s -> quiet_but k (put_core k c' s).
Proof. intros H j cj. cbn. intros E Hj. rewrite list_lookup_insert_ne in E by done. by apply (H j). Qed.

Lemma run_state_quiet n s : quiet_but k s -> quiet_but k (run_state n s).
Proof. intros H. unfold run_state. destruct (_ <=? _)%nat; [|destruct (_ <=? _)%nat]; exact (put_quiet _ _ H). Qed.

Lemma put_at c' s : (k < length (cores (hw s)))%nat -> cores (hw (put_core k c' s)) !! k = Some c'.
Proof. intros H. cbn. by apply list_lookup_insert_eq. Qed.

Lemma run_state_length n s : length (cores (hw (run_state n s))) = length (cores (hw s)).
Proof. unfold run_state. destruct (_ <=? _)%nat; [|destruct (_ <=? _)%nat]; cbn; apply length_insert. Qed.

Lemma step_put g ph s : (k < length (cores (hw s)))%nat ->
  on_core k g (put_core k (set_phase ph c) s) = put_core k (g (set_phase ph c)) s.
Proof. intros H. rewrite (on_core_put k _ (set_phase ph c)) by (by apply put_at). apply put_core_put. Qed.

Lemma run_step n s : run_ok s -> step_core k (run_state n s) = run_state (S n) s.
Proof.
  intros [Hk Hq [Hx Hl] He Ht]. unfold run_state at 2.
  destruct (Nat.leb_spec (S n) f) as [H1|H1]; [|destruct (Nat.leb_spec (S n) (f + 1 + c_boot c)) as [H2|H2]].
  - unfold run_state. rewrite (proj2 (Nat.leb_le _ _)) by lia. unfold step_core. rewrite put_at by done.
    cbn [fmap option_fmap option_map c_phase set_phase]. replace (f - n)%nat with (S (f - S n)) by lia. by rewrite step_put.
  - unfold run_state. destruct (Nat.leb_spec n f) as [H3|H3].
    + unfold step_core. rewrite put_at by done. cbn [fmap option_fmap option_map c_phase set_phase].
      replace (f - n)%nat with 0%nat by lia. rewrite step_put by done. cbn [c_boot set_phase].
      by replace (c_boot c - (S n - f - 1))%nat with (c_boot c) by lia.
    + rewrite (proj2 (Nat.leb_le n _)) by lia. unfold step_core. rewrite put_at by done.
      cbn [fmap option_fmap option_map c_phase set_phase].
      replace (c_boot c - (n - f - 1))%nat with (S (c_boot c - (S n - f - 1))) by lia. by rewrite step_put.
  - unfold run_state. rewrite (proj2 (Nat.leb_gt n f)) by lia.
    destruct (Nat.leb_spec n (f + 1 + c_boot c)) as [H3|H3].
    + unfold step_core. rewrite put_at by done. cbn [fmap option_fmap option_map c_phase set_phase].
      replace (c_boot c - (n - f - 1))%nat with 0%nat by lia.
      rewrite (enter_kernel_spec k _ t (set_phase (Booting (trampoline (sys_ram s)) 0) c)) by (done || by apply put_at).
      unfold entered. by rewrite put_core_put.
    + apply step_quiet. intros c' E. unfold entered in E. cbn [hw set_online set_gdts] in E. rewrite put_at in E by done. by injection E as <-.
Qed.

Definition run_line (s : sys) (n a : nat) (b : option Z) : sys := on_hw (set_pit a b) (run_state n s).

Lemma run_timeline s : run_ok s -> timeline (run_line s).
Proof.
  intros H. split; [done..|]. intros n a b. unfold run_line.
  assert (forall n, on_hw (set_pit a b) (run_state n s) = run_state n (on_hw (set_pit a b) s)) as E.
  { intros n0. unfold run_state. destruct (_ <=? _)%nat; [|destruct (_ <=? _)%nat]; reflexivity. }
  rewrite !E. assert (run_ok (on_hw (set_pit a b) s)) as H' by (by destruct H).
  rewrite <- run_step by done. apply tick_one.
  - by apply run_state_quiet, H'.
  - rewrite run_step by done. by apply run_state_quiet, H'.
  - rewrite run_state_length. by destruct H'.
Qed.

(** The processor is in its idle loop after [f + boot + 2] quanta. *)
Definition online_at : nat := f + c_boot c + 2.
Lemma run_done n s : (online_at <= n)%nat -> run_state n s = entered k (trampoline (sys_ram s)) t c s.
Proof. unfold online_at. intros. unfold run_state. rewrite !(proj2 (Nat.leb_gt _ _)) by lia. done. Qed.
Lemma run_online i n s : (n < online_at)%nat -> online i (run_state n s) = online i s.
Proof. unfold online_at. intros. unfold run_state. destruct (Nat.leb_spec n f); [done|]. rewrite (proj2 (Nat.leb_le _ _)) by lia. done. Qed.
End run.

Lemma quiet_timeline s : (forall j c, cores (hw s) !! j = Some c -> quiet (c_phase c) = true) ->
  timeline (fun _ a b => on_hw (set_pit a b) s).
Proof. intros H. split; [done..|]. intros _ a b. by apply tick_quiet. Qed.

(** ** One processor is started *)
Lemma ids_put k c c' s : cores (hw s) !! k = Some c -> c_id c' = c_id c -> ids (put_core k c' s) = ids s.
Proof.
  intros E Hi. unfold ids. cbn. change (map c_id) with (fmap (M := list) c_id).
  rewrite list_fmap_insert, Hi. apply list_insert_id. by rewrite list_lookup_fmap, E.
Qed.

(** The boot processor between two starts. *)
Record steady (s : sys) : Prop := {
  steady_lapic : LAPIC_PHYS_BASE s = lapic;
  steady_mode : USE_X2APIC s = x2;
  steady_icr : icr_busy (hw s) = 0%nat;
  steady_ids : NoDup (ids s)
}.
Definition all_quiet (s : sys) : Prop := forall j c, cores (hw s) !! j = Some c -> quiet (c_phase c) = true.

Definition id_ok (dest : Z) : Prop := fits (if x2 then 32 else 8) dest.
(** The processor answers, within 100 ms of the startup interrupt it heeds, or never does. *)
Definition answers (c : core) : bool := match c_fetch c with Some _ => true | None => false end.
Definition prompt (c : core) : Prop :=
  (c_misses c <= 1)%nat /\ forall f, c_fetch c = Some f -> ((f + c_boot c + 2) * quantum <= 100 * 1193)%nat.

Section start.
Context (fuel : nat) (Hq : (0 < quantum)%nat) (Hfuel : (1193 < fuel)%nat) (Hsends : (sends < fuel)%nat).

Lemma in_time f c : prompt c -> c_fetch c = Some f -> (online_at c f <= 100 * ms_quanta fuel)%nat.
Proof.
  intros [_ H] Ef. specialize (H f Ef). unfold online_at, ms_quanta.
  pose proof (reads_enough fuel 1193 Hq Hfuel). nia.
Qed.

Lemma startup_sent k c s : steady s -> cores (hw s) !! k = Some c -> id_ok (c_id c) ->
  send_startup hhdm fuel (c_id c) 8 s = (Ok tt, sent (c_id c) (put_core k (take_ipi 0x4608 c) s)).
Proof.
  intros [Hl Hx Hb Hn] E Hd. unfold send_startup. change (Z.lor STARTUP_ASSERT 8) with 0x4608.
  rewrite send_icr_spec by done. by rewrite (ipi_put k c).
Qed.

Lemma sent_put dest k c s : sent dest (put_core k c s) = put_core k c (sent dest s).
Proof. unfold sent. by destruct x2. Qed.

(** A processor that has left the wait is not disturbed by another startup interrupt. *)
Lemma startup_again k c0 c f t n s :
  run_ok k t s -> steady s -> cores (hw s) !! k = Some c0 -> c_id c0 = c_id c -> sent (c_id c) s = s -> id_ok (c_id c) ->
  send_startup hhdm fuel (c_id c) 8 (run_line k c f t s n 0 None) = (Ok tt, run_line k c f t s n 0 None).
Proof.
  intros Hr [Hl Hx Hb Hn] E Hi Hs Hd. set (r := run_line k c f t s n 0 None).
  assert (sent (c_id c) r = r) as Es.
  { transitivity (run_line k c f t (sent (c_id c) s) n 0 None); [|by rewrite Hs]. unfold r, sent. destruct x2; [done|].
    unfold run_line, run_state. destruct (_ <=? _)%nat; [|destruct (_ <=? _)%nat]; reflexivity. }
  assert (exists c', cores (hw r) !! k = Some c' /\ c_id c' = c_id c /\ take_ipi 0x4608 c' = c' /\ ids r = ids s /\
    LAPIC_PHYS_BASE r = LAPIC_PHYS_BASE s /\ USE_X2APIC r = USE_X2APIC s /\ icr_busy (hw r) = icr_busy (hw s))
    as (c' & Ec & Ei & Et & Eids & El & Ex & Eb).
  { pose proof (lookup_lt_Some _ _ _ E) as Hk.
    assert (forall c1, c_id c1 = c_id c -> ids (put_core k c1 s) = ids s) as Hids
      by (intros c1 H1; apply (ids_put k c0); [done|congruence]).
    unfold r, run_line, run_state. destruct (_ <=? _)%nat; [|destruct (_ <=? _)%nat];
      (eexists; split_and!; [by apply put_at|done|done|by apply Hids|done|done|done]). }
  unfold send_startup. change (Z.lor STARTUP_ASSERT 8) with 0x4608.
  rewrite send_icr_spec by (try congruence; done). rewrite (ipi_put k c') by (try congruence; done).
  rewrite Et, put_core_id by done. by rewrite Es.
Qed.

Lemma pit_eta (s : sys) : s = on_hw (set_pit (pit (hw s)) (pit_low (hw s))) s.
Proof. by destruct s as [? ? ? ? ? ? []]. Qed.

(** With nothing under way a delay is only a delay. *)
Lemma quiet_delay ms s : all_quiet s -> pit_delay_ms fuel (S ms) s = (Ok tt, on_hw (set_pit 0 None) s).
Proof.
  intros H. rewrite (pit_eta s) at 1.
  exact (delay_ms_line _ (quiet_timeline s H) Hq fuel ms 0 (pit (hw s)) (pit_low (hw s)) Hfuel).
Qed.
Lemma quiet_wait i ms s : all_quiet s -> pit (hw s) = 0%nat -> pit_low (hw s) = None -> online i s = false ->
  wait_online fuel i ms s = (Ok false, s).
Proof.
  intros H H1 H2 Ho. induction ms as [|ms IH]; [done|]. cbn [wait_online]. rewrite Ho. unfold act_try, act_bind.
  rewrite quiet_delay by done. assert (on_hw (set_pit 0 None) s = s) as -> by (rewrite <- H1, <- H2; symmetry; apply pit_eta).
  exact IH.
Qed.

Lemma startup_phase c : take_ipi 0x4608 c =
  match c_phase c with
  | WaitSipi (S n) => set_phase (WaitSipi n) c
  | WaitSipi O => match c_fetch c with Some f => set_phase (Launching f) c | None => c end
  | _ => c
  end.
Proof. done. Qed.

(** A processor under way is up when the long wait ends. *)
Lemma run_wait k c f t i n s :
  run_ok k t s -> prompt c -> c_fetch c = Some f -> online i s = false ->
  exists r, wait_online fuel i 100 (run_line k c f t s n 0 None) =
    (Ok r, on_hw (set_pit 0 None) (entered k (trampoline (sys_ram s)) t c s)).
Proof.
  intros Hr Hp Ef Ho. pose proof (in_time f c Hp Ef) as Ht.
  destruct (wait_online_line _ (run_timeline k c f t s Hr) Hq fuel i 100 n Hfuel) as (r & m & E & Hm & Hon).
  exists r. rewrite E. unfold run_line. rewrite run_done; [done|].
  destruct (decide (m = 100%nat)) as [->|Hne]; [lia|]. specialize (Hon ltac:(lia)).
  destruct (Nat.le_gt_cases (online_at c f) (n + m * ms_quanta fuel)) as [|Hlt]; [done|].
  unfold run_line in Hon. change (online i (on_hw (set_pit 0 None) ?x)) with (online i x) in Hon.
  rewrite run_online, Ho in Hon; done.
Qed.

Lemma entered_online k t c i s :
  Z.to_nat (p_index (trampoline (sys_ram s))) = i -> (i < length (AP_ONLINE s))%nat ->
  online i (on_hw (set_pit 0 None) (entered k (trampoline (sys_ram s)) t c s)) = true.
Proof. intros Hi Hl. unfold online, entered. cbv zeta. rewrite Hi. cbn [AP_ONLINE on_hw set_hw set_online set_gdts put_core]. rewrite nth_lookup, list_lookup_insert_eq by done. done. Qed.

(** [start_one_ap] from the settling delay on. *)
Definition startup_sequence (i : nat) (dest : Z) : act sys (Result bool stop) :=
  let*? _ := pit_delay_ms fuel 10 in
  let*? _ := send_startup hhdm fuel dest 8 in
  let*? up := wait_online fuel i 1 in
  let*? _ := (if up then done (Ok true)
              else let*? _ := send_startup hhdm fuel dest 8 in wait_online fuel i 100) in
  fun s => (Ok (online i s), s).

Record awaiting (k i : nat) (c : core) (t : PerCpu) (s : sys) : Prop := {
  aw_steady : steady s;
  aw_quiet : all_quiet s;
  aw_core : cores (hw s) !! k = Some c;
  aw_phase : c_phase c = WaitSipi (c_misses c);
  aw_id : id_ok (c_id c) /\ sent (c_id c) s = s;
  aw_prompt : prompt c;
  aw_params : p_entry (trampoline (sys_ram s)) = entry /\ Z.to_nat (p_index (trampoline (sys_ram s))) = i;
  aw_gdt : AP_GDTS s !! i = Some t;
  aw_flag : online i s = false /\ (i < length (AP_ONLINE s))%nat
}.

(** A processor put to a quiet phase leaves the board quiet and the interrupt unit as it was. *)
Lemma put_all_quiet k c ph s : all_quiet s -> cores (hw s) !! k = Some c -> quiet ph = true -> all_quiet (put_core k (set_phase ph c) s).
Proof.
  intros Hqu E Hp j cj Ej. cbn in Ej. destruct (decide (j = k)) as [->|Hj].
  - rewrite list_lookup_insert_eq in Ej by (by eapply lookup_lt_Some). by injection Ej as <-.
  - rewrite list_lookup_insert_ne in Ej by done. by apply (Hqu j).
Qed.
Lemma put_steady k c c' s : steady s -> cores (hw s) !! k = Some c -> sent (c_id c) s = s -> c_id c' = c_id c ->
  steady (put_core k c' s) /\ sent (c_id c) (put_core k c' s) = put_core k c' s.
Proof.
  intros Hst E Hse Hc. split; [|by rewrite sent_put, Hse]. destruct Hst. split; try done. by rewrite (ids_put k c).
Qed.

(** The single look of the first wait is taken before the processor can have answered. *)
Lemma first_poll_misses k c f t i s : run_ok k t s -> online i s = false ->
  wait_online fuel i 1 (run_line k c f t s 0 0 None) = (Ok false, run_line k c f t s (1 * ms_quanta fuel) 0 None).
Proof.
  intros Hrun Hof. cbn [wait_online]. unfold run_line at 1. change (online i (on_hw (set_pit 0 None) ?x)) with (online i x).
  rewrite run_online by (unfold online_at; lia). rewrite Hof.
  unfold act_try, act_bind. by rewrite (delay_ms_line _ (run_timeline k c f t s Hrun) Hq fuel 0) by done.
Qed.

(** Whatever the processor does, the sequence reports it: up with its tables and its
    flag, or still waiting and left behind. *)
Lemma startup_sequence_spec k i c t s : awaiting k i c t s ->
  startup_sequence i (c_id c) s = (Ok (answers c), on_hw (set_pit 0 None)
    (if answers c then entered k (trampoline (sys_ram s)) t c s else put_core k (set_phase (WaitSipi 0) c) s)).
Proof.
  intros [Hst Hqu E Hph [Hid Hse] Hpr [Hen Hix] Hg [Hof Hlen]]. unfold startup_sequence, act_try, act_bind.
  rewrite quiet_delay by done. set (s1 := on_hw (set_pit 0 None) s).
  assert (steady s1) as Hst1 by (by destruct Hst).
  assert (sent (c_id c) s1 = s1) as Hse1.
  { transitivity (on_hw (set_pit 0 None) (sent (c_id c) s)); [|by rewrite Hse]. unfold s1, sent. by destruct x2. }
  rewrite (startup_sent k c s1) by done. rewrite sent_put, Hse1. rewrite startup_phase, Hph.
  assert (forall ph, quiet ph = true -> all_quiet (put_core k (set_phase ph c) s1)) as Hquiet by (intros; by apply put_all_quiet).
  assert (forall c', c_id c' = c_id c -> steady (put_core k c' s1) /\ sent (c_id c) (put_core k c' s1) = put_core k c' s1) as Hput
    by (intros; by apply put_steady).
  assert (forall ph, cores (hw (put_core k (set_phase ph c) s1)) !! k = Some (set_phase ph c)) as Hat
    by (intros; apply (put_core_lookup k c); done).
  assert (forall ph, quiet ph = true -> wait_online fuel i 1 (put_core k (set_phase ph c) s1) = (Ok false, put_core k (set_phase ph c) s1) /\
    wait_online fuel i 100 (put_core k (set_phase ph c) s1) = (Ok false, put_core k (set_phase ph c) s1)) as Hwait.
  { intros ph Hp. split; apply quiet_wait; (done || by apply Hquiet). }
  assert (c = set_phase (c_phase c) c) as Hc by (by destruct c).
  unfold answers. destruct Hpr as [Hm Hfast] eqn:Ep. clear Ep. destruct (c_fetch c) as [f|] eqn:Ef.
  - assert (run_ok k t s1) as Hrun.
    { split; [by eapply lookup_lt_Some| |by destruct Hst|done|by cbn [AP_GDTS sys_ram s1 on_hw set_hw]; rewrite Hix].
      intros j cj Ej _. by apply (Hqu j). }
    assert (put_core k (set_phase (Launching f) c) s1 = run_line k c f t s1 0 0 None) as Elaunch.
    { unfold run_line, run_state. cbn [Nat.leb]. by rewrite Nat.sub_0_r. }
    assert (forall n, exists r, wait_online fuel i 100 (run_line k c f t s1 n 0 None) =
      (Ok r, on_hw (set_pit 0 None) (entered k (trampoline (sys_ram s)) t c s))) as Hfin
      by (intros n; apply (run_wait k c f t i n s1); done).
    destruct (c_misses c) as [|[|]] eqn:Em; [| |lia].
    + rewrite Elaunch.
      rewrite (first_poll_misses k c f t i s1) by done. cbn iota. unfold act_try, act_bind. rewrite (startup_again k c c f t _ s1) by done.
      destruct (Hfin (1 * ms_quanta fuel)%nat) as [r ->]. by rewrite entered_online.
    + rewrite (proj1 (Hwait (WaitSipi 0) eq_refl)). cbn iota. unfold act_try, act_bind.
      destruct (Hput (set_phase (WaitSipi 0) c) eq_refl) as [Hst2 Hse2].
      rewrite (startup_sent k (set_phase (WaitSipi 0) c)) by done. rewrite startup_phase. cbn [c_phase c_fetch set_phase]. rewrite Ef.
      change (c_id (set_phase (WaitSipi 0) c)) with (c_id c). rewrite put_core_put. rewrite sent_put, Hse1.
      change (set_phase (Launching f) (set_phase (WaitSipi 0) c)) with (set_phase (Launching f) c). rewrite Elaunch.
      destruct (Hfin 0%nat) as [r ->]. by rewrite entered_online.
  - assert (take_ipi 0x4608 (set_phase (WaitSipi 0) c) = set_phase (WaitSipi 0) c) as Hdeaf
      by (rewrite startup_phase; cbn [c_phase c_fetch set_phase]; by rewrite Ef).
    assert ((match c_misses c with O => c | S n => set_phase (WaitSipi n) c end) = set_phase (WaitSipi 0) c) as ->.
    { destruct (c_misses c) as [|[|]] eqn:Em; [by rewrite Hc, Hph at 1|done|lia]. }
    rewrite (proj1 (Hwait (WaitSipi 0) eq_refl)). cbn iota. unfold act_try, act_bind.
    destruct (Hput (set_phase (WaitSipi 0) c) eq_refl) as [Hst2 Hse2].
    rewrite (startup_sent k (set_phase (WaitSipi 0) c)) by done. rewrite Hdeaf.
    change (c_id (set_phase (WaitSipi 0) c)) with (c_id c). rewrite put_core_put, sent_put, Hse1.
    rewrite (proj2 (Hwait (WaitSipi 0) eq_refl)). change (online i (put_core k _ s1)) with (online i s). by rewrite Hof.
Qed.

(** The parameter block as [start_one_ap] leaves it. *)
Definition block_params (target_cr3 stack : Z) (i : nat) : params :=
  mkParams (u32 (Z.land target_cr3 (not64 0xFFF))) (Z.land (add64 stack AP_STACK_SIZE) (not64 0xF)) entry (Z.of_nat i).

Lemma param_at off : 0 <= hhdm -> hhdm + 0x10000 <= 2 ^ 64 -> 0 <= off < 0x1000 ->
  phys_to_virt hhdm (TRAMPOLINE_PHYS + off) = hhdm + 0x8000 + off.
Proof. intros. unfold phys_to_virt, TRAMPOLINE_PHYS, add64. rewrite u64_small; [lia|unfold fits; lia]. Qed.

Lemma read_u32_low m a v : read_n 8 m a = to_le 8 v -> read_u32 m a = u32 v.
Proof.
  intros E. unfold read_u32. assert (read_n 4 m a = take 4 (read_n 8 m a)) as -> by done.
  rewrite E, le_bytes_take, le_bytes_to_le by apply to_le_bytes_ok. change (8 * Z.of_nat 4) with 32. change (8 * Z.of_nat 8) with 64.
  unfold u32, wrap. apply Z.mod_mod_divide. by exists (2 ^ 32).
Qed.

Lemma trampoline_block target_cr3 stack_top i m :
  0 <= hhdm -> hhdm + 0x10000 <= 2 ^ 64 -> fits 64 entry -> fits 64 stack_top -> Z.of_nat i < 2 ^ 64 ->
  let at_ off := phys_to_virt hhdm (TRAMPOLINE_PHYS + off) in
  trampoline (write_u64 (write_u64 (write_u64 (write_u64 m (at_ PARAM_CR3) target_cr3) (at_ PARAM_STACK_TOP) stack_top)
    (at_ PARAM_ENTRY) entry) (at_ PARAM_CPU_INDEX) (Z.of_nat i)) =
  mkParams (u32 target_cr3) stack_top entry (Z.of_nat i).
Proof.
  intros Hh Hh' He Hs Hi at_. subst at_. unfold trampoline. cbv beta zeta. rewrite !param_at by done. unfold PARAM_CR3, PARAM_STACK_TOP, PARAM_ENTRY, PARAM_CPU_INDEX.
  f_equal.
  - apply read_u32_low. unfold write_u64. do 3 rewrite read_n_copy_to_other by (rewrite length_to_le; lia).
    exact (read_n_copy_to m _ (to_le 8 target_cr3)).
  - do 2 rewrite read_write_u64_other by lia. by apply read_write_u64.
  - rewrite read_write_u64_other by lia. by apply read_write_u64.
  - apply read_write_u64. unfold fits. lia.
Qed.

(** The outcome for processor [k], told to be number [i]. *)
Definition outcome_core (target_cr3 : Z) (n i : nat) (t : PerCpu) (c : core) : core :=
  if answers c then ready_core (block_params target_cr3 (stack_at n) i) t c else set_phase (WaitSipi 0) c.
Record started (target_cr3 : Z) (k i : nat) (c : core) (t : PerCpu) (s s' : sys) : Prop := {
  st_cores : cores (hw s') = <[k := outcome_core target_cr3 (allocs (hw s)) i t c]> (cores (hw s));
  st_online : AP_ONLINE s' = <[i := answers c]> (AP_ONLINE s);
  st_gdts : AP_GDTS s' = if answers c then <[i := (ap_tables (Z.of_nat i) t (c_segs c)).1]> (AP_GDTS s) else AP_GDTS s;
  st_rest : LAPIC_PHYS_BASE s' = LAPIC_PHYS_BASE s /\ USE_X2APIC s' = USE_X2APIC s /\ CPUS_ONLINE s' = CPUS_ONLINE s;
  st_hw : cur (hw s') = cur (hw s) /\ icr_busy (hw s') = 0%nat /\ allocs (hw s') = S (allocs (hw s))
}.

Context (Hh : 0 <= hhdm) (Hh' : hhdm + 0x10000 <= 2 ^ 64) (Hentry : fits 64 entry).

Lemma sent_eq dest s : sent dest s =
  on_hw (set_icr (if x2 then icr_high (hw s) else Z.shiftl dest 24) (if x2 then icr_busy (hw s) else 0)) s.
Proof. unfold sent. destruct x2; [|done]. by destruct s as [? ? ? ? ? ? []]. Qed.
Lemma sent_twice dest s : sent dest (sent dest s) = sent dest s.
Proof. unfold sent. by destruct x2. Qed.

Lemma take_init c : take_ipi INIT_ASSERT c = set_phase (WaitSipi (c_misses c)) c.
Proof. done. Qed.

Lemma start_one_ap_spec target_cr3 k i c t s :
  steady s -> all_quiet s -> cores (hw s) !! k = Some c -> id_ok (c_id c) -> prompt c ->
  (i < length (AP_ONLINE s))%nat -> Z.of_nat i < 2 ^ 64 -> AP_GDTS s !! i = Some t ->
  exists s', start_one_ap hhdm fuel entry (c_id c) i target_cr3 s = (Ok (answers c), s') /\ started target_cr3 k i c t s s'.
Proof.
  intros Hst Hqu E Hid Hp Hi Hi' Hg.
  set (stack := stack_at (allocs (hw s))). set (top := Z.land (add64 stack AP_STACK_SIZE) (not64 0xF)).
  set (root := Z.land target_cr3 (not64 0xFFF)).
  assert (fits 64 top) as Htop by (apply fits_land_l; [done|apply Z.mod_pos_bound; done]).
  pose proof (trampoline_block root top i (write_bytes (sys_ram s) stack 0 AP_STACK_SIZE) Hh Hh' Hentry Htop Hi') as Hblock.
  cbv zeta in Hblock. set (m := write_u64 _ (phys_to_virt hhdm (TRAMPOLINE_PHYS + PARAM_CPU_INDEX)) _) in Hblock.
  set (s1 := set_online i false (set_sys_ram m (on_hw (fun b => set_allocs (S (allocs b)) b) s))).
  set (c1 := set_phase (WaitSipi (c_misses c)) c).
  assert (start_one_ap hhdm fuel entry (c_id c) i target_cr3 s =
    (let*? _ := send_init hhdm fuel (c_id c) in startup_sequence i (c_id c)) s1) as -> by reflexivity.
  unfold send_init, act_try, act_bind. rewrite send_icr_spec by (by destruct Hst).
  rewrite (ipi_put k c) by (by destruct Hst). rewrite take_init. fold c1.
  set (s2 := sent (c_id c) (put_core k c1 s1)).
  assert (sys_ram s2 = m) as Em by (unfold s2; by rewrite sent_eq).
  change (startup_sequence i (c_id c)) with (startup_sequence i (c_id c1)).
  rewrite (startup_sequence_spec k i c1 t s2).
  - eexists. split; [reflexivity|]. rewrite Em, Hblock. unfold s2. rewrite sent_eq. change (answers c1) with (answers c).
    destruct Hst as [_ _ Hb _]. fold (block_params target_cr3 stack i).
    destruct (answers c) eqn:Ea; split; unfold outcome_core, entered, block_params; rewrite ?Ea;
      cbn -[ready_core ap_tables Z.to_nat]; rewrite ?Nat2Z.id, ?list_insert_insert_eq; try done; by destruct x2.
  - destruct Hst as [Hl Hx Hb Hn]. split; try done.
    + unfold s2. rewrite sent_eq. split; [done|done|cbn; by destruct x2|].
      change (NoDup (ids (put_core k c1 s))). by rewrite (ids_put k c).
    + unfold s2. rewrite sent_eq. intros j cj. cbn. destruct (decide (j = k)) as [->|Hj].
      * rewrite list_lookup_insert_eq by (by eapply lookup_lt_Some). by intros [= <-].
      * rewrite list_lookup_insert_ne by done. apply Hqu.
    + unfold s2. rewrite sent_eq. by apply (put_core_lookup k c).
    + split; [done|]. apply sent_twice.
    + rewrite Em, Hblock. split; [done|]. cbn [p_index]. apply Nat2Z.id.
    + unfold s2. by rewrite sent_eq.
    + unfold s2. rewrite sent_eq. unfold online. cbn -[nth]. rewrite nth_lookup, list_lookup_insert_eq by done.
      by rewrite length_insert.
Qed.

(** ** The list of processors *)

(** The processors of the MADT that are to be started, and whether one of the board answers to it. *)
Definition targets (bsp : Z) (cpus : list ProcessorLocalApic) : list ProcessorLocalApic :=
  List.filter (fun cpu => negb (apic_id cpu =? bsp) && enabled cpu) cpus.
Definition answering (cs : list core) (cpu : ProcessorLocalApic) : bool :=
  existsb (fun c => (c_id c =? apic_id cpu) && answers c) cs.
Definition present (s : sys) (cpu : ProcessorLocalApic) : Prop :=
  exists k c, cores (hw s) !! k = Some c /\ c_id c = apic_id cpu /\ id_ok (c_id c) /\ prompt c.

Lemma same_core s j k cj ck : NoDup (ids s) -> cores (hw s) !! j = Some cj -> cores (hw s) !! k = Some ck -> c_id cj = c_id ck -> j = k.
Proof.
  intros Hn Ej Ek Hid. apply (NoDup_lookup (ids s) j k (c_id ck) Hn); unfold ids; change (map c_id) with (fmap (M := list) c_id);
    rewrite list_lookup_fmap.
  - by rewrite Ej, <- Hid.
  - by rewrite Ek.
Qed.

Lemma answering_core s k c cpu : NoDup (ids s) -> cores (hw s) !! k = Some c -> c_id c = apic_id cpu ->
  answering (cores (hw s)) cpu = answers c.
Proof.
  intros Hn E Hid. unfold answering. apply eq_true_iff_eq. rewrite existsb_exists. split.
  - intros (c' & Hin & H'). apply andb_true_iff in H' as [H1 H2]. apply Z.eqb_eq in H1.
    apply list_elem_of_In, list_elem_of_lookup in Hin as [j Ej].
    assert (j = k) as -> by (apply (same_core s j k c' c); congruence). congruence.
  - intros Ha. exists c. rewrite Ha, Hid, Z.eqb_refl. split; [|done]. apply list_elem_of_In, list_elem_of_lookup. by exists k.
Qed.

Lemma answering_insert cs k c c' cpu : cs !! k = Some c -> c_id c' = c_id c -> answers c' = answers c ->
  answering (<[k := c']> cs) cpu = answering cs cpu.
Proof.
  intros E H1 H2. unfold answering.
  assert (forall l0, existsb (fun c => (c_id c =? apic_id cpu) && answers c) l0 =
    existsb (fun x => (x.1 =? apic_id cpu) && x.2) ((fun c => (c_id c, answers c)) <$> l0)) as Hmap
    by (induction l0 as [|x l0 IH]; [done|cbn; by rewrite IH]).
  rewrite !Hmap, list_fmap_insert, H1, H2, list_insert_id; [done|]. by rewrite list_lookup_fmap, E.
Qed.

(** The kernel before it starts processor number [i]. *)
Record boot_inv (i : nat) (s : sys) : Prop := {
  bi_steady : steady s;
  bi_quiet : all_quiet s;
  bi_online : length (AP_ONLINE s) = MAX_CPUS;
  bi_length : length (AP_GDTS s) = MAX_CPUS;
  bi_gdts : forall j, (i <= j < MAX_CPUS)%nat -> AP_GDTS s !! j = Some PerCpu_new
}.

Lemma outcome_traits r n i t c : c_id (outcome_core r n i t c) = c_id c /\ answers (outcome_core r n i t c) = answers c /\
  quiet (c_phase (outcome_core r n i t c)) = true.
Proof. unfold outcome_core, answers. destruct (c_fetch c) eqn:E; cbn; by rewrite E. Qed.

Lemma started_inv r k i c t s s' : started r k i c t s s' -> boot_inv i s -> cores (hw s) !! k = Some c -> boot_inv (S i) s'.
Proof.
  intros [Hc Ho Hg (Hl & Hx & _) (_ & Hb & _)] [[H1 H2 H3 H4] H5 H6 H8 H7] E.
  destruct (outcome_traits r (allocs (hw s)) i t c) as (Hid & _ & Hq0). split; [split; try congruence| | | |].
  - unfold ids in *. rewrite Hc. change (map c_id) with (fmap (M := list) c_id) in *. rewrite list_fmap_insert, Hid.
    rewrite list_insert_id; [done|]. by rewrite list_lookup_fmap, E.
  - intros j cj. rewrite Hc. destruct (decide (j = k)) as [->|Hj].
    + rewrite list_lookup_insert_eq by (by eapply lookup_lt_Some). by intros [= <-].
    + rewrite list_lookup_insert_ne by done. apply H5.
  - by rewrite Ho, length_insert.
  - rewrite Hg. by destruct (answers c); rewrite ?length_insert.
  - intros j Hj. rewrite Hg. destruct (answers c); [rewrite list_lookup_insert_ne by lia|]; apply H7; lia.
Qed.

(** What bringing up the processors [ts], numbered from [i], makes of the board. *)
Record brought_up (r : Z) (i : nat) (ts : list ProcessorLocalApic) (s s' : sys) : Prop := {
  bu_inv : boot_inv (i + length ts) s';
  bu_cpus : CPUS_ONLINE s' = CPUS_ONLINE s;
  bu_each : forall j cpu k c, ts !! j = Some cpu -> cores (hw s) !! k = Some c -> c_id c = apic_id cpu ->
    cores (hw s') !! k = Some (outcome_core r (allocs (hw s) + j) (i + j) PerCpu_new c) /\
    AP_ONLINE s' !! (i + j)%nat = Some (answers c) /\
    (answers c = true -> AP_GDTS s' !! (i + j)%nat = Some (ap_tables (Z.of_nat (i + j)) PerCpu_new (c_segs c)).1);
  bu_others : forall k c, cores (hw s) !! k = Some c -> c_id c ∉ map apic_id ts -> cores (hw s') !! k = Some c;
  bu_before : forall j, (j < i)%nat -> AP_ONLINE s' !! j = AP_ONLINE s !! j /\ AP_GDTS s' !! j = AP_GDTS s !! j
}.

Lemma brought_up_nil r i s : boot_inv i s -> brought_up r i [] s s.
Proof. intros H. split; try done. by rewrite Nat.add_0_r. Qed.

Lemma brought_up_cons r i cpu ts k c s s1 s' :
  boot_inv i s -> cores (hw s) !! k = Some c -> c_id c = apic_id cpu -> apic_id cpu ∉ map apic_id ts -> (i < MAX_CPUS)%nat ->
  started r k i c PerCpu_new s s1 -> brought_up r (S i) ts s1 s' -> brought_up r i (cpu :: ts) s s'.
Proof.
  intros Hinv E Hid Hnew Hi Hst [B1 B2 B3 B4 B5]. pose proof (bi_steady _ _ Hinv) as [_ _ _ Hn].
  destruct Hst as [Hc Ho Hg (_ & _ & Hcp) (_ & _ & Hal)].
  assert (forall j cj, cores (hw s) !! j = Some cj -> j <> k -> cores (hw s1) !! j = Some cj) as Hkeep
    by (intros; by rewrite Hc, list_lookup_insert_ne).
  split.
  - cbn [length]. by rewrite <- Nat.add_succ_comm.
  - congruence.
  - intros [|j] cpu' k' c' Hj Ek' Hid'.
    + injection Hj as <-. assert (k' = k) as -> by (apply (same_core s k' k c' c); congruence).
      rewrite E in Ek'. injection Ek' as <-. rewrite !Nat.add_0_r. destruct (B5 i ltac:(lia)) as [-> ->].
      destruct (outcome_traits r (allocs (hw s)) i PerCpu_new c) as (Hoid & _ & _). split_and!.
      * apply B4; [rewrite Hc; apply list_lookup_insert_eq; by eapply lookup_lt_Some|congruence].
      * rewrite Ho. apply list_lookup_insert_eq. by rewrite (bi_online _ _ Hinv).
      * intros Ha. rewrite Hg, Ha. apply list_lookup_insert_eq. by rewrite (bi_length _ _ Hinv).
    + cbn in Hj. rewrite <- !Nat.add_succ_comm. rewrite <- Hal. apply (B3 j cpu'); [done| |done].
      apply Hkeep; [done|]. intros ->. rewrite E in Ek'. injection Ek' as <-. apply Hnew. rewrite <- Hid, Hid'.
      change (map apic_id ts) with (apic_id <$> ts). apply list_elem_of_fmap_2. by eapply list_elem_of_lookup_2.
  - intros k' c' Ek' Hno. cbn in Hno. apply not_elem_of_cons in Hno as [Hno1 Hno2]. apply B4; [|done].
    apply Hkeep; [done|]. intros ->. congruence.
  - intros j Hj. destruct (B5 j ltac:(lia)) as [-> ->]. rewrite Ho, Hg. split; [by rewrite list_lookup_insert_ne by lia|].
    destruct (answers c); [by rewrite list_lookup_insert_ne by lia|done].
Qed.

Definition responding (cs : list core) (ts : list ProcessorLocalApic) : Z := Z.of_nat (length (List.filter (answering cs) ts)).

Lemma start_list_spec bsp r cpus : forall i n s,
  boot_inv i s -> NoDup (map apic_id (targets bsp cpus)) -> Forall (present s) (targets bsp cpus) ->
  (i + length (targets bsp cpus) <= MAX_CPUS)%nat ->
  exists s', start_list hhdm fuel entry bsp r cpus i n s = (Ok (n + responding (cores (hw s)) (targets bsp cpus)), s') /\
    brought_up r i (targets bsp cpus) s s'.
Proof.
  induction cpus as [|cpu cpus IH]; intros i n s Hinv Hnd Hpr Hlen.
  { exists s. cbn. rewrite Z.add_0_r. split; [done|by apply brought_up_nil]. }
  cbn [start_list]. unfold targets in *. cbn [List.filter] in *.
  destruct (apic_id cpu =? bsp) eqn:Eb; [by apply IH|]. destruct (enabled cpu) eqn:Ee; [|by apply IH].
  cbn [negb andb] in *. cbn [length map] in *. apply NoDup_cons in Hnd as [Hnew Hnd].
  apply Forall_cons in Hpr as [(k & c & E & Hid & Hok & Hp) Hpr].
  rewrite (proj2 (Nat.leb_gt _ _)) by lia. unfold act_try, act_bind.
  destruct (start_one_ap_spec r k i c PerCpu_new s) as (s1 & E1 & Hst); try done; try apply Hinv; try (unfold MAX_CPUS in *; lia).
  { rewrite (bi_online _ _ Hinv). lia. }
  rewrite <- Hid, E1. pose proof (started_inv r k i c PerCpu_new s s1 Hst Hinv E) as Hinv1.
  destruct (outcome_traits r (allocs (hw s)) i PerCpu_new c) as (Hoid & Hoa & _).
  destruct (IH (S i) (if answers c then n + 1 else n) s1) as (s' & E' & Hbu); try done; try lia.
  { apply Forall_forall. intros cpu' Hin. rewrite Forall_forall in Hpr. destruct (Hpr cpu' Hin) as (k' & c' & Ek & Hk1 & Hk2 & Hk3).
    exists k', c'. split_and!; try done. rewrite (st_cores _ _ _ _ _ _ _ Hst), list_lookup_insert_ne; [done|].
    intros ->. rewrite E in Ek. injection Ek as <-. apply Hnew. rewrite <- Hid, Hk1.
    change (map apic_id) with (fmap (M := list) apic_id). by apply list_elem_of_fmap_2. }
  exists s'. rewrite E'. split; [|apply (brought_up_cons r i cpu _ k c s s1); (done || lia)].
  do 2 f_equal. unfold responding. cbn [List.filter]. rewrite (answering_core s k c cpu) by (done || by apply Hinv).
  rewrite (List.filter_ext (answering (cores (hw s1))) (answering (cores (hw s)))).
  - destruct (answers c); cbn [length]; lia.
  - intros cpu'. rewrite (st_cores _ _ _ _ _ _ _ Hst). by apply (answering_insert _ k c).
Qed.

(** ** All of `start_aps` *)

(** The board and the kernel's statics when the boot processor gets there. *)
Record power_on (bsp : core) (s : sys) : Prop := {
  po_bsp : cores (hw s) !! 0%nat = Some bsp /\ cur (hw s) = 0%nat /\ id_ok (c_id bsp);
  po_quiet : all_quiet s;
  po_ids : NoDup (ids s);
  po_icr : icr_busy (hw s) = 0%nat;
  po_statics : length (AP_ONLINE s) = MAX_CPUS /\ AP_GDTS s = replicate MAX_CPUS PerCpu_new
}.

Lemma self_id bsp s : cores (hw s) !! 0%nat = Some bsp -> cur (hw s) = 0%nat -> id_ok (c_id bsp) ->
  USE_X2APIC s = x2 -> LAPIC_PHYS_BASE s = lapic -> apic_id_self hhdm s = (c_id bsp, s).
Proof.
  intros E Hc Hid Hx Hl. unfold apic_id_self. rewrite Hx. unfold id_ok in Hid.
  assert (current s = bsp) as Ecur by (unfold current; by rewrite Hc, E). destruct x2.
  - unfold act_bind. cbn [rdmsr board_cpu]. change (IA32_X2APIC_ID =? IA32_APIC_BASE_MSR) with false. rewrite Z.eqb_refl, Ecur.
    cbn iota. unfold done, u32, wrap. by rewrite Z.mod_small.
  - unfold act_bind, apic_mmio_read. rewrite Hl. fold (reg_addr reg.ID). cbn [reg_load board_cpu]. rewrite Z.eqb_refl, Ecur.
    unfold done, shr. rewrite Z.shiftr_shiftl_l by done. by rewrite Z.shiftl_0_r.
Qed.

(** No register of an I/O APIC lies where the local APIC's are. *)
Definition ioapic_apart (x : IoApicInfo) : Prop :=
  forall o, In o [reg.ID; reg.SPURIOUS; reg.ICR_LOW; reg.ICR_HIGH] ->
    phys_to_virt hhdm (add64 (io_address x) IOREGSEL) <> reg_addr o /\ phys_to_virt hhdm (add64 (io_address x) IOWIN) <> reg_addr o.

Lemma log_ioapics_keeps xs s : Forall ioapic_apart xs -> (log_ioapics hhdm xs s).2 = s.
Proof.
  induction 1 as [|x xs Hx _ IH]; [done|]. cbn [log_ioapics]. unfold ioapic_read_reg, act_bind, effect. cbn [reg_store reg_load board_cpu].
  destruct (Hx reg.ID), (Hx reg.SPURIOUS), (Hx reg.ICR_LOW), (Hx reg.ICR_HIGH); try (cbn; tauto).
  rewrite !(proj2 (Z.eqb_neq _ _)) by done. destruct (log_ioapics hhdm xs s) as [r s']. exact IH.
Qed.
Lemma init_from_madt_keeps data s : Forall ioapic_apart (take (ioapic_count data) (ioapics data)) -> (init_from_madt hhdm data s).2 = s.
Proof. intros H. unfold init_from_madt. destruct (_ =? _)%nat; [done|by apply log_ioapics_keeps]. Qed.

(** The steps before the list: the local APIC is found and enabled, the trampoline copied. *)
Lemma start_aps_unfold blob data bsp s :
  power_on bsp s -> found data = true -> local_apic_address data = lapic ->
  Forall ioapic_apart (take (ioapic_count data) (ioapics data)) ->
  exists s1, boot_inv 0 s1 /\ CPUS_ONLINE s1 = CPUS_ONLINE s /\ allocs (hw s1) = allocs (hw s) /\
    cores (hw s1) = <[0%nat := set_svr 0x1FF (set_apic_base (enabled_base bsp) bsp)]> (cores (hw s)) /\
    start_aps hhdm fuel blob entry data s =
      (let*? started := start_list hhdm fuel entry (c_id bsp) (cr3 (hw s)) (take (cpu_count data) (cpus data)) 0 0 in
       effect (fun s => set_cpus (add64 (CPUS_ONLINE s) started) s) >>> done (Ok tt)) s1.
Proof.
  intros [(Eb & Hcur & Hid) Hqu Hn Hicr (Hon & Hgd)] Hf Hl Hio.
  set (s0 := set_lapic lapic x2 s). set (bsp1 := set_svr 0x1FF (set_apic_base (enabled_base bsp) bsp)).
  set (s1 := set_sys_ram (copy_to (sys_ram s) (phys_to_virt hhdm TRAMPOLINE_PHYS) blob) (put_core 0 bsp1 s0)).
  exists s1. split_and!; try done.
  - split.
    + split; try done. change (NoDup (ids (put_core 0 bsp1 s))). by rewrite (ids_put 0 bsp).
    + intros j cj. cbn -[lookup insert]. destruct (decide (j = 0%nat)) as [->|Hj].
      * rewrite list_lookup_insert_eq by (by eapply lookup_lt_Some). intros [= <-]. exact (Hqu 0%nat bsp Eb).
      * rewrite list_lookup_insert_ne by done. apply Hqu.
    + done.
    + cbn. by rewrite Hgd, length_replicate.
    + intros j Hj. cbn -[lookup replicate]. rewrite Hgd. apply lookup_replicate_2. lia.
  - unfold start_aps. rewrite Hf, Hl. cbn [negb]. unfold act_bind at 1. unfold apic_set_base, act_bind at 1, effect. cbn [cpuid_ecx1 board_cpu].
    assert (set_lapic (LAPIC_PHYS_BASE (set_lapic lapic (USE_X2APIC s) s))
      (negb (Z.land (if x2 then Z.shiftl 1 21 else 0) (Z.shiftl 1 21) =? 0)) (set_lapic lapic (USE_X2APIC s) s) = s0) as ->
      by (unfold s0; by destruct x2).
    unfold act_bind at 1. rewrite (init_this_core_spec 0 bsp) by done. fold bsp1.
    unfold act_bind at 1. rewrite (surjective_pairing (init_from_madt _ _ _)), init_from_madt_keeps by done.
    unfold act_bind at 1. rewrite (self_id bsp1) by (try done; by apply (put_core_lookup 0 bsp)). reflexivity.
Qed.

Lemma ap_tables_ready i segs : layout_ok l -> (i < MAX_CPUS)%nat ->
  let j := Z.of_nat i in
  tables_ready (gdt_ptr l j + gdt_offset l) (gdt_ptr l j + tss_offset l) (stack_ptr l j + AP_DF_STACK_SIZE)
    (ap_tables j PerCpu_new segs).1 (ap_tables j PerCpu_new segs).2.
Proof.
  intros (H1 & H2 & H3 & H4 & H5 & H6 & H7 & H8) Hi j.
  pose proof (load_tables_ready (gdt_ptr l j + gdt_offset l) (gdt_ptr l j + tss_offset l) (stack_ptr l j) AP_DF_STACK_SIZE segs) as H.
  unfold ap_tables. destruct (load_tables _ _ _ _ _ _) as [t' segs']. apply H; unfold fits, stack_ptr, gdt_ptr, AP_DF_STACK_SIZE, TSS_SIZE, GDT_SIZE, MAX_CPUS in *; nia.
Qed.

(** Application processor number [i] runs: it came through the trampoline with its own
    stack and number, its descriptor tables, the interrupt table and its local APIC are
    set up, and its flag is set. *)
Record running (i : nat) (k : nat) (stack : Z) (s s' : sys) : Prop := {
  rn_flag : AP_ONLINE s' !! i = Some true;
  rn_core : exists c' t', cores (hw s') !! k = Some c' /\ AP_GDTS s' !! i = Some t' /\
    c_phase c' = Up (block_params (cr3 (hw s)) stack i) /\ c_svr c' = 0x1FF /\ c_idtr c' = idt_pointer idt_addr /\
    tables_ready (gdt_ptr l (Z.of_nat i) + gdt_offset l) (gdt_ptr l (Z.of_nat i) + tss_offset l)
      (stack_ptr l (Z.of_nat i) + AP_DF_STACK_SIZE) t' (c_segs c')
}.

End start.
End board.

(** A board with one processor that misses the first startup interrupt and one that
    never answers. *)
Definition demo_core (id : Z) (misses : nat) (fetch : option nat) : core :=
  mkCore id Running 0xFEE00000 0 demo_segments (0, 0) misses fetch 2.
Definition demo_sys (cs : list core) : sys :=
  System 0 false (replicate MAX_CPUS false) 1 (replicate MAX_CPUS PerCpu_new) (fun _ => 0)
    (mkBoard cs 0 0 None 0 0 0x1000 0).
Definition demo_cpu (id : Z) : ProcessorLocalApic :=
  {| acpi_processor_id := id; apic_id := id; enabled := true; online_capable := false |}.
Definition demo_madt : MadtData :=
  {| found := true; local_apic_address := 0xFEE00000; legacy_pic_present := true;
     cpus := map demo_cpu [0; 1; 2]; cpu_count := 3; ioapics := [{| io_id := 0; io_address := 0xFEC00000; gsi_base := 0 |}]; ioapic_count := 1; isos := []; iso_count := 0 |}.
Definition demo_start (cs : list core) : Result unit stop * sys :=
  @start_aps board (board_cpu 0 0xFEE00000 false 2 (fun n => 0x100000 + 0x4000 * Z.of_nat n))
    (board_ports 0 0xFEE00000 false 2 1193 (fun n => 0x100000 + 0x4000 * Z.of_nat n) demo_layout 0x7000 0x9000)
    0 2000 [] 0x9000 demo_madt (demo_sys cs).


(** A processor slower than the kernel waits takes the parameter block of the next one:
    the first of two answers after 310 polls, when the kernel has given it up and has
    written the block of the second; it runs as number 1 on the stack meant for the
    second, and the kernel takes its flag for the second's, which is still to read the
    same block. *)
Lemma late_processor_takes_next_block :
  let s' := (demo_start [demo_core 0 0 None; demo_core 1 0 (Some 310%nat); demo_core 2 0 (Some 5%nat)]).2 in
  map c_phase (cores (hw s')) = [Running; Up (mkParams 0x1000 (0x104000 + AP_STACK_SIZE) 0x9000 1); Launching 5] /\
  AP_ONLINE s' !! 1%nat = Some true /\ trampoline 0 (sys_ram s') = mkParams 0x1000 (0x104000 + AP_STACK_SIZE) 0x9000 1.
Proof. vm_compute. done. Qed.
