(* ===== verification/Main.v ===== *)
(** The boot code (src/src/main.rs) and the start of the AHCI controllers it calls
    (src/src/pci.rs): the stages of `kmain_common` that do more than call one initialiser,
    in the order of the code.  A stage changes the state of the devices it drives and
    writes lines to the serial console. *)
From S2P Require Import Prelude Ports Pmm Vmm Uart Block Fat32 Ata Vfs Boot Graphics Task Pci Ahci Shell.
#[local] Open Scope kernel_scope.

(** ** The console *)

(** `writeln!(uart, ..)`: the bytes of the formatted line go through `write_str`. *)
Definition log_line (bs : list Z) (console : list Z) : list Z := Uart.write_str (bs ++ [10]) console.

Section staged.
Context {D : Type}.

Definition writeln (bs : list Z) : io (list Z * D) unit := fun s => (Val tt, (log_line bs s.1, s.2)).

(** An operation of the device whose `Err` is matched on; a panic ends the boot. *)
Definition matched {A} (c : io D A) : io (list Z * D) (Result A string) := fun s =>
  match c s.2 with
  | (Val a, d) => (Val (Ok a), (s.1, d))
  | (Fail e, d) => (Val (Err e), (s.1, d))
  | (Panicked, d) => (Panicked, (s.1, d))
  | (NoFuel, d) => (NoFuel, (s.1, d))
  end.
End staged.

(** ** The first lines of the log (x86_64)

    [q] is what the boot loader wrote into the Limine requests. *)
Definition log_protocol (q : Limine.requests) (info : Info.state) (console : list Z) : list Z :=
  let console := log_line (bytes_of "[boot] 0: kmain reached, uart live") console in
  let console := log_line (bytes_of (if Limine.detected q then "mitosOS: booted via Limine"
                                     else "mitosOS: WARN no supported boot protocol detected")) console in
  let console := if Limine.base_revision_supported q then console
                 else log_line (bytes_of "mitosOS: WARN Limine did not grant the exact requested base revision") console in
  match Info.memmap_summary info with
  | Some (entries, usable_bytes) =>
      log_line (bytes_of "mitosOS: bootloader memory map: " ++ dec entries ++ bytes_of " entries, " ++ dec (usable_bytes / 1024) ++
                bytes_of " KiB usable") console
  | None => console
  end.

(** The PCI devices found. *)
Definition log_pci_device (console : list Z) (dev : PciDevice) : list Z :=
  let console := log_line (bytes_of "Bus " ++ dec (bus dev) ++ bytes_of " Slot " ++ dec (slot dev) ++ bytes_of ": Vendor 0x" ++
                   HEX (vendor_id dev) ++ bytes_of " Device 0x" ++ HEX (device_id dev) ++ bytes_of " | Class 0x" ++
                   zero_pad 2 (HEX (class dev)) ++ bytes_of " Subclass 0x" ++ zero_pad 2 (HEX (subclass dev))) console in
  if (class dev =? 0x01) && (subclass dev =? 0x06)
  then log_line (bytes_of ">>> FOUND AHCI CONTROLLER! BAR5 Address: 0x" ++ HEX (bar5 dev) ++ bytes_of " <<<") console
  else console.
Definition log_pci_devices {W} `{PortIO W} (console : list Z) : act W (list Z) :=
  let* scan_pci_devices := scan_buses in
  let console := log_line (bytes_of "--- PCI Devices Found ---") console in
  let console := fold_left log_pci_device scan_pci_devices console in
  done (log_line (bytes_of "-------------------------") console).

(** The frame taken, and kept, after that. *)
Definition log_first_frame {P} `{FrameAllocator P} (m : machine P) (console : list Z) : machine P * list Z :=
  match fa_alloc (pmm m) with
  | (Some frame, p) => (with_pmm p m, log_line (bytes_of "Memory Manager: Allocated physical frame at 0x" ++ HEX frame) console)
  | (None, p) => (with_pmm p m, console)
  end.

(** ** Memory *)
Definition HEAP_START : Z := 0x150000.
Definition HEAP_SIZE_x86 : Z := 0xA0000.
Definition HEAP_SIZE_aarch64 : Z := 0x800000.

(** Steps 3a and 3b on x86_64: the frames of the memory map, less those in use.
    [kernel_end_addr] is the address of `_kernel_end`. *)
Definition init_frames_x86 (info : Info.state) (mm : option memmap) (kernel_end_addr : Z) (frames : list Z)
    (console : list Z) : list Z * list Z :=
  let '(r, frames) := init_pmm_from_limine mm frames in
  let console := match r with
                 | Ok _ => console
                 | Err e => log_line (bytes_of "mitosOS: WARN init_pmm_from_limine failed: " ++ bytes_of e) console
                 end in
  let kernel_phys_start := Info.kernel_phys_start info in
  let kernel_phys_end := add64 kernel_phys_start (sub64 kernel_end_addr Info.KERNEL_VMA) in
  (protect_boot_memory kernel_phys_start kernel_phys_end HEAP_START HEAP_SIZE_x86 (Info.module info) frames, console).

(** The same steps on AArch64. *)
Definition init_frames_aarch64 (kernel_end_addr : Z) (frames : list Z) : list Z :=
  protect_boot_memory 0 kernel_end_addr HEAP_START HEAP_SIZE_aarch64 None (init_pmm_static frames).

(** ** The ramdisk

    [ram] is memory, [RAW_TAR] the archive compiled into the kernel. *)
Definition find_initrd (info : Info.state) (ram : mem_t) (RAW_TAR : list Z) (console : list Z) : option TarFileSystem * list Z :=
  match Info.module info with
  | Some (addr, size) => (TarFileSystem_new (read_n (Z.to_nat size) ram addr), console)
  | None =>
      let console := log_line (bytes_of "mitosOS: WARN no ramdisk from bootloader, falling back to embedded RAW_TAR") console in
      (TarFileSystem_new RAW_TAR, console)
  end.

Definition mount_initrd {W} (inited : option TarFileSystem) (vfs : @VirtualFileSystem W) (console : list Z)
    : @VirtualFileSystem W * list Z :=
  match inited with
  | Some tar_fs =>
      (vfs_mount (bytes_of "/") (TarFsAdapter tar_fs) vfs,
       log_line (bytes_of "mitosOS: initrd detected and VFS mounted at /") console)
  | None => (vfs, log_line (bytes_of "mitosOS: WARN - No valid initrd found.") console)
  end.

(** ** The frame buffer *)
Definition FB_ADDR : Z := 0xFD000000.
Definition FB_WIDTH : Z := 1024.
Definition FB_HEIGHT : Z := 768.
Definition FB_PITCH : Z := 4096.

Definition fb_parameters (info : Info.state) : Z * Z * Z * Z * bool :=
  default (FB_ADDR, FB_WIDTH, FB_HEIGHT, FB_PITCH, true) (Info.framebuffer info).

Section framebuffer.
Context {P : Type} `{FA : FrameAllocator P}.

(** The mapping loop: [n] pages from page number [i] on, until one fails. *)
Fixpoint map_fb_pages (n : nat) (i page_table_root addr : Z) (m : machine P) : Result unit string * machine P :=
  match n with
  | O => (Ok tt, m)
  | S n' =>
      let page_addr := add64 addr (mul64 i 0x1000) in
      match memory_map_page page_table_root page_addr page_addr m with
      | (Ok _, m) => map_fb_pages n' (i + 1) page_table_root addr m
      | (Err e, m) => (Err e, m)
      end
  end.

(** The frame buffer the kernel uses, mapped if the loader left that to the kernel. *)
Definition init_framebuffer (info : Info.state) (m : machine P) (console : list Z) : Framebuffer * machine P * list Z :=
  let '(addr, width, height, pitch, needs_mapping) := fb_parameters info in
  let console := match Info.framebuffer info with
                 | None => log_line (bytes_of "mitosOS: WARN no framebuffer from bootloader, trying fallback address") console
                 | Some _ => console
                 end in
  let '(m, console) :=
    if needs_mapping then
      let page_table_root := Z.land (root_reg m) (not64 0xFFF) in
      let fb_pages := add64 (mul64 pitch height) 0xFFF / 0x1000 in
      match map_fb_pages (Z.to_nat fb_pages) 0 page_table_root addr m with
      | (Ok _, m) => (m, console)
      | (Err e, m) => (m, log_line (bytes_of "mitosOS: WARN framebuffer mapping failed: " ++ bytes_of e) console)
      end
    else (m, console) in
  (mkFramebuffer addr width height pitch, m, console).
End framebuffer.

(** `println!`: the pieces of the line, in one lock. *)
Definition println (writer : option Terminal) (m : mem_t) (bs : list Z) : outcome (option Terminal * mem_t) :=
  _print writer m [bs; [10]].

(** The loop of the 150 lines "Loading module i...". *)
Fixpoint load_lines (is_ : list Z) (writer : option Terminal) (m : mem_t) : outcome (option Terminal * mem_t) :=
  match is_ with
  | [] => Returns (writer, m)
  | i :: rest =>
      let! wm := println writer m (bytes_of "Loading module " ++ dec i ++ bytes_of "...") in
      load_lines rest wm.1 wm.2
  end.

(** The strings on the splash screen. *)
Definition draw_boot_strings (fb : Framebuffer) (inited : bool) (m : mem_t) : outcome mem_t :=
  let! m := draw_string fb 10 70 (bytes_of "mitosOS System Init...") YELLOW m in
  let! m := draw_string fb 10 90 (bytes_of (if inited then "Ramdisk: loaded" else "Ramdisk: missing")) (if inited then GREEN else RED) m in
  draw_string fb 10 110 (bytes_of "Booting modules...") MAGENTA m.

(** The first text on the terminal that becomes `WRITER`. *)
Definition print_boot_text (fb : Framebuffer) (m : mem_t) : outcome (option Terminal * mem_t) :=
  let terminal := Terminal_new fb in
  let! wm := _print (Some terminal) m [bytes_of "mitosOS Booting..." ++ [10]] in
  let! wm := println wm.1 wm.2 (bytes_of "Framebuffer resolution: " ++ dec (width fb) ++ bytes_of "x" ++ dec (height fb)) in
  load_lines (seqZ 0 150) wm.1 wm.2.

Definition draw_boot_screen (fb : Framebuffer) (inited : bool) (m : mem_t) : outcome (option Terminal * mem_t) :=
  let m := clear fb BLACK m in
  let m := draw_boot_splash fb m in
  let! m := draw_boot_strings fb inited m in
  print_boot_text fb m.

(** ** The disks *)
Section disks.
(** `String::from_utf8_lossy` and `to_lowercase`, as in the FAT driver; [fuel] bounds the
    clusters it follows. *)
Context (from_utf8_lossy to_lowercase : list Z -> list Z) (fuel : nat).

(** The FAT volume on a fresh RAM disk: what is mounted at /disk, if anything. *)
Definition mount_ram_fat (console : list Z) : res (option (Fat32Geometry * RamBlockDevice)) * list Z :=
  match mount (RamBlockDevice_new 256) with
  | (Val fat_fs, d) =>
      let '(bps, fats, reserved, spf) := volume_info fat_fs in
      (Val (Some (fat_fs, d)),
       log_line (bytes_of "mitosOS: FAT32 volume mounted at /disk (" ++ dec bps ++ bytes_of "B/sector, " ++ dec fats ++ bytes_of " FAT(s), " ++
                 dec reserved ++ bytes_of " reserved, " ++ dec spf ++ bytes_of " sectors/FAT)") console)
  | (Fail e, _) => (Val None, log_line (bytes_of "mitosOS: FAT32 mount skipped (" ++ bytes_of e ++ bytes_of ")") console)
  | (Panicked, _) => (Panicked, console)
  | (NoFuel, _) => (NoFuel, console)
  end.

(** Mounting a device and reading /test.txt from it. *)
Definition mount_and_read {D} `{BlockDevice D} : io (list Z * D) unit :=
  mount_result <~ matched mount;
  match mount_result with
  | Ok fat32_fs =>
      content <~ matched (read_file_by_path from_utf8_lossy to_lowercase fat32_fs fuel (bytes_of "/test.txt"));
      match content with
      | Ok content => writeln (bytes_of "mitosOS: /test.txt on ATA disk: " ++ dec (Z.of_nat (length content)) ++ bytes_of " bytes")
      | Err e => writeln (bytes_of "mitosOS: ATA /test.txt read skipped (" ++ bytes_of e ++ bytes_of ")")
      end
  | Err e => writeln (bytes_of "mitosOS: ATA FAT32 mount skipped (" ++ bytes_of e ++ bytes_of ")")
  end.

(** `PartitionBlockDevice::new(dev, lba)` takes the device over. *)
Definition in_partition {D A} (lba : Z) (c : io (list Z * PartitionBlockDevice D) A) : io (list Z * D) A := fun s =>
  let '(r, (console, p)) := c (s.1, Partition s.2 lba) in (r, (console, inner p)).

Definition probe_disk {D} `{BlockDevice D} : io (list Z * D) unit :=
  found <~ matched find_first_partition_lba;
  match found with
  | Ok (Some lba) =>
      _ <~ writeln (bytes_of "mitosOS: MBR found on ATA disk, first partition at LBA " ++ dec lba);
      in_partition lba mount_and_read
  | Ok None => mount_and_read
  | Err e =>
      _ <~ writeln (bytes_of "mitosOS: WARN MBR probe failed (" ++ bytes_of e ++ bytes_of "), trying LBA 0 directly");
      mount_and_read
  end.

(** `{:?}` of an [AtaError]. *)
Definition debug_ata_error (e : AtaError) : list Z :=
  match e with
  | Ata.Timeout => bytes_of "Timeout"
  | DeviceError code => bytes_of "DeviceError(" ++ dec code ++ bytes_of ")"
  | NoDevice => bytes_of "NoDevice"
  end.

(** The ATA disk (x86_64): identification, self-test, and the volume on it. *)
Definition probe_ata {P} `{PortIO P} : io (list Z * P) unit := fun s =>
  match AtaDevice_new s.2 with
  | (Ok ata_device, p) =>
      let '(r, (console, d)) :=
        (tested <~ matched self_test;
         _ <~ match tested with
              | Ok _ => writeln (bytes_of "mitosOS: ATA self-test passed (" ++ dec (total_sectors ata_device) ++ bytes_of " sectors)")
              | Err e => writeln (bytes_of "mitosOS: ATA self-test FAILED: " ++ bytes_of e)
              end;
         probe_disk) (s.1, (ata_device, p)) in
      (r, (console, d.2))
  | (Err e, p) => (Val tt, (log_line (bytes_of "mitosOS: Legacy ATA not found (" ++ debug_ata_error e ++ bytes_of "), skipping.") s.1, p))
  end.

(** On AArch64 the disk is a RAM disk. *)
Definition probe_ram_disk (console : list Z) : res unit * list Z :=
  let '(r, (console, _)) := probe_disk (console, RamBlockDevice_new 2048) in (r, console).
End disks.

(** ** PCI: `init_ahci_devices`

    [identify_buf] is where the frame of `init_port` puts its buffer; the text of an
    error is its `Debug` form. *)
Section ahci.
Context {D : Type} `{!Ahci.Hal D} `{!PortIO (Ahci.world D)} (identify_buf : Z) (debug_ahci_error : AhciError -> list Z).

Definition log_port (port : AhciPort) (console : list Z) : list Z :=
  match kind port with
  | Sata => log_line (bytes_of "Found SATA Drive on Port " ++ dec (p_index port) ++ bytes_of ": " ++ dec (sectors port) ++
                      bytes_of " sectors (LBA48: " ++ bytes_of (if lba48 port then "true" else "false") ++ bytes_of ")") console
  | _ => console
  end.

Fixpoint init_ahci_list (devs : list PciDevice) (console : list Z) : act (Ahci.world D) (list Z) :=
  match devs with
  | [] => done console
  | dev :: rest =>
      if is_ahci dev then
        let* r := AhciController_new identify_buf (bar5 dev) in
        match r with
        | Ok ahci_controller =>
            let console := log_line (bytes_of "AHCI Controller initialized successfully!") console in
            init_ahci_list rest (fold_left (fun c p => log_port p c) (iter_ports ahci_controller) console)
        | Err e =>
            init_ahci_list rest (log_line (bytes_of "Failed to initialize AHCI controller: " ++ debug_ahci_error e) console)
        end
      else init_ahci_list rest console
  end.
Definition init_ahci_devices (console : list Z) : act (Ahci.world D) (list Z) :=
  let* devices := scan_buses in init_ahci_list devices console.
End ahci.

(** ** The first tasks *)
Section tasks.
Context {P : Type} `{FA : FrameAllocator P} `{KA : !KernelArch P} (stack_base : nat -> Z) (kernel_root : Z).

(** [worker] and [worker_2] are the addresses of the two background functions. *)
Definition spawn_workers (worker worker_2 : Z) (s : sched P) : sched P :=
  let '(_, s) := spawn stack_base kernel_root worker SharedThread 0 s in
  let '(_, s) := spawn stack_base kernel_root worker_2 SharedThread 0 s in s.
End tasks.
