(* ===== verification/MainCorrect.v ===== *)
(** The boot stages are correct: what the disk probe, the ramdisk, the frame buffer and
    the first tasks come to, with the drivers and file systems below them. *)
From S2P Require Import Prelude Ports Pmm Vmm VmmTheory VmmCorrect VmmBoot Uart Block Fat32 FatCorrect Ata AtaCorrect Vfs VfsCorrect Boot Graphics Task TaskCorrect Shell Main.
#[local] Open Scope kernel_scope.

(** ** The console *)

(** Lines logged one after the other. *)
Definition log_lines (ls : list (list Z)) (console : list Z) : list Z := fold_left (fun c l => log_line l c) ls console.
Lemma log_lines_cons l ls console : log_lines (l :: ls) console = log_lines ls (log_line l console).
Proof. reflexivity. Qed.

(** ** Disks *)
Section probe.
Context (from_utf8_lossy to_lowercase : list Z -> list Z) (fuel : nat).

(** A volume with a file: the boot sector of [v], the directory entry the path leads to,
    the clusters of the file. *)
Record volume_with (path : list Z) (v : Z -> option (list Z)) (boot : list Z) (e : FatDirectoryEntry) (ds : list (list Z)) : Prop := {
  vw_boot : v 0 = Some boot;
  vw_bytes : bytes_ok boot;
  vw_fat : fat_boot_sector boot;
  vw_path : path_entry (geometry_of boot) from_utf8_lossy to_lowercase v fuel (root_cluster (geometry_of boot))
              (split_slashes (trim_slashes path)) e;
  vw_file : Z.land (attr e) ATTR_DIRECTORY = 0;
  vw_size : 0 <= file_size e;
  vw_chain : chain (geometry_of boot) v (starting_cluster e) ds;
  vw_fuel : (length ds < fuel)%nat
}.

Definition test_line (e : FatDirectoryEntry) (ds : list (list Z)) : list Z :=
  bytes_of "mitosOS: /test.txt on ATA disk: " ++ dec (Z.of_nat (length (take (Z.to_nat (file_size e)) (concat ds)))) ++ bytes_of " bytes".

Lemma bind_val {D A B} (c : io D A) (k : A -> io D B) d a d' : c d = (Val a, d') -> bind c k d = k a d'.
Proof. intros E. unfold bind. by rewrite E. Qed.
Lemma bind_writeln {D B} bs (k : unit -> io (list Z * D) B) con d : bind (writeln bs) k (con, d) = k tt (log_line bs con, d).
Proof. reflexivity. Qed.
Lemma matched_val {D A} (c : io D A) con d a d' : c d = (Val a, d') -> matched c (con, d) = (Val (Ok a), (con, d')).
Proof. intros E. unfold matched. cbn [fst snd]. by rewrite E. Qed.
Lemma matched_fail {D A} (c : io D A) con d e d' : c d = (Fail e, d') -> matched c (con, d) = (Val (Err e), (con, d')).
Proof. intros E. unfold matched. cbn [fst snd]. by rewrite E. Qed.

Lemma matched_yields {D A} `{BlockDeviceLaws D} v (c : io D A) a con d :
  yields v c a -> holds_volume v d -> exists d', matched c (con, d) = (Val (Ok a), (con, d')) /\ holds_volume v d'.
Proof. intros Hc Hd. destruct (Hc d Hd) as (d' & E & Hd'). exists d'. split; [by apply matched_val|done]. Qed.

Lemma mount_and_read_logs {D} `{BL : BlockDeviceLaws D} v boot e ds con (d : D) :
  volume_with (bytes_of "/test.txt") v boot e ds -> holds_volume v d ->
  exists d', mount_and_read from_utf8_lossy to_lowercase fuel (con, d) = (Val tt, (log_line (test_line e ds) con, d')) /\ holds_volume v d'.
Proof.
  intros [] Hd. pose proof (geometry_of_ok boot vw_bytes0) as Hg. unfold mount_and_read, bind.
  destruct (matched_yields v mount _ con d (mount_yields v boot vw_boot0 vw_bytes0 vw_fat0) Hd) as (d1 & -> & Hd1).
  destruct (matched_yields v (read_file_by_path from_utf8_lossy to_lowercase (geometry_of boot) fuel (bytes_of "/test.txt")) _ con d1
    (read_file_by_path_yields _ Hg _ _ v fuel _ e ds vw_path0 ltac:(done) vw_file0 vw_chain0 vw_fuel0 vw_size0) Hd1) as (d2 & -> & Hd2).
  by exists d2.
Qed.

(** The table of an MBR: the first entry that is not blank. *)
Definition first_partition (b : list Z) (j : Z) : Prop :=
  boot_signature b = true /\ 0 <= j < 4 /\ ~ part_blank b j /\ forall k, 0 <= k < j -> part_blank b k.
Definition no_partition (b : list Z) : Prop := forall k, 0 <= k < 4 -> part_blank b k.

Lemma find_first_yields {D} `{BL : BlockDeviceLaws D} v b j :
  v 0 = Some b -> first_partition b j -> yields (D := D) v find_first_partition_lba (Some (part_lba b j)).
Proof.
  intros Hb (Hs & Hj & Hnb & Hlt). destruct (find_first_partition_exact (D := D) v b Hb) as (r & Hr & Hspec).
  assert (r = Some (part_lba b j)) as <-; [|exact Hr].
  destruct r as [lba|]; [|destruct Hspec as [?|Hall]; [congruence|by destruct Hnb; apply Hall]].
  destruct Hspec as (_ & i & Hi & -> & Hni & Hlti). destruct (Z.lt_trichotomy i j) as [Hij|[->|Hij]]; [|done|].
  - destruct Hni. apply Hlt. lia.
  - destruct Hnb. apply Hlti. lia.
Qed.
Lemma find_none_yields {D} `{BL : BlockDeviceLaws D} v b :
  v 0 = Some b -> no_partition b -> yields (D := D) v find_first_partition_lba None.
Proof.
  intros Hb Hno. destruct (find_first_partition_exact (D := D) v b Hb) as ([lba|] & Hr & Hspec); [|exact Hr].
  destruct Hspec as (_ & j & Hj & _ & Hn & _). destruct Hn. by apply Hno.
Qed.

Lemma part_lba_fits b j : bytes_ok b -> fits 32 (part_lba b j).
Proof.
  intros Hb. unfold part_lba. pose proof (disk_field_fits (sub_slice b (446 + j * 16) (446 + j * 16 + 16)) 8 4) as H.
  apply H; [by apply bytes_ok_sub_slice|lia|lia].
Qed.

Definition mbr_line (lba : Z) : list Z := bytes_of "mitosOS: MBR found on ATA disk, first partition at LBA " ++ dec lba.

(** A disk with a partition table: the volume is the one at the first partition. *)
Lemma probe_disk_mbr {D} `{BL : BlockDeviceLaws D} v b j boot e ds con (d : D) :
  v 0 = Some b -> first_partition b j -> volume_with (bytes_of "/test.txt") (fun i => v (i + part_lba b j)) boot e ds -> holds_volume v d ->
  exists d', probe_disk from_utf8_lossy to_lowercase fuel (con, d) =
      (Val tt, (log_lines [mbr_line (part_lba b j); test_line e ds] con, d')) /\ holds_volume v d'.
Proof.
  intros Hb Hj Hv Hd. set (lba := part_lba b j) in *. unfold probe_disk, bind.
  destruct (matched_yields v find_first_partition_lba _ con d (find_first_yields v b j Hb Hj) Hd) as (d1 & -> & Hd1).
  assert (fits 32 lba) as Hf.
  { apply part_lba_fits. destruct Hd as [Hok Hw]. rewrite <- Hw in Hb. by destruct (bd_sector d 0 b Hok Hb). }
  assert (holds_volume (BL := partition_laws lba Hf) (fun i => v (i + lba)) (Partition d1 lba)) as Hp.
  { destruct Hd1 as [Hok Hw]. split; [exact (conj Hok eq_refl)|]. intros i. exact (Hw (i + lba)). }
  destruct (mount_and_read_logs (BL := partition_laws lba Hf) _ boot e ds (log_line (mbr_line lba) con) (Partition d1 lba) Hv Hp)
    as ([d2 l2] & E & [[Hok2 El] Hw2]). cbn [inner lba_offset bd_view partition_laws] in *. subst l2.
  exists d2. split.
  - transitivity (in_partition lba (mount_and_read from_utf8_lossy to_lowercase fuel) (log_line (mbr_line lba) con, d1)); [reflexivity|].
    unfold in_partition. cbn [fst snd]. rewrite E. exact eq_refl.
  - split; [exact Hok2|]. intros i. specialize (Hw2 (i - lba)). by rewrite !Z.sub_add in Hw2.
Qed.

(** A bare volume: the boot sector has no partition table. *)
Lemma probe_disk_bare {D} `{BL : BlockDeviceLaws D} v boot e ds con (d : D) :
  no_partition boot -> volume_with (bytes_of "/test.txt") v boot e ds -> holds_volume v d ->
  exists d', probe_disk from_utf8_lossy to_lowercase fuel (con, d) = (Val tt, (log_line (test_line e ds) con, d')) /\ holds_volume v d'.
Proof.
  intros Hno Hv Hd. unfold probe_disk, bind. pose proof Hv as [Hb _ _ _ _ _ _ _].
  destruct (matched_yields v find_first_partition_lba _ con d (find_none_yields v boot Hb Hno) Hd) as (d1 & -> & Hd1).
  by apply mount_and_read_logs with (v := v) (boot := boot).
Qed.
End probe.

Definition self_test_line (total : Z) : list Z := bytes_of "mitosOS: ATA self-test passed (" ++ dec total ++ bytes_of " sectors)".

(** The ATA stage on a working drive, up to the volume. *)
Lemma probe_ata_tested {P : Type} `{HD : AtaDrive P} (lossy lower : list Z -> list Z) fuel con (p : P) :
  let total := identify_sectors (identify (drive p)) in
  length (identify (drive p)) = 256%nat -> 0 < total -> drive_ok (mkAta total) (drive p) ->
  exists p2, drive_ok (mkAta total) (drive p2) /\ (forall i, disk (drive p2) i = disk (drive p) i) /\
    probe_ata lossy lower fuel (con, p) =
      (let '(r, (console, d)) := probe_disk lossy lower fuel (log_line (self_test_line total) con, (mkAta total, p2)) in (r, (console, d.2))).
Proof.
  intros total Hl Ht Hok. destruct (AtaDevice_new_identifies p (proj1 (proj2 Hok)) Hl) as (p1 & E1 & S1).
  destruct (self_test_restores (mkAta total) p1 (drive_ok_same _ _ _ S1 Hok) Ht) as (p2 & E2 & Hok2 & D2).
  exists p2. split_and!; [done|intros i; by rewrite D2, (proj1 (proj2 S1))|].
  unfold probe_ata. change ((con, p).2) with p. change ((con, p).1) with con. rewrite E1. fold total.
  rewrite (bind_val _ _ _ _ _ (matched_val _ con _ _ _ E2)). cbv iota beta. rewrite bind_writeln. reflexivity.
Qed.

(** C11: Booting from a disk, end to end: on an idle ATA drive whose IDENTIFY data gives its
    size, with a partition table whose first partition holds a FAT32 volume with a file
    /test.txt, the boot code identifies the drive, passes the self-test, finds the
    partition, mounts the volume in it and reads the whole file; the console shows the
    size of the drive, the start of the partition and the length of the file; and every
    sector of the disk still has its contents. *)
Theorem boot_disk_reads {P : Type} `{HD : AtaDrive P} (lossy lower : list Z -> list Z) fuel con (p : P) b j boot e ds :
  let total := identify_sectors (identify (drive p)) in
  let v i := if (0 <=? i) && (i <? total) then disk (drive p) i else None in
  length (identify (drive p)) = 256%nat -> 0 < total -> drive_ok (mkAta total) (drive p) ->
  v 0 = Some b -> first_partition b j ->
  volume_with lossy lower fuel (bytes_of "/test.txt") (fun i => v (i + part_lba b j)) boot e ds ->
  exists p', probe_ata lossy lower fuel (con, p) =
      (Val tt, (log_lines [self_test_line total; mbr_line (part_lba b j); test_line e ds] con, p')) /\
    forall i s, v i = Some s -> disk (drive p') i = Some s.
Proof.
  intros total v Hl Ht Hok Hb Hj Hv.
  destruct (probe_ata_tested lossy lower fuel con p Hl Ht Hok) as (p2 & Hok2 & D2 & ->). fold total in Hok2 |- *.
  assert (holds_volume v (mkAta total, p2)) as Hh.
  { split; [exact Hok2|]. intros i. unfold v. rewrite <- D2. exact eq_refl. }
  destruct (probe_disk_mbr lossy lower fuel v b j boot e ds (log_line (self_test_line total) con) (mkAta total, p2) Hb Hj Hv Hh)
    as ([a3 p3] & E & [_ Hw]).
  rewrite E. cbv iota beta. exists p3. split; [by rewrite (log_lines_cons (self_test_line total))|]. intros i s Hs. rewrite <- Hw in Hs. by apply ata_view_some in Hs as [_ Hs].
Qed.

(** ** Disks without a volume *)

(** A fresh RAM disk has no FAT volume: the boot code never mounts one at /disk, nor, on
    AArch64, finds a file on the RAM disk that stands for the ATA drive. *)
Theorem ram_disks_skipped lossy lower fuel con :
  mount_ram_fat con = (Val None, log_line (bytes_of "mitosOS: FAT32 mount skipped (Invalid boot sector signature: missing 0x55AA)") con) /\
  probe_ram_disk lossy lower fuel con =
    (Val tt, log_line (bytes_of "mitosOS: ATA FAT32 mount skipped (Invalid boot sector signature: missing 0x55AA)") con).
Proof.
  assert (forall n, 0 < n < 2 ^ 40 -> ram_read_sector 0 (RamBlockDevice_new n) = (Val (replicate 512 0), RamBlockDevice_new n)) as Hr.
  { intros n Hn. rewrite ram_read_in; [|lia|]; cycle 1.
    { cbn [RamBlockDevice_new rb_data]. rewrite length_replicate. unfold mul64, SECTOR_SIZE. rewrite u64_small; [lia|unfold fits; lia]. }
    cbn [RamBlockDevice_new rb_data]. unfold sub_slice. rewrite drop_replicate, take_replicate. do 3 f_equal.
    unfold mul64, SECTOR_SIZE. rewrite u64_small; [lia|unfold fits; lia]. }
  assert (forall n, 0 < n < 2 ^ 40 -> mount (RamBlockDevice_new n) = (Fail "Invalid boot sector signature: missing 0x55AA", RamBlockDevice_new n)) as Hm.
  { intros n Hn. unfold mount. by rewrite (bind_val _ _ _ _ _ (Hr n Hn)). }
  split.
  - unfold mount_ram_fat. rewrite Hm by lia. exact eq_refl.
  - unfold probe_ram_disk, probe_disk. erewrite bind_val.
    2:{ apply matched_val. unfold find_first_partition_lba. rewrite (bind_val _ _ _ _ _ (Hr 2048 ltac:(lia))). exact eq_refl. }
    unfold mount_and_read. erewrite bind_val; [|apply matched_fail, Hm; lia]. exact eq_refl.
Qed.

(** A drive of five sectors: the partition table, then a volume of four sectors with
    the file TEST.TXT of three bytes. *)
Definition disk_image : list Z :=
  fold_left (fun l p => splice l (fst p) (snd p))
    [(446 + 4, [12]); (446 + 8, [1; 0; 0; 0]); (510, [0x55; 0xAA]);
     (512 + 11, [0; 2]); (512 + 13, [1]); (512 + 14, [1; 0]); (512 + 16, [1]); (512 + 36, [1; 0; 0; 0]); (512 + 44, [2; 0; 0; 0]);
     (512 + 510, [0x55; 0xAA]); (1024 + 8, [0xFF; 0xFF; 0xFF; 0x0F]); (1024 + 12, [0xF8; 0xFF; 0xFF; 0x0F]);
     (1536, bytes_of "TEST    TXT"); (1536 + 26, [3; 0; 3; 0; 0; 0]); (2048, bytes_of "hey")] (replicate 2560 0).
Definition image_sector (i : Z) : list Z := sub_slice disk_image (i * 512) (i * 512 + 512).
Definition image_disk (i : Z) : option (list Z) := if (0 <=? i) && (i <? 5) then Some (image_sector i) else None.
Definition image_view (i : Z) : option (list Z) := if (0 <=? i) && (i <? 5) then image_disk i else None.
Definition image_drive : Drive := mkDrive 0 0 0 0 0 Idle image_disk (replicate 60 0 ++ [5; 0] ++ replicate 194 0).
Definition image_entry : FatDirectoryEntry := entry_of (sub_slice (image_sector 3) 0 32).

Lemma image_drive_ok : drive_ok (mkAta 5) (drive image_drive).
Proof.
  split_and!; [done|done|done| |]; intros i.
  - intros Hi. cbn [drive sim_drive image_drive disk total_sectors] in *. unfold image_disk. zcases; try lia. by eexists.
  - intros b. cbn [drive sim_drive image_drive disk]. unfold image_disk. zcases; try done. intros [= <-].
    assert (length disk_image = 2560%nat) as Hl by (vm_compute; reflexivity).
    assert (bytes_ok disk_image) as Hb by (apply bytes_ok_dec; vm_compute; reflexivity).
    split; [|by apply bytes_ok_sub_slice]. unfold image_sector.
    pose proof (length_sub_slice disk_image (i * 512) (i * 512 + 512)). lia.
Qed.

Lemma image_root : chain (geometry_of (image_sector 1)) (fun i => image_view (i + 1)) 2 [image_sector 3].
Proof.
  apply (chain_step _ _ 2 0x0FFFFFFF); [reflexivity|vm_compute; reflexivity|vm_compute; reflexivity|]. by apply chain_end.
Qed.
Lemma image_file : chain (geometry_of (image_sector 1)) (fun i => image_view (i + 1)) 3 [image_sector 4].
Proof.
  apply (chain_step _ _ 3 0x0FFFFFF8); [reflexivity|vm_compute; reflexivity|vm_compute; reflexivity|]. by apply chain_end.
Qed.
Lemma image_volume :
  volume_with (fun l => l) ascii_lower 3 (bytes_of "/test.txt") (fun i => image_view (i + 1)) (image_sector 1) image_entry [image_sector 4].
Proof.
  split.
  - reflexivity.
  - destruct image_drive_ok as (_ & _ & _ & H). by apply (H 1).
  - split_and!; [vm_compute; reflexivity..|vm_compute; discriminate].
  - replace (root_cluster (geometry_of (image_sector 1))) with 2 by (vm_compute; reflexivity).
    apply (pe_last _ _ _ _ _ _ _ [image_sector 3]); [apply image_root|simpl; lia|vm_compute; reflexivity].
  - vm_compute; reflexivity.
  - vm_compute; discriminate.
  - replace (starting_cluster image_entry) with 3 by (vm_compute; reflexivity). apply image_file.
  - simpl; lia.
Qed.

Lemma boot_disk_reads_witness :
  exists p', probe_ata (fun l => l) ascii_lower 3 ([], image_drive) =
    (Val tt, (log_lines [bytes_of "mitosOS: ATA self-test passed (5 sectors)"; bytes_of "mitosOS: MBR found on ATA disk, first partition at LBA 1";
                         bytes_of "mitosOS: /test.txt on ATA disk: 3 bytes"] [], p')).
Proof.
  destruct (boot_disk_reads (fun l => l) ascii_lower 3 [] image_drive (image_sector 0) 0 (image_sector 1) image_entry [image_sector 4])
    as (p' & E & _).
  - reflexivity.
  - vm_compute; reflexivity.
  - exact image_drive_ok.
  - reflexivity.
  - split_and!; [vm_compute; reflexivity|done|done|intros [H|H]; vm_compute in H; discriminate|lia].
  - replace (part_lba (image_sector 0) 0) with 1 by (vm_compute; reflexivity). exact image_volume.
  - exists p'. rewrite E. vm_compute. reflexivity.
Defined.

(** ** The ramdisk *)

(** The ramdisk from the boot loader to the file: with a module in memory that is an
    archive of files, the boot code takes the module, mounts it at / and says so; opening
    the path of an archived file then finds it with its name and size, and reading it
    from an offset returns its bytes from there on, cut to the buffer. *)
Theorem initrd_boots {W} info ram RAW_TAR con addr size fs name f offset n (w : W) :
  Info.module info = Some (addr, size) -> read_n (Z.to_nat size) ram addr = tar_archive fs ->
  Forall tar_file_ok fs -> Z.of_nat (length (tar_archive fs)) < 2 ^ 61 ->
  trim_slashes name = tf_name f -> List.find (fun g => bool_decide (tf_name g = tf_name f)) fs = Some f ->
  tf_type f <> 53 -> 0 <= offset -> 0 <= n ->
  let '(inited, con) := find_initrd info ram RAW_TAR con in
  let '(vfs, con') := mount_initrd inited VirtualFileSystem_new con in
  con' = log_line (bytes_of "mitosOS: initrd detected and VFS mounted at /") con /\
  exists node, vfs_open vfs (bytes_of "/" ++ name) w = (Val (Some node), w) /\
    metadata node = {| md_name := tf_name f; md_size := Z.of_nat (length (tf_data f)); md_type := File |} /\
    node_read node offset n w = (Val (take (Z.to_nat n) (drop (Z.to_nat offset) (tf_data f))), w).
Proof.
  intros Hm Hr Hfs Hlen Hname Hin Htype Hoff Hn. unfold find_initrd. rewrite Hm, Hr.
  rewrite archive_recognised; [|done|by intros ->]. unfold mount_initrd. split; [reflexivity|].
  by apply (vfs_read_initrd [] [] (bytes_of "/") name fs f offset n w).
Qed.

Lemma initrd_boots_witness :
  let info := Info.store_module 0x9000 (Z.of_nat (length (tar_archive demo_files))) Info.initial in
  let ram := copy_to (fun _ => 0) 0x9000 (tar_archive demo_files) in
  let '(inited, con) := find_initrd info ram [] [] in
  let '(vfs, con') := mount_initrd inited (VirtualFileSystem_new (W := unit)) con in
  exists node, vfs_open vfs (bytes_of "/" ++ bytes_of "motd") tt = (Val (Some node), tt) /\ node_read node 1 3 tt = (Val (bytes_of "ell"), tt).
Proof.
  intros info ram.
  pose proof (initrd_boots (W := unit) info ram [] [] 0x9000 (Z.of_nat (length (tar_archive demo_files))) demo_files (bytes_of "motd")
    {| tf_name := bytes_of "motd"; tf_data := bytes_of "hello"; tf_type := 48 |} 1 3 tt) as H.
  destruct (find_initrd info ram [] []) as [inited con]. destruct (mount_initrd inited VirtualFileSystem_new con) as [vfs con'].
  destruct H as (_ & node & E & _ & R).
  - reflexivity.
  - vm_compute. reflexivity.
  - exact demo_files_ok.
  - vm_compute; reflexivity.
  - reflexivity.
  - vm_compute; reflexivity.
  - discriminate.
  - lia.
  - lia.
  - exists node. split; [exact E|exact R].
Defined.

(** ** The boot screen *)
Definition ascii (l : list Z) : Prop := Forall (fun byte => 0 <= byte < 128) l.

Lemma digits_ascii f n acc : ascii acc -> ascii (digits f 10 false n acc).
Proof.
  revert n acc. induction f as [|f IH]; intros n acc Ha; [done|]. cbn [digits].
  assert (ascii (digit_char false (n mod 10) :: acc)) as H.
  { constructor; [|done]. unfold digit_char. pose proof (Z.mod_pos_bound n 10 ltac:(lia)). destruct (_ <? 10); lia. }
  destruct (_ =? 0); [done|by apply IH].
Qed.
Lemma dec_ascii n : ascii (dec n).
Proof. apply digits_ascii. constructor. Qed.

(** The text on the terminal. *)
Definition module_line (i : Z) : list Z := bytes_of "Loading module " ++ dec i ++ bytes_of "..." ++ [10].
Definition boot_text (fb : Framebuffer) : list Z :=
  (bytes_of "mitosOS Booting..." ++ [10]) ++
  (bytes_of "Framebuffer resolution: " ++ dec (width fb) ++ bytes_of "x" ++ dec (height fb)) ++ [10] ++
  concat (map module_line (seqZ 0 150)).

Lemma ascii_app a b : ascii a -> ascii b -> ascii (a ++ b).
Proof. apply Forall_app_2. Qed.
(** Literal text is ASCII. *)
Lemma ascii_dec l : forallb (fun b => (0 <=? b) && (b <? 128)) l = true -> ascii l.
Proof.
  intros H. apply Forall_forall. intros x Hx. eapply forallb_forall in H; [|by apply list_elem_of_In].
  apply andb_true_iff in H as [?%Z.leb_le ?%Z.ltb_lt]. lia.
Qed.
Ltac solve_ascii := repeat apply ascii_app; (apply dec_ascii || (apply ascii_dec; vm_compute; reflexivity)).

(** One `print!` on the terminal is text on the console it shows. *)
Lemma print_shows t m c pieces :
  terminal_ok t -> Graphics.shows t m c -> ascii (concat pieces) ->
  exists t' m', _print (Some t) m pieces = Returns (Some t', m') /\ terminal_ok t' /\
    Graphics.shows t' m' (foldl (console_byte (width (fb t)) (height (fb t)) (to_u32 (text_color t))) c (concat pieces)) /\
    Graphics.keeps t t' m m'.
Proof.
  intros Ht Hs Ha. destruct (write_str_step t m c (concat pieces) Ht Hs Ha) as (t' & m' & E & H). exists t', m'.
  split; [|done]. unfold _print. by rewrite write_fmt_concat, E.
Qed.

Lemma load_lines_shows is_ : forall t m c,
  terminal_ok t -> Graphics.shows t m c ->
  exists t' m', load_lines is_ (Some t) m = Returns (Some t', m') /\ terminal_ok t' /\
    Graphics.shows t' m' (foldl (console_byte (width (fb t)) (height (fb t)) (to_u32 (text_color t))) c (concat (map module_line is_))) /\
    Graphics.keeps t t' m m'.
Proof.
  induction is_ as [|i is_ IH]; intros t m c Ht Hs; [by exists t, m|]. cbn [load_lines map concat]. unfold println.
  destruct (print_shows t m c [bytes_of "Loading module " ++ dec i ++ bytes_of "..."; [10]] Ht Hs) as (t1 & m1 & -> & Ht1 & Hs1 & Hk1);
    [solve_ascii|]. cbn [outcome_bind fst snd].
  destruct (IH t1 m1 _ Ht1 Hs1) as (t' & m' & E & Ht' & Hs' & Hk'). pose proof Hk1 as (Hf & Hcol & _). rewrite Hf, Hcol in Hs'.
  exists t', m'. split_and!; [done|done| |by apply (term_keeps_trans _ t1 _ _ m1)].
  rewrite foldl_app. replace (module_line i) with (concat [bytes_of "Loading module " ++ dec i ++ bytes_of "..."; [10]]); [exact Hs'|].
  unfold module_line. cbn [concat]. by rewrite app_nil_r, <- !app_assoc.
Qed.

Lemma draw_rect_confined fb x y w h c m a : fb_ok fb -> color_ok c -> 0 <= x -> 0 <= y -> outside fb a -> draw_rect fb x y w h c m a = m a.
Proof.
  intros Hfb Hc Hx Hy Ha. pose proof Hfb as (? & ? & ? & ? & ? & ?). unfold draw_rect.
  refine (proj2 (fill_paints fb Hfb c _ _ _ _ m Hc _ _ _ _) a Ha); lia.
Qed.
Lemma splash_confined fb m a : fb_ok fb -> outside fb a -> draw_boot_splash fb (clear fb BLACK m) a = m a.
Proof.
  intros Hfb Ha. pose proof Hfb as (? & ? & ? & ? & ? & ?). unfold draw_boot_splash. rewrite !draw_rect_confined by done.
  refine (proj2 (fill_paints fb Hfb BLACK _ _ _ _ m _ _ _ _ _) a Ha); done || lia.
Qed.

(** The three strings drawn over the splash. *)
Lemma strings_confined fb (inited : bool) m0 : fb_ok fb ->
  exists m', draw_boot_strings fb inited m0 = Returns m' /\ forall a, outside fb a -> m' a = m0 a.
Proof.
  intros Hfb. unfold draw_boot_strings, draw_string.
  destruct (draw_string_confined fb (bytes_of "mitosOS System Init...") YELLOW 10 10 70 m0) as (m1 & -> & O1); [done|done|solve_ascii|cbn; lia..|].
  cbn [outcome_bind].
  destruct (draw_string_confined fb (bytes_of (if inited then "Ramdisk: loaded" else "Ramdisk: missing")) (if inited then GREEN else RED) 10 10 90 m1)
    as (m2 & -> & O2); [done|by destruct inited|destruct inited; solve_ascii|destruct inited; cbn; lia..|].
  cbn [outcome_bind].
  destruct (draw_string_confined fb (bytes_of "Booting modules...") MAGENTA 10 10 110 m2) as (m3 & -> & O3); [done|done|solve_ascii|cbn; lia..|].
  exists m3. split; [done|]. intros a Ha. by rewrite O3, O2, O1.
Qed.

(** Text printed on a fresh terminal, from the screen in [m]. *)
Lemma text_shows fb m l1 l2 is_ : fb_ok fb -> ascii l1 -> ascii l2 ->
  exists t m', (let! wm := _print (Some (Terminal_new fb)) m [l1] in
     let! wm := println wm.1 wm.2 l2 in
     load_lines is_ wm.1 wm.2) = Returns (Some t, m') /\ terminal_ok t /\ Graphics.keeps (Terminal_new fb) t m m' /\
    Graphics.shows t m' (foldl (console_byte (width fb) (height fb) (to_u32 WHITE)) (mkConsole (pixel fb m) 0 0)
      (l1 ++ l2 ++ [10] ++ concat (map module_line is_))).
Proof.
  intros Hfb H1 H2. pose proof Hfb as (? & ? & ? & ? & ? & ?).
  assert (terminal_ok (Terminal_new fb)) as Ht0 by (unfold terminal_ok; cbn [Terminal_new Graphics.fb text_color cursor_x cursor_y]; split_and!; done || lia).
  assert (Graphics.shows (Terminal_new fb) m (mkConsole (pixel fb m) 0 0)) as Hs0 by (unfold Graphics.shows; split_and!; done).
  assert (concat [l1] = l1) as E1 by apply app_nil_r. assert (concat [l2; [10]] = l2 ++ [10]) as E2 by done.
  destruct (print_shows _ _ _ [l1] Ht0 Hs0) as (t1 & m4 & -> & Ht1 & Hs1 & Hk1); [by rewrite E1|].
  cbn [outcome_bind fst snd]. unfold println.
  destruct (print_shows _ _ _ [l2; [10]] Ht1 Hs1) as (t2 & m5 & -> & Ht2 & Hs2 & Hk2); [rewrite E2; apply ascii_app; [done|by apply ascii_dec]|].
  cbn [outcome_bind fst snd].
  destruct (load_lines_shows is_ t2 m5 _ Ht2 Hs2) as (t3 & m6 & -> & Ht3 & Hs3 & Hk3).
  exists t3, m6. split_and!; [done|done|exact (term_keeps_trans _ _ _ _ _ _ Hk1 (term_keeps_trans _ _ _ _ _ _ Hk2 Hk3))|].
  destruct Hk1 as (Hf1 & Hc1 & _), Hk2 as (Hf2 & Hc2 & _). rewrite Hf2, Hc2, Hf1, Hc1, E1, E2 in Hs3.
  by rewrite !foldl_app in *.
Qed.

Lemma boot_text_shows fb m : fb_ok fb ->
  exists t m', print_boot_text fb m = Returns (Some t, m') /\ terminal_ok t /\ Graphics.keeps (Terminal_new fb) t m m' /\
    Graphics.shows t m' (foldl (console_byte (width fb) (height fb) (to_u32 WHITE)) (mkConsole (pixel fb m) 0 0) (boot_text fb)).
Proof. intros Hfb. apply text_shows; [done|solve_ascii|solve_ascii]. Qed.

(** The boot screen: on any frame buffer the code accepts, drawing the splash and the 152
    lines of boot text never panics, ends with a well-formed terminal that shows exactly
    that text as a console would (wrapped and scrolled) over what the splash left, and
    changes no byte outside of the frame buffer. *)
Theorem boot_screen_shows fb inited m : fb_ok fb ->
  exists t m0 m', draw_boot_screen fb inited m = Returns (Some t, m') /\ terminal_ok t /\ Graphics.fb t = fb /\
    (forall a, outside fb a -> m' a = m a) /\ (forall a, outside fb a -> m0 a = m a) /\
    Graphics.shows t m' (foldl (console_byte (width fb) (height fb) (to_u32 WHITE)) (mkConsole (pixel fb m0) 0 0) (boot_text fb)).
Proof.
  intros Hfb. destruct (strings_confined fb inited (draw_boot_splash fb (clear fb BLACK m)) Hfb) as (m0 & E0 & O0).
  destruct (boot_text_shows fb m0 Hfb) as (t & m' & E & Ht & (Hf & _ & Hk) & Hs).
  assert (forall a, outside fb a -> m0 a = m a) as O by (intros a Ha; rewrite O0 by done; by apply splash_confined).
  exists t, m0, m'. split_and!; [|done|exact Hf|intros a Ha; rewrite Hk by done; by apply O|exact O|exact Hs].
  unfold draw_boot_screen. rewrite E0. exact E.
Qed.

Lemma boot_screen_shows_witness :
  exists t m', draw_boot_screen (mkFramebuffer 0x100000 64 64 256) true (fun _ => 0) = Returns (Some t, m') /\ terminal_ok t.
Proof.
  destruct (boot_screen_shows (mkFramebuffer 0x100000 64 64 256) true (fun _ => 0)) as (t & m0 & m' & E & Ht & _).
  - unfold fb_ok. repeat split; vm_compute; congruence.
  - exists t, m'. split; [exact E|exact Ht].
Defined.

(** ** Mapping the frame buffer *)
Section mapping.
Context {P : Type} `{FA : FrameAllocator P}.
#[local] Existing Instance x86_64.
Implicit Types (m : machine P) (U : Z -> bool).

(** Only addresses in [lo, hi) may translate differently, and only page tables are written. *)
Record remapped U (root lo hi : Z) m m' : Prop := {
  rm_inv : pt_inv U root m';
  rm_plain : plain U root m';
  rm_hhdm : hhdm m' = hhdm m;
  rm_other : forall v, ~ (lo <= v mod 2 ^ 48 < hi) -> translate_addr root v m' = translate_addr root v m;
  rm_foreign : forall a, foreign root m a -> foreign root m' a /\ same_page m m' a
}.

Lemma remapped_refl U root lo hi m : pt_inv U root m -> plain U root m -> remapped U root lo hi m m.
Proof. by split. Qed.
Lemma remapped_trans U root lo mid hi m1 m2 m3 : lo <= mid <= hi ->
  remapped U root lo mid m1 m2 -> remapped U root mid hi m2 m3 -> remapped U root lo hi m1 m3.
Proof.
  intros Hm [? ? ? O1 F1] [? ? ? O2 F2]. split; [done|done|congruence| |].
  - intros v Hv. rewrite O2, O1 by lia. done.
  - intros a [Ha1 S1]%F1. apply F2 in Ha1 as [? S2]. split; [done|by eapply same_page_trans].
Qed.

Lemma vpn_page v k : 0 <= k < 2 ^ 36 -> vpn v = vpn (k * 4096) -> k * 4096 <= v mod 2 ^ 48 < (k + 1) * 4096.
Proof.
  intros Hk. unfold vpn. rewrite Z.div_mul, (Z.mod_small k) by lia. change (2 ^ 48) with (4096 * 2 ^ 36). rewrite Z.rem_mul_r by lia. dlia.
Qed.

Lemma map_fb_page U root m k :
  pt_inv U root m -> plain U root m -> U 0 = true -> 0 <= k -> (k + 1) * 4096 <= 2 ^ 39 ->
  match memory_map_page root (k * 4096) (k * 4096) m with
  | (Ok _, m') => remapped U root (k * 4096) ((k + 1) * 4096) m m' /\
      forall off, 0 <= off < 4096 -> translate_addr root (k * 4096 + off) m' = Some (k * 4096 + off)
  | (Err e, m') => e = out_of_memory /\ remapped U root (k * 4096) ((k + 1) * 4096) m m' /\ fst (fa_alloc (pmm m')) = None
  end.
Proof.
  intros I Hpl Hu Hk Hk'. assert (table_idx (k * 4096) 39 = 0) as Hidx.
  { rewrite table_idx_div by lia. rewrite Z.div_small by lia. done. }
  pose proof (memory_map_page_spec U root (k * 4096) (k * 4096) m I Hpl) as S. rewrite Hidx in S.
  specialize (S Hu ltac:(dlia) ltac:(dlia) ltac:(lia)). destruct (memory_map_page _ _ _ m) as [[[]|e] m'].
  - destruct S as [[? ? Htr _ Ho Hf] ?]. split; [|exact Htr]. split; [done|done|done| |done].
    intros v Hv. apply Ho. intros E. apply Hv, vpn_page; [lia|done].
  - destruct S as (-> & K & Hpl' & Hal). split_and!; [done| |done]. split; [apply K|done|apply K|intros v _; apply K|apply K].
Qed.

Lemma map_fb_pages_spec U root k n : forall i m,
  pt_inv U root m -> plain U root m -> U 0 = true -> 0 <= k -> 0 <= i -> (k + i + Z.of_nat n) * 4096 <= 2 ^ 39 ->
  match map_fb_pages n i root (k * 4096) m with
  | (Ok _, m') => remapped U root ((k + i) * 4096) ((k + i + Z.of_nat n) * 4096) m m' /\
      forall a, (k + i) * 4096 <= a < (k + i + Z.of_nat n) * 4096 -> translate_addr root a m' = Some a
  | (Err e, m') => e = out_of_memory /\ remapped U root ((k + i) * 4096) ((k + i + Z.of_nat n) * 4096) m m' /\ fst (fa_alloc (pmm m')) = None
  end.
Proof.
  induction n as [|n IH]; intros i m I Hpl Hu Hk Hi Hb; cbn [map_fb_pages].
  { split; [by apply remapped_refl|lia]. }
  assert (add64 (k * 4096) (mul64 i 0x1000) = (k + i) * 4096) as ->.
  { unfold add64, mul64. change 0x1000 with 4096. rewrite (u64_small (i * 4096)) by (unfold fits; lia). rewrite u64_small by (unfold fits; lia). lia. }
  pose proof (map_fb_page U root m (k + i) I Hpl Hu ltac:(lia) ltac:(lia)) as S.
  destruct (memory_map_page root ((k + i) * 4096) ((k + i) * 4096) m) as [[[]|e] m1].
  2:{ destruct S as (-> & R & Hal). split_and!; [done| |done].
      apply (remapped_trans U root _ ((k + i + 1) * 4096) _ m m1); [lia|done|]. by apply remapped_refl; apply R. }
  destruct S as [R Htr]. specialize (IH (i + 1) m1 (rm_inv _ _ _ _ _ _ R) (rm_plain _ _ _ _ _ _ R) Hu Hk ltac:(lia) ltac:(lia)).
  replace (k + (i + 1)) with (k + i + 1) in IH by lia. replace (k + i + 1 + Z.of_nat n) with (k + i + Z.of_nat (S n)) in IH by lia.
  destruct (map_fb_pages n (i + 1) root (k * 4096) m1) as [[[]|e] m2].
  - destruct IH as [R2 Htr2]. split; [by apply (remapped_trans U root _ ((k + i + 1) * 4096) _ m m1); [lia|..]|].
    intros a Ha. destruct (decide (a < (k + i + 1) * 4096)); [|by apply Htr2; lia].
    rewrite (rm_other _ _ _ _ _ _ R2) by (rewrite Z.mod_small; lia).
    replace a with ((k + i) * 4096 + (a - (k + i) * 4096)) by lia. apply Htr. lia.
  - destruct IH as (-> & R2 & Hal). split_and!; [done| |done]. by apply (remapped_trans U root _ ((k + i + 1) * 4096) _ m m1); [lia|..].
Qed.

End mapping.

Lemma demo_plain : plain (fun _ => true) 4096 demo_machine.
Proof. intros q t i _ _ _ Hpr. by change (entry (A := x86_64) demo_machine t i) with 0 in Hpr. Qed.


(** ** Frames and the frame buffer without Limine *)

(** The pool after step 3 when no Limine memory map answers, as on a Multiboot2 boot: the
    failure is logged, and no frame is ever in the pool. *)
Lemma no_map_pool info kernel_end_addr con :
  let ks := Info.kernel_phys_start info in
  boot_args_ok ks (add64 ks (sub64 kernel_end_addr Info.KERNEL_VMA)) HEAP_START HEAP_SIZE_x86 (Info.module info) ->
  let '(frames, con') := init_frames_x86 info None kernel_end_addr PHYSICAL_PMM con in
  con' = log_line (bytes_of "mitosOS: WARN init_pmm_from_limine failed: Limine memory map response unavailable") con /\
  vmm_alloc_frame (reclaim_boot_memory None frames) = (None, frames).
Proof.
  intros ks Hargs. unfold init_frames_x86, init_pmm_from_limine, reclaim_boot_memory. cbv iota beta zeta. fold ks.
  destruct (protect_boot_memory_spec ks (add64 ks (sub64 kernel_end_addr Info.KERNEL_VMA)) HEAP_START HEAP_SIZE_x86 (Info.module info)
    PHYSICAL_PMM (wf_new _) Hargs) as (Hwf & Hl & Hu).
  generalize dependent (protect_boot_memory ks (add64 ks (sub64 kernel_end_addr Info.KERNEL_VMA)) HEAP_START HEAP_SIZE_x86
    (Info.module info) PHYSICAL_PMM). intros fr Hwf Hl Hu. split; [reflexivity|].
  assert (forall g, 0 <= g -> used fr g = true) as Hall by (intros g Hg; rewrite Hu by done; unfold PHYSICAL_PMM; by rewrite used_new).
  assert (pmm_ok fr) as Hok by (split_and!; [done|by apply Hall|unfold Pmm.frames; rewrite Hl; vm_compute; discriminate]).
  destruct (vmm_alloc_frame fr) as [[a|] fr'] eqn:E; destruct (vmm_alloc_frame_spec fr _ fr' Hok E) as (_ & _ & Hr).
  - destruct Hr as (f & _ & Hf & Hfu & _). rewrite Hall in Hfu by lia. done.
  - by destruct Hr as [-> _].
Qed.

(** A frame buffer the kernel has to map itself, with no frame in the pool and the low
    half of the address space torn down before, as the boot code does: the first page
    fails, nothing is mapped, and the kernel goes on with the unmapped address. *)
Lemma framebuffer_unmapped {P} `{FA : FrameAllocator P} info (m : machine P) addr w h pitch con :
  fb_parameters info = (addr, w, h, pitch, true) -> 0 <= addr < 2 ^ 39 -> 0 < w -> 0 < h -> 0 < pitch * h < 2 ^ 63 ->
  fa_alloc (pmm m) = (None, pmm m) ->
  let m := unmap_low_half_identity_map m in
  exists con0, init_framebuffer info m con =
    (mkFramebuffer addr w h pitch, m,
     log_line (bytes_of "mitosOS: WARN framebuffer mapping failed: Out of memory: failed to allocate page table frame") con0).
Proof.
  intros Hp Ha Hw Hh Hph Hal m1. unfold init_framebuffer. rewrite Hp.
  assert (add64 (mul64 pitch h) 0xFFF / 0x1000 > 0) as Hn.
  { unfold add64, mul64. rewrite (u64_small (pitch * h)) by (unfold fits; lia). rewrite u64_small by (unfold fits; lia). dlia. }
  destruct (Z.to_nat (add64 (mul64 pitch h) 0xFFF / 0x1000)) as [|n] eqn:En; [lia|]. cbn [map_fb_pages].
  assert (add64 addr (mul64 0 0x1000) = addr) as ->.
  { change (mul64 0 0x1000) with 0. unfold add64. rewrite Z.add_0_r. apply u64_small. unfold fits. lia. }
  assert (memory_map_page (Z.land (root_reg m1) (not64 0xFFF)) addr addr m1 =
    (Err "Out of memory: failed to allocate page table frame"%string, m1)) as ->.
  { unfold memory_map_page, get_or_create_table.
    assert (table_idx addr 39 = 0) as ->.
    { unfold table_idx, shr. rewrite Z.shiftr_div_pow2 by lia. by rewrite Z.div_small by lia. }
    unfold m1, unmap_low_half_identity_map. cbn [mem hhdm root_reg with_mem pmm]. unfold entry_ptr. rewrite Z.add_0_r.
    rewrite read_write_u64 by done. cbn [Z.land Z.eqb negb]. rewrite Hal. reflexivity. }
  eexists. reflexivity.
Qed.

(** Without a Limine memory map, so on every Multiboot2 boot, no frame ever enters the
    pool, although the loader's own memory map was read; a frame buffer below 512 GiB that the kernel must map
    itself, which is what such a loader reports, then stays unmapped, and the kernel draws
    on it nevertheless. *)
Theorem no_limine_no_framebuffer info kernel_end_addr con0 con (mem : mem_t) hhdm cr3 addr w h pitch :
  let ks := Info.kernel_phys_start info in
  boot_args_ok ks (add64 ks (sub64 kernel_end_addr Info.KERNEL_VMA)) HEAP_START HEAP_SIZE_x86 (Info.module info) ->
  fb_parameters info = (addr, w, h, pitch, true) -> 0 <= addr < 2 ^ 39 -> 0 < w -> 0 < h -> 0 < pitch * h < 2 ^ 63 ->
  let frames := reclaim_boot_memory None (init_frames_x86 info None kernel_end_addr PHYSICAL_PMM con0).1 in
  let m := unmap_low_half_identity_map (Machine mem frames hhdm cr3 0) in
  alloc_frame frames = (None, frames) /\
  exists con1, init_framebuffer info m con =
    (mkFramebuffer addr w h pitch, m,
     log_line (bytes_of "mitosOS: WARN framebuffer mapping failed: Out of memory: failed to allocate page table frame") con1).
Proof.
  intros ks Hargs Hp Ha Hw Hh Hph frames m. pose proof (no_map_pool info kernel_end_addr con0 Hargs) as Hpool.
  unfold frames in *. destruct (init_frames_x86 info None kernel_end_addr PHYSICAL_PMM con0) as [fr c1]. cbn [fst] in *.
  destruct Hpool as [_ Hal]. split; [exact Hal|]. by apply framebuffer_unmapped.
Qed.

Lemma no_limine_no_framebuffer_witness :
  let info := Info.store_fb 0xFD000000 1024 768 4096 1 Info.initial in
  let frames := reclaim_boot_memory None (init_frames_x86 info None 0xffffffff80200000 PHYSICAL_PMM []).1 in
  alloc_frame frames = (None, frames).
Proof.
  intros info.
  destruct (no_limine_no_framebuffer info 0xffffffff80200000 [] [] (fun _ => 0) 0xFFFF800000000000 0x1000 0xFD000000 1024 768 4096) as [H _].
  - vm_compute. intuition congruence.
  - reflexivity.
  - lia.
  - lia.
  - lia.
  - lia.
  - exact H.
Defined.

Lemma init_frames_some info mm kernel_end_addr fr con :
  init_frames_x86 info (Some mm) kernel_end_addr fr con =
  (protect_boot_memory (Info.kernel_phys_start info) (add64 (Info.kernel_phys_start info) (sub64 kernel_end_addr Info.KERNEL_VMA))
     HEAP_START HEAP_SIZE_x86 (Info.module info) (snd (init_pmm_from_limine (Some mm) fr)), con).
Proof. unfold init_frames_x86, init_pmm_from_limine. cbv zeta. cbn [snd]. reflexivity. Qed.

(** The frames of a Limine boot, as main.rs goes through them: after steps 3a, 3b and 4b a
    frame is in the pool exactly when it is tracked, lies at or above 1 MiB, and either a
    USABLE entry of the memory map covers it and it belongs neither to the kernel image,
    at the physical address the loader reported, nor to the heap nor to the range given
    for the ramdisk, or a reclaimable entry covers it. *)
Theorem boot_frames_exact info mm kernel_end_addr con g :
  let ks := Info.kernel_phys_start info in
  let ke := add64 ks (sub64 kernel_end_addr Info.KERNEL_VMA) in
  memmap_ok mm -> boot_args_ok ks ke HEAP_START HEAP_SIZE_x86 (Info.module info) -> 0 <= g ->
  let r := init_frames_x86 info (Some mm) kernel_end_addr PHYSICAL_PMM con in
  r.2 = con /\
  (used (reclaim_boot_memory (Some mm) r.1) g = false <->
   256 <= g < 65536 /\
   ((covered usable mm g = true /\ boot_protected ks ke HEAP_START HEAP_SIZE_x86 (Info.module info) g = false)
    \/ covered reclaimable mm g = true)).
Proof.
  intros ks ke Hmm Hargs Hg r.
  assert (r = (protect_boot_memory ks ke HEAP_START HEAP_SIZE_x86 (Info.module info) (snd (init_pmm_from_limine (Some mm) PHYSICAL_PMM)), con)) as E
    by apply init_frames_some.
  clearbody r. subst r. split; [reflexivity|]. cbn [fst]. exact (boot_pool_x86_exact mm ks ke _ _ _ g Hmm Hargs Hg).
Qed.

Lemma boot_frames_exact_witness :
  used (reclaim_boot_memory (Some example_map) (init_frames_x86 Info.initial (Some example_map) 0xffffffff80040000 PHYSICAL_PMM []).1) 0x200 = false.
Proof.
  destruct (boot_frames_exact Info.initial example_map 0xffffffff80040000 [] 0x200) as [_ H].
  - repeat constructor; vm_compute; done.
  - vm_compute. intuition congruence.
  - lia.
  - apply H. split; [lia|]. left. split; reflexivity.
Defined.

(** The range of the ramdisk protects nothing when its address is the virtual one that
    Limine reports: no tracked frame is in it. *)
Lemma limine_module_unprotected ks ke hs hz ra rs g :
  0xFFFF800000000000 <= ra -> 0 <= g < 65536 -> boot_protected ks ke hs hz (Some (ra, rs)) g = boot_protected ks ke hs hz None g.
Proof.
  intros Hra Hg. unfold boot_protected. assert (65536 <= ra / 4096) by (apply Z.div_le_lower_bound; lia).
  rewrite (proj2 (Z.leb_gt (ra / 4096) g)) by lia. reflexivity.
Qed.

(** ** The first tasks *)
Section first_tasks.
Context {P : Type} `{FA : FrameAllocator P} `{KA : !KernelArch P} (stack_base kernel_stack_base : nat -> Z) (kernel_root : Z).

(** The stack pointers a run of timer ticks resumes, given those it interrupts. *)
Fixpoint run_ticks (sps : list Z) (s : sched P) : list Z :=
  match sps with
  | [] => []
  | p :: rest => let '(r, s) := run_schedule kernel_stack_base p s in r :: run_ticks rest s
  end.

(** Two live tasks of one address space, the first or the second of them running; [p] is
    where the other one stopped. *)
Definition two_tasks (second : bool) (p : Z) (s : sched P) : Prop :=
  exists a b, TASKS s = [a; b; Task_empty; Task_empty] /\ CURRENT_TASK s = (if second then 1 else 0)%nat /\ TASK_INITIALIZED s = true /\
    state (if second then b else a) = Running /\ state (if second then a else b) = Ready /\
    sp (if second then a else b) = p /\ memory_root a = memory_root b.

Lemma two_tasks_tick second p q s : two_tasks second p s -> q <> 0 ->
  exists s', run_schedule kernel_stack_base q s = (p, s') /\ two_tasks (negb second) q s'.
Proof.
  intros (a & b & Ht & Hc & Hi & Hr & Hw & Hp & Hm) Hq%Z.eqb_neq. destruct s as [tasks cur init vm rsp0 frames].
  cbn [TASKS CURRENT_TASK TASK_INITIALIZED] in *. subst tasks cur init.
  destruct a as [ia pa sa ra oa ga ta ma fa], b as [ib pb sb rb ob gb tb mb fb]. cbn [memory_root] in Hm. subst rb.
  destruct second; cbn in Hr, Hw, Hp; subst;
    cbv -[Z.eqb kernel_stack_top sets_rsp0 free_process_page_table with_root two_tasks]; rewrite Hq;
    cbv -[Z.eqb kernel_stack_top sets_rsp0 free_process_page_table with_root two_tasks]; rewrite Z.eqb_refl;
    destruct sets_rsp0; eexists; (split; [reflexivity|]); eexists _, _; split_and!; reflexivity.
Qed.

Lemma run_ticks_alternate sps : forall second p s, two_tasks second p s -> Forall (fun q => q <> 0) sps ->
  run_ticks sps s = take (length sps) (p :: sps).
Proof.
  induction sps as [|q sps IH]; intros second p s Hs Hq; [done|]. apply Forall_cons in Hq as [Hq0 Hq]. cbn [run_ticks length take].
  destruct (two_tasks_tick second p q s Hs Hq0) as (s' & -> & Hs'). f_equal. by apply (IH (negb second)).
Qed.

(** The first tasks: after the boot code has spawned its two workers, every timer tick
    resumes what the tick before it interrupted, and the first one enters the second
    worker, through the frame that leads to its entry point: the boot code, which goes on
    as the shell, and the second worker alternate, and the frame of the first worker is
    never resumed. *)
Theorem boot_tasks_alternate worker worker_2 (m : machine P) sps :
  Forall (fun q => q <> 0) sps ->
  let s := spawn_workers stack_base kernel_root worker worker_2 (boot_sched m) in
  run_ticks sps s = take (length sps) (frame_ptr stack_base 1 :: sps) /\
  frames s (frame_ptr stack_base 1) = Some (first_context false worker_2 (Z.land (add64 (stack_base 1%nat) STACK_SIZE) (not64 0xF)) 0).
Proof.
  intros Hq s. split.
  - apply (run_ticks_alternate sps false); [|done]. eexists _, _. split_and!; reflexivity.
  - assert (forall x, frames s x = if x =? frame_ptr stack_base 1
      then Some (first_context false worker_2 (Z.land (add64 (stack_base 1%nat) STACK_SIZE) (not64 0xF)) 0)
      else if x =? frame_ptr stack_base 0
      then Some (first_context false worker (Z.land (add64 (stack_base 0%nat) STACK_SIZE) (not64 0xF)) 0) else None) as -> by reflexivity.
    by rewrite Z.eqb_refl.
Qed.
End first_tasks.

Lemma boot_tasks_alternate_witness :
  run_ticks demo_ksb [0x9000; 0x8000; 0x9100] (spawn_workers demo_sb 0 0x4000 0x5000 (boot_sched demo_machine)) =
  [frame_ptr demo_sb 1; 0x9000; 0x8000].
Proof.
  destruct (boot_tasks_alternate demo_sb demo_ksb 0 0x4000 0x5000 demo_machine [0x9000; 0x8000; 0x9100]) as [E _].
  - repeat constructor; lia.
  - exact E.
Defined.
