(* ===== verification/User.v ===== *)
(** The user library and the test program (src/userspace/libmitos/src/lib.rs,
    src/userspace/test_app/src/main.rs), run against the kernel's system calls. *)
From S2P Require Import Prelude Pmm Vmm VmmCorrect Uart Task TaskCorrect Syscall SyscallCorrect Gdt Interrupts.
#[local] Open Scope kernel_scope.

(** ** The system calls of a process

    [K] is what the processes share, the kernel.  The `syscall` instruction enters it with
    the registers rax, rdi, rsi and rdx, and comes back with a value in rax or not at all. *)
Class SyscallInsn (K : Type) := { syscall_insn : Z -> Z -> Z -> Z -> K -> sysres * K }.

(** Code of a process: it goes on with a value, ends in the kernel, or spins. *)
Inductive progress (A : Type) := Going (a : A) | Gone (r : sysres) | Spinning.
Arguments Going {A}. Arguments Gone {A}. Arguments Spinning {A}.
Definition proc (K A : Type) : Type := K -> progress A * K.
Definition pret {K A} (a : A) : proc K A := fun k => (Going a, k).
Definition pbind {K A B} (c : proc K A) (f : A -> proc K B) : proc K B := fun k =>
  match c k with
  | (Going a, k) => f a k
  | (Gone r, k) => (Gone r, k)
  | (Spinning, k) => (Spinning, k)
  end.
Notation "x <~~ c ; d" := (pbind c (fun x => d)) (at level 100, c at next level, right associativity) : kernel_scope.

Section libmitos.
Context {K : Type} `{SyscallInsn K}.

(** The asm blocks; [rsi] and [rdx] are what these registers happen to hold. *)
Definition syscall1 (rsi rdx num arg1 : Z) : proc K Z := fun k =>
  match syscall_insn num arg1 rsi rdx k with
  | (SysRet v, k) => (Going v, k)
  | (r, k) => (Gone r, k)
  end.
Definition syscall3 (num arg1 arg2 arg3 : Z) : proc K Z := fun k =>
  match syscall_insn num arg1 arg2 arg3 k with
  | (SysRet v, k) => (Going v, k)
  | (r, k) => (Gone r, k)
  end.

(** `exit`: the loop behind the call spins. *)
Definition exit_process (rsi rdx status : Z) : proc K unit :=
  _ <~~ syscall1 rsi rdx SYS_EXIT status; fun k => (Spinning, k).

(** A `&[u8]` of the process: its address and its bytes. *)
Definition slice_ref : Type := Z * list Z.
Definition write (fd : Z) (buf : slice_ref) : proc K Z := syscall3 SYS_WRITE fd buf.1 (Z.of_nat (length buf.2)).

(** `StdOut::write_str` *)
Definition stdout_write_str (s : slice_ref) : proc K unit := _ <~~ write 1 s; pret tt.

(** `_print`: `write_fmt` passes the pieces of the text one by one. *)
Fixpoint _print (pieces : list slice_ref) : proc K unit :=
  match pieces with
  | [] => pret tt
  | s :: rest => _ <~~ stdout_write_str s; _print rest
  end.

(** [pieces] is how the compiled format string cuts a text, and where the parts lie. *)
Context (pieces : list Z -> list slice_ref) (rsi rdx : Z).
Definition println (text : list Z) : proc K unit := _print (pieces (text ++ [10])).

(** `panic`; [info] is the formatted message. *)
Definition panic (info : list Z) : proc K unit :=
  _ <~~ println ([10] ++ bytes_of "[USER SPACE PANIC] " ++ info); exit_process rsi rdx 1.

(** ** The test program *)
Definition sys_name : list Z := bytes_of "mitosOS".
Definition arch : list Z := bytes_of "x86_64".

Definition _start : proc K unit :=
  _ <~~ println (bytes_of "----------------------------------------");
  _ <~~ println (bytes_of " mitosOS Ring 3 Initialized Successfully");
  _ <~~ println (bytes_of "----------------------------------------");
  _ <~~ println (bytes_of "Running on: " ++ sys_name ++ bytes_of " (" ++ arch ++ bytes_of ")");
  _ <~~ println (bytes_of "User application shutting down...");
  exit_process rsi rdx 0.
End libmitos.

(** ** The program on the kernel *)
Definition app_lines : list (list Z) :=
  [bytes_of "----------------------------------------"; bytes_of " mitosOS Ring 3 Initialized Successfully";
   bytes_of "----------------------------------------"; bytes_of "Running on: mitosOS (x86_64)";
   bytes_of "User application shutting down..."].
Definition with_newline (l : list Z) : list Z := l ++ [10].

Section on_kernel.
Context {P : Type} `{FA : FrameAllocator P} `{KA : !KernelArch P}.
Context (show show_hex : Z -> list Z) (OS_VERSION OS_ARCH : list Z).
Implicit Types k : kernel P.

(** `syscall` as the kernel's register-level entry serves it. *)
#[local] Instance served : SyscallInsn (kernel P) := {| syscall_insn := x86_syscall_trap show OS_VERSION OS_ARCH |}.

Definition printed (bs : list Z) k : kernel P := Kernel (ks k) (input k) (write_str bs (console k)).

(** A part of the text that the process holds in readable memory of its own. *)
Definition piece_ok k (s : slice_ref) : Prop :=
  s.2 = [] \/
  (s.1 <> 0 /\ validate_user_ptr s.1 (Z.of_nat (length s.2)) false k = true /\
   vread_bytes (vm (ks k)) s.1 (length s.2) = Some s.2 /\ from_utf8_ok s.2 = true).

Lemma write_str_printed k s : piece_ok k s -> stdout_write_str s k = (Going tt, printed s.2 k).
Proof.
  unfold stdout_write_str, write, syscall3, pbind, syscall_insn. cbn [served]. unfold x86_syscall_trap, syscall_handler, sys_write.
  destruct s as [a bs]. unfold piece_ok. cbn [fst snd]. change (SYS_WRITE =? SYS_WRITE) with true. change (1 =? 1) with true. cbn [negb andb orb].
  intros [->|(Ha & Hv & Hr & Hu)].
  - rewrite orb_true_r. by destruct k.
  - destruct bs as [|b bs]; [rewrite orb_true_r; by destruct k|]. apply Z.eqb_neq in Ha. rewrite Ha, Hv.
    change (Z.of_nat (length (b :: bs)) =? 0) with false. cbn [orb negb]. rewrite Nat2Z.id, Hr, Hu. done.
Qed.

Lemma print_printed ps : forall k, Forall (piece_ok k) ps -> _print ps k = (Going tt, printed (concat (map snd ps)) k).
Proof.
  induction ps as [|s ps IH]; intros k Hps; [by destruct k|]. apply Forall_cons in Hps as [Hs Hps]. cbn [_print map concat].
  unfold pbind. rewrite write_str_printed by done. rewrite IH by done. unfold printed. cbn [ks input console]. by rewrite write_str_app.
Qed.

Context (pieces : list Z -> list slice_ref) (rsi rdx : Z).

(** The text is cut into parts that make it up, each in readable memory. *)
Definition text_ok k (text : list Z) : Prop := concat (map snd (pieces text)) = text /\ Forall (piece_ok k) (pieces text).

Lemma println_printed k l : text_ok k (with_newline l) -> println pieces l k = (Going tt, printed (with_newline l) k).
Proof. intros [E Hp]. unfold println. fold (with_newline l). rewrite print_printed by done. by rewrite E. Qed.

Lemma exit_ends k : exit_process rsi rdx 0 k = (Gone SysExit, with_ks (exit (ks k)) k).
Proof. reflexivity. Qed.

End on_kernel.

(** A processor with the `syscall` instruction disabled, as the kernel leaves it: the
    instruction at [rip] is undefined (vector 6). *)
Section on_processor.
Context {P : Type} `{FA : FrameAllocator P} `{KA : !KernelArch P}.
Context (show show_hex : Z -> list Z) (rip : Z) (pieces : list Z -> list slice_ref) (rsi rdx : Z).

#[local] Instance undefined_insn : SyscallInsn (kernel P) := {|
  syscall_insn _ _ _ _ k :=
    match fault_common_handler show show_hex 6 0 rip 0 k with
    | (TaskExit, k) => (SysExit, k)
    | (_, k) => (SysFault, k)
    end
|}.

(** As the kernel is, the test program ends at its first `syscall`: none of its text
    reaches the console, which shows the kernel's report of an invalid opcode. *)
Theorem test_app_killed (k : kernel P) s ps :
  rip_in_user_range rip = true -> pieces (bytes_of "----------------------------------------" ++ [10]) = s :: ps ->
  exists k', _start pieces rsi rdx k = (Gone SysExit, k') /\ ks k' = exit (ks k) /\
    console k' = write_str (bytes_of "[OS] Terminating isolated task..." ++ [10])
      (write_str (([13; 10] ++ bytes_of "[OS] User process triggered " ++ bytes_of "Invalid Opcode (#UD)" ++ bytes_of " (vector " ++ show 6 ++
                   bytes_of ") at RIP: 0x" ++ show_hex rip) ++ [10]) (console k)).
Proof.
  intros Hr Hp. unfold _start, println. unfold pbind at 1. rewrite Hp. cbn [_print]. unfold pbind at 1, stdout_write_str, write, syscall3, pbind.
  cbn [syscall_insn undefined_insn]. unfold fault_common_handler, is_user_fault. rewrite Hr. cbn -[bytes_of write_str app].
  eexists. split; [reflexivity|]. split; reflexivity.
Qed.
End on_processor.

(** ** Concrete instances *)

(** The text of the program at the start of the page of [demo_user_kernel], every line
    passed in two parts. *)
Fixpoint place (ls : list (list Z)) (a : Z) (text : list Z) : list slice_ref :=
  match ls with
  | [] => []
  | l :: ls' =>
      let t := with_newline l in
      if bool_decide (t = text) then [(a, take 12 t); (a + 12, drop 12 t)] else place ls' (a + Z.of_nat (length t)) text
  end.
Definition app_pieces : list Z -> list slice_ref := place app_lines 0x8000001000.
Definition app_kernel : kernel bitmap :=
  with_kmem (copy_to (mem (demo_mapped x86_64)) (p2v (PageArch := x86_64) (hhdm (demo_mapped x86_64)) 0x7000)
    (concat (map with_newline app_lines))) demo_user_kernel.

Definition piece_okb (k : kernel bitmap) (s : slice_ref) : bool :=
  negb (s.1 =? 0) && validate_user_ptr s.1 (Z.of_nat (length s.2)) false k &&
  bool_decide (vread_bytes (vm (ks k)) s.1 (length s.2) = Some s.2) && from_utf8_ok s.2.
Lemma piece_ok_dec k s : piece_okb k s = true -> piece_ok k s.
Proof.
  unfold piece_okb. rewrite !andb_true_iff, negb_true_iff, Z.eqb_neq. intros [[[? ?] E] ?]. right. apply bool_decide_eq_true in E. done.
Qed.


Lemma test_app_killed_witness :
  exists k', _start (H := undefined_insn (fun _ => []) (fun _ => []) 0x8000001000) app_pieces 0 0 app_kernel = (Gone SysExit, k').
Proof.
  destruct (test_app_killed (fun _ => []) (fun _ => []) 0x8000001000 app_pieces 0 0 app_kernel
    (0x8000001000, take 12 (with_newline (bytes_of "----------------------------------------")))
    [(0x8000001000 + 12, drop 12 (with_newline (bytes_of "----------------------------------------")))]) as (k' & E & _).
  - reflexivity.
  - vm_compute. reflexivity.
  - exists k'. exact E.
Defined.
