(* ===== verification/Kmain.v ===== *)
(** `kmain` (src/src/main.rs) on x86_64: the stages of [Main] and the initialisers of the
    other files, in the order of the code, over one state of the kernel.

    The devices and the other processors are behind the classes the drivers use; they
    share memory with the kernel.  The console holds the lines that main.rs writes. *)
From S2P Require Import Prelude Ports Pmm Vmm VmmTheory VmmCorrect Heap Uart UartDev Block Fat32 Ata Vfs Acpi Boot Graphics Task Pci Ahci Shell Gdt Interrupts Smp Main.
#[local] Open Scope kernel_scope.

(** What the linker and the build put into the image: the addresses of the tables, of the
    stubs and of the entry points, the end of the kernel, the trampoline and the embedded
    archive. *)
Record image := mkImage {
  GDT_at : Z; TSS_at : Z; DOUBLE_FAULT_STACK_at : Z; IDT_at : Z; stubs_at : stubs;
  kernel_end_at : Z; TRAMPOLINE_BLOB : list Z; rust_ap_entry_at : Z; RAW_TAR : list Z;
  background_worker_at : Z; background_worker_2_at : Z }.

Section kmain.
Context {D : Type} `{!Cpu D} `{!PortIO (system D)} `{!Ahci.Hal D} `{!PortIO (Ahci.world D)}.

(** The statics of the kernel, the registers of the boot processor that the boot code sets,
    memory and devices ([sys], shared with the other processors). *)
Record kstate := mkKstate {
  uart : list Z;
  boot : Info.state;
  cpu_tables : PerCpu; segments : Segments;
  IDT : list IdtEntry; idtr : Z * Z;
  HEAP_ALLOCATOR : FastBlockAllocator; heap_ready : bool;
  pool : bitmap; HHDM : Z; cr3 : Z;
  MADT : MadtData;
  sys : system D;
  interrupts_on : bool;
  ahci_statics : Z * list bool * Z;
  VFS : @VirtualFileSystem RamBlockDevice; disk_state : RamBlockDevice;
  WRITER : option Terminal;
  tasks : sched bitmap }.

Definition set_uart (c : list Z) (k : kstate) : kstate :=
  mkKstate c (boot k) (cpu_tables k) (segments k) (IDT k) (idtr k) (HEAP_ALLOCATOR k) (heap_ready k) (pool k) (HHDM k) (cr3 k)
    (MADT k) (sys k) (interrupts_on k) (ahci_statics k) (VFS k) (disk_state k) (WRITER k) (tasks k).
Definition set_boot (i : Info.state) (k : kstate) : kstate :=
  mkKstate (uart k) i (cpu_tables k) (segments k) (IDT k) (idtr k) (HEAP_ALLOCATOR k) (heap_ready k) (pool k) (HHDM k) (cr3 k)
    (MADT k) (sys k) (interrupts_on k) (ahci_statics k) (VFS k) (disk_state k) (WRITER k) (tasks k).
Definition set_tables (t : PerCpu) (s : Segments) (k : kstate) : kstate :=
  mkKstate (uart k) (boot k) t s (IDT k) (idtr k) (HEAP_ALLOCATOR k) (heap_ready k) (pool k) (HHDM k) (cr3 k)
    (MADT k) (sys k) (interrupts_on k) (ahci_statics k) (VFS k) (disk_state k) (WRITER k) (tasks k).
Definition set_idt (i : list IdtEntry) (r : Z * Z) (k : kstate) : kstate :=
  mkKstate (uart k) (boot k) (cpu_tables k) (segments k) i r (HEAP_ALLOCATOR k) (heap_ready k) (pool k) (HHDM k) (cr3 k)
    (MADT k) (sys k) (interrupts_on k) (ahci_statics k) (VFS k) (disk_state k) (WRITER k) (tasks k).
Definition set_heap (h : FastBlockAllocator) (b : bool) (k : kstate) : kstate :=
  mkKstate (uart k) (boot k) (cpu_tables k) (segments k) (IDT k) (idtr k) h b (pool k) (HHDM k) (cr3 k)
    (MADT k) (sys k) (interrupts_on k) (ahci_statics k) (VFS k) (disk_state k) (WRITER k) (tasks k).
Definition set_pool (p : bitmap) (k : kstate) : kstate :=
  mkKstate (uart k) (boot k) (cpu_tables k) (segments k) (IDT k) (idtr k) (HEAP_ALLOCATOR k) (heap_ready k) p (HHDM k) (cr3 k)
    (MADT k) (sys k) (interrupts_on k) (ahci_statics k) (VFS k) (disk_state k) (WRITER k) (tasks k).
Definition set_hhdm (a : Z) (k : kstate) : kstate :=
  mkKstate (uart k) (boot k) (cpu_tables k) (segments k) (IDT k) (idtr k) (HEAP_ALLOCATOR k) (heap_ready k) (pool k) a (cr3 k)
    (MADT k) (sys k) (interrupts_on k) (ahci_statics k) (VFS k) (disk_state k) (WRITER k) (tasks k).
Definition set_madt (d : MadtData) (k : kstate) : kstate :=
  mkKstate (uart k) (boot k) (cpu_tables k) (segments k) (IDT k) (idtr k) (HEAP_ALLOCATOR k) (heap_ready k) (pool k) (HHDM k) (cr3 k)
    d (sys k) (interrupts_on k) (ahci_statics k) (VFS k) (disk_state k) (WRITER k) (tasks k).
Definition set_sys (s : system D) (k : kstate) : kstate :=
  mkKstate (uart k) (boot k) (cpu_tables k) (segments k) (IDT k) (idtr k) (HEAP_ALLOCATOR k) (heap_ready k) (pool k) (HHDM k) (cr3 k)
    (MADT k) s (interrupts_on k) (ahci_statics k) (VFS k) (disk_state k) (WRITER k) (tasks k).
Definition set_interrupts (b : bool) (k : kstate) : kstate :=
  mkKstate (uart k) (boot k) (cpu_tables k) (segments k) (IDT k) (idtr k) (HEAP_ALLOCATOR k) (heap_ready k) (pool k) (HHDM k) (cr3 k)
    (MADT k) (sys k) b (ahci_statics k) (VFS k) (disk_state k) (WRITER k) (tasks k).
Definition set_ahci (a : Z * list bool * Z) (k : kstate) : kstate :=
  mkKstate (uart k) (boot k) (cpu_tables k) (segments k) (IDT k) (idtr k) (HEAP_ALLOCATOR k) (heap_ready k) (pool k) (HHDM k) (cr3 k)
    (MADT k) (sys k) (interrupts_on k) a (VFS k) (disk_state k) (WRITER k) (tasks k).
Definition set_vfs (v : @VirtualFileSystem RamBlockDevice) (d : RamBlockDevice) (k : kstate) : kstate :=
  mkKstate (uart k) (boot k) (cpu_tables k) (segments k) (IDT k) (idtr k) (HEAP_ALLOCATOR k) (heap_ready k) (pool k) (HHDM k) (cr3 k)
    (MADT k) (sys k) (interrupts_on k) (ahci_statics k) v d (WRITER k) (tasks k).
Definition set_writer (w : option Terminal) (k : kstate) : kstate :=
  mkKstate (uart k) (boot k) (cpu_tables k) (segments k) (IDT k) (idtr k) (HEAP_ALLOCATOR k) (heap_ready k) (pool k) (HHDM k) (cr3 k)
    (MADT k) (sys k) (interrupts_on k) (ahci_statics k) (VFS k) (disk_state k) w (tasks k).
Definition set_tasks (t : sched bitmap) (k : kstate) : kstate :=
  mkKstate (uart k) (boot k) (cpu_tables k) (segments k) (IDT k) (idtr k) (HEAP_ALLOCATOR k) (heap_ready k) (pool k) (HHDM k) (cr3 k)
    (MADT k) (sys k) (interrupts_on k) (ahci_statics k) (VFS k) (disk_state k) (WRITER k) t.

(** Memory as the drivers see it, and the memory code with it. *)
Definition kmem (k : kstate) : mem_t := sys_ram (sys k).
Definition set_kmem (m : mem_t) (k : kstate) : kstate := set_sys (set_sys_ram m (sys k)) k.
Definition kvm (k : kstate) : machine bitmap := Machine (kmem k) (pool k) (HHDM k) (cr3 k) 0.
Definition set_kvm (m : machine bitmap) (k : kstate) : kstate := set_kmem (mem m) (set_pool (pmm m) k).

(** ** Running a component's code on the state *)
Definition kmap (f : kstate -> kstate) : io kstate unit := fun k => (Val tt, f k).
Definition klog (f : list Z -> list Z) : io kstate unit := kmap (fun k => set_uart (f (uart k)) k).
Definition kline (s : string) : io kstate unit := klog (log_line (bytes_of s)).
Definition on_sys {A} (c : act (system D) A) : io kstate A := fun k => let '(a, s) := c (sys k) in (Val a, set_sys s k).
Definition on_kvm {A} (c : machine bitmap -> list Z -> A * machine bitmap * list Z) : io kstate A := fun k =>
  let '(a, m, con) := c (kvm k) (uart k) in (Val a, set_uart con (set_kvm m k)).
Definition of_stop {A} (r : Result A stop) : io kstate A :=
  match r with
  | Ok a => ret a
  | Err WaitsForever => no_fuel
  | Err AllocationFailed | Err BadIndex => panic
  end.

(** The AHCI driver keeps its own statics beside the memory and the devices. *)
Definition on_ahci {A} (c : act (Ahci.world D) A) : io kstate A := fun k =>
  let '(base, completion, pending) := ahci_statics k in
  let '(a, w) := c (World base completion pending (kmem k) (hw (sys k))) in
  (Val a, set_ahci (AHCI_BASE_VIRT w, SLOT_COMPLETION w, PENDING_SLOTS w) (set_sys (set_hw (dev w) (set_sys_ram (ram w) (sys k))) k)).

(** [q] is what Limine wrote into the requests; [img] the image; [fuel] bounds the waits of
    processor bring-up and the clusters a file may have. *)
Context (img : image) (q : Limine.requests) (fuel : nat).

(** ** Lines 75 to 174: up to the point where interrupts are on *)

Definition init_tables : io kstate unit := kmap (fun k =>
  let '(t, s) := Gdt.init (GDT_at img) (TSS_at img) (DOUBLE_FAULT_STACK_at img) (cpu_tables k) (segments k) in set_tables t s k).

Definition init_interrupts : io kstate unit := fun k =>
  let '((idt, r), s) := init_x86 (stubs_at img) (IDT_at img) (IDT k) (sys k) in (Val tt, set_idt idt r (set_sys s k)).

Definition init_heap : io kstate unit := kmap (fun k =>
  let h := init_memory_subsystem HEAP_START HEAP_SIZE_x86 (Heap (HEAP_ALLOCATOR k) (heap_ready k) (kmem k)) in
  set_heap (fba h) (INITIALIZED h) k).

Definition init_frames : io kstate unit := kmap (fun k =>
  let '(p, con) := init_frames_x86 (boot k) (Limine.memmap (kmem k) q) (kernel_end_at img) (pool k) (uart k) in
  set_uart con (set_pool p k)).

(** `hal::init`. *)
Definition hal_init : io kstate unit :=
  _ <~ klog (Uart.write_str (bytes_of "mitosOS: Initializing Hardware Abstraction Layer..." ++ [10]));
  fun k =>
    match acpi_init (kmem k) (X86.phys_to_virt (HHDM k)) (Limine.rsdp (kmem k) q) (Limine.loaded_base_revision q) (MADT k) with
    | Some d => (Val tt, set_madt d k)
    | None => (NoFuel, k)
    end.

Definition start_processors : io kstate unit := fun k =>
  bind (on_sys (start_aps (HHDM k) fuel (TRAMPOLINE_BLOB img) (rust_ap_entry_at img) (MADT k))) of_stop k.

Definition reclaim : io kstate unit := kmap (fun k => set_pool (reclaim_boot_memory (Limine.memmap (kmem k) q) (pool k)) k).
Definition unmap_low_half : io kstate unit := kmap (fun k => set_kvm (unmap_low_half_identity_map (kvm k)) k).

(** `uart.enable_interrupts` and `sti`. *)
Definition enable_interrupts : io kstate unit :=
  _ <~ on_sys Com1.enable_interrupts;
  kmap (set_interrupts true).

Definition kmain_early : io kstate unit :=
  _ <~ on_sys Com1.init;
  _ <~ (fun k => klog (log_protocol q (boot k)) k);
  _ <~ init_tables;
  _ <~ init_interrupts;
  _ <~ kline "[boot] 1: interrupts::init() returned";
  _ <~ init_heap;
  _ <~ init_frames;
  _ <~ kline "[boot] 2: memory subsystem + protect_boot_memory done";
  _ <~ hal_init;
  _ <~ start_processors;
  _ <~ reclaim;
  _ <~ unmap_low_half;
  _ <~ enable_interrupts;
  kline "mitosOS: kernel_main reached. Boot OK.".

(** ** Lines 176 to 426: devices, file systems, the screen, the first tasks

    [identify_buf], [debug_ahci_error]: as for `init_ahci_devices`; [from_utf8_lossy] and
    [to_lowercase]: as for the FAT driver; [stack_base] and [kernel_root]: as for `spawn`. *)
Context (identify_buf : Z) (debug_ahci_error : AhciError -> list Z) (from_utf8_lossy to_lowercase : list Z -> list Z)
  (stack_base : nat -> Z) (kernel_root : Z).

Definition list_pci : io kstate unit := fun k =>
  bind (on_sys (log_pci_devices (uart k))) (fun con => kmap (set_uart con)) k.

Definition take_frame : io kstate unit :=
  on_kvm (fun m con => let '(m, con) := log_first_frame m con in (tt, m, con)).

Definition start_ahci : io kstate unit := fun k =>
  bind (on_ahci (init_ahci_devices identify_buf debug_ahci_error (uart k))) (fun con => kmap (set_uart con)) k.

(** The ramdisk that is passed on to the shell. *)
Definition open_initrd : io kstate (option TarFileSystem) := fun k =>
  let '(inited, con) := find_initrd (boot k) (kmem k) (RAW_TAR img) (uart k) in
  let '(vfs, con) := mount_initrd inited (VFS k) con in
  (Val inited, set_uart con (set_vfs vfs (disk_state k) k)).

Definition start_screen (inited : bool) : io kstate unit :=
  fb <~ (fun k => on_kvm (init_framebuffer (boot k)) k);
  fun k =>
    match draw_boot_screen fb inited (kmem k) with
    | Returns (w, m) => (Val tt, set_writer w (set_kmem m k))
    | Panics => (Panicked, k)
    end.

(** The RAM disk, and what is mounted at /disk. *)
Definition mount_disk : io kstate unit := fun k =>
  match mount_ram_fat (uart k) with
  | (Val (Some (g, d)), con) =>
      (Val tt, set_uart con (set_vfs (vfs_mount (bytes_of "/disk") (Fat32Adapter from_utf8_lossy to_lowercase g fuel) (VFS k)) d k))
  | (Val None, con) => (Val tt, set_uart con k)
  | (Fail e, con) => (Fail e, set_uart con k)
  | (Panicked, con) => (Panicked, set_uart con k)
  | (NoFuel, con) => (NoFuel, set_uart con k)
  end.

Definition try_ata : io kstate unit := fun k =>
  let '(r, (con, s)) := probe_ata from_utf8_lossy to_lowercase fuel (uart k, sys k) in (r, set_uart con (set_sys s k)).

Definition start_workers : io kstate unit := kmap (fun k =>
  let s := spawn_workers stack_base kernel_root (background_worker_at img) (background_worker_2_at img) (with_vm (kvm k) (tasks k)) in
  set_tasks s (set_kvm (vm s) k)).

(** The rest of `kmain_common`; it returns what `shell::run` is called with. *)
Definition kmain_late : io kstate (option TarFileSystem) :=
  _ <~ list_pci;
  _ <~ take_frame;
  _ <~ start_ahci;
  inited <~ open_initrd;
  _ <~ start_screen (match inited with Some _ => true | None => false end);
  _ <~ on_sys timer_init;
  _ <~ mount_disk;
  _ <~ try_ata;
  _ <~ start_workers;
  ret inited.

Definition kmain_common : io kstate (option TarFileSystem) := _ <~ kmain_early; kmain_late.

(** `kmain`: the boot information first. *)
Definition kmain (boot_arg0 boot_arg1 : Z) : io kstate (option TarFileSystem) := fun k =>
  match Info.init (kmem k) q boot_arg0 boot_arg1 (boot k) with
  | Some info => kmain_common (set_hhdm (Info.HHDM_OFFSET info) (set_boot info k))
  | None => (NoFuel, k)
  end.
End kmain.
