(* ===== verification/KmainCorrect.v ===== *)
(** The order of the boot is right: interrupts are off until the tables, the heap, the frame
    pool and the page table that their handlers need are in place. *)
From S2P Require Import Prelude Ports Pmm Vmm VmmTheory VmmCorrect Heap Uart UartDev Block Fat32 Ata Vfs Acpi Boot BootCorrect Graphics Task TaskCorrect Pci Ahci Gdt Interrupts Smp Main MainCorrect Kmain.
#[local] Open Scope kernel_scope.

Section early.
Context {D : Type} `{!Cpu D} `{!PortIO (system D)}.
Context (img : image) (q : Limine.requests) (fuel : nat).
Abbreviation kst := (@kstate D).

(** Accesses to ports do not change memory. *)
Context (inb_ram : forall port s, sys_ram (Ports.inb port s).2 = sys_ram s) (outb_ram : forall port v s, sys_ram (outb port v s) = sys_ram s).

(** The addresses in the image. *)
Definition image_ok : Prop :=
  stubs_ok (stubs_at img) /\ fits 64 (TSS_at img) /\ 0 <= DOUBLE_FAULT_STACK_at img /\ DOUBLE_FAULT_STACK_at img + DF_STACK_SIZE < 2 ^ 64.

(** The statics as the image has them. *)
Definition fresh (k : kst) : Prop :=
  cpu_tables k = PerCpu_new /\ IDT k = IDT_initial /\ HEAP_ALLOCATOR k = FastBlockAllocator_new /\ pool k = PHYSICAL_PMM /\ interrupts_on k = false.

(** What an interrupt handler relies on. *)
Record ready (k : kst) : Prop := {
  rd_tables : tables_ready (GDT_at img) (TSS_at img) (DOUBLE_FAULT_STACK_at img + DF_STACK_SIZE) (cpu_tables k) (segments k);
  rd_gates : length (IDT k) = 256%nat /\ idtr k = (16 * 256 - 1, IDT_at img) /\ forall v e, IDT k !! v = Some e -> gate_ok (stubs_at img) v e;
  rd_heap : heap_ready k = true /\ HEAP_ALLOCATOR k = {| buckets := replicate BUCKET_COUNT 0; heap_start := HEAP_START;
              heap_end := HEAP_START + HEAP_SIZE_x86; next_free_byte := HEAP_START |};
  rd_low : forall v, 0 <= v < 2 ^ 39 -> translate_addr (A := x86_64) (Z.land (cr3 k) (not64 0xFFF)) v (kvm k) = None
}.

(** *** The parts of the run *)
Lemma on_sys_val {A} (c : act (system D) A) (k : kst) : on_sys c k = (Val (c (sys k)).1, set_sys (c (sys k)).2 k).
Proof. unfold on_sys. by destruct (c (sys k)). Qed.

Lemma init_x86_tables s idt : (init_x86 (stubs_at img) (IDT_at img) idt s).1 = (install_gates (stubs_at img) idt, idt_pointer (IDT_at img)).
Proof. reflexivity. Qed.


(** The state in front of ACPI discovery, with the pool [p] and the console [c]. *)
Definition before_hal (p : bitmap) (c : list Z) (k : kst) : kst :=
  let ts := Gdt.init (GDT_at img) (TSS_at img) (DOUBLE_FAULT_STACK_at img) (cpu_tables k) (segments k) in
  mkKstate c (boot k) ts.1 ts.2 (install_gates (stubs_at img) (IDT k)) (idt_pointer (IDT_at img))
    {| buckets := buckets (HEAP_ALLOCATOR k); heap_start := HEAP_START; heap_end := add64 HEAP_START HEAP_SIZE_x86; next_free_byte := HEAP_START |} true
    p (HHDM k) (cr3 k) (MADT k)
    (init_x86 (stubs_at img) (IDT_at img) (IDT k) (Com1.init (sys k)).2).2 (interrupts_on k) (ahci_statics k) (VFS k) (disk_state k) (WRITER k) (tasks k).

(** The pool does not depend on what is on the console. *)
Lemma init_frames_pool info mm e fr con con' : (init_frames_x86 info mm e fr con).1 = (init_frames_x86 info mm e fr con').1.
Proof. unfold init_frames_x86. by destruct (init_pmm_from_limine mm fr). Qed.

Lemma init_x86_ram idt s : sys_ram (init_x86 (stubs_at img) (IDT_at img) idt (Com1.init s).2).2 = sys_ram s.
Proof. unfold init_x86, remap_pic, init_pit, Com1.init, act_bind, effect, done. cbn [snd]. by rewrite !outb_ram. Qed.

Lemma kline_val s (k : kst) : kline s k = (Val tt, set_uart (log_line (bytes_of s) (uart k)) k).
Proof. reflexivity. Qed.
Lemma kmap_val f (k : kst) : kmap f k = (Val tt, f k).
Proof. reflexivity. Qed.

Definition after_hal : io kst unit :=
  bind (start_processors img fuel) (fun _ => bind (reclaim q) (fun _ => bind unmap_low_half (fun _ =>
  bind enable_interrupts (fun _ => kline "mitosOS: kernel_main reached. Boot OK.")))).

Lemma init_frames_val (k : kst) :
  let r := init_frames_x86 (boot k) (Limine.memmap (kmem k) q) (kernel_end_at img) (pool k) (uart k) in
  init_frames img q k = (Val tt, set_uart r.2 (set_pool r.1 k)).
Proof. unfold init_frames, kmap. by destruct (init_frames_x86 _ _ _ _ _). Qed.

Definition ports_ready (k : kst) : system D := (init_x86 (stubs_at img) (IDT_at img) (IDT k) (Com1.init (sys k)).2).2.

Lemma early_before_hal (k : kst) : exists c0 c,
  kmain_early img q fuel k = bind (hal_init q) (fun _ => after_hal)
    (before_hal (init_frames_x86 (boot k) (Limine.memmap (sys_ram (ports_ready k)) q) (kernel_end_at img) (pool k) c0).1 c k).
Proof.
  eexists _, _. unfold kmain_early. rewrite (bind_val _ _ _ _ _ (on_sys_val _ _)). unfold klog.
  rewrite (bind_val (fun k => kmap _ k) _ _ tt _ eq_refl).
  rewrite (bind_val (init_tables img) _ _ tt _ eq_refl).
  rewrite (bind_val (init_interrupts img) _ _ tt _ eq_refl).
  rewrite (bind_val (kline _) _ _ tt _ (kline_val _ _)).
  rewrite (bind_val (init_heap) _ _ tt _ eq_refl).
  rewrite (bind_val (init_frames img q) _ _ tt _ (init_frames_val _)).
  rewrite (bind_val (kline _) _ _ tt _ (kline_val _ _)).
  reflexivity.
Qed.

Definition acpi_of (k : kst) : option MadtData :=
  acpi_init (kmem k) (X86.phys_to_virt (HHDM k)) (Limine.rsdp (kmem k) q) (Limine.loaded_base_revision q) (MADT k).
Definition processors_of (d : MadtData) (k : kst) : Result unit stop * system D :=
  start_aps (HHDM k) fuel (TRAMPOLINE_BLOB img) (rust_ap_entry_at img) d (sys k).

Lemma hal_init_cases (k : kst) : exists c, hal_init q k =
  match acpi_of k with Some d => (Val tt, set_uart c (set_madt d k)) | None => (NoFuel, set_uart c k) end.
Proof.
  eexists. unfold hal_init, klog. rewrite (bind_val _ _ _ _ _ (kmap_val _ _)). unfold acpi_of, kmem. cbn [sys set_uart HHDM MADT].
  destruct (acpi_init _ _ _ _ _); reflexivity.
Qed.

Lemma start_processors_cases (k : kst) : start_processors img fuel k =
  match processors_of (MADT k) k with
  | (Ok _, s) => (Val tt, set_sys s k)
  | (Err WaitsForever, s) => (NoFuel, set_sys s k)
  | (Err _, s) => (Panicked, set_sys s k)
  end.
Proof.
  unfold start_processors, processors_of, bind, on_sys. destruct (start_aps _ _ _ _ _ _) as [[[]|[]] s]; reflexivity.
Qed.

(** Reclaiming, the low half, and interrupts on. *)
Definition finished (c : list Z) (k : kst) : kst :=
  let p := reclaim_boot_memory (Limine.memmap (kmem k) q) (pool k) in
  let m := unmap_low_half_identity_map (Machine (kmem k) p (HHDM k) (cr3 k) 0) in
  set_uart c (set_interrupts true (set_sys (Com1.enable_interrupts (set_sys_ram (mem m) (sys k))).2 (set_pool p k))).

Lemma after_processors (k : kst) : exists c,
  bind (reclaim q) (fun _ => bind unmap_low_half (fun _ => bind enable_interrupts (fun _ => kline "mitosOS: kernel_main reached. Boot OK."))) k =
  (Val tt, finished c k).
Proof.
  eexists. unfold reclaim, unmap_low_half. rewrite (bind_val _ _ _ _ _ (kmap_val _ _)), (bind_val _ _ _ _ _ (kmap_val _ _)).
  unfold enable_interrupts at 1. erewrite bind_val; [|rewrite (bind_val _ _ _ _ _ (on_sys_val _ _)); apply kmap_val].
  rewrite kline_val. reflexivity.
Qed.

(** The whole run: two of its steps may fail to return, before interrupts are on. *)
Lemma early_cases (k : kst) : exists c0 c c1 c2, 
  let k1 := before_hal (init_frames_x86 (boot k) (Limine.memmap (sys_ram (ports_ready k)) q) (kernel_end_at img) (pool k) c0).1 c k in
  kmain_early img q fuel k =
  match acpi_of k1 with
  | None => (NoFuel, set_uart c1 k1)
  | Some d =>
      let k2 := set_uart c1 (set_madt d k1) in
      match processors_of d k2 with
      | (Ok _, s) => (Val tt, finished c2 (set_sys s k2))
      | (Err WaitsForever, s) => (NoFuel, set_sys s k2)
      | (Err _, s) => (Panicked, set_sys s k2)
      end
  end.
Proof.
  destruct (early_before_hal k) as (c0 & c & E). set (k1 := before_hal _ c k) in E.
  destruct (hal_init_cases k1) as [c1 E1]. destruct (acpi_of k1) as [d|] eqn:Ea.
  - set (k2 := set_uart c1 (set_madt d k1)) in E1. pose proof (start_processors_cases k2) as E2. change (MADT k2) with d in E2.
    destruct (processors_of d k2) as [r s] eqn:Ep. destruct (after_processors (set_sys s k2)) as [c2 E3].
    exists c0, c, c1, c2. cbv zeta. fold k1. rewrite Ea. fold k2. rewrite Ep, E. rewrite (bind_val _ _ _ _ _ E1). unfold after_hal.
    destruct r as [[]|e]; [by rewrite (bind_val _ _ _ _ _ E2), E3|]. unfold bind at 1. rewrite E2. by destruct e.
  - exists c0, c, c1, c. cbv zeta. fold k1. rewrite Ea, E. unfold bind. by rewrite E1.
Qed.

Lemma acpi_before_hal p c (k : kst) : acpi_of (before_hal p c k) = acpi_of k.
Proof.
  unfold acpi_of, before_hal, kmem. cbn [sys HHDM MADT]. by rewrite init_x86_ram.
Qed.

(** Nothing of the low half translates any more. *)
Lemma finished_low c (k : kst) v : 0 <= v < 2 ^ 39 ->
  translate_addr (A := x86_64) (Z.land (cr3 k) (not64 0xFFF)) v (kvm (finished c k)) = None.
Proof.
  intros Hv. unfold translate_addr. assert (table_idx v 39 = 0) as ->.
  { rewrite table_idx_div by lia. by rewrite Z.div_small by lia. }
  assert (kmem (finished c k) = write_u64 (kmem k) (X86.phys_to_virt (HHDM k) (Z.land (cr3 k) (not64 0xFFF))) 0) as Em.
  { unfold kmem at 1, finished, Com1.enable_interrupts, act_bind, effect. cbn [sys set_uart set_interrupts set_sys set_pool snd].
    pose proof (inb_ram (Com1.COM1 + 1)) as Hin. destruct (Ports.inb (Com1.COM1 + 1) _) as [cur s] eqn:Ei. cbn [snd].
    rewrite outb_ram. change s with (cur, s).2. rewrite <- Ei, inb_ram. reflexivity. }
  unfold kvm. rewrite Em. cbn [mem hhdm]. change (HHDM (finished c k)) with (HHDM k). unfold entry_ptr. rewrite Z.mul_0_r, Z.add_0_r.
  cbn [p2v x86_64]. by rewrite read_write_u64 by done.
Qed.

Lemma before_hal_ready p c c1 c2 d s (k : kst) : image_ok -> fresh k ->
  ready (finished c2 (set_sys s (set_uart c1 (set_madt d (before_hal p c k))))).
Proof.
  intros (Hst & Htss & Hd0 & Hd1) (Ht & Hi & Hh & _ & _). split.
  - change (tables_ready (GDT_at img) (TSS_at img) (DOUBLE_FAULT_STACK_at img + DF_STACK_SIZE)
      (Gdt.init (GDT_at img) (TSS_at img) (DOUBLE_FAULT_STACK_at img) (cpu_tables k) (segments k)).1
      (Gdt.init (GDT_at img) (TSS_at img) (DOUBLE_FAULT_STACK_at img) (cpu_tables k) (segments k)).2).
    rewrite Ht. unfold Gdt.init. pose proof (load_tables_ready (GDT_at img) (TSS_at img) (DOUBLE_FAULT_STACK_at img) DF_STACK_SIZE (segments k)) as H.
    destruct (load_tables _ _ _ _ _ _) as [t' s']. apply H; [done|done|done|done].
  - change (IDT (finished c2 _)) with (install_gates (stubs_at img) (IDT k)). rewrite Hi.
    split_and!; [by unfold install_gates; rewrite !length_set_gate|reflexivity|intros v e; by apply install_gates_ok].
  - split; [reflexivity|]. change (HEAP_ALLOCATOR (finished c2 _)) with
      {| buckets := buckets (HEAP_ALLOCATOR k); heap_start := HEAP_START; heap_end := add64 HEAP_START HEAP_SIZE_x86; next_free_byte := HEAP_START |}.
    by rewrite Hh.
  - intros v Hv. exact (finished_low _ _ v Hv).
Qed.

End early.

(** ** To the shell *)
Section late.
Context {D : Type} `{!Cpu D} `{!PortIO (system D)} `{!Ahci.Hal D} `{!PortIO (Ahci.world D)}.
Context (img : image) (q : Limine.requests) (fuel : nat).
Context (identify_buf : Z) (debug_ahci_error : AhciError -> list Z) (lossy lower : list Z -> list Z) (stack_base : nat -> Z) (kernel_root : Z).
Abbreviation kst := (@kstate D).
Implicit Types k : kst.

(** What the stages between do not touch. *)
Definition core k : Info.state * PerCpu * Segments * list IdtEntry * (Z * Z) * bool :=
  (boot k, cpu_tables k, segments k, IDT k, idtr k, interrupts_on k).
Definition io_state k : @VirtualFileSystem RamBlockDevice * option Terminal * sched bitmap := (VFS k, WRITER k, tasks k).

(** A stage that always returns and changes neither. *)
Definition passes {A} (c : io kst A) : Prop := forall k, exists a k', c k = (Val a, k') /\ core k' = core k /\ io_state k' = io_state k.

Lemma passes_bind {A B} (c : io kst A) (f : A -> io kst B) k : passes c ->
  exists a k', core k' = core k /\ io_state k' = io_state k /\ bind c f k = f a k'.
Proof. intros Hc. destruct (Hc k) as (a & k' & E & Hk & Hf). exists a, k'. split_and!; [done|done|by apply bind_val]. Qed.

(** The next stage of the run is one that passes. *)
Ltac pass H k' :=
  match goal with
  | |- context [bind ?c ?f ?k] => destruct (passes_bind c f k H) as (? & k' & ?C & ?F & ->)
  end.

Lemma passes_sys {A} (c : act (system D) A) : passes (on_sys c).
Proof. intros k. rewrite on_sys_val. by eexists _, _. Qed.
Lemma passes_list_pci : passes list_pci.
Proof. intros k. unfold list_pci. rewrite (bind_val _ _ _ _ _ (on_sys_val _ _)). by eexists _, _. Qed.
Lemma passes_take_frame : passes take_frame.
Proof. intros k. unfold take_frame, on_kvm. destruct (log_first_frame _ _). by eexists _, _. Qed.
Lemma passes_start_ahci : passes (start_ahci identify_buf debug_ahci_error).
Proof.
  intros k. unfold start_ahci, bind, on_ahci. destruct (ahci_statics k) as [[base completion] pending].
  destruct (init_ahci_devices _ _ _ _). by eexists _, _.
Qed.
Lemma passes_mount_disk : passes (mount_disk fuel lossy lower).
Proof. intros k. unfold mount_disk. rewrite (proj1 (ram_disks_skipped lossy lower fuel (uart k))). by eexists _, _. Qed.

(** The disk probe returns, whatever is on the console. *)
Definition disk_answers : Prop := forall con (s : system D), (probe_ata lossy lower fuel (con, s)).1 = Val tt.
Lemma passes_try_ata : disk_answers -> passes (try_ata fuel lossy lower).
Proof.
  intros Hd k. unfold try_ata. specialize (Hd (uart k) (sys k)). destruct (probe_ata _ _ _ _) as [r [con s]]. cbn [fst] in Hd. subst r.
  by eexists _, _.
Qed.

Definition screen_of (info : Info.state) : Framebuffer :=
  let '(addr, w, h, pitch, _) := fb_parameters info in mkFramebuffer addr w h pitch.

Lemma start_screen_returns inited k : fb_ok (screen_of (boot k)) ->
  exists t k', start_screen inited k = (Val tt, k') /\ core k' = core k /\ io_state k' = (VFS k, Some t, tasks k) /\ terminal_ok t.
Proof.
  intros Hfb. unfold start_screen, bind, on_kvm. unfold screen_of in Hfb.
  assert ((init_framebuffer (boot k) (kvm k) (uart k)).1.1 = (let '(addr, w, h, pitch, _) := fb_parameters (boot k) in mkFramebuffer addr w h pitch)) as E.
  { unfold init_framebuffer. destruct (fb_parameters (boot k)) as [[[[addr w] h] pitch] nm]. destruct nm; [|reflexivity].
    destruct (map_fb_pages _ _ _ _ _) as [[]]; reflexivity. }
  rewrite <- E in Hfb. destruct (init_framebuffer (boot k) (kvm k) (uart k)) as [[fb m] con]. cbn [fst] in Hfb.
  destruct (boot_screen_shows fb inited (kmem (set_uart con (set_kvm m k))) Hfb) as (t & _ & m' & -> & Ht & _).
  by eexists _, _.
Qed.

Lemma open_initrd_returns k : exists inited k', open_initrd img k = (Val inited, k') /\ core k' = core k /\
  io_state k' = (match inited with Some f => vfs_mount (bytes_of "/") (TarFsAdapter f) (VFS k) | None => VFS k end, WRITER k, tasks k).
Proof.
  unfold open_initrd. destruct (find_initrd _ _ _ _) as [[f|] con]; eexists _, _; (split; [reflexivity|]); done.
Qed.

(** From any state in which interrupts have just been enabled, the rest of the boot returns
    to call the shell, with what it established before kept. *)
Lemma late_returns k : fb_ok (screen_of (boot k)) -> disk_answers ->
  exists inited t m k', kmain_late img fuel identify_buf debug_ahci_error lossy lower stack_base kernel_root k = (Val inited, k') /\
    core k' = core k /\ terminal_ok t /\
    io_state k' = (match inited with Some f => vfs_mount (bytes_of "/") (TarFsAdapter f) (VFS k) | None => VFS k end, Some t,
      spawn_workers stack_base kernel_root (background_worker_at img) (background_worker_2_at img) (with_vm m (tasks k))).
Proof.
  intros Hfb Hd. unfold kmain_late. pass passes_list_pci k1. pass passes_take_frame k2. pass passes_start_ahci k3.
  destruct (open_initrd_returns k3) as (inited & k4 & E4 & C4 & F4). rewrite (bind_val _ _ _ _ _ E4).
  assert (boot k4 = boot k) as Eb by (unfold core in *; congruence).
  destruct (start_screen_returns (match inited with Some _ => true | None => false end) k4) as (t & k5 & E5 & C5 & F5 & Ht); [by rewrite Eb|].
  rewrite (bind_val _ _ _ _ _ E5). pass (passes_sys timer_init) k6. pass passes_mount_disk k7. pass (passes_try_ata Hd) k8.
  exists inited, t, (kvm k8). eexists. split; [reflexivity|].
  assert (core k8 = core k) as Ec by congruence. split; [exact Ec|]. split; [done|].
  assert (io_state k8 = (match inited with Some f => vfs_mount (bytes_of "/") (TarFsAdapter f) (VFS k) | None => VFS k end, Some t, tasks k)) as Ef.
  { unfold io_state in *. destruct inited; congruence. }
  unfold io_state in Ef. injection Ef as Ev Ew Et. unfold io_state. cbn [VFS WRITER tasks set_tasks set_kvm set_kmem set_sys set_pool]. by rewrite Ev, Ew, Et.
Qed.

Context (inb_ram : forall port (s : system D), sys_ram (Ports.inb port s).2 = sys_ram s)
  (outb_ram : forall port v (s : system D), sys_ram (outb port v s) = sys_ram s).

(** The state with the boot information stored. *)
Definition informed (info : Info.state) k : kst := set_hhdm (Info.HHDM_OFFSET info) (set_boot info k).

End late.

(** ** A concrete boot: one processor, no ACPI tables, one usable entry in the memory map *)
#[local] Instance quiet_cpu : Cpu unit := {|
  rdmsr _ := done 0; wrmsr _ _ s := s; cpuid_ecx1 := done 0; reg_load _ := done 0; reg_store _ _ s := s; read_cr3 := done 0x1000;
  read_segments := done demo_segments; load_segments _ s := s; lidt _ s := s; vec_zeroed _ := done None
|}.
#[local] Instance quiet_ports : PortIO (system unit) := {|
  Ports.inb _ := done 0; outb _ _ s := s; inw _ := done 0; outw _ _ s := s; inl _ := done 0; outl _ _ s := s
|}.

Definition quiet_image : image :=
  mkImage 0xFFFFFFFF80201000 0xFFFFFFFF80202000 0xFFFFFFFF80203000 0xFFFFFFFF80100000 demo_stubs 0xffffffff80040000 [] 0xFFFFFFFF80001900 []
    0xFFFFFFFF80001A00 0xFFFFFFFF80001B00.
Definition quiet_requests : Limine.requests := Limine.mkRequests 0 0 0 0 0 0x5000 0 0.
(** The response at 0x5000, its array at 0x6000, the entry at 0x7000. *)
Definition quiet_ram : mem_t :=
  fold_left (fun m p => write_u64 m (fst p) (snd p))
    [(0x5008, 1); (0x5010, 0x6000); (0x6000, 0x7000); (0x7000, 0x200000); (0x7008, 0x10000)] (fun _ => 0).
Definition quiet_kstate : @kstate unit :=
  mkKstate [] Info.initial PerCpu_new demo_segments IDT_initial (0, 0) FastBlockAllocator_new false PHYSICAL_PMM 0xFFFF800000000000 0x1000
    MadtData_empty (System 0 false [] 1 [] quiet_ram tt) false (0, [], 0) VirtualFileSystem_new (RamBlockDevice_new 256) None
    (boot_sched (Machine quiet_ram PHYSICAL_PMM 0xFFFF800000000000 0x1000 0)).


#[local] Instance quiet_hal : Ahci.Hal unit := {|
  reg_read _ := done 0; reg_write _ _ w := w; map_mmio a _ := done a; alloc_dma _ := done None; virt_to_phys a := Some a; wait_micros _ w := w
|}.
#[local] Instance quiet_world_ports : PortIO (Ahci.world unit) := {|
  Ports.inb _ := done 0; outb _ _ s := s; inw _ := done 0; outw _ _ s := s; inl _ := done 0; outl _ _ s := s
|}.

Lemma quiet_inb port (s : system unit) : sys_ram (Ports.inb port s).2 = sys_ram s.
Proof. reflexivity. Qed.
Lemma quiet_outb port v (s : system unit) : sys_ram (outb port v s) = sys_ram s.
Proof. reflexivity. Qed.

