(* ===== verification/KmainA64.v ===== *)
(** `kmain` (src/src/main.rs) on AArch64: the stages of [Main], [Interrupts], [UartDev] and
    [Vmm] in the order of the code, and what state the shell is called in. *)
From S2P Require Import Prelude Ports Pmm Vmm VmmTheory VmmCorrect MmuCorrect Heap Uart UartDev Block Fat32 Vfs Task TaskCorrect Shell Interrupts Main MainCorrect.
#[local] Open Scope kernel_scope.

(** What the linker and the build put into the image. *)
Record image_a64 := mkImageA64 {
  exception_vector_table_at : Z; kernel_end_a64 : Z; RAW_TAR_a64 : list Z; worker_a64 : Z; worker_2_a64 : Z }.

Section kmain.
Context {M : Type} `{!Mmio M}.

(** The statics, the system registers the boot code sets, memory with the frame pool and
    TTBR0_EL1 ([machine_a64]), and the device registers. *)
Record astate := mkAstate {
  console : list Z; devices : M;
  VBAR_EL1 : Z; timer_a64 : generic_timer;
  heap_a64 : FastBlockAllocator; heap_ready_a64 : bool;
  machine_a64 : machine bitmap; KERNEL_ROOT : Z;
  MAIR_EL1 : Z; TCR_EL1 : Z; SCTLR_EL1 : Z; irq_unmasked : bool;
  VFS_a64 : @VirtualFileSystem RamBlockDevice; disk_a64 : RamBlockDevice;
  tasks_a64 : sched bitmap }.

Definition set_console (c : list Z) (k : astate) : astate :=
  mkAstate c (devices k) (VBAR_EL1 k) (timer_a64 k) (heap_a64 k) (heap_ready_a64 k) (machine_a64 k) (KERNEL_ROOT k)
    (MAIR_EL1 k) (TCR_EL1 k) (SCTLR_EL1 k) (irq_unmasked k) (VFS_a64 k) (disk_a64 k) (tasks_a64 k).
Definition set_devices (d : M) (k : astate) : astate :=
  mkAstate (console k) d (VBAR_EL1 k) (timer_a64 k) (heap_a64 k) (heap_ready_a64 k) (machine_a64 k) (KERNEL_ROOT k)
    (MAIR_EL1 k) (TCR_EL1 k) (SCTLR_EL1 k) (irq_unmasked k) (VFS_a64 k) (disk_a64 k) (tasks_a64 k).
Definition set_vectors (v : Z) (t : generic_timer) (k : astate) : astate :=
  mkAstate (console k) (devices k) v t (heap_a64 k) (heap_ready_a64 k) (machine_a64 k) (KERNEL_ROOT k)
    (MAIR_EL1 k) (TCR_EL1 k) (SCTLR_EL1 k) (irq_unmasked k) (VFS_a64 k) (disk_a64 k) (tasks_a64 k).
Definition set_heap_a64 (h : FastBlockAllocator) (b : bool) (k : astate) : astate :=
  mkAstate (console k) (devices k) (VBAR_EL1 k) (timer_a64 k) h b (machine_a64 k) (KERNEL_ROOT k)
    (MAIR_EL1 k) (TCR_EL1 k) (SCTLR_EL1 k) (irq_unmasked k) (VFS_a64 k) (disk_a64 k) (tasks_a64 k).
Definition set_machine (m : machine bitmap) (k : astate) : astate :=
  mkAstate (console k) (devices k) (VBAR_EL1 k) (timer_a64 k) (heap_a64 k) (heap_ready_a64 k) m (KERNEL_ROOT k)
    (MAIR_EL1 k) (TCR_EL1 k) (SCTLR_EL1 k) (irq_unmasked k) (VFS_a64 k) (disk_a64 k) (tasks_a64 k).
Definition set_mmu (root mair tcr sctlr : Z) (k : astate) : astate :=
  mkAstate (console k) (devices k) (VBAR_EL1 k) (timer_a64 k) (heap_a64 k) (heap_ready_a64 k) (machine_a64 k) root
    mair tcr sctlr (irq_unmasked k) (VFS_a64 k) (disk_a64 k) (tasks_a64 k).
Definition set_irq (b : bool) (k : astate) : astate :=
  mkAstate (console k) (devices k) (VBAR_EL1 k) (timer_a64 k) (heap_a64 k) (heap_ready_a64 k) (machine_a64 k) (KERNEL_ROOT k)
    (MAIR_EL1 k) (TCR_EL1 k) (SCTLR_EL1 k) b (VFS_a64 k) (disk_a64 k) (tasks_a64 k).
Definition set_vfs_a64 (v : @VirtualFileSystem RamBlockDevice) (d : RamBlockDevice) (k : astate) : astate :=
  mkAstate (console k) (devices k) (VBAR_EL1 k) (timer_a64 k) (heap_a64 k) (heap_ready_a64 k) (machine_a64 k) (KERNEL_ROOT k)
    (MAIR_EL1 k) (TCR_EL1 k) (SCTLR_EL1 k) (irq_unmasked k) v d (tasks_a64 k).
Definition set_tasks_a64 (t : sched bitmap) (k : astate) : astate :=
  mkAstate (console k) (devices k) (VBAR_EL1 k) (timer_a64 k) (heap_a64 k) (heap_ready_a64 k) (machine_a64 k) (KERNEL_ROOT k)
    (MAIR_EL1 k) (TCR_EL1 k) (SCTLR_EL1 k) (irq_unmasked k) (VFS_a64 k) (disk_a64 k) t.

Definition aline (s : list Z) (k : astate) : astate := set_console (log_line s (console k)) k.
Definition on_devices (c : act M unit) (k : astate) : astate := set_devices (c (devices k)).2 k.

(** [mmfr0] is what ID_AA64MMFR0_EL1 reads as. *)
Context (img : image_a64) (mmfr0 : Z) (from_utf8_lossy to_lowercase : list Z -> list Z) (fuel : nat) (stack_base : nat -> Z).

(** `interrupts::imp::init`, `init_aarch64_timer` and `interrupts::init`. *)
Definition imp_init_a64 (k : astate) : astate := set_vectors (exception_vector_table_at img) (timer_a64 k) k.
Definition init_aarch64_timer (k : astate) : astate := set_vectors (VBAR_EL1 k) (timer_init_aarch64 (timer_a64 k)) k.
Definition interrupts_init_a64 (k : astate) : astate :=
  let k := imp_init_a64 k in
  let k := on_devices init_gic_timer_irq k in
  init_aarch64_timer k.

Definition init_heap_a64 (k : astate) : astate :=
  let h := init_memory_subsystem HEAP_START HEAP_SIZE_aarch64 (Heap (heap_a64 k) (heap_ready_a64 k) (mem (machine_a64 k))) in
  set_heap_a64 (fba h) (INITIALIZED h) k.

Definition init_frames_a64 (k : astate) : astate :=
  set_machine (with_pmm (init_frames_aarch64 (kernel_end_a64 img) (pmm (machine_a64 k))) (machine_a64 k)) k.

(** `mmu::init` with its log and the registers it sets; without a frame for the root table
    it stays in a loop. *)
Definition mmu_start : io astate unit := fun k =>
  let k := aline (bytes_of "mitosOS: MMU bring-up starting...") k in
  match mmu_init (machine_a64 k) with
  | None => (NoFuel, aline (bytes_of "mitosOS: MMU init FAILED -- out of memory for the root table.") k)
  | Some (root, m) =>
      let k := aline (bytes_of "mitosOS: MMU identity map built (" ++ dec (KERNEL_IDENTITY_MAP_SIZE / (1024 * 1024)) ++
                      bytes_of " MiB kernel RAM + MMIO). Enabling...") k in
      let k := set_machine m k in
      let k := set_mmu root 0xFF (mmu_tcr (read_pa_range_bits mmfr0)) (mmu_sctlr (SCTLR_EL1 k)) k in
      (Val tt, aline (bytes_of "mitosOS: MMU enabled (TTBR0_EL1 = 0x" ++ hex root ++ bytes_of ").") k)
  end.

Definition enable_interrupts_a64 (k : astate) : astate := set_irq true (on_devices Pl011.enable_interrupts k).

Definition first_frame_a64 (k : astate) : astate :=
  let '(m, con) := log_first_frame (machine_a64 k) (console k) in set_console con (set_machine m k).

Definition open_initrd_a64 : io astate (option TarFileSystem) := fun k =>
  let inited := TarFileSystem_new (RAW_TAR_a64 img) in
  let '(vfs, con) := mount_initrd inited (VFS_a64 k) (console k) in
  (Val inited, set_console con (set_vfs_a64 vfs (disk_a64 k) k)).

(** What becomes of the outcome of `mount_ram_fat`. *)
Definition mounted_a64 (o : res (option (Fat32Geometry * RamBlockDevice)) * list Z) : io astate unit := fun k =>
  let k := set_console o.2 k in
  match o.1 with
  | Val (Some (g, d)) =>
      (Val tt, set_vfs_a64 (vfs_mount (bytes_of "/disk") (Fat32Adapter from_utf8_lossy to_lowercase g fuel) (VFS_a64 k)) d k)
  | Val None => (Val tt, k)
  | Fail e => (Fail e, k)
  | Panicked => (Panicked, k)
  | NoFuel => (NoFuel, k)
  end.

Definition mount_disk_a64 : io astate unit := fun k => mounted_a64 (mount_ram_fat (console k)) k.

Definition probe_disk_a64 : io astate unit := fun k =>
  let o := probe_ram_disk from_utf8_lossy to_lowercase fuel (console k) in (o.1, set_console o.2 k).

Definition start_workers_a64 (k : astate) : astate :=
  let s := spawn_workers (KA := kernel_aarch64) stack_base (KERNEL_ROOT k) (worker_a64 img) (worker_2_a64 img) (with_vm (machine_a64 k) (tasks_a64 k)) in
  set_tasks_a64 s (set_machine (vm s) k).

Definition amap (f : astate -> astate) : io astate unit := fun k => (Val tt, f k).

(** What follows the start of the MMU; it returns what `shell::run` is called with. *)
Definition kmain_late_a64 : io astate (option TarFileSystem) :=
  _ <~ amap (aline (bytes_of "[boot] 3: mmu::init() returned"));
  _ <~ amap enable_interrupts_a64;
  _ <~ amap (aline (bytes_of "mitosOS: kernel_main reached. Boot OK."));
  _ <~ amap first_frame_a64;
  inited <~ open_initrd_a64;
  _ <~ mount_disk_a64;
  _ <~ probe_disk_a64;
  _ <~ amap start_workers_a64;
  ret inited.

Definition kmain_aarch64 : io astate (option TarFileSystem) :=
  _ <~ amap (on_devices Pl011.init);
  _ <~ amap (aline (bytes_of "[boot] 0: kmain reached, uart live"));
  _ <~ amap interrupts_init_a64;
  _ <~ amap (aline (bytes_of "[boot] 1: interrupts::init() returned"));
  _ <~ amap init_heap_a64;
  _ <~ amap init_frames_a64;
  _ <~ amap (aline (bytes_of "[boot] 2: memory subsystem + protect_boot_memory done"));
  _ <~ mmu_start;
  kmain_late_a64.
End kmain.

(** ** The frames the image leaves *)
Lemma boot_pool_a64 ke : 0 <= ke <= 0x1FC0000 ->
  let p := init_frames_aarch64 ke PHYSICAL_PMM in
  pmm_ok p /\ 64 <= free_below mapped_frames p /\
  forall g, 0 <= g -> boot_protected 0 ke HEAP_START HEAP_SIZE_aarch64 None g = true -> used p g = true.
Proof.
  intros Hke. assert (boot_args_ok 0 ke HEAP_START HEAP_SIZE_aarch64 None) as Hargs.
  { unfold boot_args_ok, HEAP_START, HEAP_SIZE_aarch64. split_and!; lia. }
  unfold init_frames_aarch64. cbv zeta.
  pose proof (fun g => boot_pool_aarch64_exact 0 ke HEAP_START HEAP_SIZE_aarch64 g Hargs) as Hu.
  destruct (init_pmm_static_spec PHYSICAL_PMM (wf_new _)) as [Hwf _].
  destruct (protect_boot_memory_spec 0 ke HEAP_START HEAP_SIZE_aarch64 None _ Hwf Hargs) as (Hwf' & Hlen & _).
  assert (length (init_pmm_static PHYSICAL_PMM) = PMM_WORDS) as El.
  { unfold init_pmm_static. rewrite length_free_range. apply length_replicate. }
  rewrite El in Hlen. clear El Hwf. revert Hu Hwf' Hlen. generalize (protect_boot_memory 0 ke HEAP_START HEAP_SIZE_aarch64 None (init_pmm_static PHYSICAL_PMM)).
  intros p Hu Hwf' Hlen.
  assert (forall g, 0 <= g -> boot_protected 0 ke HEAP_START HEAP_SIZE_aarch64 None g = true -> used p g = true) as Hprot.
  { intros g Hg E. destruct (used p g) eqn:Eu; [done|]. apply Hu in Eu as [_ Eu]; [congruence|done]. }
  split_and!; [split_and!; [exact Hwf'|by apply Hprot|unfold Pmm.frames; rewrite Hlen; vm_compute; congruence]|apply (free_below_top mapped_frames 64)|exact Hprot].
  - pose proof mapped_frames_eq. lia.
  - intros g Hg. rewrite mapped_frames_eq in Hg. apply Hu; [lia|]. split; [lia|]. unfold boot_protected, HEAP_START, HEAP_SIZE_aarch64.
    change (Z.of_nat 64) with 64 in Hg. zcases; try done; exfalso; dlia.
Qed.

Section boot.
Context {M : Type} `{!Mmio M}.
Context (img : image_a64) (mmfr0 : Z) (lossy lower : list Z -> list Z) (fuel : nat) (stack_base : nat -> Z).
Abbreviation kst := (@astate M).

(** The image's statics, before anything has run. *)
Definition fresh_a64 (k : kst) : Prop :=
  mem_ok (mem (machine_a64 k)) /\ pmm (machine_a64 k) = PHYSICAL_PMM /\ hhdm (machine_a64 k) = 0 /\ heap_a64 k = FastBlockAllocator_new /\
  VFS_a64 k = VirtualFileSystem_new /\ irq_unmasked k = false.

Lemma bind_amap {A} (f : kst -> kst) (c : unit -> io kst A) k : bind (amap f) c k = c tt (f k).
Proof. reflexivity. Qed.

(** What the steps after the MMU is on leave alone. *)
Definition settled (k : kst) :=
  (VBAR_EL1 k, timer_a64 k, heap_a64 k, heap_ready_a64 k, KERNEL_ROOT k, SCTLR_EL1 k,
   mem (machine_a64 k), hhdm (machine_a64 k), root_reg (machine_a64 k)).

Lemma mount_disk_skipped (k : kst) : exists con, mount_disk_a64 lossy lower fuel k = (Val tt, set_console con k).
Proof.
  unfold mount_disk_a64. rewrite (proj1 (ram_disks_skipped lossy lower fuel (console k))). eexists. cbn [mounted_a64 fst snd]. reflexivity.
Qed.

Lemma probe_disk_skipped (k : kst) : exists con, probe_disk_a64 lossy lower fuel k = (Val tt, set_console con k).
Proof.
  unfold probe_disk_a64. rewrite (proj2 (ram_disks_skipped lossy lower fuel (console k))). eexists. cbn [fst snd]. reflexivity.
Qed.

Lemma bind_mount {A} (c : unit -> io kst A) k : exists con, bind (mount_disk_a64 lossy lower fuel) c k = c tt (set_console con k).
Proof. destruct (mount_disk_skipped k) as (con & E). exists con. exact (bind_val _ c k tt _ E). Qed.

Lemma bind_probe {A} (c : unit -> io kst A) k : exists con, bind (probe_disk_a64 lossy lower fuel) c k = c tt (set_console con k).
Proof. destruct (probe_disk_skipped k) as (con & E). exists con. exact (bind_val _ c k tt _ E). Qed.

Lemma open_initrd_a64_val (k : kst) : exists con,
  open_initrd_a64 img k = (Val (TarFileSystem_new (RAW_TAR_a64 img)),
    set_console con (set_vfs_a64 (match TarFileSystem_new (RAW_TAR_a64 img) with Some f => vfs_mount (bytes_of "/") (TarFsAdapter f) (VFS_a64 k) | None => VFS_a64 k end)
      (disk_a64 k) k)).
Proof. unfold open_initrd_a64. destruct (TarFileSystem_new (RAW_TAR_a64 img)); eexists; reflexivity. Qed.

Lemma first_frame_val (k : kst) : exists con p, first_frame_a64 k = set_console con (set_machine (with_pmm p (machine_a64 k)) k).
Proof. unfold first_frame_a64, log_first_frame. destruct (fa_alloc (pmm (machine_a64 k))) as [[f|] p]; eexists _, p; reflexivity. Qed.

Lemma spawn_shared_vm root e (s : sched bitmap) : vm (spawn (KA := kernel_aarch64) stack_base root e SharedThread 0 s).2 = vm s.
Proof.
  unfold spawn, register. destruct (find_slot (TASKS s) 0) as [i|]; [|reflexivity]. cbn [snd]. unfold install. destruct (negb _); reflexivity.
Qed.

Lemma workers_vm root w1 w2 (s : sched bitmap) : vm (spawn_workers (KA := kernel_aarch64) stack_base root w1 w2 s) = vm s.
Proof.
  unfold spawn_workers. pose proof (spawn_shared_vm root w1 s) as E1. destruct (spawn _ root w1 SharedThread 0 s) as [b1 s1].
  pose proof (spawn_shared_vm root w2 s1) as E2. destruct (spawn _ root w2 SharedThread 0 s1) as [b2 s2]. cbn [snd] in *. congruence.
Qed.

Lemma late_a64 (k : kst) : exists m k', kmain_late_a64 img lossy lower fuel stack_base k = (Val (TarFileSystem_new (RAW_TAR_a64 img)), k') /\
  settled k' = settled k /\ irq_unmasked k' = true /\
  VFS_a64 k' = match TarFileSystem_new (RAW_TAR_a64 img) with Some f => vfs_mount (bytes_of "/") (TarFsAdapter f) (VFS_a64 k) | None => VFS_a64 k end /\
  tasks_a64 k' = spawn_workers (KA := kernel_aarch64) stack_base (KERNEL_ROOT k) (worker_a64 img) (worker_2_a64 img) (with_vm m (tasks_a64 k)).
Proof.
  unfold kmain_late_a64. rewrite !bind_amap. destruct (first_frame_val (aline (bytes_of "mitosOS: kernel_main reached. Boot OK.")
    (enable_interrupts_a64 (aline (bytes_of "[boot] 3: mmu::init() returned") k)))) as (c1 & p & ->).
  destruct (open_initrd_a64_val (set_console c1 (set_machine (with_pmm p (machine_a64 (aline (bytes_of "mitosOS: kernel_main reached. Boot OK.")
    (enable_interrupts_a64 (aline (bytes_of "[boot] 3: mmu::init() returned") k)))))
    (aline (bytes_of "mitosOS: kernel_main reached. Boot OK.") (enable_interrupts_a64 (aline (bytes_of "[boot] 3: mmu::init() returned") k)))))) as (c2 & E2).
  rewrite (bind_val _ _ _ _ _ E2). clear E2.
  match goal with |- context [bind _ ?c ?k2] => destruct (bind_mount c k2) as (c3 & ->) end.
  match goal with |- context [bind _ ?c ?k3] => destruct (bind_probe c k3) as (c4 & ->) end.
  rewrite bind_amap. eexists (with_pmm p (machine_a64 k)), _. split; [reflexivity|].
  split; [|split; [reflexivity|split; reflexivity]]. unfold settled, start_workers_a64. cbn [machine_a64 set_tasks_a64 set_machine].
  rewrite workers_vm. reflexivity.
Qed.

Lemma page_0 : page 0.
Proof. by split. Qed.

Lemma mmu_start_val (k : kst) root m : mmu_init (machine_a64 k) = Some (root, m) ->
  exists con, mmu_start mmfr0 k =
    (Val tt, set_console con (set_mmu root 0xFF (mmu_tcr (read_pa_range_bits mmfr0)) (mmu_sctlr (SCTLR_EL1 k)) (set_machine m k))).
Proof.
  intros E. unfold mmu_start. change (machine_a64 (aline (bytes_of "mitosOS: MMU bring-up starting...") k)) with (machine_a64 k). rewrite E.
  eexists. reflexivity.
Qed.

End boot.

(** A board whose registers read as zero, with an image of 128 KiB and no archive. *)
#[local] Instance quiet_mmio : Mmio unit := {| mmio_read _ := done 0; mmio_write _ _ s := s |}.
Definition quiet_image_a64 : image_a64 := mkImageA64 0x81000 0xA0000 [] 0x82000 0x82100.
Definition quiet_astate : @astate unit :=
  mkAstate [] tt 0 (mkTimer 62500000 0 0) FastBlockAllocator_new false (Machine (fun _ => 0) PHYSICAL_PMM 0 0 0) 0 0 0 0x30D00800 false
    VirtualFileSystem_new (RamBlockDevice_new 256) (boot_sched demo_machine).

